(* ===== verification/_CoqProject ===== *)
-Q . S2P
Prelude.v
RustStd.v
Model.v
Config.v
ConfigSpec.v
ConfigWitness.v
Facade.v
Sqlite.v
SqliteSpec.v
SqliteOpen.v
Store.v
AllocationService.v
ServiceSpec.v
ServiceInv.v
ServiceMem.v
ServiceWitness.v
Serving.v
Netlink.v
NetlinkSpec.v
NetlinkServing.v
NetlinkBatch.v
NetlinkKernel.v
NetlinkExchange.v
NetlinkWitness.v
Metrics.v
Float64.v
Prometheus.v
PrometheusSpec.v
ControlPlane.v
ControlPlaneSpec.v
ControlPlaneInv.v
HttpWitness.v
Account.v
Tcp.v
TcpSpec.v
TcpQuiet.v
TcpAccount.v
TcpWitness.v
UdpModel.v
Udp.v
UdpSpec.v
UdpSteps.v
UdpProps.v
UdpLife.v
UdpAccount.v
UdpQuiet.v
UdpWitness.v
Real.v
RealServing.v
Views.v
Relays.v
RelaysWitness.v
TcpSplice.v
TcpFine.v
TcpFineSpec.v
TcpFineEnd.v
TcpFineViews.v
TcpFineWitness.v
UdpFine.v
UdpFineSpec.v
UdpFineProps.v
UdpFineCut.v
UdpFineStop.v
UdpFineViews.v
UdpFineRun.v
UdpFineWitness.v
Interrupted.v
Attended.v
RelaysInterrupted.v
Daemon.v
DaemonWitness.v
System.v
SystemWitness.v
HttpSystem.v
HttpSystemWitness.v
FineSystem.v
FineSystemWitness.v
