(* ===== verification/Prelude.v ===== *)
(** Verification of relayd, a daemon that forwards TCP and UDP ports to configured targets.

    - The program. An operator allocates ports and binds them to targets through an HTTP
    control plane (src/http/control_plane.rs). Its handlers call the allocation service
    (src/service/allocation_service.rs), which keeps two things in step: the SQLite
    repository of allocations (src/storage/sqlite.rs) and a runtime that forwards the
    traffic (the trait of src/runtime/facade.rs). There are three runtimes: an in-memory
    one, one that installs nftables DNAT rules through netlink (src/runtime/netlink.rs and
    netlink/maps.rs), and one that relays in user space (src/runtime/real.rs) over a TCP
    relay (src/runtime/tcp.rs) and a UDP relay (src/runtime/udp.rs). Counters
    (src/metrics.rs) and Prometheus rates (src/prometheus.rs) observe it; src/config.rs and
    src/bin/relayd.rs configure and start it.

    - The files. A component has a file for its data and operations, named as the code
    names them with the type in front ([Service_delete_allocation] is
    [Service::delete_allocation]), files for its theorems, and a file of witnesses that run
    it at concrete inputs.
      - Prelude: results, the state-and-error monad [M] of the whole development, its
        weakest preconditions [wp] with their rules, lists and automation. RustStd: what
        the sources use of Rust's standard library. Model: src/model.rs.
      - Config, ConfigSpec: environment and parsers.
      - Facade: the trait as the class [RuntimeFacade], its promises to the service as the
        class [RuntimeFacadeLaws], and the in-memory runtime.
      - Sqlite: the tables as finite maps, every SQL statement as a function on them,
        transactions, row decoding, opening and migrating a file. SqliteSpec: each
        repository operation is atomic; the query for a free port equals a linear scan.
        Store: the abstract store and the refinement of the statements. SqliteOpen:
        migration and file permissions.
      - AllocationService: every operation of the service. ServiceSpec: what each does on
        every branch. ServiceInv: invariants over all sequences of operations, for any
        runtime that keeps the trait's promises. ServiceMem: whole requests in memory.
        Serving: the class [RuntimeServes] of runtimes that forward what they were told,
        and over them the service: what is stored is what is served.
      - Netlink, NetlinkSpec: the runtime over any backend. NetlinkServing: it serves.
        NetlinkBatch: the messages of the library-backed backend, and the exchange with
        the kernel. NetlinkKernel: what they make a kernel do with a packet, whatever
        rules it had. NetlinkExchange: the exchange under a deadline.
      - Metrics, Float64, Prometheus, PrometheusSpec: counters, the binary64 arithmetic,
        rates and rendering.
      - ControlPlane: all handlers and the route table. ControlPlaneSpec: authentication,
        the table of errors. ControlPlaneInv: requests as operations of the service.
      - Tcp: listeners, accept and session tasks. TcpSpec: their structure in every
        reachable state. TcpQuiet: stopping. TcpAccount, over Account: exact counts.
        TcpSplice: the loop that moves a session's bytes over the polls of two splice
        contexts. TcpFine: the facade's operations lock by lock, the tasks running in
        between. TcpFineSpec: an operation that is let run is the one of Tcp, and the
        invariants at this grain. TcpFineEnd: how the sessions end that an operation told
        to stop. TcpFineViews: what a task can and cannot change of the operation under way.
      - UdpModel, Udp: the session table and the receive, reply and cleanup tasks. UdpSpec,
        UdpSteps: the invariant and its preservation. UdpProps, UdpLife, UdpAccount,
        UdpQuiet: whom datagrams and replies reach, expiry and updates, counts, deletion.
        UdpFine: the facade's operations lock by lock, as in TcpFine. UdpFineSpec: the
        invariant, with a [Window] for what an operation leaves open. UdpFineProps: what
        holds in the middle of an operation. UdpFineCut: what becomes of the reply tasks it
        aborts. UdpFineStop, UdpFineViews: what it has settled when it returns, and that
        the tasks do not disturb it. UdpFineRun: an operation that is let run is the one of
        Udp.
      - Real: the relaying runtime over any two relays with [ListenerLaws], and the trait's
        promises for it. RealServing: it serves if its relays are maps of listeners
        ([ListenerView]). Views: the two relays as such maps, which no event of a task
        changes. Relays: the laws for the two relays, and the runtime put together.
      - Interrupted: an operation of many steps as one function, with a schedule of the
        events that come before each step and a record of those that happened, and the
        class [Interruptible] of relays whose listeners such events do not change. Attended:
        the tasks of a listener run as long as it has its name, but for an error of its
        socket in that record, and where its next client goes. RelaysInterrupted: both
        relays are interruptible.
      - Daemon: command line and start, with all components composed.
      - System: the program from its start on, operations of the service interleaved with
        the relays' tasks. HttpSystem: the same program driven by HTTP requests.
        FineSystem: the same with the relays at the grain of single locks.

    - The theorems. End to end: in every state the daemon reaches, what the repository has
    stored is what is forwarded, by listeners whose tasks run (unless their socket failed)
    in proxy mode and by the kernel's rules in netlink mode, but for the changes the service did not confirm: over HTTP these are the
    ones a request was told were not applied (503), and a deletion answered by the
    repository's error stands apart. Safety of the data: ports of overlapping protocols
    are disjoint and in range in every reachable state, also through HTTP and with engine
    faults at any statement; persisted allocations stay tracked, and a start tracks all of
    them. Functional contracts on every branch, errors included, for the service, the
    migration, the rates. Refinement and equivalence: the tables refine an abstract store,
    requests refine service operations, relays refine the trait, the gap query a linear
    scan, the grouping of datagrams its reference. The kernel side: the batch sent to
    nftables replaces what the chain had and translates exactly the packets of the rules,
    and the chain is in sync unless the snapshot says it is stale. The relays, under every interleaving of tasks and
    operations, down to single locks: replies come only from the current target, or from
    one an update is just replacing, datagrams keep their own session, tables are bounded,
    counts are exact, a returned update has cut off the old target and deleted listeners
    stay stopped (but for one last reply of a task that was sending before its handle was
    stored), operations end and do what they do undisturbed, and sessions told to stop end.
    Termination: sending batches, and the kernel exchange once the clock passes its
    deadline, as no call on the socket is made without a timeout, unless less than a
    microsecond was left. Some theorems show defects: a failing database after a
    deletion, one failing accept or receive, an update that misses a client, an update
    that cuts off a client it should keep (in both relays), a reply task whose handle comes
    too late, so that it lingers or sends a last reply of the old target, a timeout below a
    microsecond, transfer directions of TCP.

    - Steps. Operations that hold a lock for their whole length (the service's mutating
    ones, those of the netlink runtime) are one step. The tasks of the relays advance by
    events between two suspension points, and interleave freely with one another and with
    the facade's operations. An operation of a relay's facade is one step in Tcp and Udp,
    and a step per lock it takes in TcpFine and UdpFine, so too in the requests of
    FineSystem ([run] of Daemon says which by its argument [attach]); at most one is
    under way, as the service calls the facade under its mutation lock, and once called it
    runs to its end (a handler dropped when its client goes away is not modelled). Shared
    objects ([Arc]) live in heaps and are named by references, so aliasing is explicit; a
    UDP session is dropped when nothing holds it any more. Coarser than the code are two
    events: a run of the UDP cleanup is one step, though it lets go of the table's lock
    between two removals, and a failed connect of a TCP session writes the state and closes
    the client in one.

    - Bounds and fuel. Integers are [Z] with the wrapping, saturating or checked operation
    the code uses. The search for a free port has fuel for every port from the
    start of the range on, as each turn goes on from a greater one;
    the receive loop of the netlink exchange has fuel, and its theorem says how much is
    enough once the clock passes the deadline; [send_batch] has fuel for one call per
    message and a last one, which is enough for every kernel; an operation of a relay with
    interruptions has as much as the listeners to stop and the sessions drained ask for
    ([rank] and [budget]), and [operate_run] proves that it returns.

    - Parameters. The SQL engine's faults, the clock, the identifier generator (src/uuid.rs
    calls a library), libnftnl, libmnl and the kernel, sockets and their answers, the
    libraries of HTTP and JSON. What is relied on of them is a named hypothesis or a class
    with laws, and each has an instance in a witness.

    - Not modelled. What a splice context and tokio's copy_bidirectional do with a TCP
    session's bytes, and the system calls of batched UDP (they answer through events);
    capacities of hash tables, hence the effect of shrinking them; the counters as one
    object shared by the relays (each relay has its own copy, and Metrics covers any
    interleaving on one cell); logging; the HTTP serving loop and signals; tests, scripts
    and packaging.*)
From stdpp Require Import base gmap strings list.
From Stdlib Require Import ZArith Lia.
Open Scope Z_scope.

(** * Results and the state-and-error monad *)

(** Rust's [Result<A, E>]. *)
Inductive result (A E : Type) : Type :=
| Ok (a : A)
| Err (e : E).
Arguments Ok {A E} a.
Arguments Err {A E} e.

Definition map_err {A E F} (f : E → F) (r : result A E) : result A F :=
  match r with Ok a => Ok a | Err e => Err (f e) end.

Definition ok_or {A E} (e : E) (o : option A) : result A E :=
  match o with Some a => Ok a | None => Err e end.

Definition result_ok {A E} (r : result A E) : option A :=
  match r with Ok a => Some a | Err _ => None end.

Definition is_ok {A E} (r : result A E) : bool :=
  match r with Ok _ => true | Err _ => false end.

Definition rbind {A B E} (r : result A E) (f : A → result B E) : result B E :=
  match r with Ok a => f a | Err e => Err e end.

(** Code that reads and writes a state [S] and may return early with an error
    [E]: the state reached is kept on both paths. *)
Definition M (S E A : Type) : Type := S → result A E * S.

Definition ret {S E A} (a : A) : M S E A := λ s, (Ok a, s).
Definition fail {S E A} (e : E) : M S E A := λ s, (Err e, s).
Definition of_result {S E A} (r : result A E) : M S E A := λ s, (r, s).
Definition gets {S E A} (f : S → A) : M S E A := λ s, (Ok (f s), s).
Definition modify {S E} (f : S → S) : M S E unit := λ s, (Ok tt, f s).
Definition bind {S E A B} (m : M S E A) (f : A → M S E B) : M S E B :=
  λ s, match m s with
       | (Ok a, s') => f a s'
       | (Err e, s') => (Err e, s')
       end.

(** [attempt m] runs [m] and hands its outcome over instead of returning early:
    the [match m.await] of the sources. *)
Definition attempt {S E F A} (m : M S E A) : M S F (result A E) :=
  λ s, let '(r, s') := m s in (Ok r, s').

(** [zoom] runs code of a component [T] of the state, its errors converted by
    [conv] (the [From] conversion of the [?] operator). *)
Definition zoom {S T E F A} (get : S → T) (set : T → S → S) (conv : E → F)
    (m : M T E A) : M S F A :=
  λ s, let '(r, t) := m (get s) in (map_err conv r, set t s).

Declare Scope relayd_scope.
Delimit Scope relayd_scope with relayd.
Open Scope relayd_scope.

Notation "'let!' x ':=' m 'in' k" := (bind m (λ x, k))
  (at level 10, x name, m at level 100, k at level 200) : relayd_scope.
Notation "m ;; k" := (bind m (λ _, k))
  (at level 100, k at level 200, right associativity) : relayd_scope.
Notation "'let?' x ':=' r 'in' k" := (rbind r (λ x, k))
  (at level 10, x name, r at level 100, k at level 200) : relayd_scope.

Fixpoint mapM {S E A B} (f : A → M S E B) (l : list A) : M S E (list B) :=
  match l with
  | [] => ret []
  | x :: l' => let! y := f x in let! ys := mapM f l' in ret (y :: ys)
  end.

Fixpoint rmapM {A B E} (f : A → result B E) (l : list A) : result (list B) E :=
  match l with
  | [] => Ok []
  | x :: l' => let? y := f x in let? ys := rmapM f l' in Ok (y :: ys)
  end.

(** * Postconditions

    [wp m Q s]: running [m] from [s] ends in an outcome and a state that satisfy
    [Q]. It is an equation between booleans-free definitions, so the rules below
    hold in both directions and are used for rewriting. *)
Definition wp {S E A} (m : M S E A) (Q : result A E → S → Prop) (s : S) : Prop :=
  Q (m s).1 (m s).2.

Section wp_rules.
  Context {S E : Type}.

Lemma wp_intro {A} (m : M S E A) Q s :
  (∀ r s', m s = (r, s') → Q r s') → wp m Q s.
Proof. unfold wp. destruct (m s). eauto. Qed.

Lemma wp_elim {A} (m : M S E A) Q s r s' :
  wp m Q s → m s = (r, s') → Q r s'.
Proof. unfold wp. intros H Heq. rewrite Heq in H. exact H. Qed.

Lemma wp_mono {A} (m : M S E A) (Q Q' : result A E → S → Prop) s :
  wp m Q s → (∀ r s', Q r s' → Q' r s') → wp m Q' s.
Proof. unfold wp. eauto. Qed.

Lemma wp_and {A} (m : M S E A) (Q Q' : result A E → S → Prop) s :
  wp m Q s → wp m Q' s → wp m (λ r s', Q r s' ∧ Q' r s') s.
Proof. unfold wp. eauto. Qed.

Lemma wp_result {A} (m : M S E A) (Q : result A E → S → Prop) s :
  wp m Q s → wp m (λ r s', Q r s' ∧ r = (m s).1) s.
Proof. unfold wp. eauto. Qed.

Lemma wp_ret {A} (a : A) Q (s : S) : wp (E := E) (ret a) Q s ↔ Q (Ok a) s.
Proof. done. Qed.

Lemma wp_fail {A} (e : E) (Q : result A E → S → Prop) s : wp (fail e) Q s ↔ Q (Err e) s.
Proof. done. Qed.

Lemma wp_of_result {A} (x : result A E) (Q : result A E → S → Prop) s :
  wp (of_result x) Q s ↔ Q x s.
Proof. done. Qed.

Lemma wp_gets {A} (f : S → A) Q (s : S) : wp (E := E) (gets f) Q s ↔ Q (Ok (f s)) s.
Proof. done. Qed.

Lemma wp_modify (f : S → S) Q s : wp (E := E) (modify f) Q s ↔ Q (Ok tt) (f s).
Proof. done. Qed.

Lemma wp_bind {A B} (m : M S E A) (f : A → M S E B) Q s :
  wp (bind m f) Q s ↔
  wp m (λ r s', match r with Ok a => wp (f a) Q s' | Err e => Q (Err e) s' end) s.
Proof. unfold wp, bind. destruct (m s) as [[?|?] ?]; done. Qed.

Lemma wp_attempt {F A} (m : M S F A) Q s :
  wp (E := E) (attempt m) Q s ↔ wp m (λ r s', Q (Ok r) s') s.
Proof. unfold wp, attempt. destruct (m s); done. Qed.

Lemma wp_zoom {T F A} (get : S → T) set (conv : F → E) (m : M T F A) Q s :
  wp (zoom get set conv m) Q s ↔ wp m (λ r t, Q (map_err conv r) (set t s)) (get s).
Proof. unfold wp, zoom. destruct (m (get s)); done. Qed.
End wp_rules.

Create HintDb relayd.
#[export] Hint Rewrite @wp_ret @wp_fail @wp_of_result @wp_gets @wp_modify @wp_bind
  @wp_attempt @wp_zoom : wp.

(** [wp_simpl] pushes [wp] through the program's structure down to the calls whose
    specifications are lemmas. *)
Ltac wp_simpl := autorewrite with wp; simpl.

(** [wp_call spec] uses the specification of the call at the head of the goal. *)
Ltac wp_call spec := autorewrite with wp; eapply wp_mono; [apply spec |]; simpl.

(** * Shared lemmas on maps and lists *)

(** Membership in the domain of an updated map, the form the runtimes' laws take. *)
Lemma is_Some_insert {A} (m : gmap string A) i j (x : A) :
  is_Some (<[i := x]> m !! j) ↔ is_Some (m !! j) ∨ j = i.
Proof.
  rewrite lookup_insert. case_decide as Hij; [subst; naive_solver|].
  split; [naive_solver|]. intros [?| ->]; done.
Qed.

Lemma is_Some_delete {A} (m : gmap string A) i j :
  is_Some (delete i m !! j) ↔ is_Some (m !! j) ∧ j ≠ i.
Proof.
  rewrite lookup_delete. case_decide as Hij; [subst; split; [by intros [? [=]]|naive_solver]|].
  naive_solver.
Qed.

