(* ===== verification/RustStd.v ===== *)
(** The parts of Rust's standard library the sources use, as executable
    functions: ASCII strings (byte strings), [str::parse] for unsigned integers,
    [ToString] for integers, [IpAddr::from_str] and [IpAddr]'s [Display], the byte
    order of strings, and wrapping or saturating machine integers. *)
From stdpp Require Import base gmap strings list.
From Stdlib Require Import ZArith Lia Ascii.
From S2P Require Import Prelude.
Open Scope Z_scope.

(** * Machine integers *)
Definition u8_max : Z := 255.
Definition u16_max : Z := 65535.
Definition u32_max : Z := 4294967295.
Definition u64_max : Z := 18446744073709551615.
Definition i32_max : Z := 2147483647.
Definition i64_max : Z := 9223372036854775807.
Definition i64_min : Z := -9223372036854775808.

Definition is_u16 (n : Z) : Prop := 0 ≤ n ≤ u16_max.
Definition is_u64 (n : Z) : Prop := 0 ≤ n ≤ u64_max.

(** [u16::checked_add]. *)
Definition u16_checked_add (a b : Z) : option Z :=
  if a + b <=? u16_max then Some (a + b) else None.

(** [u64::wrapping_add], [AtomicU64::fetch_add]. *)
Definition u64_wrapping_add (a b : Z) : Z := (a + b) mod (u64_max + 1).
Definition u64_wrapping_sub (a b : Z) : Z := (a - b) mod (u64_max + 1).
Definition u64_saturating_add (a b : Z) : Z := Z.min u64_max (a + b).
Definition u32_saturating_add (a b : Z) : Z := Z.min u32_max (a + b).

(** [i64::saturating_sub]. *)
Definition i64_saturating_sub (a b : Z) : Z := Z.max i64_min (Z.min i64_max (a - b)).

(** * Strings *)
Definition ascii_code (c : ascii) : Z := Z.of_N (N_of_ascii c).

Definition ascii_lower (c : ascii) : ascii :=
  let n := ascii_code c in
  if (65 <=? n) && (n <=? 90) then ascii_of_N (Z.to_N (n + 32)) else c.

Fixpoint to_ascii_lowercase (s : string) : string :=
  match s with
  | EmptyString => EmptyString
  | String c s' => String (ascii_lower c) (to_ascii_lowercase s')
  end.

Definition is_empty (s : string) : bool :=
  match s with EmptyString => true | _ => false end.

Fixpoint strip_prefix (p s : string) : option string :=
  match p, s with
  | EmptyString, _ => Some s
  | String a p', String b s' => if Ascii.eqb a b then strip_prefix p' s' else None
  | String _ _, EmptyString => None
  end.

(** [str::find(char)] and [str::rfind(char)]: byte indices. *)
Fixpoint find_char (c : ascii) (s : string) : option nat :=
  match s with
  | EmptyString => None
  | String d s' => if Ascii.eqb c d then Some 0%nat else S <$> find_char c s'
  end.

Fixpoint rfind_char (c : ascii) (s : string) : option nat :=
  match s with
  | EmptyString => None
  | String d s' =>
      match rfind_char c s' with
      | Some i => Some (S i)
      | None => if Ascii.eqb c d then Some 0%nat else None
      end
  end.

(** [&s[from..]], [&s[..to]] and [&s[from..to]]. *)
Fixpoint str_from (n : nat) (s : string) : string :=
  match n, s with
  | O, _ => s
  | S _, EmptyString => EmptyString
  | S n', String _ s' => str_from n' s'
  end.

Fixpoint str_to (n : nat) (s : string) : string :=
  match n, s with
  | O, _ => EmptyString
  | S _, EmptyString => EmptyString
  | S n', String c s' => String c (str_to n' s')
  end.

Definition str_slice (from to : nat) (s : string) : string := str_from from (str_to to s).

(** [s.as_bytes().get(i)]. *)
Definition byte_at (i : nat) (s : string) : option ascii := String.get i s.

(** [str::split_once(char)]: around the first occurrence. *)
Definition split_once (c : ascii) (s : string) : option (string * string) :=
  match find_char c s with
  | Some i => Some (str_to i s, str_from (S i) s)
  | None => None
  end.

(** * Unsigned integers in text *)
Definition digit_of (radix : Z) (c : ascii) : option Z :=
  let n := ascii_code c in
  let d :=
    if (48 <=? n) && (n <=? 57) then Some (n - 48)
    else if (97 <=? n) && (n <=? 122) then Some (n - 87)
    else if (65 <=? n) && (n <=? 90) then Some (n - 55)
    else None in
  match d with
  | Some v => if v <? radix then Some v else None
  | None => None
  end.

(** The digit loop of [from_str_radix] with [checked_mul] and [checked_add]. *)
Fixpoint parse_digits (max acc : Z) (s : string) : option Z :=
  match s with
  | EmptyString => Some acc
  | String c s' =>
      match digit_of 10 c with
      | Some d =>
          let acc' := acc * 10 + d in
          if acc' <=? max then parse_digits max acc' s' else None
      | None => None
      end
  end.

(** [s.parse::<uN>()]: not empty, an optional leading [+], digits, no overflow. *)
Definition parse_unsigned (max : Z) (s : string) : option Z :=
  match s with
  | EmptyString => None
  | String c s' =>
      if Ascii.eqb c "+"%char
      then if is_empty s' then None else parse_digits max 0 s'
      else parse_digits max 0 s
  end.

Definition digit_char (d : Z) : ascii := ascii_of_N (Z.to_N (48 + d)).

(** [to_string] of an unsigned integer; a [u64] has at most 20 digits. *)
Fixpoint dec_digits (fuel : nat) (n : Z) (acc : string) : string :=
  match fuel with
  | O => acc
  | S f =>
      let acc' := String (digit_char (n mod 10)) acc in
      if n <? 10 then acc' else dec_digits f (n / 10) acc'
  end.

Definition u64_to_string (n : Z) : string := dec_digits 20 n EmptyString.

(** [format!("{:x}")] of a [u16]: at most four digits. *)
Definition hex_char (d : Z) : ascii :=
  if d <? 10 then digit_char d else ascii_of_N (Z.to_N (87 + d)).

Fixpoint hex_digits (fuel : nat) (n : Z) (acc : string) : string :=
  match fuel with
  | O => acc
  | S f =>
      let acc' := String (hex_char (n mod 16)) acc in
      if n <? 16 then acc' else hex_digits f (n / 16) acc'
  end.

Definition u16_to_hex (n : Z) : string := hex_digits 4 n EmptyString.

(** * IP addresses *)

(** [std::net::IpAddr]: the octets of an IPv4 address, the segments of an IPv6
    address. *)
Inductive IpAddr : Type :=
| V4 (a b c d : Z)
| V6 (segments : list Z).

#[export] Instance IpAddr_eq_dec : EqDecision IpAddr.
Proof. solve_decision. Defined.

Definition is_ipv6 (ip : IpAddr) : bool :=
  match ip with V4 _ _ _ _ => false | V6 _ => true end.

(** The octets in network order. *)
Definition u16_to_be_bytes (n : Z) : list Z := [n / 256; n mod 256].

Definition ip_octets (ip : IpAddr) : list Z :=
  match ip with
  | V4 a b c d => [a; b; c; d]
  | V6 segs => mjoin (u16_to_be_bytes <$> segs)
  end.

(** The parser of [core::net]: each reader returns the value read and the rest of
    the input, or nothing, in which case the caller goes on from where it was
    ([read_atomically]). *)
Definition reader (A : Type) : Type := string → option (A * string).

Definition read_given_char (c : ascii) : reader unit := λ s,
  match s with
  | String d s' => if Ascii.eqb c d then Some (tt, s') else None
  | EmptyString => None
  end.

Fixpoint read_number_loop (radix : Z) (max_digits : nat) (acc : Z) (count : nat)
    (s : string) : option (Z * nat * string) :=
  match s with
  | EmptyString => Some (acc, count, s)
  | String c s' =>
      match digit_of radix c with
      | None => Some (acc, count, s)
      | Some d =>
          if Nat.ltb max_digits (S count) then None
          else read_number_loop radix max_digits (acc * radix + d) (S count) s'
      end
  end.

Definition read_number (radix : Z) (max_digits : nat) (allow_zero_prefix : bool)
    (max : Z) : reader Z := λ s,
  let has_leading_zero := match s with String c _ => Ascii.eqb c "0"%char | _ => false end in
  match read_number_loop radix max_digits 0 0%nat s with
  | None => None
  | Some (v, count, rest) =>
      if Nat.eqb count 0 then None
      else if negb allow_zero_prefix && has_leading_zero && Nat.ltb 1 count then None
      else if v <=? max then Some (v, rest) else None
  end.

Definition read_separator {A} (sep : ascii) (index : nat) (inner : reader A) : reader A := λ s,
  match index with
  | O => inner s
  | S _ =>
      match read_given_char sep s with
      | Some (_, s') => inner s'
      | None => None
      end
  end.

Definition read_ipv4_octet (index : nat) : reader Z :=
  read_separator "."%char index (read_number 10 3 false u8_max).

Definition read_ipv4_addr : reader (Z * Z * Z * Z) := λ s,
  match read_ipv4_octet 0 s with
  | None => None
  | Some (a, s) =>
      match read_ipv4_octet 1 s with
      | None => None
      | Some (b, s) =>
          match read_ipv4_octet 2 s with
          | None => None
          | Some (c, s) =>
              match read_ipv4_octet 3 s with
              | None => None
              | Some (d, s) => Some ((a, b, c, d), s)
              end
          end
      end
  end.

(** [read_groups]: the groups read, in order, and whether an embedded IPv4
    address ended them; [todo] groups are left of [limit]. *)
Fixpoint read_groups (limit todo index : nat) (acc : list Z) (s : string)
    : list Z * bool * string :=
  match todo with
  | O => (acc, false, s)
  | S todo' =>
      let ipv4 :=
        if Nat.ltb index (limit - 1)
        then read_separator ":"%char index read_ipv4_addr s else None in
      match ipv4 with
      | Some ((a, b, c, d), s') => (acc ++ [a * 256 + b; c * 256 + d], true, s')
      | None =>
          match read_separator ":"%char index (read_number 16 4 true u16_max) s with
          | Some (g, s') => read_groups limit todo' (S index) (acc ++ [g]) s'
          | None => (acc, false, s)
          end
      end
  end.

Definition read_ipv6_addr : reader (list Z) := λ s,
  let '(head, head_ipv4, s) := read_groups 8 8 0 [] s in
  if Nat.eqb (length head) 8 then Some (head, s)
  else if head_ipv4 then None
  else
    match read_given_char ":"%char s with
    | None => None
    | Some (_, s) =>
        match read_given_char ":"%char s with
        | None => None
        | Some (_, s) =>
            let limit := (8 - (length head + 1))%nat in
            let '(tail, _, s) := read_groups limit limit 0 [] s in
            Some (head ++ replicate (8 - length head - length tail) 0 ++ tail, s)
        end
    end.

Definition read_ip_addr : reader IpAddr := λ s,
  match read_ipv4_addr s with
  | Some ((a, b, c, d), s') => Some (V4 a b c d, s')
  | None =>
      match read_ipv6_addr s with
      | Some (segs, s') => Some (V6 segs, s')
      | None => None
      end
  end.

(** [IpAddr::from_str]: the whole input is an address. *)
Definition IpAddr_from_str (s : string) : option IpAddr :=
  match read_ip_addr s with
  | Some (ip, rest) => if is_empty rest then Some ip else None
  | None => None
  end.

(** [Display for Ipv4Addr]. *)
Definition ipv4_to_string (a b c d : Z) : string :=
  (u64_to_string a +:+ "." +:+ u64_to_string b +:+ "." +:+
   u64_to_string c +:+ "." +:+ u64_to_string d)%string.

Fixpoint fmt_subslice (chunk : list Z) : string :=
  match chunk with
  | [] => EmptyString
  | [x] => u16_to_hex x
  | x :: tail => (u16_to_hex x +:+ ":" +:+ fmt_subslice tail)%string
  end.

(** The longest run of zero segments: its start and length. *)
Fixpoint zero_span (i : nat) (segs : list Z) (cur longest : nat * nat) : nat * nat :=
  match segs with
  | [] => longest
  | x :: segs' =>
      if x =? 0 then
        let start := if Nat.eqb cur.2 0 then i else cur.1 in
        let cur' := (start, S cur.2) in
        let longest' := if Nat.ltb longest.2 cur'.2 then cur' else longest in
        zero_span (S i) segs' cur' longest'
      else zero_span (S i) segs' (0%nat, 0%nat) longest
  end.

(** [Display for Ipv6Addr]. *)
Definition ipv6_to_string (segs : list Z) : string :=
  match segs with
  | [0; 0; 0; 0; 0; 65535; ab; cd] =>
      ("::ffff:" +:+ ipv4_to_string (ab / 256) (ab mod 256) (cd / 256) (cd mod 256))%string
  | _ =>
      let '(start, len) := zero_span 0 segs (0%nat, 0%nat) (0%nat, 0%nat) in
      if Nat.ltb 1 len
      then (fmt_subslice (take start segs) +:+ "::" +:+ fmt_subslice (drop (start + len) segs))%string
      else fmt_subslice segs
  end.

Definition ip_to_string (ip : IpAddr) : string :=
  match ip with
  | V4 a b c d => ipv4_to_string a b c d
  | V6 segs => ipv6_to_string segs
  end.

(** * Lemmas: integers in text *)

Lemma digit_of_digit_char d : 0 ≤ d < 10 → digit_of 10 (digit_char d) = Some d.
Proof.
  intros Hd.
  assert (d = 0 ∨ d = 1 ∨ d = 2 ∨ d = 3 ∨ d = 4 ∨ d = 5 ∨ d = 6 ∨ d = 7 ∨ d = 8 ∨ d = 9)
    as H by lia.
  destruct_or! H; subst; reflexivity.
Qed.

Lemma parse_digits_digit max acc d s :
  0 ≤ d < 10 → acc * 10 + d ≤ max →
  parse_digits max acc (String (digit_char d) s) = parse_digits max (acc * 10 + d) s.
Proof.
  intros Hd Hmax. cbn [parse_digits]. rewrite digit_of_digit_char by done. cbv zeta.
  by destruct (Z.leb_spec (acc * 10 + d) max); [|lia].
Qed.

Lemma dec_digits_S fuel n acc :
  dec_digits (S fuel) n acc =
  if n <? 10 then String (digit_char (n mod 10)) acc
  else dec_digits fuel (n / 10) (String (digit_char (n mod 10)) acc).
Proof. done. Qed.

Lemma parse_digits_dec_digits max fuel n acc :
  0 ≤ n < 10 ^ Z.of_nat (S fuel) → n ≤ max →
  parse_digits max 0 (dec_digits (S fuel) n acc) = parse_digits max n acc.
Proof.
  revert n acc. induction fuel as [|fuel IH]; intros n acc Hn Hmax;
    rewrite dec_digits_S; destruct (Z.ltb_spec n 10) as [Hlt|Hge]; try (simpl in *; lia).
  1, 2: rewrite Z.mod_small, parse_digits_digit by lia; f_equal; lia.
  assert (Hdm := Z.div_mod n 10 ltac:(lia)).
  assert (Hm := Z.mod_pos_bound n 10 ltac:(lia)).
  rewrite IH.
  - rewrite parse_digits_digit by lia. f_equal; lia.
  - split; [apply Z.div_pos; lia|]. apply Z.div_lt_upper_bound; [lia|].
    rewrite <-Z.pow_succ_r, <-Nat2Z.inj_succ by lia. lia.
  - lia.
Qed.

Lemma dec_digits_not_empty fuel n acc : dec_digits (S fuel) n acc ≠ EmptyString.
Proof.
  revert n acc. induction fuel as [|fuel IH]; intros n acc; cbn -[Z.modulo Z.div].
  - by destruct (n <? 10).
  - destruct (n <? 10); [done|]. apply IH.
Qed.

(** A number printed with [to_string] parses back to itself. *)
Lemma parse_unsigned_to_string max n :
  0 ≤ n < 10 ^ 20 → n ≤ max → parse_unsigned max (u64_to_string n) = Some n.
Proof.
  intros Hn Hmax.
  assert (parse_digits max 0 (u64_to_string n) = Some n) as Hp.
  { unfold u64_to_string. by rewrite parse_digits_dec_digits. }
  assert (u64_to_string n ≠ EmptyString) as Hne by apply dec_digits_not_empty.
  unfold parse_unsigned. destruct (u64_to_string n) as [|c s]; [done|].
  destruct (Ascii.eqb_spec c "+"%char) as [->|]; [|done].
  by simpl in Hp.
Qed.

Lemma parse_digits_bounds max acc s v :
  0 ≤ acc ≤ max → parse_digits max acc s = Some v → 0 ≤ v ≤ max.
Proof.
  revert acc. induction s as [|c s IH]; intros acc Hacc; simpl; [by intros [= <-]|].
  destruct (digit_of 10 c) as [d|] eqn:Hd; [|done].
  destruct (Z.leb_spec (acc * 10 + d) max); [|done].
  apply IH. split; [|done].
  unfold digit_of in Hd. repeat case_match; simplify_eq; lia.
Qed.

Lemma parse_unsigned_bounds max s v :
  0 ≤ max → parse_unsigned max s = Some v → 0 ≤ v ≤ max.
Proof.
  intros Hmax. unfold parse_unsigned. destruct s as [|c s]; [done|].
  destruct (Ascii.eqb c "+"%char); [destruct (is_empty s); [done|]|];
    apply parse_digits_bounds; lia.
Qed.

(** * Sanity checks of the address readers *)
Example parse_v4 : IpAddr_from_str "127.0.0.1" = Some (V4 127 0 0 1).
Proof. reflexivity. Qed.
Example parse_v6 : IpAddr_from_str "::1" = Some (V6 [0;0;0;0;0;0;0;1]).
Proof. reflexivity. Qed.
Example parse_v6b : IpAddr_from_str "fe80::1:8080" = Some (V6 [65152;0;0;0;0;0;1;32896]).
Proof. vm_compute. reflexivity. Qed.
Example parse_v6m : ip_to_string <$> IpAddr_from_str "::FFFF:1.2.3.4" = Some "::ffff:1.2.3.4"%string.
Proof. vm_compute. reflexivity. Qed.
Example parse_v6c : ip_to_string <$> IpAddr_from_str "2001:0db8:0:0:1:0:0:1" = Some "2001:db8::1:0:0:1"%string.
Proof. vm_compute. reflexivity. Qed.
Example parse_bad : (λ s, IpAddr_from_str s) <$> ["localhost"; "1.2.3"; "01.2.3.4"; "256.1.1.1"; "1:2:3:4:5:6:7:8:9"; ":::"; "1::2::3"; ""; "1.2.3.4 "; "1:2:3:4:5:6:7:8::"]%string = replicate 10 None.
Proof. vm_compute. reflexivity. Qed.
