(* ===== verification/Model.v ===== *)
(** model.rs: the domain types shared by every component. *)
From stdpp Require Import base gmap strings list.
From Stdlib Require Import ZArith Lia.
From S2P Require Import Prelude RustStd.
Open Scope Z_scope.

(** * Protocol *)
Inductive Protocol : Type := Tcp | Udp | Both.

#[export] Instance Protocol_eq_dec : EqDecision Protocol.
Proof. solve_decision. Defined.

Definition Protocol_as_str (p : Protocol) : string :=
  match p with Tcp => "tcp" | Udp => "udp" | Both => "both" end.

Inductive ModelError : Type :=
| InvalidProtocol (value : string).

Definition Protocol_from_str (value : string) : result Protocol ModelError :=
  let lower := to_ascii_lowercase value in
  if decide (lower = "tcp"%string) then Ok Tcp
  else if decide (lower = "udp"%string) then Ok Udp
  else if decide (lower = "both"%string) then Ok Both
  else Err (InvalidProtocol value).

(** * Runtime status and error kind *)
Inductive RuntimeStatus : Type :=
| Active
| RejectingNoHost
| DegradedBindFailed
| DegradedApplyFailed
| DegradedCloseFailed.

#[export] Instance RuntimeStatus_eq_dec : EqDecision RuntimeStatus.
Proof. solve_decision. Defined.

Definition RuntimeStatus_as_str (s : RuntimeStatus) : string :=
  match s with
  | Active => "active"
  | RejectingNoHost => "rejecting_no_host"
  | DegradedBindFailed => "degraded_bind_failed"
  | DegradedApplyFailed => "degraded_apply_failed"
  | DegradedCloseFailed => "degraded_close_failed"
  end.

Inductive ErrorKind : Type :=
| BindFailed
| ApplyFailed
| CloseFailed
| RestoreFailed
| InvalidInput.

#[export] Instance ErrorKind_eq_dec : EqDecision ErrorKind.
Proof. solve_decision. Defined.

Definition ErrorKind_as_str (k : ErrorKind) : string :=
  match k with
  | BindFailed => "bind_failed"
  | ApplyFailed => "apply_failed"
  | CloseFailed => "close_failed"
  | RestoreFailed => "restore_failed"
  | InvalidInput => "invalid_input"
  end.

(** * Allocations, bindings and their views *)
Record Allocation : Type := {
  al_id : string;
  al_protocol : Protocol;
  al_port : Z;
  al_target_port : option Z;
  al_host : option string;
  al_created_at_ms : Z;
  al_updated_at_ms : Z;
}.

#[export] Instance Allocation_eq_dec : EqDecision Allocation.
Proof. solve_decision. Defined.

Record Binding : Type := {
  bi_allocation_id : string;
  bi_target_port : Z;
  bi_host : option string;
  bi_created_at_ms : Z;
  bi_updated_at_ms : Z;
}.

#[export] Instance Binding_eq_dec : EqDecision Binding.
Proof. solve_decision. Defined.

Record AllocationResource : Type := {
  ar_id : string;
  ar_protocol : Protocol;
  ar_port : Z;
  ar_created_at_ms : Z;
  ar_updated_at_ms : Z;
}.

Record BindingView : Type := {
  bv_allocation_id : string;
  bv_host : option string;
  bv_target_port : Z;
  bv_effective_target_port : option Z;
  bv_effective_host : option string;
  bv_runtime_status : RuntimeStatus;
  bv_error_kind : option ErrorKind;
  bv_last_error : option string;
  bv_created_at_ms : Z;
  bv_updated_at_ms : Z;
}.

Record AllocationView : Type := {
  av_id : string;
  av_protocol : Protocol;
  av_port : Z;
  av_target_port : option Z;
  av_host : option string;
  av_effective_target_port : option Z;
  av_effective_host : option string;
  av_host_configured : bool;
  av_runtime_status : RuntimeStatus;
  av_error_kind : option ErrorKind;
  av_last_error : option string;
  av_created_at_ms : Z;
  av_updated_at_ms : Z;
}.

Definition is_host_configured (host : option string) : bool :=
  match host with Some value => negb (is_empty value) | None => false end.

(** * Lemmas *)

Lemma Protocol_as_str_inj p q : Protocol_as_str p = Protocol_as_str q → p = q.
Proof. by destruct p, q. Qed.

(** Printing a protocol and parsing it back, in any letter case the printed name
    may have been turned to, gives the protocol. *)
Lemma Protocol_from_str_as_str p : Protocol_from_str (Protocol_as_str p) = Ok p.
Proof. by destruct p. Qed.

Lemma to_ascii_lowercase_idemp s :
  to_ascii_lowercase (to_ascii_lowercase s) = to_ascii_lowercase s.
Proof.
  induction s as [|c s IH]; [done|]. simpl. rewrite IH. f_equal.
  destruct c as [[] [] [] [] [] [] [] []]; reflexivity.
Qed.

Lemma Protocol_from_str_case s p :
  Protocol_from_str s = Ok p ↔ to_ascii_lowercase s = Protocol_as_str p.
Proof.
  unfold Protocol_from_str. cbv zeta. split.
  - intros H. repeat case_decide; simplify_eq/=; done.
  - intros ->. by destruct p.
Qed.
