(* ===== verification/Config.v ===== *)
(** config.rs: listen addresses, port ranges and the configuration read from the
    environment map. [target_os_linux] is the build's [cfg!(target_os = linux)]. *)
From stdpp Require Import base gmap strings list.
From Stdlib Require Import ZArith Lia Ascii.
From S2P Require Import Prelude RustStd.
Open Scope Z_scope.

Record HttpListen : Type := { hl_host : string; hl_port : Z }.

Record PortRange : Type := { pr_start : Z; pr_end : Z }.

Definition PortRange_contains (r : PortRange) (port : Z) : bool :=
  (port >=? pr_start r) && (port <=? pr_end r).

Inductive RuntimeMode : Type := Proxy | Netlink.

#[export] Instance RuntimeMode_eq_dec : EqDecision RuntimeMode.
Proof. solve_decision. Defined.

Definition RuntimeMode_as_str (m : RuntimeMode) : string :=
  match m with Proxy => "proxy" | Netlink => "netlink" end.

Inductive ConfigError : Type :=
| MissingEnv (name : string)
| EmptyAuthToken
| InvalidHttpListen
| InvalidPortRange
| CfgInvalidPort
| CfgInvalidHost
| InvalidInteger (name : string)
| InvalidRuntimeMode
| InvalidNftablesName (name : string).

Definition RuntimeMode_from_str (value : string) : result RuntimeMode ConfigError :=
  let lower := to_ascii_lowercase value in
  if decide (lower = "proxy"%string) then Ok Proxy
  else if decide (lower = "netlink"%string) then Ok Netlink
  else Err InvalidRuntimeMode.

Record Config : Type := {
  http_listen_host : string;
  http_listen_port : Z;
  proxy_listen_host : string;
  port_range : PortRange;
  auth_token : string;
  tcp_session_model_enabled : bool;
  tcp_session_model_workers : Z;
  tcp_session_model_accept_balanced : bool;
  tcp_session_model_sharded_accept : bool;
  tcp_session_model_max_active : Z;
  tcp_splice_enabled : bool;
  force_tcp_copy_fallback : bool;
  udp_session_workers : Z;
  udp_io_uring_enabled : bool;
  udp_gro_enabled : bool;
  udp_dataplane_redesign_enabled : bool;
  udp_fast_path_enabled : bool;
  udp_fast_path_segment_size : Z;
  udp_fast_path_gso_burst : Z;
  udp_max_sessions : Z;
  udp_batch_enabled : bool;
  udp_socket_recv_buffer_bytes : Z;
  udp_socket_send_buffer_bytes : Z;
  runtime_apply_timeout_ms : Z;
  restore_sweep_timeout_ms : Z;
  runtime_mode : RuntimeMode;
  nftables_table : string;
  nftables_chain : string;
  db_path : string;
}.

(** * Parsers *)
Definition parse_port (raw : string) : result Z ConfigError :=
  if is_empty raw then Err CfgInvalidPort
  else
    let? parsed := ok_or CfgInvalidPort (parse_unsigned u32_max raw) in
    if (parsed =? 0) || (parsed >? u16_max) then Err CfgInvalidPort
    else Ok (parsed mod 65536).

Definition parse_ip_literal (host : string) : result IpAddr ConfigError :=
  ok_or CfgInvalidHost (IpAddr_from_str host).

Definition parse_http_listen (raw : string) : result HttpListen ConfigError :=
  if is_empty raw then Err InvalidHttpListen
  else
    match strip_prefix ":" raw with
    | Some port =>
        let? p := parse_port port in
        Ok {| hl_host := "127.0.0.1"; hl_port := p |}
    | None =>
        match strip_prefix "[" raw with
        | Some _ =>
            let? e := ok_or InvalidHttpListen (find_char "]"%char raw) in
            if decide (byte_at (e + 1) raw = Some ":"%char) then
              let host := str_slice 1 e raw in
              let? _ip := parse_ip_literal host in
              let? p := parse_port (str_from (e + 2) raw) in
              Ok {| hl_host := host; hl_port := p |}
            else Err InvalidHttpListen
        | None =>
            let? idx := ok_or InvalidHttpListen (rfind_char ":"%char raw) in
            let host := str_to idx raw in
            if is_empty host then Err InvalidHttpListen
            else
              let? _ip := parse_ip_literal host in
              let? p := parse_port (str_from (idx + 1) raw) in
              Ok {| hl_host := host; hl_port := p |}
        end
    end.

Definition parse_port_range (raw : string) : result PortRange ConfigError :=
  let? parts := ok_or InvalidPortRange (split_once "-"%char raw) in
  let? s := map_err (λ _, InvalidPortRange) (parse_port parts.1) in
  let? e := map_err (λ _, InvalidPortRange) (parse_port parts.2) in
  if s >? e then Err InvalidPortRange else Ok {| pr_start := s; pr_end := e |}.

(** * Environment readers *)
Section env.
  Context (env : gmap string string).

Definition env_bool_with_default (name : string) (default_value : bool) : bool :=
  match env !! name with
  | Some value =>
      bool_decide (to_ascii_lowercase value ∈ ["1"; "true"; "yes"; "on"]%string)
  | None => default_value
  end.

Definition env_bool (name : string) : bool := env_bool_with_default name false.

Definition env_u32 (name : string) (default_value : Z) : result Z ConfigError :=
  match env !! name with
  | Some value => ok_or (InvalidInteger name) (parse_unsigned u32_max value)
  | None => Ok default_value
  end.

(** [usize] is 64 bits wide on the supported targets. *)
Definition env_nonzero_usize (name : string) (default_value : Z) : result Z ConfigError :=
  match env !! name with
  | Some value =>
      match parse_unsigned u64_max value with
      | Some parsed => if parsed >? 0 then Ok parsed else Err (InvalidInteger name)
      | None => Err (InvalidInteger name)
      end
  | None => Ok default_value
  end.

Definition env_nonempty_string (name default_value : string) : result string ConfigError :=
  let value := default default_value (env !! name) in
  if is_empty value then Err (InvalidNftablesName name) else Ok value.

(** [Config::from_env_map]: the checks in the order the source makes them. *)
Definition Config_from_env_map (target_os_linux : bool) : result Config ConfigError :=
  let? listen := parse_http_listen (default ":8080"%string (env !! "HTTP_LISTEN"%string)) in
  let proxy_host := default "0.0.0.0"%string (env !! "PROXY_LISTEN_HOST"%string) in
  let? _ip := parse_ip_literal proxy_host in
  let? range := parse_port_range (default "10000-30000"%string (env !! "PORT_RANGE"%string)) in
  let? token := ok_or (MissingEnv "AUTH_TOKEN") (env !! "AUTH_TOKEN"%string) in
  if is_empty token then Err EmptyAuthToken
  else
  let? workers := env_u32 "TCP_SESSION_MODEL_WORKERS" 0 in
  let? max_active := env_u32 "TCP_SESSION_MODEL_MAX_ACTIVE" 256 in
  let? udp_workers := env_u32 "UDP_SESSION_WORKERS" 0 in
  let? seg := env_u32 "UDP_FAST_PATH_SEGMENT_SIZE" 1472 in
  let? gso := env_u32 "UDP_FAST_PATH_GSO_BURST" 16 in
  let? max_sessions := env_nonzero_usize "UDP_MAX_SESSIONS" 65536 in
  let? rcv := env_u32 "UDP_SOCKET_RCVBUF_BYTES" (8 * 1024 * 1024) in
  let? snd := env_u32 "UDP_SOCKET_SNDBUF_BYTES" (8 * 1024 * 1024) in
  let? apply := env_u32 "RUNTIME_APPLY_TIMEOUT_MS" 2000 in
  let? sweep := env_u32 "RESTORE_SWEEP_TIMEOUT_MS" 30000 in
  let? mode := RuntimeMode_from_str (default "proxy"%string (env !! "RELAYD_RUNTIME_MODE"%string)) in
  let? table := env_nonempty_string "RELAYD_NFTABLES_TABLE" "relayd" in
  let? chain := env_nonempty_string "RELAYD_NFTABLES_CHAIN" "mapping" in
  Ok {|
    http_listen_host := hl_host listen;
    http_listen_port := hl_port listen;
    proxy_listen_host := proxy_host;
    port_range := range;
    auth_token := token;
    tcp_session_model_enabled := env_bool "TCP_SESSION_MODEL_ENABLED";
    tcp_session_model_workers := workers;
    tcp_session_model_accept_balanced := env_bool "TCP_SESSION_MODEL_ACCEPT_BALANCED";
    tcp_session_model_sharded_accept := env_bool "TCP_SESSION_MODEL_SHARDED_ACCEPT";
    tcp_session_model_max_active := max_active;
    tcp_splice_enabled := env_bool "TCP_SPLICE_ENABLED";
    force_tcp_copy_fallback := env_bool "FORCE_TCP_COPY_FALLBACK";
    udp_session_workers := udp_workers;
    udp_io_uring_enabled := env_bool "UDP_IO_URING_ENABLED";
    udp_gro_enabled := env_bool "UDP_GRO_ENABLED";
    udp_dataplane_redesign_enabled := env_bool "UDP_DATAPLANE_REDESIGN_ENABLED";
    udp_fast_path_enabled := env_bool "UDP_FAST_PATH_ENABLED";
    udp_fast_path_segment_size := seg;
    udp_fast_path_gso_burst := gso;
    udp_max_sessions := max_sessions;
    udp_batch_enabled := env_bool_with_default "UDP_BATCH_ENABLED" target_os_linux;
    udp_socket_recv_buffer_bytes := rcv;
    udp_socket_send_buffer_bytes := snd;
    runtime_apply_timeout_ms := apply;
    restore_sweep_timeout_ms := sweep;
    runtime_mode := mode;
    nftables_table := table;
    nftables_chain := chain;
    db_path := default "relayd.sqlite3"%string (env !! "SQLITE_PATH"%string);
  |}.
End env.
