(* ===== verification/ConfigSpec.v ===== *)
(** The contract of config.rs: what an accepted configuration guarantees, and that
    the textual forms parse back to the values they were printed from. *)
From stdpp Require Import base gmap strings list.
From Stdlib Require Import ZArith Lia Ascii.
From S2P Require Import Prelude RustStd Config.
Open Scope Z_scope.

(** * Strings *)
Fixpoint str_len (s : string) : nat :=
  match s with EmptyString => 0 | String _ s' => S (str_len s') end.

Lemma find_char_app c a b :
  find_char c a = None → find_char c (a +:+ String c b) = Some (str_len a).
Proof.
  induction a as [|d a IH]; simpl; [by rewrite Ascii.eqb_refl|].
  destruct (Ascii.eqb c d); [done|]. destruct (find_char c a); [done|]. by rewrite IH.
Qed.

Lemma str_to_app a b : str_to (str_len a) (a +:+ b) = a.
Proof. induction a as [|d a IH]; simpl; [by destruct b|]. by rewrite IH. Qed.

Lemma str_from_app a b : str_from (str_len a) (a +:+ b) = b.
Proof. induction a as [|d a IH]; simpl; [by destruct b|]. done. Qed.

Lemma str_from_S a c b : str_from (S (str_len a)) (a +:+ String c b) = b.
Proof. induction a as [|d a IH]; simpl in *; [by destruct b|done]. Qed.

Lemma byte_at_app a b : byte_at (str_len a) (a +:+ b) = byte_at 0 b.
Proof. induction a as [|d a IH]; simpl; [by destruct b|done]. Qed.

Lemma str_app_snoc a c b : a +:+ String c b = (a +:+ String c EmptyString) +:+ b.
Proof. induction a as [|d a IH]; [done|]. exact (f_equal (String d) IH). Qed.

Lemma str_len_snoc a c : str_len (a +:+ String c EmptyString) = S (str_len a).
Proof. induction a as [|d a IH]; [done|]. exact (f_equal S IH). Qed.

(** A character that is no digit does not occur in a printed number. *)
Lemma digit_char_ne c d :
  0 ≤ d < 10 → ascii_code c < 48 ∨ 57 < ascii_code c → Ascii.eqb c (digit_char d) = false.
Proof.
  intros Hd Hc. apply Ascii.eqb_neq. intros ->.
  assert (d = 0 ∨ d = 1 ∨ d = 2 ∨ d = 3 ∨ d = 4 ∨ d = 5 ∨ d = 6 ∨ d = 7 ∨ d = 8 ∨ d = 9)
    as H by lia.
  destruct_or! H; subst; vm_compute in Hc; destruct Hc; done.
Qed.

Lemma find_char_dec_digits c fuel n acc :
  0 ≤ n → ascii_code c < 48 ∨ 57 < ascii_code c → find_char c acc = None →
  find_char c (dec_digits fuel n acc) = None.
Proof.
  intros Hn Hc. revert n acc Hn. induction fuel as [|fuel IH]; intros n acc Hn Hacc; [done|].
  rewrite dec_digits_S.
  assert (find_char c (String (digit_char (n mod 10)) acc) = None) as Hf.
  { cbn [find_char]. rewrite digit_char_ne by (done || apply Z.mod_pos_bound; lia).
    by rewrite Hacc. }
  destruct (n <? 10); [done|]. apply IH; [by apply Z.div_pos; lia|done].
Qed.

Lemma find_char_to_string c n :
  0 ≤ n → ascii_code c < 48 ∨ 57 < ascii_code c → find_char c (u64_to_string n) = None.
Proof. intros. by apply find_char_dec_digits. Qed.

(** * Ports *)
Definition valid_port (p : Z) : Prop := 1 ≤ p ≤ u16_max.

Lemma parse_port_valid raw p : parse_port raw = Ok p → valid_port p.
Proof.
  unfold parse_port, valid_port, u16_max. destruct (is_empty raw); [done|].
  destruct (parse_unsigned u32_max raw) as [v|] eqn:Hv; simpl; [|done].
  apply parse_unsigned_bounds in Hv; [|done].
  destruct (Z.eqb_spec v 0), (Z.gtb_spec v 65535); simpl; try done.
  intros [= <-]. rewrite Z.mod_small; lia.
Qed.

Lemma parse_port_to_string p : valid_port p → parse_port (u64_to_string p) = Ok p.
Proof.
  unfold valid_port, u16_max. intros Hp. unfold parse_port.
  assert (is_empty (u64_to_string p) = false) as ->.
  { pose proof (dec_digits_not_empty 19 p EmptyString) as H. unfold u64_to_string.
    by destruct (dec_digits 20 p EmptyString). }
  rewrite parse_unsigned_to_string by (unfold u32_max; lia). simpl.
  destruct (Z.eqb_spec p 0); [lia|]. unfold u16_max.
  destruct (Z.gtb_spec p 65535); [lia|]. simpl. by rewrite Z.mod_small by lia.
Qed.

Lemma parse_port_range_valid raw r :
  parse_port_range raw = Ok r →
  valid_port (pr_start r) ∧ valid_port (pr_end r) ∧ pr_start r ≤ pr_end r.
Proof.
  unfold parse_port_range. destruct (split_once _ raw) as [[a b]|]; simpl; [|done].
  destruct (parse_port a) as [x|] eqn:Ha; simpl; [|done].
  destruct (parse_port b) as [y|] eqn:Hb; simpl; [|done].
  destruct (Z.gtb_spec x y); [done|]. intros [= <-]. simpl.
  split_and!; [by eapply parse_port_valid..|lia].
Qed.

(** C35: A port range printed as "start-end" parses back to itself, and everything that
    parses as a range has 1 <= start <= end <= 65535. *)
Theorem parse_port_range_roundtrip s e (Hs : valid_port s) (He : valid_port e) (Hse : s ≤ e) :
  parse_port_range (u64_to_string s +:+ "-" +:+ u64_to_string e)
    = Ok {| pr_start := s; pr_end := e |} ∧
  ∀ raw r, parse_port_range raw = Ok r →
    valid_port (pr_start r) ∧ valid_port (pr_end r) ∧ pr_start r ≤ pr_end r.
Proof.
  split.
  - unfold parse_port_range, split_once.
    change ("-" +:+ u64_to_string e) with (String "-"%char (u64_to_string e)).
    rewrite find_char_app by (apply find_char_to_string; [unfold valid_port in *; lia|by left]).
    rewrite str_to_app, str_from_S. simpl.
    rewrite !parse_port_to_string by done. simpl.
    by destruct (Z.gtb_spec s e); [lia|].
  - apply parse_port_range_valid.
Qed.

(** * Listen addresses *)
Lemma parse_http_listen_valid raw l :
  parse_http_listen raw = Ok l →
  valid_port (hl_port l) ∧ is_ok (parse_ip_literal (hl_host l)) = true.
Proof.
  unfold parse_http_listen. destruct (is_empty raw); [done|].
  assert (∀ host port r, (let? _ip := parse_ip_literal host in
            let? p := parse_port port in Ok {| hl_host := host; hl_port := p |}) = Ok r →
            valid_port (hl_port r) ∧ is_ok (parse_ip_literal (hl_host r)) = true) as Hhost.
  { intros host port r. destruct (parse_ip_literal host) as [ip|] eqn:Hip; simpl; [|done].
    destruct (parse_port port) as [p|] eqn:Hp; simpl; [|done]. intros [= <-]. simpl.
    rewrite Hip. split; [by eapply parse_port_valid|done]. }
  destruct (strip_prefix ":" raw) as [port|].
  - destruct (parse_port port) as [p|] eqn:Hp; simpl; [|done]. intros [= <-]. simpl.
    split; [by eapply parse_port_valid|reflexivity].
  - destruct (strip_prefix "[" raw).
    + destruct (find_char "]"%char raw) as [e|]; simpl; [|done].
      case_decide; [apply Hhost|done].
    + destruct (rfind_char ":"%char raw) as [i|]; simpl; [|done].
      destruct (is_empty (str_to i raw)); [done|]. apply Hhost.
Qed.

(** A bracketed listen address, "[host]:port" with an address literal as host, is
    read as exactly that host and port. *)
Theorem parse_http_listen_bracketed host ip p
    (Hip : parse_ip_literal host = Ok ip) (Hbr : find_char "]"%char host = None)
    (Hp : valid_port p) :
  parse_http_listen ("[" +:+ host +:+ "]:" +:+ u64_to_string p) =
  Ok {| hl_host := host; hl_port := p |}.
Proof.
  set (port := u64_to_string p). set (a := String "["%char host).
  set (raw := "[" +:+ host +:+ "]:" +:+ port).
  assert (raw = a +:+ String "]"%char (String ":"%char port)) as Hraw by reflexivity.
  assert (raw = (a +:+ "]") +:+ String ":"%char port) as Hraw'
    by (rewrite Hraw; apply str_app_snoc).
  assert (S (str_len a) = str_len (a +:+ "]")) as Hlen
    by (symmetry; apply str_len_snoc).
  assert (find_char "]"%char raw = Some (str_len a)) as Hfind
    by (rewrite Hraw; apply find_char_app; simpl; by rewrite Hbr).
  assert (byte_at (str_len a + 1) raw = Some ":"%char) as Hbyte
    by (rewrite Nat.add_1_r, Hlen, Hraw'; by rewrite byte_at_app).
  assert (str_slice 1 (str_len a) raw = host) as Hslice
    by (unfold str_slice; rewrite Hraw, str_to_app; by destruct host).
  assert (str_from (str_len a + 2) raw = port) as Hfrom.
  { rewrite Nat.add_comm. cbn [Nat.add]. rewrite Hlen, Hraw'. apply str_from_S. }
  unfold parse_http_listen. change (is_empty raw) with false.
  change (strip_prefix ":" raw) with (@None string).
  change (strip_prefix "[" raw) with (Some (host +:+ "]:" +:+ port)). cbv iota.
  rewrite Hfind. cbn [ok_or rbind]. rewrite decide_True by done. rewrite Hslice, Hip, Hfrom.
  cbn [rbind]. unfold port. by rewrite parse_port_to_string.
Qed.

(** * The configuration *)
Lemma env_u32_bounds env name d v :
  0 ≤ d ≤ u32_max → env_u32 env name d = Ok v → 0 ≤ v ≤ u32_max.
Proof.
  intros Hd. unfold env_u32. destruct (env !! name) as [raw|]; [|by intros [= <-]].
  destruct (parse_unsigned u32_max raw) eqn:Hp; [|done]. intros [= <-].
  by apply parse_unsigned_bounds in Hp.
Qed.

Lemma env_nonzero_usize_bounds env name d v :
  0 < d ≤ u64_max → env_nonzero_usize env name d = Ok v → 0 < v ≤ u64_max.
Proof.
  intros Hd. unfold env_nonzero_usize. destruct (env !! name) as [raw|]; [|by intros [= <-]].
  destruct (parse_unsigned u64_max raw) as [x|] eqn:Hp; [|done].
  destruct (Z.gtb_spec x 0); [|done]. intros [= <-].
  apply parse_unsigned_bounds in Hp; [lia|done].
Qed.

Lemma env_nonempty_string_ok env name d v :
  env_nonempty_string env name d = Ok v → v ≠ EmptyString.
Proof.
  unfold env_nonempty_string. destruct (default d (env !! name)); [done|]. by intros [= <-].
Qed.

(** Reads the checks that an accepted configuration has passed. *)
Ltac accepted Hc :=
  repeat match type of Hc with
  | (let? _ := ?r in _) = Ok _ =>
      let v := fresh "v" in let H := fresh "Hr" in
      destruct r as [v|] eqn:H; simpl in Hc; [|done]
  | (if is_empty ?t then _ else _) = Ok _ => let H := fresh "Htok" in destruct (is_empty t) eqn:H; [done|]
  end;
  injection Hc as <-; simpl.

Lemma Config_port_range env target_os_linux c :
  Config_from_env_map env target_os_linux = Ok c →
  valid_port (pr_start (port_range c)) ∧ valid_port (pr_end (port_range c)) ∧
  pr_start (port_range c) ≤ pr_end (port_range c).
Proof.
  unfold Config_from_env_map. intros Hc. accepted Hc.
  match goal with H : parse_port_range _ = Ok _ |- _ => by apply parse_port_range_valid in H end.
Qed.

(** C34: Every accepted configuration is usable: a non-empty token taken from
    AUTH_TOKEN, valid ports and an ordered port range, address literals for both
    listen hosts, positive session limits, 32-bit durations and sizes, and non-empty
    nftables names. *)
Theorem Config_from_env_map_valid env target_os_linux c
    (Hc : Config_from_env_map env target_os_linux = Ok c) :
  (auth_token c ≠ EmptyString ∧ env !! "AUTH_TOKEN"%string = Some (auth_token c)) ∧
  valid_port (http_listen_port c) ∧ is_ok (parse_ip_literal (http_listen_host c)) = true ∧
  is_ok (parse_ip_literal (proxy_listen_host c)) = true ∧
  (valid_port (pr_start (port_range c)) ∧ valid_port (pr_end (port_range c)) ∧
   pr_start (port_range c) ≤ pr_end (port_range c)) ∧
  0 < udp_max_sessions c ≤ u64_max ∧
  0 ≤ runtime_apply_timeout_ms c ≤ u32_max ∧ 0 ≤ restore_sweep_timeout_ms c ≤ u32_max ∧
  nftables_table c ≠ EmptyString ∧ nftables_chain c ≠ EmptyString.
Proof.
  unfold Config_from_env_map in Hc.
  accepted Hc.
  match goal with H : parse_http_listen _ = Ok _ |- _ => apply parse_http_listen_valid in H as [??] end.
  match goal with H : parse_port_range _ = Ok _ |- _ => apply parse_port_range_valid in H as (?&?&?) end.
  match goal with H : env_nonzero_usize _ _ _ = Ok _ |- _ =>
    apply env_nonzero_usize_bounds in H; [|done] end.
  repeat match goal with
  | H : env_u32 _ _ _ = Ok _ |- _ => apply env_u32_bounds in H; [|done]
  | H : env_nonempty_string _ _ _ = Ok _ |- _ => apply env_nonempty_string_ok in H
  end.
  match goal with H : ok_or _ (env !! "AUTH_TOKEN"%string) = Ok ?t |- _ =>
    destruct (env !! "AUTH_TOKEN"%string); simpl in H; simplify_eq end.
  match goal with H : parse_ip_literal _ = Ok _ |- _ => rewrite H end.
  split_and!; try done; try lia. by intros ->.
Qed.
