(* ===== verification/ConfigWitness.v ===== *)
(** The theorems of ConfigSpec.v at concrete inputs. *)
From stdpp Require Import base gmap strings list.
From Stdlib Require Import ZArith Lia Ascii.
From S2P Require Import Prelude RustStd Model Config ConfigSpec.
Open Scope Z_scope.

Lemma parse_port_range_roundtrip_witness :
  (1 ≤ 10000 ≤ u16_max ∧ 10000 ≤ 20000) ∧
  parse_port_range "10000-20000" = Ok {| pr_start := 10000; pr_end := 20000 |}.
Proof.
  assert (valid_port 10000) as H1 by (split; vm_compute; discriminate).
  assert (valid_port 20000) as H2 by (split; vm_compute; discriminate).
  assert (10000 ≤ 20000) as H3 by lia.
  destruct (parse_port_range_roundtrip 10000 20000 H1 H2 H3) as [H _].
  split; [split; [exact H1|exact H3]|]. exact H.
Defined.

Lemma parse_http_listen_bracketed_witness :
  is_ok (parse_ip_literal "::1") = true ∧
  parse_http_listen "[::1]:8080" = Ok {| hl_host := "::1"; hl_port := 8080 |}.
Proof.
  assert (parse_ip_literal "::1" = Ok (V6 [0;0;0;0;0;0;0;1])) as H1 by (vm_compute; reflexivity).
  assert (find_char "]"%char "::1" = None) as H2 by reflexivity.
  assert (valid_port 8080) as H3 by (split; vm_compute; discriminate).
  split; [rewrite H1; reflexivity|]. exact (parse_http_listen_bracketed "::1" (V6 [0;0;0;0;0;0;0;1]) 8080 H1 H2 H3).
Defined.

Definition ex_env : gmap string string :=
  {["AUTH_TOKEN"%string := "secret"%string; "SQLITE_PATH"%string := "/tmp/relayd.db"%string]}.

Lemma Config_from_env_map_valid_witness :
  ∃ c, Config_from_env_map ex_env true = Ok c ∧ auth_token c = "secret"%string ∧
       auth_token c ≠ EmptyString ∧ 0 < udp_max_sessions c.
Proof.
  destruct (Config_from_env_map ex_env true) as [c|] eqn:Hc; [|vm_compute in Hc; discriminate].
  exists c. destruct (Config_from_env_map_valid ex_env true c Hc) as ([Ht He] & _ & _ & _ & _ & Hu & _).
  split; [reflexivity|]. split; [|split; [exact Ht|apply Hu]].
  assert (ex_env !! "AUTH_TOKEN"%string = Some "secret"%string) as E by (vm_compute; reflexivity).
  rewrite E in He. injection He as ->. reflexivity.
Defined.
