(* ===== verification/Facade.v ===== *)
(** runtime/facade.rs: the [RuntimeFacade] trait as a type class, what its
    implementations promise to the allocation service ([RuntimeFacadeLaws]), and
    the in-memory implementation with its failure switches. *)
From stdpp Require Import base gmap strings list.
From Stdlib Require Import ZArith Lia.
From S2P Require Import Prelude RustStd Model.
Open Scope Z_scope.

Record ObservedState : Type := {
  os_effective_target_port : option Z;
  os_effective_host : option string;
  os_runtime_status : RuntimeStatus;
  os_error_kind : option ErrorKind;
  os_last_error : option string;
}.

#[export] Instance ObservedState_eq_dec : EqDecision ObservedState.
Proof. solve_decision. Defined.

Record ListenerMetricsSnapshot : Type := {
  lm_port : Z;
  lm_protocol : Protocol;
  lm_connections_current : Z;
  lm_rx_bytes_total : Z;
  lm_tx_bytes_total : Z;
}.

#[export] Instance ListenerMetricsSnapshot_eq_dec : EqDecision ListenerMetricsSnapshot.
Proof. solve_decision. Defined.

Inductive RuntimeError : Type :=
| RuntimeCreateFailed
| RuntimeUpdateFailed
| RuntimeDeleteFailed
| RuntimeRestoreFailed
| RuntimeApplyFailed
| RuntimeTimeout.

#[export] Instance RuntimeError_eq_dec : EqDecision RuntimeError.
Proof. solve_decision. Defined.

(** * The trait *)

(** A runtime with state [R]; the last argument of the mutating calls is
    [timeout_ms]. *)
Class RuntimeFacade (R : Type) : Type := {
  rt_initialize : Z → M R RuntimeError unit;
  rt_create : Allocation → Z → M R RuntimeError unit;
  rt_update : Allocation → Z → M R RuntimeError unit;
  rt_delete : string → Z → M R RuntimeError unit;
  rt_restore : Allocation → Z → M R RuntimeError unit;
  rt_snapshot : string → M R RuntimeError (option ObservedState);
  rt_snapshot_listener_metrics : M R RuntimeError (list ListenerMetricsSnapshot);
}.

(** The promises the service relies on. [rt_tracks s id]: the runtime holds state
    for the allocation [id], so that [snapshot] answers [Some]; [rt_ok] is the
    implementation's own invariant. A creation needs an identifier the runtime does
    not hold. *)
Class RuntimeFacadeLaws (R : Type) `{RuntimeFacade R} : Type := {
  rt_ok : R → Prop;
  rt_tracks : R → string → Prop;
  rt_initialize_spec t s :
    rt_ok s →
    wp (rt_initialize t) (λ _ s', rt_ok s' ∧ ∀ id, rt_tracks s' id ↔ rt_tracks s id) s;
  rt_create_spec a t s :
    rt_ok s → ¬ rt_tracks s (al_id a) →
    wp (rt_create a t)
      (λ r s', rt_ok s' ∧
        ∀ id, rt_tracks s' id ↔ rt_tracks s id ∨ (is_ok r = true ∧ id = al_id a)) s;
  rt_update_spec a t s :
    rt_ok s → rt_tracks s (al_id a) →
    wp (rt_update a t) (λ _ s', rt_ok s' ∧ ∀ id, rt_tracks s' id ↔ rt_tracks s id) s;
  rt_delete_spec i t s :
    rt_ok s →
    wp (rt_delete i t)
      (λ r s', rt_ok s' ∧
        ∀ id, rt_tracks s' id ↔ rt_tracks s id ∧ (is_ok r = true → id ≠ i)) s;
  rt_restore_spec a t s :
    rt_ok s →
    wp (rt_restore a t)
      (λ r s', rt_ok s' ∧
        (∀ id, id ≠ al_id a → rt_tracks s' id ↔ rt_tracks s id) ∧
        (is_ok r = true → rt_tracks s' (al_id a))) s;
  rt_snapshot_spec i s :
    rt_ok s →
    wp (rt_snapshot i)
      (λ r s', s' = s ∧ ∃ o, r = Ok o ∧ (is_Some o ↔ rt_tracks s i)) s;
  rt_metrics_spec s : rt_ok s → wp rt_snapshot_listener_metrics (λ _ s', s' = s) s;
}.

(** * The in-memory runtime *)
Record RuntimeState : Type := {
  rs_allocations : gmap string Allocation;
  rs_listener_metrics : list ListenerMetricsSnapshot;
  rs_initialize_fail : bool;
  rs_create_fail_ports : gset Z;
  rs_apply_fail_ports : gset Z;
  rs_update_fail_ids : gset string;
  rs_delete_fail_ids : gset string;
  rs_restore_fail_ids : gset string;
  rs_initialize_calls : Z;
  rs_create_calls : list string;
  rs_update_calls : list string;
  rs_delete_calls : list string;
  rs_restore_calls : list string;
}.

Definition RuntimeState_default : RuntimeState := {|
  rs_allocations := ∅; rs_listener_metrics := []; rs_initialize_fail := false;
  rs_create_fail_ports := ∅; rs_apply_fail_ports := ∅; rs_update_fail_ids := ∅;
  rs_delete_fail_ids := ∅; rs_restore_fail_ids := ∅; rs_initialize_calls := 0;
  rs_create_calls := []; rs_update_calls := []; rs_delete_calls := [];
  rs_restore_calls := [];
|}.

Record RuntimeCalls : Type := {
  rc_create : list string;
  rc_update : list string;
  rc_delete : list string;
  rc_restore : list string;
}.

(** Assignments to single fields: maps and failure switches first, then logs. *)
Definition rs_set_allocations (f : gmap string Allocation → gmap string Allocation)
    (s : RuntimeState) : RuntimeState := {|
  rs_allocations := f (rs_allocations s);
  rs_listener_metrics := rs_listener_metrics s;
  rs_initialize_fail := rs_initialize_fail s;
  rs_create_fail_ports := rs_create_fail_ports s;
  rs_apply_fail_ports := rs_apply_fail_ports s;
  rs_update_fail_ids := rs_update_fail_ids s;
  rs_delete_fail_ids := rs_delete_fail_ids s;
  rs_restore_fail_ids := rs_restore_fail_ids s;
  rs_initialize_calls := rs_initialize_calls s;
  rs_create_calls := rs_create_calls s;
  rs_update_calls := rs_update_calls s;
  rs_delete_calls := rs_delete_calls s;
  rs_restore_calls := rs_restore_calls s;
|}.

Definition rs_set_failures (init : bool) (create apply : gset Z)
    (upd del res : gset string) (s : RuntimeState) : RuntimeState := {|
  rs_allocations := rs_allocations s;
  rs_listener_metrics := rs_listener_metrics s;
  rs_initialize_fail := init;
  rs_create_fail_ports := create;
  rs_apply_fail_ports := apply;
  rs_update_fail_ids := upd;
  rs_delete_fail_ids := del;
  rs_restore_fail_ids := res;
  rs_initialize_calls := rs_initialize_calls s;
  rs_create_calls := rs_create_calls s;
  rs_update_calls := rs_update_calls s;
  rs_delete_calls := rs_delete_calls s;
  rs_restore_calls := rs_restore_calls s;
|}.

Definition rs_log (n : Z) (create upd del res : list string)
    (s : RuntimeState) : RuntimeState := {|
  rs_allocations := rs_allocations s;
  rs_listener_metrics := rs_listener_metrics s;
  rs_initialize_fail := rs_initialize_fail s;
  rs_create_fail_ports := rs_create_fail_ports s;
  rs_apply_fail_ports := rs_apply_fail_ports s;
  rs_update_fail_ids := rs_update_fail_ids s;
  rs_delete_fail_ids := rs_delete_fail_ids s;
  rs_restore_fail_ids := rs_restore_fail_ids s;
  rs_initialize_calls := n;
  rs_create_calls := rs_create_calls s ++ create;
  rs_update_calls := rs_update_calls s ++ upd;
  rs_delete_calls := rs_delete_calls s ++ del;
  rs_restore_calls := rs_restore_calls s ++ res;
|}.

(** The failure switches and probes of the tests. *)
Definition InMemoryRuntime_fail_initialize (s : RuntimeState) : RuntimeState :=
  rs_set_failures true (rs_create_fail_ports s) (rs_apply_fail_ports s)
    (rs_update_fail_ids s) (rs_delete_fail_ids s) (rs_restore_fail_ids s) s.

Definition InMemoryRuntime_fail_create_port (port : Z) (s : RuntimeState) : RuntimeState :=
  rs_set_failures (rs_initialize_fail s) ({[port]} ∪ rs_create_fail_ports s)
    (rs_apply_fail_ports s) (rs_update_fail_ids s) (rs_delete_fail_ids s)
    (rs_restore_fail_ids s) s.

Definition InMemoryRuntime_fail_apply_port (port : Z) (s : RuntimeState) : RuntimeState :=
  rs_set_failures (rs_initialize_fail s) (rs_create_fail_ports s)
    ({[port]} ∪ rs_apply_fail_ports s) (rs_update_fail_ids s) (rs_delete_fail_ids s)
    (rs_restore_fail_ids s) s.

Definition InMemoryRuntime_fail_update_id (id : string) (s : RuntimeState) : RuntimeState :=
  rs_set_failures (rs_initialize_fail s) (rs_create_fail_ports s) (rs_apply_fail_ports s)
    ({[id]} ∪ rs_update_fail_ids s) (rs_delete_fail_ids s) (rs_restore_fail_ids s) s.

Definition InMemoryRuntime_fail_delete_id (id : string) (s : RuntimeState) : RuntimeState :=
  rs_set_failures (rs_initialize_fail s) (rs_create_fail_ports s) (rs_apply_fail_ports s)
    (rs_update_fail_ids s) ({[id]} ∪ rs_delete_fail_ids s) (rs_restore_fail_ids s) s.

Definition InMemoryRuntime_fail_restore_id (id : string) (s : RuntimeState) : RuntimeState :=
  rs_set_failures (rs_initialize_fail s) (rs_create_fail_ports s) (rs_apply_fail_ports s)
    (rs_update_fail_ids s) (rs_delete_fail_ids s) ({[id]} ∪ rs_restore_fail_ids s) s.

Definition InMemoryRuntime_clear_failures (s : RuntimeState) : RuntimeState :=
  rs_set_failures false ∅ ∅ ∅ ∅ ∅ s.

Definition InMemoryRuntime_contains (id : string) (s : RuntimeState) : bool :=
  bool_decide (is_Some (rs_allocations s !! id)).

Definition InMemoryRuntime_calls (s : RuntimeState) : RuntimeCalls := {|
  rc_create := rs_create_calls s; rc_update := rs_update_calls s;
  rc_delete := rs_delete_calls s; rc_restore := rs_restore_calls s;
|}.

Definition InMemoryRuntime_seed_listener_metrics (rows : list ListenerMetricsSnapshot)
    (s : RuntimeState) : RuntimeState := {|
  rs_allocations := rs_allocations s;
  rs_listener_metrics := rows;
  rs_initialize_fail := rs_initialize_fail s;
  rs_create_fail_ports := rs_create_fail_ports s;
  rs_apply_fail_ports := rs_apply_fail_ports s;
  rs_update_fail_ids := rs_update_fail_ids s;
  rs_delete_fail_ids := rs_delete_fail_ids s;
  rs_restore_fail_ids := rs_restore_fail_ids s;
  rs_initialize_calls := rs_initialize_calls s;
  rs_create_calls := rs_create_calls s;
  rs_update_calls := rs_update_calls s;
  rs_delete_calls := rs_delete_calls s;
  rs_restore_calls := rs_restore_calls s;
|}.

Definition observed_state_for (a : Allocation) : ObservedState := {|
  os_effective_target_port := al_target_port a;
  os_effective_host := al_host a;
  os_runtime_status :=
    if bool_decide (is_Some (al_host a)) && bool_decide (is_Some (al_target_port a))
    then Active else RejectingNoHost;
  os_error_kind := None;
  os_last_error := None;
|}.

Definition InMemoryRuntime_initialize (_timeout_ms : Z) : M RuntimeState RuntimeError unit :=
  modify (λ s, rs_log (u32_saturating_add (rs_initialize_calls s) 1) [] [] [] [] s);;
  let! failing := gets rs_initialize_fail in
  if failing : bool then fail RuntimeApplyFailed else ret tt.

Definition InMemoryRuntime_create (a : Allocation) (_timeout_ms : Z)
    : M RuntimeState RuntimeError unit :=
  modify (λ s, rs_log (rs_initialize_calls s) [al_id a] [] [] [] s);;
  let! create_fail := gets rs_create_fail_ports in
  if decide (al_port a ∈ (create_fail : gset Z)) then fail RuntimeCreateFailed
  else
    let! apply_fail := gets rs_apply_fail_ports in
    if decide (al_port a ∈ (apply_fail : gset Z)) then fail RuntimeApplyFailed
    else modify (rs_set_allocations <[al_id a := a]>).

Definition InMemoryRuntime_update (a : Allocation) (_timeout_ms : Z)
    : M RuntimeState RuntimeError unit :=
  modify (λ s, rs_log (rs_initialize_calls s) [] [al_id a] [] [] s);;
  let! failing := gets rs_update_fail_ids in
  if decide (al_id a ∈ (failing : gset string)) then fail RuntimeUpdateFailed
  else modify (rs_set_allocations <[al_id a := a]>).

Definition InMemoryRuntime_delete (id : string) (_timeout_ms : Z)
    : M RuntimeState RuntimeError unit :=
  modify (λ s, rs_log (rs_initialize_calls s) [] [] [id] [] s);;
  let! failing := gets rs_delete_fail_ids in
  if decide (id ∈ (failing : gset string)) then fail RuntimeDeleteFailed
  else modify (rs_set_allocations (delete id)).

Definition InMemoryRuntime_restore (a : Allocation) (_timeout_ms : Z)
    : M RuntimeState RuntimeError unit :=
  modify (λ s, rs_log (rs_initialize_calls s) [] [] [] [al_id a] s);;
  let! failing := gets rs_restore_fail_ids in
  if decide (al_id a ∈ (failing : gset string)) then fail RuntimeRestoreFailed
  else modify (rs_set_allocations <[al_id a := a]>).

Definition InMemoryRuntime_snapshot (id : string)
    : M RuntimeState RuntimeError (option ObservedState) :=
  gets (λ s, observed_state_for <$> rs_allocations s !! id).

Definition InMemoryRuntime_snapshot_listener_metrics
    : M RuntimeState RuntimeError (list ListenerMetricsSnapshot) :=
  gets rs_listener_metrics.

#[export] Instance InMemoryRuntime_facade : RuntimeFacade RuntimeState := {|
  rt_initialize := InMemoryRuntime_initialize;
  rt_create := InMemoryRuntime_create;
  rt_update := InMemoryRuntime_update;
  rt_delete := InMemoryRuntime_delete;
  rt_restore := InMemoryRuntime_restore;
  rt_snapshot := InMemoryRuntime_snapshot;
  rt_snapshot_listener_metrics := InMemoryRuntime_snapshot_listener_metrics;
|}.

(** * The in-memory runtime keeps the trait's promises *)

Definition mem_tracks (s : RuntimeState) (id : string) : Prop :=
  is_Some (rs_allocations s !! id).

#[export] Program Instance InMemoryRuntime_laws : RuntimeFacadeLaws RuntimeState := {|
  rt_ok := λ _, True;
  rt_tracks := mem_tracks;
|}.
Next Obligation.
  intros t s _. simpl. unfold InMemoryRuntime_initialize. wp_simpl.
  case_match; done.
Qed.
Next Obligation.
  intros a t s _ _. simpl. unfold InMemoryRuntime_create. wp_simpl.
  case_decide; wp_simpl; [naive_solver|].
  case_decide; wp_simpl; [naive_solver|].
  split; [done|]. intros id. unfold mem_tracks; simpl. rewrite is_Some_insert. naive_solver.
Qed.
Next Obligation.
  intros a t s _ Hin. simpl. unfold InMemoryRuntime_update. wp_simpl.
  case_decide; wp_simpl; [naive_solver|].
  split; [done|]. intros id. unfold mem_tracks in *; simpl.
  rewrite is_Some_insert. naive_solver.
Qed.
Next Obligation.
  intros i t s _. simpl. unfold InMemoryRuntime_delete. wp_simpl.
  case_decide; wp_simpl; [naive_solver|].
  split; [done|]. intros id. unfold mem_tracks; simpl. rewrite is_Some_delete. naive_solver.
Qed.
Next Obligation.
  intros a t s _. simpl. unfold InMemoryRuntime_restore. wp_simpl.
  case_decide; wp_simpl; [naive_solver|].
  unfold mem_tracks; simpl. split_and!; [done| |].
  - intros id Hne. rewrite is_Some_insert. naive_solver.
  - intros _. rewrite is_Some_insert. naive_solver.
Qed.
Next Obligation.
  intros i s _. simpl. unfold InMemoryRuntime_snapshot. wp_simpl.
  split; [done|]. eexists; split; [done|]. by rewrite fmap_is_Some.
Qed.
Next Obligation. by intros s _. Qed.
