(* ===== verification/Sqlite.v ===== *)
(** storage/sqlite.rs: the two tables, the SQL statements the repository sends as
    functions on them, the decoding of rows, transactions, schema set-up and
    migration, and the private file modes.

    The engine is outside the sources: every statement, [BEGIN] and [COMMIT] first
    consumes one entry of [repo_faults]; [true] means that the engine reports an
    error (I/O, busy, disk full) for it. A dropped transaction rolls back. *)
From stdpp Require Import base gmap strings list sorting fin_maps fin_sets.
From Stdlib Require Import ZArith Lia Ascii.
From S2P Require Import Prelude RustStd Model.
Open Scope Z_scope.

(** * Rows, tables, errors *)

(** [allocation_entity::Model]. *)
Record AllocationRow : Type := {
  ro_id : string;
  ro_protocol : string;
  ro_port : Z;
  ro_target_port : Z;
  ro_host : option string;
  ro_created_at_ms : Z;
  ro_updated_at_ms : Z;
}.

(** [binding_entity::Model]. *)
Record BindingRow : Type := {
  rb_allocation_id : string;
  rb_target_port : Z;
  rb_host : option string;
  rb_created_at_ms : Z;
  rb_updated_at_ms : Z;
}.

#[export] Instance AllocationRow_eq_dec : EqDecision AllocationRow.
Proof. solve_decision. Defined.
#[export] Instance BindingRow_eq_dec : EqDecision BindingRow.
Proof. solve_decision. Defined.

(** The tables, by primary key. *)
Record Tables : Type := {
  t_allocations : gmap string AllocationRow;
  t_bindings : gmap string BindingRow;
}.

Record Repository : Type := {
  repo_tables : Tables;
  repo_faults : list bool;
}.

Inductive EngineError : Type :=
| EngineFailure
| UniqueViolation
| RowNotFound.

Inductive RepositoryError : Type :=
| RepoDb (e : EngineError)
| RepoSqlx (e : EngineError)
| RepoModel (e : ModelError)
| RepoIo
| RepoInvalidPort (field : string) (value : Z)
| RepoPortConversion.

Abbreviation RepoM := (M Repository RepositoryError).

(** * The engine *)

Definition set_tables (t : Tables) (s : Repository) : Repository :=
  {| repo_tables := t; repo_faults := repo_faults s |}.

(** One call of the engine: an error when the next fault says so. *)
Definition engine_call (err : EngineError → RepositoryError) : RepoM unit := λ s,
  match repo_faults s with
  | [] => (Ok tt, s)
  | f :: fs =>
      (if f : bool then Err (err EngineFailure) else Ok tt,
       {| repo_tables := repo_tables s; repo_faults := fs |})
  end.

(** A statement: a query's answer, or an update and the new tables. *)
Definition sql_query {A} (err : EngineError → RepositoryError) (q : Tables → A) : RepoM A :=
  engine_call err;; gets (λ s, q (repo_tables s)).

Definition sql_execute {A} (err : EngineError → RepositoryError)
    (stmt : Tables → result (Tables * A) EngineError) : RepoM A :=
  engine_call err;;
  λ s, match stmt (repo_tables s) with
       | Ok (t, a) => (Ok a, set_tables t s)
       | Err e => (Err (err e), s)
       end.

(** [pool.begin()], the statements, [commit()]; leaving early drops the
    transaction, which rolls its statements back. *)
Definition transaction {A} (body : RepoM A) : RepoM A := λ s,
  match (engine_call RepoSqlx;; let! a := body in engine_call RepoSqlx;; ret a) s with
  | (Ok a, s') => (Ok a, s')
  | (Err e, s') => (Err e, set_tables (repo_tables s) s')
  end.

(** * The statements *)

(** The unique index idx_allocations_protocol_port. *)
Definition same_protocol_port (r1 r2 : AllocationRow) : Prop :=
  ro_protocol r1 = ro_protocol r2 ∧ ro_port r1 = ro_port r2.

#[export] Instance same_protocol_port_dec r1 r2 : Decision (same_protocol_port r1 r2).
Proof. unfold same_protocol_port. apply _. Defined.

Definition violates_unique (r : AllocationRow) (t : Tables) : bool :=
  bool_decide (is_Some (t_allocations t !! ro_id r)) ||
  existsb (λ p, bool_decide (same_protocol_port r p.2)) (map_to_list (t_allocations t)).

(** [INSERT INTO allocations]: the primary key and the unique index are checked. *)
Definition stmt_insert_allocation (r : AllocationRow) (t : Tables)
    : result (Tables * unit) EngineError :=
  if violates_unique r t then Err UniqueViolation
  else Ok ({| t_allocations := <[ro_id r := r]> (t_allocations t);
              t_bindings := t_bindings t |}, tt).

(** [INSERT INTO bindings] without a conflict clause. *)
Definition stmt_insert_binding (b : BindingRow) (t : Tables)
    : result (Tables * unit) EngineError :=
  match t_bindings t !! rb_allocation_id b with
  | Some _ => Err UniqueViolation
  | None => Ok ({| t_allocations := t_allocations t;
                   t_bindings := <[rb_allocation_id b := b]> (t_bindings t) |}, tt)
  end.

(** [INSERT ... ON CONFLICT(allocation_id) DO UPDATE SET target_port, host,
    updated_at_ms]: the creation time of an existing row stays. *)
Definition stmt_upsert_binding (b : BindingRow) (t : Tables)
    : result (Tables * unit) EngineError :=
  let row :=
    match t_bindings t !! rb_allocation_id b with
    | Some old => {| rb_allocation_id := rb_allocation_id old;
                     rb_target_port := rb_target_port b;
                     rb_host := rb_host b;
                     rb_created_at_ms := rb_created_at_ms old;
                     rb_updated_at_ms := rb_updated_at_ms b |}
    | None => b
    end in
  Ok ({| t_allocations := t_allocations t;
         t_bindings := <[rb_allocation_id b := row]> (t_bindings t) |}, tt).

Definition row_with_target (target_port : Z) (host : option string) (updated_at_ms : Z)
    (r : AllocationRow) : AllocationRow := {|
  ro_id := ro_id r;
  ro_protocol := ro_protocol r;
  ro_port := ro_port r;
  ro_target_port := target_port;
  ro_host := host;
  ro_created_at_ms := ro_created_at_ms r;
  ro_updated_at_ms := updated_at_ms;
|}.

(** [UPDATE allocations SET target_port, host, updated_at_ms WHERE id = ?]. *)
Definition stmt_update_allocation (id : string) (target_port : Z) (host : option string)
    (updated_at_ms : Z) (t : Tables) : result (Tables * unit) EngineError :=
  Ok ({| t_allocations :=
           alter (row_with_target target_port host updated_at_ms) id (t_allocations t);
         t_bindings := t_bindings t |}, tt).

(** [DELETE FROM bindings / allocations WHERE ...]: whether a row was affected. *)
Definition stmt_delete_binding (id : string) (t : Tables)
    : result (Tables * bool) EngineError :=
  Ok ({| t_allocations := t_allocations t; t_bindings := delete id (t_bindings t) |},
      bool_decide (is_Some (t_bindings t !! id))).

Definition stmt_delete_allocation (id : string) (t : Tables)
    : result (Tables * bool) EngineError :=
  Ok ({| t_allocations := delete id (t_allocations t); t_bindings := t_bindings t |},
      bool_decide (is_Some (t_allocations t !! id))).

(** The protocols the [WHERE] clause of the port scan selects. *)
Definition occupying_protocols (requested : Protocol) (protocol : string) : bool :=
  match requested with
  | Tcp => bool_decide (protocol ∈ ["tcp"; "both"]%string)
  | Udp => bool_decide (protocol ∈ ["udp"; "both"]%string)
  | Both => true
  end.

(** [occupied(port)], [candidate(port)] and [SELECT MIN(port) ... EXCEPT ...] of
    the port scan. *)
Definition occupied (requested : Protocol) (start stop : Z) (t : Tables) : gset Z :=
  list_to_set
    (omap (λ p : string * AllocationRow,
             if occupying_protocols requested (ro_protocol p.2)
                && (start <=? ro_port p.2) && (ro_port p.2 <=? stop)
             then Some (ro_port p.2) else None)
       (map_to_list (t_allocations t))).

Definition candidate (occ : gset Z) (start stop : Z) : gset Z :=
  (if start <=? stop then {[start]} else ∅) ∪
  list_to_set
    (omap (λ p, if p <? stop then Some (p + 1) else None) (elements occ)).

Fixpoint sql_min (l : list Z) : option Z :=
  match l with
  | [] => None
  | x :: l' => match sql_min l' with Some m => Some (Z.min x m) | None => Some x end
  end.

Definition query_first_gap (requested : Protocol) (start stop : Z) (t : Tables) : option Z :=
  let occ := occupied requested start stop t in
  sql_min (elements (candidate occ start stop ∖ occ)).

(** * Decoding rows *)
Definition port_from_i32 (field : string) (value : Z) : result Z RepositoryError :=
  if value <? 0 then Err (RepoInvalidPort field value)
  else if value <=? u16_max then Ok value else Err RepoPortConversion.

Definition protocol_from_row (protocol : string) : result Protocol RepositoryError :=
  map_err RepoModel (Protocol_from_str protocol).

Definition option_or {A} (a b : option A) : option A :=
  match a with Some _ => a | None => b end.

(** [Option<Result<T, E>>::transpose]. *)
Definition transpose {A E} (o : option (result A E)) : result (option A) E :=
  match o with
  | None => Ok None
  | Some (Ok a) => Ok (Some a)
  | Some (Err e) => Err e
  end.

(** The target port of the legacy column: [None if legacy_target_port > 0]. *)
Definition legacy_target (legacy_target_port : Z) : result (option Z) RepositoryError :=
  if legacy_target_port >? 0
  then let? p := port_from_i32 "target_port" legacy_target_port in Ok (Some p)
  else Ok None.

Definition model_to_allocation (r : AllocationRow) (b : option BindingRow)
    : result Allocation RepositoryError :=
  let? protocol := protocol_from_row (ro_protocol r) in
  let? port := port_from_i32 "port" (ro_port r) in
  let? target_port :=
    match b with
    | Some b => let? p := port_from_i32 "binding.target_port" (rb_target_port b) in Ok (Some p)
    | None => legacy_target (ro_target_port r)
    end in
  Ok {| al_id := ro_id r;
        al_protocol := protocol;
        al_port := port;
        al_target_port := target_port;
        al_host := option_or (b ≫= rb_host) (ro_host r);
        al_created_at_ms := ro_created_at_ms r;
        al_updated_at_ms := ro_updated_at_ms r |}.

(** [AllocationJoinRow]: an allocation's columns and the joined binding's
    [target_port] and [host], NULL when nothing joins. *)
Record AllocationJoinRow : Type := {
  jr_allocation : AllocationRow;
  jr_binding_target_port : option Z;
  jr_binding_host : option string;
}.

Definition select_allocation_join (id : string) (t : Tables) : option AllocationJoinRow :=
  (λ r, {| jr_allocation := r;
           jr_binding_target_port := rb_target_port <$> t_bindings t !! ro_id r;
           jr_binding_host := (t_bindings t !! ro_id r) ≫= rb_host |})
    <$> t_allocations t !! id.

Definition row_to_allocation (row : AllocationJoinRow) : result Allocation RepositoryError :=
  let r := jr_allocation row in
  let? target_port :=
    match jr_binding_target_port row with
    | Some tp => let? p := port_from_i32 "binding.target_port" tp in Ok (Some p)
    | None => legacy_target (ro_target_port r)
    end in
  let? protocol := protocol_from_row (ro_protocol r) in
  let? port := port_from_i32 "port" (ro_port r) in
  Ok {| al_id := ro_id r;
        al_protocol := protocol;
        al_port := port;
        al_target_port := target_port;
        al_host := option_or (jr_binding_host row) (ro_host r);
        al_created_at_ms := ro_created_at_ms r;
        al_updated_at_ms := ro_updated_at_ms r |}.

(** [AllocationBindingJoinRow]: [COALESCE(column, 0)] on the numeric columns. *)
Record AllocationBindingJoinRow : Type := {
  br_allocation : AllocationRow;
  br_binding_allocation_id : option string;
  br_binding_target_port : Z;
  br_binding_host : option string;
  br_binding_created_at_ms : Z;
  br_binding_updated_at_ms : Z;
}.

Definition select_allocation_binding_join (id : string) (t : Tables)
    : option AllocationBindingJoinRow :=
  (λ r, let b := t_bindings t !! ro_id r in
        {| br_allocation := r;
           br_binding_allocation_id := rb_allocation_id <$> b;
           br_binding_target_port := default 0 (rb_target_port <$> b);
           br_binding_host := b ≫= rb_host;
           br_binding_created_at_ms := default 0 (rb_created_at_ms <$> b);
           br_binding_updated_at_ms := default 0 (rb_updated_at_ms <$> b) |})
    <$> t_allocations t !! id.

Definition row_to_allocation_with_binding (row : AllocationBindingJoinRow)
    : result (Allocation * option Binding) RepositoryError :=
  let r := br_allocation row in
  let? binding :=
    transpose
      ((λ allocation_id,
          let? tp := port_from_i32 "binding.target_port" (br_binding_target_port row) in
          Ok {| bi_allocation_id := allocation_id;
                bi_target_port := tp;
                bi_host := br_binding_host row;
                bi_created_at_ms := br_binding_created_at_ms row;
                bi_updated_at_ms := br_binding_updated_at_ms row |})
         <$> br_binding_allocation_id row) in
  let? target_port :=
    match binding with
    | Some b => Ok (Some (bi_target_port b))
    | None => legacy_target (ro_target_port r)
    end in
  let host := option_or (binding ≫= bi_host) (ro_host r) in
  let? protocol := protocol_from_row (ro_protocol r) in
  let? port := port_from_i32 "port" (ro_port r) in
  Ok ({| al_id := ro_id r;
         al_protocol := protocol;
         al_port := port;
         al_target_port := target_port;
         al_host := host;
         al_created_at_ms := ro_created_at_ms r;
         al_updated_at_ms := ro_updated_at_ms r |}, binding).

(** * The repository's operations *)
Definition opt_port_to_i32 (p : option Z) : Z := default 0 p.

Definition Repository_insert_allocation (a : Allocation) : RepoM unit :=
  sql_execute RepoSqlx (stmt_insert_allocation
    {| ro_id := al_id a;
       ro_protocol := Protocol_as_str (al_protocol a);
       ro_port := al_port a;
       ro_target_port := opt_port_to_i32 (al_target_port a);
       ro_host := al_host a;
       ro_created_at_ms := al_created_at_ms a;
       ro_updated_at_ms := al_updated_at_ms a |}).

Definition Repository_insert_allocation_with_binding (a : Allocation) (b : Binding)
    : RepoM unit :=
  transaction (
    sql_execute RepoSqlx (stmt_insert_allocation
      {| ro_id := al_id a;
         ro_protocol := Protocol_as_str (al_protocol a);
         ro_port := al_port a;
         ro_target_port := bi_target_port b;
         ro_host := bi_host b;
         ro_created_at_ms := al_created_at_ms a;
         ro_updated_at_ms := bi_updated_at_ms b |});;
    sql_execute RepoSqlx (stmt_insert_binding
      {| rb_allocation_id := al_id a;
         rb_target_port := bi_target_port b;
         rb_host := bi_host b;
         rb_created_at_ms := bi_created_at_ms b;
         rb_updated_at_ms := bi_updated_at_ms b |})).

Definition Repository_put_binding (b : Binding) : RepoM unit :=
  transaction (
    sql_execute RepoSqlx (stmt_upsert_binding
      {| rb_allocation_id := bi_allocation_id b;
         rb_target_port := bi_target_port b;
         rb_host := bi_host b;
         rb_created_at_ms := bi_created_at_ms b;
         rb_updated_at_ms := bi_updated_at_ms b |});;
    sql_execute RepoSqlx
      (stmt_update_allocation (bi_allocation_id b) (bi_target_port b) (bi_host b)
         (bi_updated_at_ms b))).

Definition Repository_delete_binding (allocation_id : string) (updated_at_ms : Z)
    : RepoM bool :=
  transaction (
    let! changed := sql_execute RepoSqlx (stmt_delete_binding allocation_id) in
    (if changed : bool
     then sql_execute RepoSqlx (stmt_update_allocation allocation_id 0 None updated_at_ms)
     else ret tt);;
    ret changed).

Definition Repository_delete_allocation (id : string) : RepoM bool :=
  transaction (
    let! _x := sql_execute RepoSqlx (stmt_delete_binding id) in
    sql_execute RepoSqlx (stmt_delete_allocation id)).

Definition Repository_get_binding (allocation_id : string) : RepoM (option Binding) :=
  let! row := sql_query RepoSqlx (λ t, t_bindings t !! allocation_id) in
  of_result (transpose (
    (λ r, let? tp := port_from_i32 "binding.target_port" (rb_target_port r) in
          Ok {| bi_allocation_id := rb_allocation_id r;
                bi_target_port := tp;
                bi_host := rb_host r;
                bi_created_at_ms := rb_created_at_ms r;
                bi_updated_at_ms := rb_updated_at_ms r |}) <$> row)).

Definition Repository_get_allocation (id : string) : RepoM (option Allocation) :=
  let! row := sql_query RepoSqlx (select_allocation_join id) in
  of_result (transpose (row_to_allocation <$> row)).

Definition Repository_get_allocation_with_binding (id : string)
    : RepoM (option (Allocation * option Binding)) :=
  let! row := sql_query RepoSqlx (select_allocation_binding_join id) in
  of_result (transpose (row_to_allocation_with_binding <$> row)).

Definition Repository_find_available_allocation_port (requested : Protocol) (start stop : Z)
    : RepoM (option Z) :=
  let! port := sql_query RepoSqlx (query_first_gap requested start stop) in
  of_result (transpose (port_from_i32 "port" <$> port)).

(** [ORDER BY protocol ASC, port ASC]: SQLite compares text by bytes. *)
Definition list_order (r1 r2 : AllocationRow) : Prop :=
  (ro_protocol r1 ≠ ro_protocol r2 ∧ String.le (ro_protocol r1) (ro_protocol r2)) ∨
  (ro_protocol r1 = ro_protocol r2 ∧ ro_port r1 ≤ ro_port r2).

#[export] Instance list_order_dec : RelDecision list_order.
Proof. intros r1 r2. unfold list_order. apply _. Defined.

(** The two selects are separate statements; the bindings are looked up by id. *)
Definition select_allocations (t : Tables) : list AllocationRow :=
  merge_sort list_order (snd <$> map_to_list (t_allocations t)).

Definition select_bindings (t : Tables) : list BindingRow :=
  snd <$> map_to_list (t_bindings t).

Definition bindings_by_id (bs : list BindingRow) : gmap string BindingRow :=
  list_to_map ((λ b, (rb_allocation_id b, b)) <$> bs).

Definition Repository_list_allocations : RepoM (list Allocation) :=
  let! allocations := sql_query RepoDb select_allocations in
  let! bindings := sql_query RepoDb select_bindings in
  let by_id := bindings_by_id bindings in
  of_result (rmapM (λ r, model_to_allocation r (by_id !! ro_id r)) allocations).

(** [self_check]: [SELECT sqlite_version()], whose answer is the engine's. *)
Definition Repository_self_check (sqlite_version : string) : RepoM unit :=
  let! version := sql_query RepoSqlx (λ _, sqlite_version) in
  if is_empty version then fail (RepoSqlx RowNotFound) else ret tt.

(** * Opening a database file *)

(** What the file holds before [open]: a table that does not exist is [None]. *)
Record Database : Type := {
  db_allocations : option (gmap string AllocationRow);
  db_bindings : option (gmap string BindingRow);
  db_unique_index : bool;
  db_port_index : bool;
}.

Record World : Type := {
  w_modes : gmap string Z;      (* the files and their permission bits *)
  w_database : Database;
  w_faults : list bool;
}.

Definition set_modes (f : gmap string Z) (w : World) : World :=
  {| w_modes := f; w_database := w_database w; w_faults := w_faults w |}.

Definition ddl (stmt : Database → result Database EngineError) : M World RepositoryError unit :=
  λ w,
  match w_faults w with
  | true :: fs =>
      (Err (RepoDb EngineFailure),
       {| w_modes := w_modes w; w_database := w_database w; w_faults := fs |})
  | fs =>
      match stmt (w_database w) with
      | Ok db => (Ok tt, {| w_modes := w_modes w; w_database := db; w_faults := tail fs |})
      | Err e => (Err (RepoDb e),
                  {| w_modes := w_modes w; w_database := w_database w; w_faults := tail fs |})
      end
  end.

Definition create_allocations (db : Database) : result Database EngineError :=
  Ok {| db_allocations := Some (default ∅ (db_allocations db));
        db_bindings := db_bindings db;
        db_unique_index := db_unique_index db;
        db_port_index := db_port_index db |}.

Definition create_bindings (db : Database) : result Database EngineError :=
  Ok {| db_allocations := db_allocations db;
        db_bindings := Some (default ∅ (db_bindings db));
        db_unique_index := db_unique_index db;
        db_port_index := db_port_index db |}.

(** Building a unique index fails when two rows agree on its columns. *)
Definition unique_protocol_port (m : gmap string AllocationRow) : bool :=
  forallb (λ p, forallb (λ q, bool_decide (p.1 = q.1) ||
                              negb (bool_decide (same_protocol_port p.2 q.2)))
                  (map_to_list m))
    (map_to_list m).

Definition create_unique_index (db : Database) : result Database EngineError :=
  if db_unique_index db || unique_protocol_port (default ∅ (db_allocations db))
  then Ok {| db_allocations := db_allocations db;
             db_bindings := db_bindings db;
             db_unique_index := true;
             db_port_index := db_port_index db |}
  else Err UniqueViolation.

Definition create_port_index (db : Database) : result Database EngineError :=
  Ok {| db_allocations := db_allocations db;
        db_bindings := db_bindings db;
        db_unique_index := db_unique_index db;
        db_port_index := true |}.

Definition Repository_setup_schema : M World RepositoryError unit :=
  ddl create_allocations;;
  ddl create_bindings;;
  ddl create_unique_index;;
  ddl create_port_index.

(** The row the migration derives from a legacy allocation row. *)
Definition legacy_binding (r : AllocationRow) : option BindingRow :=
  if ro_target_port r >? 0
  then Some {| rb_allocation_id := ro_id r;
               rb_target_port := ro_target_port r;
               rb_host := ro_host r;
               rb_created_at_ms := ro_created_at_ms r;
               rb_updated_at_ms := ro_updated_at_ms r |}
  else None.

Definition stmt_migrate (db : Database) : result Database EngineError :=
  Ok {| db_allocations := db_allocations db;
        db_bindings :=
          Some (default ∅ (db_bindings db) ∪ omap legacy_binding (default ∅ (db_allocations db)));
        db_unique_index := db_unique_index db;
        db_port_index := db_port_index db |}.

Definition Repository_migrate_legacy_bindings : M World RepositoryError unit :=
  ddl stmt_migrate.

(** * File permissions *)
Definition is_sqlite_memory_path (path : string) : bool :=
  bool_decide (path = ":memory:"%string).

Definition sqlite_sidecar_path (path suffix : string) : string :=
  (path +:+ "-" +:+ suffix)%string.

Definition mode_600 : Z := 384.

Section files.
  (** [io_denied path]: the operating system refuses the call on [path] for a reason
      other than the file's existence; [unix]: the [cfg(unix)] of the build. *)
  Context (unix : bool) (io_denied : string → bool).

(** [set_permissions(path, 0o600)]; a missing file is passed over. *)
Definition restrict_one (path : string) : M World RepositoryError unit := λ w,
  if io_denied path then (Err RepoIo, w)
  else
    match w_modes w !! path with
    | None => (Ok tt, w)
    | Some _ => (Ok tt, set_modes (<[path := mode_600]> (w_modes w)) w)
    end.

Definition restrict_sqlite_file_permissions (path : string) : M World RepositoryError unit :=
  if negb unix || is_sqlite_memory_path path then ret tt
  else
    let! _x := mapM restrict_one
      [path; sqlite_sidecar_path path "wal"; sqlite_sidecar_path path "shm"] in
    ret tt.

(** [create_new] with mode 0600, an existing file accepted. *)
Definition create_private (path : string) : M World RepositoryError unit := λ w,
  if io_denied path then (Err RepoIo, w)
  else
    match w_modes w !! path with
    | Some _ => (Ok tt, w)
    | None => (Ok tt, set_modes (<[path := mode_600]> (w_modes w)) w)
    end.

Definition prepare_sqlite_file_permissions (path : string) : M World RepositoryError unit :=
  if negb unix || is_sqlite_memory_path path then ret tt
  else create_private path;; restrict_sqlite_file_permissions path.

(** [connect_with(options)]: [connect] tells whether the engine's connection succeeds
    and the files it creates or changes on the way. *)
Definition pool_connect (connect : gmap string Z → bool * gmap string Z)
    : M World RepositoryError unit := λ w,
  (if (connect (w_modes w)).1 then Ok tt else Err (RepoSqlx EngineFailure),
   set_modes (connect (w_modes w)).2 w).

(** [Repository::open]; [engine_files] is what the statements do to the files. *)
Definition Repository_open (connect : gmap string Z → bool * gmap string Z)
    (engine_files : gmap string Z → gmap string Z) (path : string)
    : M World RepositoryError Repository :=
  prepare_sqlite_file_permissions path;;
  pool_connect connect;;
  Repository_setup_schema;;
  Repository_migrate_legacy_bindings;;
  modify (λ w, set_modes (engine_files (w_modes w)) w);;
  restrict_sqlite_file_permissions path;;
  gets (λ w, {| repo_tables :=
                  {| t_allocations := default ∅ (db_allocations (w_database w));
                     t_bindings := default ∅ (db_bindings (w_database w)) |};
                repo_faults := w_faults w |}).
End files.
