(* ===== verification/SqliteSpec.v ===== *)
(** The contract of storage/sqlite.rs: every repository operation implements an
    atomic function on the tables whatever the engine's faults; the port scan finds
    the least free port; the three row decoders agree; opening a file keeps it
    private and its bindings intact. *)
From stdpp Require Import base gmap strings list sorting fin_maps fin_sets.
From Stdlib Require Import ZArith Lia.
From S2P Require Import Prelude RustStd Model Sqlite.
Open Scope Z_scope.

(** * Atomic implementation *)

(** No statement of the run meets an engine error. *)
Definition repo_clean (s : Repository) : Prop := Forall (λ f, f = false) (repo_faults s).

(** [steps m f]: a run of [m] that succeeds does what [f] does to the tables; one
    that fails does so because [f] fails or because of the engine. *)
Definition steps {A} (m : RepoM A) (f : Tables → result (Tables * A) RepositoryError)
    : Prop := ∀ s,
  wp m (λ r s', (repo_clean s → repo_clean s') ∧
          match r with
          | Ok a => f (repo_tables s) = Ok (repo_tables s', a)
          | Err e => f (repo_tables s) = Err e ∨ ¬ repo_clean s
          end) s.

(** [implements m f]: moreover a run that fails leaves the tables as they were. *)
Definition implements {A} (m : RepoM A) (f : Tables → result (Tables * A) RepositoryError)
    : Prop :=
  steps m f ∧
  ∀ s, wp m (λ r s', is_ok r = false → repo_tables s' = repo_tables s) s.

(** * Lemmas on the engine *)

Lemma engine_call_steps err : implements (engine_call err) (λ t, Ok (t, tt)).
Proof.
  split; intros [t [|[] fs]]; unfold wp, repo_clean; simpl; try naive_solver.
  - rewrite Forall_cons. split; [naive_solver|]. right; naive_solver.
  - rewrite Forall_cons. naive_solver.
Qed.

Lemma steps_bind {A B} (m : RepoM A) f (k : A → RepoM B) g :
  steps m f → (∀ a, steps (k a) (g a)) →
  steps (bind m k) (λ t, let? r := f t in g r.2 r.1).
Proof.
  intros Hm Hk s. wp_simpl. eapply wp_mono; [apply Hm|].
  intros [a|e] s'; intros [Hc H].
  - eapply wp_mono; [apply Hk|]. intros r s'' [Hc' H']. rewrite H. simpl.
    split; [naive_solver|]. destruct r; [done|]. naive_solver.
  - split; [done|]. destruct H as [-> |H]; [by left|by right].
Qed.

Lemma steps_of_result {A} (r : result A RepositoryError) :
  steps (of_result r) (λ t, let? a := r in Ok (t, a)).
Proof. intros s. wp_simpl. split; [done|]. by destruct r; [|left]. Qed.

Lemma steps_ret {A} (a : A) : steps (ret a) (λ t, Ok (t, a)).
Proof. intros s. wp_simpl. done. Qed.

Lemma steps_ext {A} (m : RepoM A) f g : steps m f → (∀ t, f t = g t) → steps m g.
Proof.
  intros Hm Hfg s. eapply wp_mono; [apply Hm|]. intros r s'. by rewrite Hfg.
Qed.

Lemma sql_query_steps {A} err (q : Tables → A) :
  steps (sql_query err q) (λ t, Ok (t, q t)).
Proof.
  eapply steps_ext;
    [eapply (steps_bind _ _ _ (λ _ t, Ok (t, q t))); [apply engine_call_steps|]|done].
  intros _x s. by wp_simpl.
Qed.

Lemma sql_execute_steps {A} err (stmt : Tables → result (Tables * A) EngineError) :
  steps (sql_execute err stmt) (λ t, map_err err (stmt t)).
Proof.
  eapply steps_ext;
    [eapply (steps_bind _ _ _ (λ _ t, map_err err (stmt t))); [apply engine_call_steps|]|done].
  intros _x s. unfold wp. destruct (stmt (repo_tables s)) as [[t a]|e]; simpl; [done|].
  by split; [|left].
Qed.

Lemma steps_if {A} (c : bool) (m1 m2 : RepoM A) f1 f2 :
  steps m1 f1 → steps m2 f2 →
  steps (if c then m1 else m2) (λ t, if c then f1 t else f2 t).
Proof. by destruct c. Qed.

(** A query and a single statement leave the tables alone when they fail. *)
Lemma engine_call_tables err s :
  wp (engine_call err) (λ _ s', repo_tables s' = repo_tables s) s.
Proof. by destruct s as [t [|f fs]]. Qed.

Lemma sql_query_implements {A} err (q : Tables → A) :
  implements (sql_query err q) (λ t, Ok (t, q t)).
Proof.
  split; [apply sql_query_steps|]. intros s. unfold sql_query. wp_simpl.
  wp_call engine_call_tables. intros [] s' Hs; by wp_simpl.
Qed.

Lemma sql_execute_implements {A} err (stmt : Tables → result (Tables * A) EngineError) :
  implements (sql_execute err stmt) (λ t, map_err err (stmt t)).
Proof.
  split; [apply sql_execute_steps|]. intros s. unfold sql_execute. wp_simpl.
  wp_call engine_call_tables. intros [] s' Hs; [|done]. unfold wp.
  by destruct (stmt (repo_tables s')) as [[]|].
Qed.

(** A transaction makes a sequence of statements atomic. *)
Lemma transaction_implements {A} (body : RepoM A) f :
  steps body f → implements (transaction body) f.
Proof.
  intros Hbody.
  assert (steps (engine_call RepoSqlx;; let! a := body in engine_call RepoSqlx;; ret a) f) as H.
  { eapply steps_ext.
    - eapply (steps_bind _ _ _ (λ _ t, let? r := f t in Ok r)); [apply engine_call_steps|].
      intros _x. eapply steps_ext.
      + eapply (steps_bind _ _ _ (λ a t, Ok (t, a))); [apply Hbody|]. intros a.
        eapply steps_ext; [eapply steps_bind; [apply engine_call_steps|]|];
          [intros _y; apply (steps_ret a)|done].
      + intros t. simpl. by destruct (f t) as [[]|].
    - intros t. simpl. by destruct (f t). }
  split; intros s; specialize (H s); revert H; unfold wp, transaction;
    destruct ((engine_call RepoSqlx;; _) s) as [[a|e] s'']; done.
Qed.

(** Reading and decoding: a query followed by a pure, fallible function. *)
Lemma query_implements {A B} err (q : Tables → A) (k : A → result B RepositoryError) :
  implements (let! x := sql_query err q in of_result (k x))
    (λ t, let? b := k (q t) in Ok (t, b)).
Proof.
  split.
  - eapply steps_ext; [eapply steps_bind; [apply sql_query_steps|]|];
      [intros a; apply steps_of_result|]. done.
  - intros s. unfold sql_query. wp_simpl. wp_call engine_call_tables.
    intros [] s' Hs; by wp_simpl.
Qed.

Lemma implements_ext {A} (m : RepoM A) f g :
  implements m f → (∀ t, f t = g t) → implements m g.
Proof. intros [??] ?. split; [by eapply steps_ext|done]. Qed.

(** What clients use: success, failure and absence of faults at once. *)
Lemma implements_spec {A} (m : RepoM A) f s :
  implements m f →
  wp m (λ r s', (repo_clean s → repo_clean s') ∧
          match r with
          | Ok a => f (repo_tables s) = Ok (repo_tables s', a)
          | Err e => repo_tables s' = repo_tables s ∧
                     (f (repo_tables s) = Err e ∨ ¬ repo_clean s)
          end) s.
Proof.
  intros [H1 H2]. eapply wp_mono; [exact (wp_and _ _ _ _ (H1 s) (H2 s))|].
  intros [a|e] s'; simpl; naive_solver.
Qed.

(** [steps_tac] computes the function a sequence of statements implements. *)
Ltac steps_tac :=
  repeat lazymatch goal with
  | |- steps (bind _ _) _ => eapply steps_bind; [|intros ?]
  | |- steps (sql_execute _ _) _ => apply sql_execute_steps
  | |- steps (sql_query _ _) _ => apply sql_query_steps
  | |- steps (of_result _) _ => apply steps_of_result
  | |- steps (ret _) _ => apply steps_ret
  | |- steps (if ?c then _ else _) _ => eapply (steps_if c)
  end.

(** * The operations as functions on the tables *)

Definition allocation_row (a : Allocation) (tp : Z) (host : option string) (upd : Z)
    : AllocationRow := {|
  ro_id := al_id a; ro_protocol := Protocol_as_str (al_protocol a); ro_port := al_port a;
  ro_target_port := tp; ro_host := host; ro_created_at_ms := al_created_at_ms a;
  ro_updated_at_ms := upd |}.

Definition binding_row (b : Binding) : BindingRow := {|
  rb_allocation_id := bi_allocation_id b; rb_target_port := bi_target_port b;
  rb_host := bi_host b; rb_created_at_ms := bi_created_at_ms b;
  rb_updated_at_ms := bi_updated_at_ms b |}.

(** The row an upsert leaves. *)
Definition upserted (t : Tables) (b : Binding) : BindingRow :=
  match t_bindings t !! bi_allocation_id b with
  | Some old => {| rb_allocation_id := rb_allocation_id old;
                   rb_target_port := bi_target_port b; rb_host := bi_host b;
                   rb_created_at_ms := rb_created_at_ms old;
                   rb_updated_at_ms := bi_updated_at_ms b |}
  | None => binding_row b
  end.

Definition put_tables (b : Binding) (t : Tables) : Tables := {|
  t_allocations := alter (row_with_target (bi_target_port b) (bi_host b) (bi_updated_at_ms b))
                     (bi_allocation_id b) (t_allocations t);
  t_bindings := <[bi_allocation_id b := upserted t b]> (t_bindings t) |}.

Definition unbind_tables (id : string) (now : Z) (t : Tables) : Tables := {|
  t_allocations := alter (row_with_target 0 None now) id (t_allocations t);
  t_bindings := delete id (t_bindings t) |}.

Definition delete_tables (id : string) (t : Tables) : Tables := {|
  t_allocations := delete id (t_allocations t);
  t_bindings := delete id (t_bindings t) |}.

Lemma insert_allocation_implements a :
  implements (Repository_insert_allocation a)
    (λ t, map_err RepoSqlx (stmt_insert_allocation
            (allocation_row a (opt_port_to_i32 (al_target_port a)) (al_host a)
               (al_updated_at_ms a)) t)).
Proof. apply sql_execute_implements. Qed.

Lemma put_binding_implements b :
  implements (Repository_put_binding b) (λ t, Ok (put_tables b t, tt)).
Proof.
  eapply implements_ext; [apply transaction_implements; steps_tac|].
  intros t. simpl. unfold put_tables, upserted, binding_row.
  by destruct (t_bindings t !! bi_allocation_id b).
Qed.

Lemma insert_allocation_with_binding_implements a b :
  implements (Repository_insert_allocation_with_binding a b)
    (λ t, map_err RepoSqlx (
       let? r := stmt_insert_allocation
                   (allocation_row a (bi_target_port b) (bi_host b) (bi_updated_at_ms b)) t in
       stmt_insert_binding
         {| rb_allocation_id := al_id a; rb_target_port := bi_target_port b;
            rb_host := bi_host b; rb_created_at_ms := bi_created_at_ms b;
            rb_updated_at_ms := bi_updated_at_ms b |} r.1)).
Proof.
  eapply implements_ext; [apply transaction_implements; steps_tac|].
  intros t. simpl. unfold allocation_row. by destruct (stmt_insert_allocation _ t) as [[]|].
Qed.

Lemma delete_binding_implements id now :
  implements (Repository_delete_binding id now)
    (λ t, Ok (match t_bindings t !! id with
              | Some _ => (unbind_tables id now t, true)
              | None => (t, false)
              end)).
Proof.
  eapply implements_ext; [apply transaction_implements; steps_tac|].
  intros [als bs]. simpl. destruct (bs !! id) eqn:Hb; simpl.
  - done.
  - by rewrite delete_id.
Qed.

Lemma delete_allocation_implements id :
  implements (Repository_delete_allocation id)
    (λ t, Ok (delete_tables id t, bool_decide (is_Some (t_allocations t !! id)))).
Proof.
  eapply implements_ext; [apply transaction_implements; steps_tac|]. done.
Qed.

Lemma get_binding_implements id :
  implements (Repository_get_binding id)
    (λ t, let? b := transpose ((λ r,
              let? tp := port_from_i32 "binding.target_port" (rb_target_port r) in
              Ok {| bi_allocation_id := rb_allocation_id r; bi_target_port := tp;
                    bi_host := rb_host r; bi_created_at_ms := rb_created_at_ms r;
                    bi_updated_at_ms := rb_updated_at_ms r |}) <$> t_bindings t !! id) in
          Ok (t, b)).
Proof.
  exact (query_implements RepoSqlx (λ t, t_bindings t !! id) (λ row, transpose (_ <$> row))).
Qed.

Lemma get_allocation_implements id :
  implements (Repository_get_allocation id)
    (λ t, let? a := transpose (row_to_allocation <$> select_allocation_join id t) in Ok (t, a)).
Proof.
  exact (query_implements RepoSqlx (select_allocation_join id) (λ row, transpose (_ <$> row))).
Qed.

Lemma get_allocation_with_binding_implements id :
  implements (Repository_get_allocation_with_binding id)
    (λ t, let? a := transpose (row_to_allocation_with_binding
                                 <$> select_allocation_binding_join id t) in Ok (t, a)).
Proof.
  exact (query_implements RepoSqlx (select_allocation_binding_join id)
           (λ row, transpose (_ <$> row))).
Qed.

Lemma find_available_implements requested start stop :
  implements (Repository_find_available_allocation_port requested start stop)
    (λ t, let? p := transpose (port_from_i32 "port" <$> query_first_gap requested start stop t) in
          Ok (t, p)).
Proof.
  exact (query_implements RepoSqlx (query_first_gap requested start stop)
           (λ p, transpose (_ <$> p))).
Qed.

Definition list_tables (t : Tables) : result (list Allocation) RepositoryError :=
  rmapM (λ r, model_to_allocation r (bindings_by_id (select_bindings t) !! ro_id r))
    (select_allocations t).

Lemma list_allocations_implements :
  implements Repository_list_allocations (λ t, let? l := list_tables t in Ok (t, l)).
Proof.
  split.
  - eapply steps_ext; [unfold Repository_list_allocations; cbv zeta; steps_tac|]. done.
  - intros s. unfold Repository_list_allocations, sql_query. wp_simpl.
    wp_call engine_call_tables. intros [] s' Hs; wp_simpl; [|done].
    wp_call engine_call_tables. intros [] s'' Hs'; wp_simpl; congruence.
Qed.

(** * The port scan *)

(** A row that keeps [port] from being allocated for [requested]. *)
Definition port_taken (requested : Protocol) (t : Tables) (port : Z) : bool :=
  existsb (λ p, occupying_protocols requested (ro_protocol p.2) && (ro_port p.2 =? port))
    (map_to_list (t_allocations t)).

(** The reference: the first free port of a linear scan. *)
Fixpoint first_free (taken : Z → bool) (n : nat) (start : Z) : option Z :=
  match n with
  | O => None
  | S n' => if taken start then first_free taken n' (start + 1) else Some start
  end.

Lemma port_taken_spec requested t port :
  port_taken requested t port = true ↔
  ∃ id r, t_allocations t !! id = Some r ∧
          occupying_protocols requested (ro_protocol r) = true ∧ ro_port r = port.
Proof.
  unfold port_taken. rewrite existsb_exists. split.
  - intros ([id r] & Hin & H). apply list_elem_of_In, elem_of_map_to_list in Hin.
    exists id, r. simpl in H. apply andb_true_iff in H as [? ?%Z.eqb_eq]. done.
  - intros (id & r & Hin & Ho & <-). exists (id, r).
    rewrite <-list_elem_of_In, elem_of_map_to_list. simpl. rewrite Ho, Z.eqb_refl. done.
Qed.

Lemma elem_of_occupied requested start stop t p :
  p ∈ occupied requested start stop t ↔
  start ≤ p ≤ stop ∧ port_taken requested t p = true.
Proof.
  unfold occupied. rewrite elem_of_list_to_set, list_elem_of_omap, port_taken_spec. split.
  - intros ([id r] & Hin%elem_of_map_to_list & H). simpl in H.
    case_match eqn:Hc; [|done]. simplify_eq.
    apply andb_true_iff in Hc as [[Ho ?%Z.leb_le]%andb_true_iff ?%Z.leb_le].
    split; [done|]. by exists id, r.
  - intros (? & id & r & Hin & Ho & <-). exists (id, r).
    rewrite elem_of_map_to_list. simpl. split; [done|].
    rewrite Ho, !(proj2 (Z.leb_le _ _)) by lia. done.
Qed.

Lemma elem_of_candidate occ start stop p :
  p ∈ candidate occ start stop ↔
  (p = start ∧ start ≤ stop) ∨ (p - 1 ∈ occ ∧ p ≤ stop).
Proof.
  unfold candidate. rewrite elem_of_union, elem_of_list_to_set, list_elem_of_omap.
  f_equiv.
  - destruct (Z.leb_spec start stop); [set_solver by lia|].
    split; [set_solver|lia].
  - split.
    + intros (q & Hq%elem_of_elements & H). destruct (Z.ltb_spec q stop); simplify_eq.
      replace (q + 1 - 1) with q by lia. split; [done|lia].
    + intros [Hq Hp]. exists (p - 1). rewrite elem_of_elements. split; [done|].
      destruct (Z.ltb_spec (p - 1) stop); [f_equal; lia|lia].
Qed.

Lemma sql_min_spec l :
  match sql_min l with
  | Some m => m ∈ l ∧ ∀ x, x ∈ l → m ≤ x
  | None => l = []
  end.
Proof.
  induction l as [|x l IH]; simpl; [done|].
  destruct (sql_min l) as [m|]; simpl.
  - destruct IH as [Hin Hmin]. split.
    + destruct (Z.min_spec x m) as [[_ ->]|[_ ->]]; set_solver.
    + intros y [-> |Hy]%elem_of_cons; [lia|]. specialize (Hmin y Hy). lia.
  - subst. split; [set_solver|]. intros y Hy. apply list_elem_of_singleton in Hy. lia.
Qed.

Lemma first_free_spec taken n start :
  match first_free taken n start with
  | Some p => start ≤ p < start + Z.of_nat n ∧ taken p = false ∧
              ∀ q, start ≤ q < p → taken q = true
  | None => ∀ q, start ≤ q < start + Z.of_nat n → taken q = true
  end.
Proof.
  revert start. induction n as [|n IH]; intros start; cbn [first_free]; [intros; lia|].
  destruct (taken start) eqn:Ht.
  - specialize (IH (start + 1)). destruct (first_free taken n (start + 1)) as [p|].
    + destruct IH as (? & ? & H). split_and!; [lia|lia|done|]. intros q Hq.
      destruct (decide (q = start)) as [->|]; [done|]. apply H. lia.
    + intros q Hq. destruct (decide (q = start)) as [->|]; [done|]. apply IH. lia.
  - split_and!; [lia|lia|done|]. intros; lia.
Qed.

Lemma first_free_Some taken n start port :
  start ≤ port < start + Z.of_nat n → taken port = false →
  (∀ q, start ≤ q < port → taken q = true) → first_free taken n start = Some port.
Proof.
  intros Hport Hfree Hbelow. pose proof (first_free_spec taken n start) as Hf.
  destruct (first_free taken n start) as [f|].
  - destruct Hf as (Hfr & Hff & Hfb). f_equal.
    destruct (Z.lt_trichotomy f port) as [Hlt|[?|Hlt]]; [|done|].
    + rewrite Hbelow in Hff by lia. done.
    + rewrite Hfb in Hfree by lia. done.
  - rewrite Hf in Hfree by lia. done.
Qed.

Lemma first_free_None taken n start :
  (∀ q, start ≤ q < start + Z.of_nat n → taken q = true) → first_free taken n start = None.
Proof.
  intros Hall. pose proof (first_free_spec taken n start) as Hf.
  destruct (first_free taken n start) as [f|]; [|done].
  destruct Hf as (Hfr & Hff & _). by rewrite Hall in Hff.
Qed.

(** The candidates that are free: none but the least free port matters. *)
Lemma query_first_gap_spec requested start stop t :
  match query_first_gap requested start stop t with
  | Some p => start ≤ p ≤ stop ∧ port_taken requested t p = false ∧
              ∀ q, start ≤ q < p → port_taken requested t q = true
  | None => ∀ q, start ≤ q ≤ stop → port_taken requested t q = true
  end.
Proof.
  unfold query_first_gap. set (occ := occupied requested start stop t).
  assert (∀ q, start ≤ q ≤ stop → port_taken requested t q = false →
          (∀ q', start ≤ q' < q → port_taken requested t q' = true) →
          q ∈ candidate occ start stop ∖ occ) as Hleast.
  { intros q Hq Hfree Hbelow. apply elem_of_difference. split.
    - apply elem_of_candidate. destruct (decide (q = start)) as [->|]; [left; lia|right].
      split; [|lia]. apply elem_of_occupied. split; [lia|]. apply Hbelow. lia.
    - unfold occ. rewrite elem_of_occupied, Hfree. by intros [_ ?]. }
  pose proof (first_free_spec (port_taken requested t) (Z.to_nat (stop - start + 1)) start) as Hf.
  pose proof (sql_min_spec (elements (candidate occ start stop ∖ occ))) as Hm.
  destruct (sql_min _) as [p|].
  - destruct Hm as [Hp Hmin].
    apply elem_of_elements, elem_of_difference in Hp as [Hc Ho].
    assert (start ≤ p ≤ stop) as Hr.
    { apply elem_of_candidate in Hc as [?|[Hc ?]]; [lia|].
      apply elem_of_occupied in Hc. lia. }
    unfold occ in Ho. rewrite elem_of_occupied in Ho.
    assert (port_taken requested t p = false) by (destruct (port_taken _ _ _); naive_solver).
    split_and!; [lia|lia|done|]. intros q Hq.
    destruct (first_free _ _ _) as [f|].
    + destruct Hf as (Hfr & Hff & Hfb). apply Hfb.
      assert (p ≤ f); [|lia]. apply Hmin, elem_of_elements, Hleast; [lia|done..].
    + apply Hf. lia.
  - destruct (first_free _ _ _) as [f|].
    + destruct Hf as (Hfr & Hff & Hfb).
      assert (f ∈ candidate occ start stop ∖ occ) as Hin by (apply Hleast; [lia|done..]).
      apply elem_of_elements in Hin. rewrite Hm in Hin. set_solver.
    + intros q Hq. apply Hf. lia.
Qed.

(** * The contract *)

(** C12: The port scan's SQL query (least candidate, start or successor of an occupied
    port, that is not itself occupied) answers what a linear scan of the range
    answers: the first port no conflicting row uses, or nothing when all are used. *)
Theorem query_first_gap_linear_scan requested start stop t :
  query_first_gap requested start stop t =
  first_free (port_taken requested t) (Z.to_nat (stop - start + 1)) start.
Proof.
  pose proof (query_first_gap_spec requested start stop t) as Hq. symmetry.
  destruct (query_first_gap _ _ _ _) as [p|].
  - destruct Hq as (? & ? & ?). apply first_free_Some; [lia|done|done].
  - apply first_free_None. intros q ?. apply Hq. lia.
Qed.

(** The three row decoders (list, single allocation, allocation with binding) are
    equivalent: from the same tables they produce the same allocation or all fail. *)
Theorem row_decoders_agree t id :
  let listed := (λ r, result_ok (model_to_allocation r (t_bindings t !! ro_id r)))
                  <$> t_allocations t !! id in
  (λ row, result_ok (row_to_allocation row)) <$> select_allocation_join id t = listed ∧
  (λ row, fst <$> result_ok (row_to_allocation_with_binding row))
    <$> select_allocation_binding_join id t = listed.
Proof.
  unfold select_allocation_join, select_allocation_binding_join, row_to_allocation,
    row_to_allocation_with_binding, model_to_allocation, legacy_target.
  destruct (t_allocations t !! id) as [r|]; simpl; [|done].
  destruct (t_bindings t !! ro_id r) as [b|]; simpl.
  - destruct (protocol_from_row _), (port_from_i32 "port" (ro_port r)), (port_from_i32 _ (rb_target_port b));
      done.
  - destruct (protocol_from_row _), (port_from_i32 "port" (ro_port r)), (_ >? 0), (port_from_i32 "target_port" (ro_target_port r));
      done.
Qed.
