(* ===== verification/SqliteOpen.v ===== *)
(** Opening a database file (storage/sqlite.rs: [Repository::open]): the migration
    of legacy rows and the private permissions of the files. *)
From stdpp Require Import base gmap strings list fin_maps.
From Stdlib Require Import ZArith Lia.
From S2P Require Import Prelude RustStd Model Sqlite.
Open Scope Z_scope.

(** The tables a database holds, missing tables read as empty ones. *)
Definition db_tables (db : Database) : Tables := {|
  t_allocations := default ∅ (db_allocations db);
  t_bindings := default ∅ (db_bindings db) |}.

(** What the migration makes of the tables: legacy rows with a target get a binding
    row unless they have one. *)
Definition migrated (t : Tables) : Tables := {|
  t_allocations := t_allocations t;
  t_bindings := t_bindings t ∪ omap legacy_binding (t_allocations t) |}.

(** A statement either does its work on the database or leaves it alone. *)
Lemma ddl_spec stmt w :
  wp (ddl stmt)
    (λ r w', w_modes w' = w_modes w ∧
       match r with
       | Ok _ => stmt (w_database w) = Ok (w_database w')
       | Err _ => w_database w' = w_database w
       end) w.
Proof.
  unfold wp, ddl. destruct w as [modes db [|[] fs]]; simpl; [|done|];
    by destruct (stmt db).
Qed.

Lemma setup_schema_spec w :
  wp Repository_setup_schema
    (λ r w', w_modes w' = w_modes w ∧
       db_tables (w_database w') = db_tables (w_database w) ∧
       (is_ok r = true →
        db_unique_index (w_database w') = true ∧
        (db_unique_index (w_database w) = false →
         unique_protocol_port (t_allocations (db_tables (w_database w))) = true))) w.
Proof.
  unfold Repository_setup_schema. wp_simpl.
  wp_call ddl_spec. intros [] w1 [Hm1 H1]; simpl in *; [|by rewrite Hm1, H1].
  wp_call ddl_spec. intros [] w2 [Hm2 H2]; simpl in *;
    [|injection H1 as Heq; rewrite Hm2, H2, <-Heq; by split_and!].
  injection H1 as H1. injection H2 as H2.
  wp_call ddl_spec. intros [] w3 [Hm3 H3]; simpl in *;
    [|rewrite Hm3, H3, <-H2, <-H1, Hm2, Hm1; by split_and!].
  unfold create_unique_index in H3. rewrite <-H2, <-H1 in H3. simpl in H3.
  destruct (db_unique_index (w_database w) || _) eqn:Hu; [|done].
  injection H3 as H3.
  wp_call ddl_spec. intros [] w4 [Hm4 H4]; simpl in *.
  - injection H4 as H4. rewrite Hm4, Hm3, Hm2, Hm1, <-H4, <-H3. unfold db_tables; simpl.
    split_and!; [done..|]. intros _. split; [done|]. intros Hi. by rewrite Hi in Hu.
  - rewrite Hm4, H4, Hm3, Hm2, Hm1, <-H3. by split_and!.
Qed.

Section open.
  Context (unix : bool) (io_denied : string → bool).
  Context (connect : gmap string Z → bool * gmap string Z).
  Context (engine_files : gmap string Z → gmap string Z) (path : string).

Lemma restrict_one_spec p w :
  wp (restrict_one io_denied p)
    (λ r w', w_database w' = w_database w ∧
       (∀ q, q ≠ p → w_modes w' !! q = w_modes w !! q) ∧
       (is_ok r = true → ∀ m, w_modes w' !! p = Some m → m = mode_600)) w.
Proof.
  unfold wp, restrict_one. destruct (io_denied p); [done|].
  destruct (w_modes w !! p) as [m|] eqn:Hm; simpl; [|by rewrite Hm].
  split_and!; [done| |].
  - intros q Hq. by rewrite lookup_insert_ne.
  - intros _ m'. rewrite lookup_insert_eq. congruence.
Qed.

(** [private files]: the listed files, where they exist, are the owner's alone. *)
Definition private_files (files : list string) (modes : gmap string Z) : Prop :=
  ∀ p m, p ∈ files → modes !! p = Some m → m = mode_600.

Definition database_files : list string :=
  [path; sqlite_sidecar_path path "wal"; sqlite_sidecar_path path "shm"].

Lemma restrict_list_spec files w :
  NoDup files →
  wp (mapM (restrict_one io_denied) files)
    (λ r w', w_database w' = w_database w ∧
       (∀ q, q ∉ files → w_modes w' !! q = w_modes w !! q) ∧
       (is_ok r = true → private_files files (w_modes w'))) w.
Proof.
  revert w. induction files as [|p files IH]; intros w Hnd; simpl mapM.
  { wp_simpl. split_and!; [done..|]. intros _ q m Hq. set_solver. }
  apply NoDup_cons in Hnd as [Hp Hnd]. wp_simpl.
  wp_call restrict_one_spec. intros [[]|e] w1 (Hdb & Hne & Hm); wp_simpl.
  - eapply wp_mono; [by apply IH|]. simpl. intros r w2 (Hdb2 & Hne2 & Hm2).
    destruct r as [ys|e]; wp_simpl.
    + split_and!; [congruence| |].
      * intros q Hq. rewrite Hne2, Hne by set_solver. done.
      * intros _ q m [-> |Hq]%elem_of_cons; [|by apply Hm2].
        rewrite Hne2 by done. by apply Hm.
    + split_and!; [congruence| |done]. intros q Hq. rewrite Hne2, Hne by set_solver. done.
  - split_and!; [done| |done]. intros q Hq. apply Hne. set_solver.
Qed.

Lemma database_files_NoDup : NoDup database_files.
Proof.
  assert (∀ s, sqlite_sidecar_path path s ≠ path) as Hne.
  { intros s. unfold sqlite_sidecar_path. induction path as [|c p IH]; [done|].
    intros [= H]. by apply IH. }
  assert (sqlite_sidecar_path path "wal" ≠ sqlite_sidecar_path path "shm") as Hws.
  { unfold sqlite_sidecar_path. clear Hne. induction path as [|c p IH]; [done|].
    intros [= H]. by apply IH. }
  unfold database_files. repeat constructor; set_solver.
Qed.

Lemma restrict_spec w :
  wp (restrict_sqlite_file_permissions unix io_denied path)
    (λ r w', w_database w' = w_database w ∧
       (unix = true → is_sqlite_memory_path path = false → is_ok r = true →
        private_files database_files (w_modes w'))) w.
Proof.
  unfold restrict_sqlite_file_permissions. destruct (negb unix || _) eqn:Hc; wp_simpl.
  { split; [done|]. intros -> Hmem. by rewrite Hmem in Hc. }
  eapply wp_mono; [apply (restrict_list_spec database_files), database_files_NoDup|].
  intros [ys|e] w' (Hdb & _ & Hm); wp_simpl; [|done]. split; [done|]. auto.
Qed.

Lemma pool_connect_spec w :
  wp (pool_connect connect) (λ _ w', w_database w' = w_database w) w.
Proof. done. Qed.

Lemma prepare_spec w :
  wp (prepare_sqlite_file_permissions unix io_denied path)
    (λ _ w', w_database w' = w_database w) w.
Proof.
  unfold prepare_sqlite_file_permissions. destruct (negb unix || _); wp_simpl; [done|].
  unfold wp, create_private. destruct (io_denied path); simpl; [done|].
  destruct (w_modes w !! path); simpl;
    apply (wp_mono _ _ (λ _ w', w_database w' = w_database w) _ (restrict_spec _));
    naive_solver.
Qed.

(** Everything [open] promises when it succeeds. *)
Lemma open_spec w :
  wp (Repository_open unix io_denied connect engine_files path)
    (λ r w', ∀ repo, r = Ok repo →
       repo_tables repo = migrated (db_tables (w_database w)) ∧
       db_tables (w_database w') = repo_tables repo ∧
       db_unique_index (w_database w') = true ∧
       (db_unique_index (w_database w) = false →
        unique_protocol_port (t_allocations (db_tables (w_database w))) = true) ∧
       (unix = true → is_sqlite_memory_path path = false →
        private_files database_files (w_modes w'))) w.
Proof.
  unfold Repository_open. wp_simpl.
  wp_call prepare_spec. intros [] w1 H1; [|done].
  wp_call pool_connect_spec. intros [] w1' H1'; [|done]. rewrite H1 in H1'.
  wp_call setup_schema_spec. intros [] w2 (_ & Ht2 & H2); simpl in *; [|done].
  destruct (H2 eq_refl) as [Hu2 Huniq]. rewrite H1' in Ht2, Huniq.
  unfold Repository_migrate_legacy_bindings.
  wp_call ddl_spec. intros [] w3 (_ & H3); [|done]. injection H3 as H3.
  wp_simpl. wp_call restrict_spec. intros [] w4 (Hd4 & Hp4); wp_simpl; [|done].
  simpl in Hd4. intros repo [= <-]. rewrite Hd4, <-H3. simpl.
  unfold migrated, db_tables in *. simpl in *. injection Ht2 as -> ->.
  split_and!; auto.
Qed.

Lemma unique_protocol_port_spec (m : gmap string AllocationRow) :
  unique_protocol_port m = true → ∀ i j r r', i ≠ j → m !! i = Some r → m !! j = Some r' →
  ¬ same_protocol_port r r'.
Proof.
  unfold unique_protocol_port. rewrite forallb_forall. intros Hm i j r r' Hij Hi%elem_of_map_to_list Hj%elem_of_map_to_list Hs.
  specialize (Hm (i, r) (proj1 (list_elem_of_In _ _) Hi)). rewrite forallb_forall in Hm.
  specialize (Hm (j, r') (proj1 (list_elem_of_In _ _) Hj)). simpl in Hm.
  by rewrite bool_decide_false, bool_decide_true in Hm.
Qed.

(** A row of the bindings after the migration is the row before it, or made from the
    columns of a legacy allocation. *)
Lemma migrated_bindings t id b :
  t_bindings (migrated t) !! id = Some b ↔
  t_bindings t !! id = Some b ∨
  t_bindings t !! id = None ∧ ∃ r, t_allocations t !! id = Some r ∧ 0 < ro_target_port r ∧
    b = {| rb_allocation_id := ro_id r; rb_target_port := ro_target_port r; rb_host := ro_host r;
           rb_created_at_ms := ro_created_at_ms r; rb_updated_at_ms := ro_updated_at_ms r |}.
Proof.
  unfold migrated. simpl. rewrite lookup_union_Some_raw, lookup_omap. unfold legacy_binding.
  split; (intros [?|[Hn Hb]]; [by left|right; split; [done|]]).
  - apply bind_Some in Hb as (r & Hr & Hb). rewrite Z.gtb_ltb in Hb.
    destruct (Z.ltb_spec 0 (ro_target_port r)); [|done]. injection Hb as <-. by exists r.
  - destruct Hb as (r & -> & Hlt & ->). simpl. rewrite Z.gtb_ltb.
    by destruct (Z.ltb_spec 0 (ro_target_port r)); [|lia].
Qed.

(** An allocation reads the same before and after the migration. *)
Lemma migrated_reads t id r a :
  t_allocations t !! id = Some r → ro_id r = id →
  row_to_allocation <$> select_allocation_join id t = Some (Ok a) →
  row_to_allocation <$> select_allocation_join id (migrated t) = Some (Ok a).
Proof.
  intros Hr Hid. unfold select_allocation_join. rewrite Hr. simpl. rewrite Hr. simpl. rewrite Hid.
  rewrite lookup_union, lookup_omap, Hr. simpl. unfold legacy_binding.
  destruct (t_bindings t !! id) as [b|]; simpl.
  - by destruct (if ro_target_port r >? 0 then _ else _).
  - rewrite (left_id_L None (∪)). unfold row_to_allocation, legacy_target, port_from_i32. simpl.
    destruct (ro_target_port r >? 0) eqn:Hp; simpl; rewrite ?Hp; [|done].
    destruct (ro_target_port r <? 0); simpl; [done|].
    destruct (ro_target_port r <=? u16_max); simpl; [|done]. by destruct (ro_host r).
Qed.

(** C29: what opening a repository leaves when it succeeds. Every allocation row stays. A
    binding row stays, too, and one is added for each allocation row that has a positive
    target port and no binding: with that port, the row's host and its two times. There
    are no others. Every allocation that could be read before (with the legacy columns)
    reads the same after it. And no two rows have the same protocol and port, if the file
    had no unique index before. *)
Theorem open_migrates w repo w'
    (Hrun : Repository_open unix io_denied connect engine_files path w = (Ok repo, w')) :
  let t := db_tables (w_database w) in
  let t' := repo_tables repo in
  t_allocations t' = t_allocations t ∧
  (∀ id b, t_bindings t' !! id = Some b ↔
     t_bindings t !! id = Some b ∨
     t_bindings t !! id = None ∧ ∃ r, t_allocations t !! id = Some r ∧ 0 < ro_target_port r ∧
       b = {| rb_allocation_id := ro_id r; rb_target_port := ro_target_port r; rb_host := ro_host r;
              rb_created_at_ms := ro_created_at_ms r; rb_updated_at_ms := ro_updated_at_ms r |}) ∧
  (∀ id r a, t_allocations t !! id = Some r → ro_id r = id →
     row_to_allocation <$> select_allocation_join id t = Some (Ok a) →
     row_to_allocation <$> select_allocation_join id t' = Some (Ok a)) ∧
  (db_unique_index (w_database w) = false → ∀ i j r r', i ≠ j →
     t_allocations t' !! i = Some r → t_allocations t' !! j = Some r' →
     ¬ (ro_protocol r = ro_protocol r' ∧ ro_port r = ro_port r')).
Proof.
  cbv zeta. destruct (wp_elim _ _ _ _ _ (open_spec w) Hrun repo eq_refl) as (-> & _ & _ & Hu & _).
  split_and!; [done|apply migrated_bindings|intros id r a; apply migrated_reads|].
  intros Hno. apply unique_protocol_port_spec, Hu, Hno.
Qed.

(** C30: On Unix, when opening a database path other than ":memory:" succeeds, the
    database file and its -wal and -shm files, where they exist, have mode 0600,
    whatever modes they had before and whatever files the engine created. *)
Theorem open_files_private w repo w'
    (Hunix : unix = true) (Hpath : is_sqlite_memory_path path = false)
    (Hrun : Repository_open unix io_denied connect engine_files path w = (Ok repo, w')) :
  ∀ p m,
    p ∈ [path; sqlite_sidecar_path path "wal"; sqlite_sidecar_path path "shm"] →
    w_modes w' !! p = Some m → m = mode_600.
Proof.
  destruct (wp_elim _ _ _ _ _ (open_spec w) Hrun repo eq_refl) as (_ & _ & _ & _ & Hp).
  by apply Hp.
Qed.
End open.

(** Opening is idempotent: opening the file again that a first opening left
    yields the same tables, so the migration never runs twice to a different end. *)
Theorem open_idempotent unix io_denied connect engine_files path w repo w' repo' w''
    (Hrun : Repository_open unix io_denied connect engine_files path w = (Ok repo, w'))
    (Hrun' : Repository_open unix io_denied connect engine_files path w' = (Ok repo', w'')) :
  repo_tables repo' = repo_tables repo.
Proof.
  destruct (wp_elim _ _ _ _ _ (open_spec _ _ _ _ _ w) Hrun repo eq_refl) as (Ht & Hdb & _).
  destruct (wp_elim _ _ _ _ _ (open_spec _ _ _ _ _ w') Hrun' repo' eq_refl) as (Ht' & _).
  rewrite Ht', Hdb, Ht. unfold migrated. simpl. f_equal.
  rewrite <-(assoc_L (∪)). by rewrite (map_union_idemp (omap _ _)).
Qed.
