(* ===== verification/Store.v ===== *)
(** The repository's abstract state: a map from allocation identifiers to the
    allocation and its binding. The invariant of the two tables
    ([tables_wf]), the abstraction function, and the refinement of the statements
    of storage/sqlite.rs by functions on the map. *)
From stdpp Require Import base gmap strings list sorting fin_maps.
From Stdlib Require Import ZArith Lia.
From S2P Require Import Prelude RustStd Model Sqlite SqliteSpec.
Open Scope Z_scope.

(** * The invariant *)

(** Two protocols that cannot share a port. *)
Definition overlaps (p q : Protocol) : bool :=
  match p, q with Tcp, Udp | Udp, Tcp => false | _, _ => true end.

(** What one allocation's row and the binding row with its key look like: the
    legacy columns of the allocation mirror the binding. *)
Definition row_wf (id : string) (r : AllocationRow) (ob : option BindingRow) : Prop :=
  ro_id r = id ∧
  (∃ p, ro_protocol r = Protocol_as_str p) ∧
  is_u16 (ro_port r) ∧
  match ob with
  | Some b => rb_allocation_id b = id ∧ is_u16 (rb_target_port b) ∧
              ro_target_port r = rb_target_port b ∧ ro_host r = rb_host b
  | None => ro_target_port r = 0 ∧ ro_host r = None
  end.

Definition rows_disjoint (r1 r2 : AllocationRow) : Prop :=
  ∀ p1 p2, ro_protocol r1 = Protocol_as_str p1 → ro_protocol r2 = Protocol_as_str p2 →
    overlaps p1 p2 = true → ro_port r1 ≠ ro_port r2.

Record tables_wf (t : Tables) : Prop := {
  wf_rows id r : t_allocations t !! id = Some r → row_wf id r (t_bindings t !! id);
  wf_bindings id : is_Some (t_bindings t !! id) → is_Some (t_allocations t !! id);
  wf_disjoint i j r1 r2 :
    t_allocations t !! i = Some r1 → t_allocations t !! j = Some r2 → i ≠ j →
    rows_disjoint r1 r2;
}.

(** * The abstraction *)
Abbreviation Store := (gmap string (Allocation * option Binding)).

Definition abstract (t : Tables) : Store :=
  map_imap (λ id _, select_allocation_binding_join id t ≫= λ row,
                    result_ok (row_to_allocation_with_binding row)) (t_allocations t).

Definition binding_of (b : BindingRow) : Binding := {|
  bi_allocation_id := rb_allocation_id b; bi_target_port := rb_target_port b;
  bi_host := rb_host b; bi_created_at_ms := rb_created_at_ms b;
  bi_updated_at_ms := rb_updated_at_ms b |}.

Definition allocation_of (r : AllocationRow) (p : Protocol) (ob : option BindingRow)
    : Allocation := {|
  al_id := ro_id r; al_protocol := p; al_port := ro_port r;
  al_target_port := rb_target_port <$> ob; al_host := ob ≫= rb_host;
  al_created_at_ms := ro_created_at_ms r; al_updated_at_ms := ro_updated_at_ms r |}.

Lemma port_from_i32_u16 field v : is_u16 v → port_from_i32 field v = Ok v.
Proof.
  unfold port_from_i32, is_u16, u16_max. intros Hv.
  destruct (Z.ltb_spec v 0), (Z.leb_spec v 65535); lia || done.
Qed.

Lemma protocol_from_row_as_str p : protocol_from_row (Protocol_as_str p) = Ok p.
Proof. by destruct p. Qed.

(** Rows that keep the invariant decode, and to what is expected. *)
Lemma abstract_lookup t id r p :
  t_allocations t !! id = Some r → row_wf id r (t_bindings t !! id) →
  ro_protocol r = Protocol_as_str p →
  abstract t !! id =
    Some (allocation_of r p (t_bindings t !! id), binding_of <$> t_bindings t !! id).
Proof.
  intros Hr (Hid & _ & Hport & Hmirror) Hp.
  unfold abstract. rewrite map_lookup_imap, Hr. simpl.
  unfold select_allocation_binding_join. rewrite Hr. simpl. rewrite Hid.
  unfold row_to_allocation_with_binding, legacy_target. simpl.
  rewrite Hp, protocol_from_row_as_str, (port_from_i32_u16 "port") by done.
  destruct (t_bindings t !! id) as [b|] eqn:Hb; simpl.
  - destruct Hmirror as (Hbid & Hbp & Htp & Hh).
    rewrite port_from_i32_u16 by done. simpl. rewrite Hh.
    unfold allocation_of, binding_of. simpl. by destruct (rb_host b).
  - destruct Hmirror as [Htp Hh]. rewrite Htp, Hh. done.
Qed.

Lemma abstract_lookup_wf t id r :
  tables_wf t → t_allocations t !! id = Some r →
  ∃ p, ro_protocol r = Protocol_as_str p ∧
    abstract t !! id =
      Some (allocation_of r p (t_bindings t !! id), binding_of <$> t_bindings t !! id).
Proof.
  intros Hwf Hr. pose proof (wf_rows t Hwf id r Hr) as Hrow.
  destruct Hrow as (? & [p Hp] & ?). exists p. split; [done|].
  apply abstract_lookup; [done|by apply wf_rows|done].
Qed.

Lemma abstract_lookup_None t id :
  t_allocations t !! id = None → abstract t !! id = None.
Proof. intros Hr. unfold abstract. by rewrite map_lookup_imap, Hr. Qed.

(** The shape of the abstract state. *)
Lemma abstract_Some t id a ob :
  tables_wf t → abstract t !! id = Some (a, ob) →
  ∃ r, t_allocations t !! id = Some r ∧ ro_protocol r = Protocol_as_str (al_protocol a) ∧
    a = allocation_of r (al_protocol a) (t_bindings t !! id) ∧
    ob = binding_of <$> t_bindings t !! id.
Proof.
  intros Hwf Ha. destruct (t_allocations t !! id) as [r|] eqn:Hr.
  - destruct (abstract_lookup_wf t id r Hwf Hr) as (p & Hp & Habs). simplify_eq.
    exists r. done.
  - by rewrite abstract_lookup_None in Ha.
Qed.

Lemma abstract_is_Some t id :
  tables_wf t → is_Some (abstract t !! id) ↔ is_Some (t_allocations t !! id).
Proof.
  intros Hwf. destruct (t_allocations t !! id) as [r|] eqn:Hr.
  - destruct (abstract_lookup_wf t id r Hwf Hr) as (p & _ & ->). naive_solver.
  - by rewrite abstract_lookup_None.
Qed.

(** Entries depend on their own rows only. *)
Lemma abstract_local t t' id :
  tables_wf t → tables_wf t' → t_allocations t' !! id = t_allocations t !! id →
  t_bindings t' !! id = t_bindings t !! id → abstract t' !! id = abstract t !! id.
Proof.
  intros Hwf Hwf' Ha Hb. destruct (t_allocations t !! id) as [r|] eqn:Hr.
  - destruct (abstract_lookup_wf t id r Hwf Hr) as (p & Hp & ->).
    rewrite (abstract_lookup t' id r p); [by rewrite Hb|done| |done].
    rewrite Hb. by apply wf_rows.
  - by rewrite !abstract_lookup_None.
Qed.

(** * The operations of the abstract state *)

(** service/allocation_service.rs: [allocation_with_binding]. *)
Definition allocation_with_binding (a : Allocation) (b : Binding) : Allocation := {|
  al_id := al_id a; al_protocol := al_protocol a; al_port := al_port a;
  al_target_port := Some (bi_target_port b); al_host := bi_host b;
  al_created_at_ms := al_created_at_ms a; al_updated_at_ms := bi_updated_at_ms b |}.

(** The allocation without a binding, from [delete_binding]. *)
Definition allocation_unbound (a : Allocation) (now : Z) : Allocation := {|
  al_id := al_id a; al_protocol := al_protocol a; al_port := al_port a;
  al_target_port := None; al_host := None;
  al_created_at_ms := al_created_at_ms a; al_updated_at_ms := now |}.

Definition merged_binding (b : Binding) (old : option Binding) : Binding := {|
  bi_allocation_id := bi_allocation_id b; bi_target_port := bi_target_port b;
  bi_host := bi_host b;
  bi_created_at_ms := from_option bi_created_at_ms (bi_created_at_ms b) old;
  bi_updated_at_ms := bi_updated_at_ms b |}.

Definition store_put (b : Binding) (st : Store) : Store :=
  alter (λ e, (allocation_with_binding e.1 b, Some (merged_binding b e.2)))
    (bi_allocation_id b) st.

Definition store_unbind (id : string) (now : Z) (st : Store) : Store :=
  alter (λ e, (allocation_unbound e.1 now, None)) id st.

(** * Preservation and refinement *)

(** Statements that keep every surviving row's protocol and port. *)
Lemma disjoint_shrink t t' :
  tables_wf t →
  (∀ id r', t_allocations t' !! id = Some r' →
     ∃ r, t_allocations t !! id = Some r ∧ ro_protocol r' = ro_protocol r ∧
          ro_port r' = ro_port r) →
  ∀ i j r1 r2, t_allocations t' !! i = Some r1 → t_allocations t' !! j = Some r2 → i ≠ j →
    rows_disjoint r1 r2.
Proof.
  intros Hwf Hsub i j r1 r2 H1 H2 Hij p1 p2.
  destruct (Hsub i r1 H1) as (s1 & Hs1 & -> & ->), (Hsub j r2 H2) as (s2 & Hs2 & -> & ->).
  by apply (wf_disjoint t Hwf i j).
Qed.

Lemma put_tables_wf t b :
  tables_wf t → is_Some (t_allocations t !! bi_allocation_id b) → is_u16 (bi_target_port b) →
  tables_wf (put_tables b t).
Proof.
  intros Hwf [r0 Hr0] Htp. set (id := bi_allocation_id b) in *.
  split; simpl; fold id.
  - intros i r. rewrite lookup_alter, lookup_insert. case_decide as Hi; [subst i|].
    + rewrite Hr0. intros [= <-]. destruct (wf_rows t Hwf _ _ Hr0) as (Hid & Hp & Hport & Hm).
      unfold upserted, row_wf. fold id. simpl.
      destruct (t_bindings t !! id); simpl; naive_solver.
    + apply (wf_rows t Hwf).
  - intros i [x Hx]. rewrite lookup_alter. rewrite lookup_insert in Hx.
    case_decide; [by subst; rewrite Hr0|]. by apply (wf_bindings t Hwf); exists x.
  - apply (disjoint_shrink t (put_tables b t)); [done|]. simpl. fold id. intros i r'. rewrite lookup_alter.
    case_decide as Hi; [subst i; rewrite Hr0; intros [= <-]; by exists r0|].
    intros Hr'. by exists r'.
Qed.

Lemma put_tables_abstract t b :
  tables_wf t → is_Some (t_allocations t !! bi_allocation_id b) → is_u16 (bi_target_port b) →
  abstract (put_tables b t) = store_put b (abstract t).
Proof.
  intros Hwf [r0 Hr0] Htp. assert (tables_wf (put_tables b t)) as Hwf' by (by apply put_tables_wf).
  apply map_eq. intros i. unfold store_put. rewrite lookup_alter.
  case_decide as Hi.
  - subst i. destruct (abstract_lookup_wf t _ _ Hwf Hr0) as (p & Hp & ->).
    pose proof (wf_rows t Hwf _ _ Hr0) as (Hid & _ & _ & Hm).
    set (r1 := row_with_target (bi_target_port b) (bi_host b) (bi_updated_at_ms b) r0).
    assert (t_allocations (put_tables b t) !! bi_allocation_id b = Some r1) as Hr1
      by (simpl; by rewrite lookup_alter_eq, Hr0).
    rewrite (abstract_lookup _ _ r1 p); [|done|by apply wf_rows|done].
    simpl. rewrite lookup_insert_eq. unfold upserted.
    destruct (t_bindings t !! bi_allocation_id b) as [old|]; simpl; [|done].
    do 2 f_equal. unfold binding_of, merged_binding. simpl. do 2 f_equal. tauto.
  - apply abstract_local; [done..| |]; simpl.
    + by rewrite lookup_alter_ne.
    + by rewrite lookup_insert_ne.
Qed.

Lemma unbind_tables_wf t id now : tables_wf t → tables_wf (unbind_tables id now t).
Proof.
  intros Hwf. split; simpl.
  - intros i r. rewrite lookup_alter, lookup_delete. case_decide as Hi; [subst i|].
    + destruct (t_allocations t !! id) as [r0|] eqn:Hr0; [|done]. intros [= <-].
      destruct (wf_rows t Hwf _ _ Hr0) as (Hid & Hp & Hport & Hm). done.
    + apply (wf_rows t Hwf).
  - intros i. rewrite lookup_delete, lookup_alter. case_decide; [by intros [? ?]|].
    apply (wf_bindings t Hwf).
  - apply (disjoint_shrink t (unbind_tables id now t)); [done|]. simpl. intros i r'. rewrite lookup_alter.
    case_decide as Hi; [subst i|intros Hr'; by exists r'].
    destruct (t_allocations t !! id) as [r0|]; [|done]. intros [= <-]. by exists r0.
Qed.

Lemma unbind_tables_abstract t id now :
  tables_wf t → abstract (unbind_tables id now t) = store_unbind id now (abstract t).
Proof.
  intros Hwf. pose proof (unbind_tables_wf t id now Hwf) as Hwf'.
  apply map_eq. intros i. unfold store_unbind. rewrite lookup_alter. case_decide as Hi.
  - subst i. destruct (t_allocations t !! id) as [r0|] eqn:Hr0.
    + destruct (abstract_lookup_wf t _ _ Hwf Hr0) as (p & Hp & ->).
      set (r1 := row_with_target 0 None now r0).
      assert (t_allocations (unbind_tables id now t) !! id = Some r1) as Hr1
        by (simpl; by rewrite lookup_alter_eq, Hr0).
      rewrite (abstract_lookup _ _ r1 p); [|done|by apply wf_rows|done].
      simpl. rewrite lookup_delete_eq. done.
    + rewrite !abstract_lookup_None; [done|done|]. simpl. by rewrite lookup_alter_eq, Hr0.
  - apply abstract_local; [done..| |]; simpl.
    + by rewrite lookup_alter_ne.
    + by rewrite lookup_delete_ne.
Qed.

Lemma delete_tables_wf t id : tables_wf t → tables_wf (delete_tables id t).
Proof.
  intros Hwf. split; simpl.
  - intros i r. rewrite !lookup_delete. case_decide; [done|]. apply (wf_rows t Hwf).
  - intros i. rewrite !lookup_delete. case_decide; [done|]. apply (wf_bindings t Hwf).
  - apply (disjoint_shrink t (delete_tables id t)); [done|]. simpl. intros i r'. rewrite lookup_delete.
    case_decide; [done|]. intros. by exists r'.
Qed.

Lemma delete_tables_abstract t id :
  tables_wf t → abstract (delete_tables id t) = delete id (abstract t).
Proof.
  intros Hwf. pose proof (delete_tables_wf t id Hwf) as Hwf'.
  apply map_eq. intros i. rewrite lookup_delete. case_decide as Hi.
  - apply abstract_lookup_None. simpl. rewrite lookup_delete. by case_decide.
  - apply abstract_local; [done..| |]; simpl; by rewrite lookup_delete_ne.
Qed.

(** * Insertions *)
Definition insert_tables (r : AllocationRow) (ob : option BindingRow) (t : Tables) : Tables := {|
  t_allocations := <[ro_id r := r]> (t_allocations t);
  t_bindings := match ob with
                | Some b => <[ro_id r := b]> (t_bindings t)
                | None => t_bindings t
                end |}.

Lemma occupying_protocols_overlaps p q :
  occupying_protocols p (Protocol_as_str q) = overlaps p q.
Proof. by destruct p, q. Qed.

Lemma overlaps_sym p q : overlaps p q = overlaps q p.
Proof. by destruct p, q. Qed.

Lemma overlaps_refl p : overlaps p p = true.
Proof. by destruct p. Qed.

Lemma port_free_row p t port i r q :
  port_taken p t port = false → t_allocations t !! i = Some r →
  ro_protocol r = Protocol_as_str q → overlaps p q = true → ro_port r ≠ port.
Proof.
  intros Hfree Hr Hq Hov Hport.
  assert (port_taken p t port = true); [|congruence].
  apply port_taken_spec. exists i, r. by rewrite Hq, occupying_protocols_overlaps.
Qed.

(** A free port and a fresh identifier satisfy the unique constraints. *)
Lemma violates_unique_free r p t :
  t_allocations t !! ro_id r = None → ro_protocol r = Protocol_as_str p →
  port_taken p t (ro_port r) = false → violates_unique r t = false.
Proof.
  intros Hid Hp Hfree. unfold violates_unique. rewrite Hid. simpl.
  apply not_true_iff_false. rewrite existsb_exists.
  intros ([i r'] & Hin & Hs%bool_decide_eq_true).
  apply list_elem_of_In, elem_of_map_to_list in Hin. destruct Hs as [Hs1 Hs2]. simpl in *.
  apply (port_free_row p t (ro_port r) i r' p); try done; [congruence|].
  apply overlaps_refl.
Qed.

Lemma stmt_insert_allocation_inv r t t' u :
  stmt_insert_allocation r t = Ok (t', u) →
  t_allocations t !! ro_id r = None ∧ t' = insert_tables r None t.
Proof.
  unfold stmt_insert_allocation, violates_unique.
  destruct (t_allocations t !! ro_id r) eqn:Hr; simpl; [done|].
  destruct (existsb _ _); [done|]. intros [= <- _]. done.
Qed.

Lemma stmt_insert_allocation_free r p t :
  t_allocations t !! ro_id r = None → ro_protocol r = Protocol_as_str p →
  port_taken p t (ro_port r) = false →
  stmt_insert_allocation r t = Ok (insert_tables r None t, tt).
Proof.
  intros Hid Hp Hfree. unfold stmt_insert_allocation.
  by rewrite (violates_unique_free r p).
Qed.

Section insertion.
  Context (t : Tables) (r : AllocationRow) (ob : option BindingRow) (p : Protocol).
  Context (Hwf : tables_wf t) (Hid : t_allocations t !! ro_id r = None).
  Context (Hrow : row_wf (ro_id r) r ob) (Hp : ro_protocol r = Protocol_as_str p).
  Context (Hfree : port_taken p t (ro_port r) = false).

Lemma no_orphan : t_bindings t !! ro_id r = None.
Proof.
  destruct (t_bindings t !! ro_id r) as [b|] eqn:Hb; [|done].
  destruct (wf_bindings t Hwf (ro_id r)) as [? H]; [by rewrite Hb|congruence].
Qed.

Lemma insert_tables_bindings i :
  t_bindings (insert_tables r ob t) !! i =
  if decide (ro_id r = i) then ob else t_bindings t !! i.
Proof.
  simpl. destruct ob as [b|]; [by rewrite lookup_insert|].
  case_decide; [subst; apply no_orphan|done].
Qed.

Lemma insert_tables_wf : tables_wf (insert_tables r ob t).
Proof.
  split.
  - intros i r'. rewrite insert_tables_bindings. simpl. rewrite lookup_insert.
    case_decide as Hi; [subst i|].
    + by intros [= <-].
    + apply (wf_rows t Hwf).
  - intros i. rewrite insert_tables_bindings. simpl. rewrite lookup_insert.
    case_decide; [done|]. apply (wf_bindings t Hwf).
  - intros i j r1 r2. simpl. rewrite !lookup_insert. intros H1 H2 Hij q1 q2 Hq1 Hq2 Hov.
    destruct (decide (ro_id r = i)) as [Hi|Hi], (decide (ro_id r = j)) as [Hj|Hj];
      [congruence|injection H1 as <-|injection H2 as <-|].
    + rewrite Hp in Hq1. apply Protocol_as_str_inj in Hq1 as <-.
      apply not_eq_sym. by apply (port_free_row p t _ j r2 q2).
    + rewrite Hp in Hq2. apply Protocol_as_str_inj in Hq2 as <-. rewrite overlaps_sym in Hov.
      by apply (port_free_row p t _ i r1 q1).
    + by apply (wf_disjoint t Hwf i j r1 r2 H1 H2 Hij q1 q2).
Qed.

Lemma insert_tables_abstract :
  abstract (insert_tables r ob t) =
  <[ro_id r := (allocation_of r p ob, binding_of <$> ob)]> (abstract t).
Proof.
  pose proof insert_tables_wf as Hwf'. apply map_eq. intros i. rewrite lookup_insert.
  case_decide as Hi.
  - subst i. rewrite (abstract_lookup _ _ r p).
    + rewrite insert_tables_bindings. by rewrite decide_True.
    + simpl. by rewrite lookup_insert_eq.
    + rewrite insert_tables_bindings. by rewrite decide_True.
    + done.
  - apply abstract_local; [done..| |].
    + simpl. by rewrite lookup_insert_ne.
    + rewrite insert_tables_bindings. by rewrite decide_False.
Qed.
End insertion.

(** * Listing *)

(** Under the invariant the abstraction decodes row by row. *)
Definition decoded (t : Tables) (r : AllocationRow) : Allocation * option Binding :=
  let p := default Tcp (result_ok (Protocol_from_str (ro_protocol r))) in
  (allocation_of r p (t_bindings t !! ro_id r), binding_of <$> t_bindings t !! ro_id r).

Lemma decoded_row t r p :
  ro_protocol r = Protocol_as_str p →
  decoded t r = (allocation_of r p (t_bindings t !! ro_id r), binding_of <$> t_bindings t !! ro_id r).
Proof. intros Hp. unfold decoded. by rewrite Hp, Protocol_from_str_as_str. Qed.

Lemma abstract_decoded t : tables_wf t → abstract t = decoded t <$> t_allocations t.
Proof.
  intros Hwf. apply map_eq. intros i. rewrite lookup_fmap.
  destruct (t_allocations t !! i) as [r|] eqn:Hr; simpl; [|by apply abstract_lookup_None].
  destruct (abstract_lookup_wf t i r Hwf Hr) as (p & Hp & ->).
  destruct (wf_rows t Hwf i r Hr) as (Hid & _).
  rewrite (decoded_row t r p) by done. by rewrite Hid.
Qed.

Lemma bindings_by_id_wf t : tables_wf t → bindings_by_id (select_bindings t) = t_bindings t.
Proof.
  intros Hwf. unfold bindings_by_id, select_bindings.
  rewrite <-(list_to_map_to_list (t_bindings t)) at 2. f_equal.
  rewrite <-list_fmap_compose. rewrite <-(list_fmap_id (map_to_list (t_bindings t))) at 2.
  apply list_fmap_ext. intros k [i b] Hk. simpl. f_equal.
  apply list_elem_of_lookup_2, elem_of_map_to_list in Hk.
  destruct (wf_bindings t Hwf i) as [r Hr]; [by exists b|].
  destruct (wf_rows t Hwf i r Hr) as (_ & _ & _ & Hm). rewrite Hk in Hm. tauto.
Qed.

Lemma rmapM_ok {A B E} (f : A → result B E) g l :
  (∀ x, x ∈ l → f x = Ok (g x)) → rmapM f l = Ok (g <$> l).
Proof.
  induction l as [|x l IH]; intros H; [done|]. simpl.
  rewrite H by set_solver. simpl. rewrite IH by set_solver. done.
Qed.

Lemma elem_of_select_allocations t r :
  r ∈ select_allocations t ↔ ∃ id, t_allocations t !! id = Some r.
Proof.
  unfold select_allocations. rewrite merge_sort_Permutation, list_elem_of_fmap. split.
  - intros ([i r'] & -> & Hin%elem_of_map_to_list). by exists i.
  - intros [i Hi%elem_of_map_to_list]. by exists (i, r).
Qed.

Lemma list_tables_wf t :
  tables_wf t → list_tables t = Ok ((fst ∘ decoded t) <$> select_allocations t).
Proof.
  intros Hwf. unfold list_tables. apply rmapM_ok. intros r [id Hr]%elem_of_select_allocations.
  rewrite bindings_by_id_wf by done.
  destruct (wf_rows t Hwf id r Hr) as (Hid & [p Hp] & Hport & Hm). unfold compose.
  rewrite (decoded_row t r p) by done. unfold model_to_allocation, legacy_target. simpl.
  rewrite Hp, protocol_from_row_as_str, (port_from_i32_u16 "port") by done. simpl.
  rewrite Hid. destruct (t_bindings t !! id) as [b|] eqn:Hb.
  - destruct Hm as (? & Htp & ? & Hh). rewrite port_from_i32_u16 by done. simpl.
    rewrite Hh. unfold allocation_of. simpl. rewrite Hid. by destruct (rb_host b).
  - destruct Hm as [-> ->]. simpl. unfold allocation_of. simpl. by rewrite Hid.
Qed.

#[export] Instance list_order_total : Total list_order.
Proof.
  intros r1 r2. unfold list_order.
  destruct (decide (ro_protocol r1 = ro_protocol r2)) as [Heq|Hne].
  - destruct (Z.le_ge_cases (ro_port r1) (ro_port r2)); [left|right]; right; split; congruence || lia.
  - destruct (total String.le (ro_protocol r1) (ro_protocol r2)); [left|right]; left; done.
Qed.

#[export] Instance list_order_trans : Transitive list_order.
Proof.
  intros r1 r2 r3. unfold list_order.
  intros [[H1 L1]|[H1 L1]] [[H2 L2]|[H2 L2]].
  - left. split; [|by etrans]. intros Heq. rewrite Heq in L1, H1.
    apply H2. by apply (anti_symm String.le).
  - left. by rewrite <-H2.
  - left. by rewrite H1.
  - right. split; [congruence|lia].
Qed.

(** The order of the listing, on allocations. *)
Definition allocation_order (a1 a2 : Allocation) : Prop :=
  let n1 := Protocol_as_str (al_protocol a1) in
  let n2 := Protocol_as_str (al_protocol a2) in
  (n1 ≠ n2 ∧ String.le n1 n2) ∨ (n1 = n2 ∧ al_port a1 ≤ al_port a2).

Lemma decoded_allocations t :
  tables_wf t →
  (fst ∘ decoded t) <$> select_allocations t ≡ₚ (fst ∘ snd) <$> map_to_list (abstract t).
Proof.
  intros Hwf. rewrite abstract_decoded by done. unfold select_allocations.
  by rewrite merge_sort_Permutation, map_to_list_fmap, <-!list_fmap_compose.
Qed.

(** Listing the allocations of a repository that keeps its invariant succeeds, and
    returns every allocation of the abstract state exactly once, in the order of the
    protocol's name and then the port. *)
Theorem list_tables_complete_sorted t (Hwf : tables_wf t) :
  ∃ l, list_tables t = Ok l ∧
       l ≡ₚ (fst ∘ snd) <$> map_to_list (abstract t) ∧
       StronglySorted allocation_order l.
Proof.
  exists ((fst ∘ decoded t) <$> select_allocations t). split_and!.
  - by apply list_tables_wf.
  - by apply decoded_allocations.
  - pose proof (StronglySorted_merge_sort list_order (snd <$> map_to_list (t_allocations t))) as Hs.
    fold (select_allocations t) in Hs.
    assert (∀ r, r ∈ select_allocations t → ∃ p, ro_protocol r = Protocol_as_str p) as Hp.
    { intros r [id Hr]%elem_of_select_allocations. by apply (wf_rows t Hwf id r). }
    induction Hs as [|r l Hs IH Hall]; [constructor|]. simpl. constructor.
    + apply IH. intros r' Hr'. apply Hp. set_solver.
    + apply Forall_fmap, Forall_forall. intros r' Hr'.
      rewrite Forall_forall in Hall. specialize (Hall r' Hr').
      destruct (Hp r) as [p Hpr]; [set_solver|]. destruct (Hp r') as [p' Hpr']; [set_solver|].
      change (allocation_order (decoded t r).1 (decoded t r').1).
      rewrite (decoded_row t r p), (decoded_row t r' p') by done.
      unfold allocation_order. simpl. rewrite <-Hpr, <-Hpr'. exact Hall.
Qed.
