(* ===== verification/AllocationService.v ===== *)
(** service/allocation_service.rs: the service that keeps the repository and the
    runtime in step. Every mutating operation runs under [mutation_lock], so one
    operation is one step; the state is what the struct's fields hold.

    The system clock and the identifier generator are outside the sources: [clock n]
    is the time in milliseconds since the epoch (negative before it) at the [n]th
    reading, [id_generator n] the [n]th identifier. *)
From stdpp Require Import base gmap strings list.
From Stdlib Require Import ZArith Lia.
From S2P Require Import Prelude RustStd Model Config Facade Sqlite SqliteSpec Store.
Open Scope Z_scope.

Record Failpoints : Type := {
  fp_create_timeout : bool;
  fp_update_timeout : bool;
  fp_delete_timeout : bool;
  fp_delete_db_failure : bool;
}.

Definition Failpoints_default : Failpoints :=
  {| fp_create_timeout := false; fp_update_timeout := false;
     fp_delete_timeout := false; fp_delete_db_failure := false |}.

Inductive ServiceError : Type :=
| SvcRepository (e : RepositoryError)
| SvcRuntime (e : RuntimeError)
| NotFound
| NoAvailablePort
| InvalidHost
| Timeout
| DeletePersistenceFailed.

Record Service (R : Type) : Type := {
  sv_repo : Repository;
  sv_runtime : R;
  sv_port_range : PortRange;
  sv_apply_timeout_ms : Z;
  sv_failpoints : Failpoints;
  sv_ids : nat;        (* identifiers drawn so far *)
  sv_ticks : nat;      (* readings of the clock so far *)
}.
Arguments sv_repo {R} _.
Arguments sv_runtime {R} _.
Arguments sv_port_range {R} _.
Arguments sv_apply_timeout_ms {R} _.
Arguments sv_failpoints {R} _.
Arguments sv_ids {R} _.
Arguments sv_ticks {R} _.

Abbreviation SvcM R := (M (Service R) ServiceError).

(** [with_id_generator]. *)
Definition Service_new {R} (repo : Repository) (runtime : R) (range : PortRange)
    (apply_timeout_ms : Z) : Service R := {|
  sv_repo := repo; sv_runtime := runtime; sv_port_range := range;
  sv_apply_timeout_ms := apply_timeout_ms; sv_failpoints := Failpoints_default;
  sv_ids := 0; sv_ticks := 0 |}.

Definition set_repo {R} (r : Repository) (s : Service R) : Service R := {|
  sv_repo := r; sv_runtime := sv_runtime s; sv_port_range := sv_port_range s;
  sv_apply_timeout_ms := sv_apply_timeout_ms s; sv_failpoints := sv_failpoints s;
  sv_ids := sv_ids s; sv_ticks := sv_ticks s |}.

Definition set_runtime {R} (r : R) (s : Service R) : Service R := {|
  sv_repo := sv_repo s; sv_runtime := r; sv_port_range := sv_port_range s;
  sv_apply_timeout_ms := sv_apply_timeout_ms s; sv_failpoints := sv_failpoints s;
  sv_ids := sv_ids s; sv_ticks := sv_ticks s |}.

Definition Service_set_failpoints {R} (f : Failpoints) : SvcM R unit :=
  modify (λ s, {| sv_repo := sv_repo s; sv_runtime := sv_runtime s;
                  sv_port_range := sv_port_range s;
                  sv_apply_timeout_ms := sv_apply_timeout_ms s; sv_failpoints := f;
                  sv_ids := sv_ids s; sv_ticks := sv_ticks s |}).

(** A reading of the clock and a draw of an identifier. *)
Definition tick {R} (s : Service R) : Service R := {|
  sv_repo := sv_repo s; sv_runtime := sv_runtime s; sv_port_range := sv_port_range s;
  sv_apply_timeout_ms := sv_apply_timeout_ms s; sv_failpoints := sv_failpoints s;
  sv_ids := sv_ids s; sv_ticks := S (sv_ticks s) |}.

Definition draw_id {R} (s : Service R) : Service R := {|
  sv_repo := sv_repo s; sv_runtime := sv_runtime s; sv_port_range := sv_port_range s;
  sv_apply_timeout_ms := sv_apply_timeout_ms s; sv_failpoints := sv_failpoints s;
  sv_ids := S (sv_ids s); sv_ticks := sv_ticks s |}.

(** * Pure helpers *)

(** [duration_since(UNIX_EPOCH).unwrap_or_default()], and [i64::MAX] when the
    milliseconds do not fit. *)
Definition clamp_ms (t : Z) : Z := if t <? 0 then 0 else if t <=? i64_max then t else i64_max.

Definition allocation_resource (a : Allocation) : AllocationResource := {|
  ar_id := al_id a; ar_protocol := al_protocol a; ar_port := al_port a;
  ar_created_at_ms := al_created_at_ms a; ar_updated_at_ms := al_updated_at_ms a |}.

Definition missing_runtime_state : ObservedState := {|
  os_effective_target_port := None; os_effective_host := None;
  os_runtime_status := DegradedBindFailed; os_error_kind := Some BindFailed;
  os_last_error := Some "missing runtime state"%string |}.

Definition binding_view (b : Binding) (observed : option ObservedState) : BindingView :=
  let o := default missing_runtime_state observed in {|
  bv_allocation_id := bi_allocation_id b; bv_host := bi_host b;
  bv_target_port := bi_target_port b;
  bv_effective_target_port := os_effective_target_port o;
  bv_effective_host := os_effective_host o;
  bv_runtime_status := os_runtime_status o;
  bv_error_kind := os_error_kind o; bv_last_error := os_last_error o;
  bv_created_at_ms := bi_created_at_ms b; bv_updated_at_ms := bi_updated_at_ms b |}.

Definition allocation_view (a : Allocation) (observed : option ObservedState)
    : AllocationView :=
  let o := default missing_runtime_state observed in {|
  av_id := al_id a; av_protocol := al_protocol a; av_port := al_port a;
  av_target_port := al_target_port a; av_host := al_host a;
  av_effective_target_port := os_effective_target_port o;
  av_effective_host := os_effective_host o;
  av_host_configured := is_host_configured (al_host a);
  av_runtime_status := os_runtime_status o;
  av_error_kind := os_error_kind o; av_last_error := os_last_error o;
  av_created_at_ms := al_created_at_ms a; av_updated_at_ms := al_updated_at_ms a |}.

Section service.
  Context {R : Type} `{RuntimeFacade R}.
  Context (clock : nat → Z) (id_generator : nat → string).

Definition repo_call {A} (m : RepoM A) : SvcM R A := zoom sv_repo set_repo SvcRepository m.

Definition runtime_call {A} (m : M R RuntimeError A) : SvcM R A :=
  zoom sv_runtime set_runtime SvcRuntime m.

Definition current_time_ms : SvcM R Z := λ s,
  (Ok (clamp_ms (clock (sv_ticks s))), tick s).

Definition generate_id : SvcM R string := λ s,
  (Ok (id_generator (sv_ids s)), draw_id s).

(** * Creation *)
Definition persist_created_allocation (a : Allocation) : SvcM R unit :=
  match al_target_port a with
  | Some target_port =>
      repo_call (Repository_insert_allocation_with_binding a
        {| bi_allocation_id := al_id a; bi_target_port := target_port;
           bi_host := al_host a; bi_created_at_ms := al_created_at_ms a;
           bi_updated_at_ms := al_updated_at_ms a |})
  | None => repo_call (Repository_insert_allocation a)
  end.

(** The loop of [create_allocation] from [next_port = Some(start)]. Every turn goes
    on from a greater port, so [65536 - start] turns are enough. *)
Fixpoint create_loop (fuel : nat) (protocol : Protocol) (target_port : option Z) (start : Z)
    : SvcM R Allocation :=
  match fuel with
  | O => fail NoAvailablePort
  | S fuel' =>
      let! range := gets sv_port_range in
      let! timeout_ms := gets sv_apply_timeout_ms in
      let! found :=
        repo_call (Repository_find_available_allocation_port protocol start (pr_end range)) in
      match found with
      | None => fail NoAvailablePort
      | Some port =>
          let next_port := u16_checked_add port 1 in
          let! now := current_time_ms in
          let! id := generate_id in
          let allocation :=
            {| al_id := id; al_protocol := protocol; al_port := port;
               al_target_port := target_port; al_host := None;
               al_created_at_ms := now; al_updated_at_ms := now |} in
          let! created := attempt (zoom sv_runtime set_runtime (λ e, e)
                                     (rt_create allocation timeout_ms)) in
          match created with
          | Ok _ =>
              let! persisted := attempt (persist_created_allocation allocation) in
              match persisted with
              | Ok _ => ret allocation
              | Err error =>
                  let! _deleted := attempt (F := ServiceError)
                    (runtime_call (rt_delete (al_id allocation) timeout_ms)) in
                  fail error
              end
          | Err RuntimeCreateFailed =>
              match next_port with
              | Some start' => create_loop fuel' protocol target_port start'
              | None => fail NoAvailablePort
              end
          | Err error => fail (SvcRuntime error)
          end
      end
  end.

Definition Service_create_allocation (protocol : Protocol) (target_port : option Z)
    : SvcM R Allocation :=
  let! failpoints := gets sv_failpoints in
  if fp_create_timeout failpoints then fail Timeout
  else
    let! range := gets sv_port_range in
    create_loop (Z.to_nat (65536 - pr_start range)) protocol target_port (pr_start range).

(** * Reads *)
Definition Service_get_allocation (id : string) : SvcM R (option Allocation) :=
  repo_call (Repository_get_allocation id).

Definition Service_list_allocation_resources : SvcM R (list AllocationResource) :=
  let! allocations := repo_call Repository_list_allocations in
  ret (allocation_resource <$> allocations).

Definition Service_get_allocation_resource (id : string) : SvcM R (option AllocationResource) :=
  let! allocation := repo_call (Repository_get_allocation id) in
  ret (allocation_resource <$> allocation).

Definition Service_allocation_view_for (a : Allocation) : SvcM R AllocationView :=
  let! observed := runtime_call (rt_snapshot (al_id a)) in
  ret (allocation_view a observed).

Definition Service_list_allocations : SvcM R (list AllocationView) :=
  let! allocations := repo_call Repository_list_allocations in
  mapM Service_allocation_view_for allocations.

Definition Service_get_allocation_view (id : string) : SvcM R (option AllocationView) :=
  let! found := repo_call (Repository_get_allocation id) in
  match found with
  | None => ret None
  | Some a => let! view := Service_allocation_view_for a in ret (Some view)
  end.

Definition Service_binding_view_for (b : Binding) : SvcM R BindingView :=
  let! observed := runtime_call (rt_snapshot (bi_allocation_id b)) in
  ret (binding_view b observed).

Definition Service_get_binding_view (id : string) : SvcM R (option BindingView) :=
  let! found := repo_call (Repository_get_binding id) in
  match found with
  | None => ret None
  | Some b => let! view := Service_binding_view_for b in ret (Some view)
  end.

Definition Service_snapshot_listener_metrics : SvcM R (list ListenerMetricsSnapshot) :=
  runtime_call rt_snapshot_listener_metrics.

(** * Updates *)

(** The shared end of [put_binding] and [update_allocation]: persist, then apply. *)
Definition persist_and_update (a : Allocation) (b : Binding) : SvcM R Allocation :=
  repo_call (Repository_put_binding b);;
  let updated_allocation := allocation_with_binding a b in
  let! failpoints := gets sv_failpoints in
  if fp_update_timeout failpoints then fail Timeout
  else
    let! timeout_ms := gets sv_apply_timeout_ms in
    runtime_call (rt_update updated_allocation timeout_ms);;
    ret updated_allocation.

Definition Service_put_binding (id host : string) (target_port : Z) : SvcM R Binding :=
  let! _ip := of_result (map_err (λ _, InvalidHost) (parse_ip_literal host)) in
  let! found := repo_call (Repository_get_allocation_with_binding id) in
  match found with
  | None => fail NotFound
  | Some (allocation, existing_binding) =>
      let! now := current_time_ms in
      let binding :=
        {| bi_allocation_id := id; bi_target_port := target_port; bi_host := Some host;
           bi_created_at_ms := from_option bi_created_at_ms now existing_binding;
           bi_updated_at_ms := now |} in
      let! _updated := persist_and_update allocation binding in
      ret binding
  end.

Definition Service_delete_binding (id : string) : SvcM R unit :=
  let! found := repo_call (Repository_get_allocation_with_binding id) in
  match found with
  | None | Some (_, None) => fail NotFound
  | Some (allocation, Some _) =>
      let! now := current_time_ms in
      let! changed := repo_call (Repository_delete_binding id now) in
      if negb changed then fail NotFound
      else
        let updated_allocation := allocation_unbound allocation now in
        let! failpoints := gets sv_failpoints in
        if fp_update_timeout failpoints then fail Timeout
        else
          let! timeout_ms := gets sv_apply_timeout_ms in
          runtime_call (rt_update updated_allocation timeout_ms)
  end.

Definition Service_update_allocation (id : string) (target_port : option Z)
    (host : option string) : SvcM R Allocation :=
  let! found := repo_call (Repository_get_allocation_with_binding id) in
  match found with
  | None => fail NotFound
  | Some (allocation, existing_binding) =>
      let! _ip := of_result
        (match host with
         | Some h => map_err (λ _, InvalidHost) (let? _ip := parse_ip_literal h in Ok tt)
         | None => Ok tt
         end) in
      let! resolved_target_port := of_result (ok_or NotFound
        (option_or target_port (bi_target_port <$> existing_binding))) in
      let resolved_host :=
        option_or (option_or host (existing_binding ≫= bi_host)) (al_host allocation) in
      let! now := current_time_ms in
      let binding :=
        {| bi_allocation_id := id; bi_target_port := resolved_target_port;
           bi_host := resolved_host;
           bi_created_at_ms := from_option bi_created_at_ms now existing_binding;
           bi_updated_at_ms := now |} in
      persist_and_update allocation binding
  end.

Definition Service_set_target (id host : string) : SvcM R Allocation :=
  Service_update_allocation id None (Some host).

(** * Deletion and restoration *)
Definition Service_delete_allocation (id : string) : SvcM R unit :=
  let! found := repo_call (Repository_get_allocation id) in
  match found with
  | None => fail NotFound
  | Some allocation =>
      let! failpoints := gets sv_failpoints in
      if fp_delete_timeout failpoints then fail Timeout
      else
        let! timeout_ms := gets sv_apply_timeout_ms in
        runtime_call (rt_delete id timeout_ms);;
        let! failpoints := gets sv_failpoints in
        if fp_delete_db_failure failpoints then
          runtime_call (rt_restore allocation timeout_ms);;
          fail DeletePersistenceFailed
        else
          let! deleted := repo_call (Repository_delete_allocation id) in
          if negb deleted then fail NotFound else ret tt
  end.

Definition Service_restore_all (timeout_ms : Z) : SvcM R unit :=
  runtime_call (rt_initialize timeout_ms);;
  let! allocations := repo_call Repository_list_allocations in
  let! _done := mapM (λ a, runtime_call (rt_restore a timeout_ms)) allocations in
  ret tt.

End service.
