(* ===== verification/ServiceSpec.v ===== *)
(** The contract of service/allocation_service.rs: what each operation does to the
    repository's abstract state and to the runtime, on success and on every error. *)
From stdpp Require Import base gmap strings list fin_maps.
From Stdlib Require Import ZArith Lia.
From S2P Require Import Prelude RustStd Model Config Facade Sqlite SqliteSpec Store.
From S2P Require Import AllocationService.
Open Scope Z_scope.

Abbreviation sv_tables s := (repo_tables (sv_repo s)).

(** The abstract state of a service. *)
Definition sv_store {R} (s : Service R) : Store := abstract (sv_tables s).

Definition sv_clean {R} (s : Service R) : Prop := repo_clean (sv_repo s).

(** The configuration part of the state, which no operation changes; identifiers are
    drawn, never given back. *)
Definition same_settings {R} (s s' : Service R) : Prop :=
  sv_port_range s' = sv_port_range s ∧ sv_apply_timeout_ms s' = sv_apply_timeout_ms s ∧
  sv_failpoints s' = sv_failpoints s ∧ (sv_ids s ≤ sv_ids s')%nat.

#[export] Instance same_settings_po {R} : PreOrder (@same_settings R).
Proof. split; [by intros s|]. intros s1 s2 s3 (?&?&?&?) (?&?&?&?). split_and!; congruence || lia. Qed.

(** The range's bounds are u16 values, as the type of the field has it. *)
Definition range_u16 {R} (s : Service R) : Prop :=
  0 ≤ pr_start (sv_port_range s) ∧ pr_end (sv_port_range s) ≤ u16_max.

Section service.
  Context {R : Type} `{RuntimeFacade R}.
  Context (clock : nat → Z) (id_generator : nat → string).

(** * Calls *)

(** A repository call, in terms of the function on the tables it implements. *)
Lemma repo_call_spec {A} (m : RepoM A) f (s : Service R) :
  implements m f →
  wp (repo_call m)
    (λ r s', ∃ repo', s' = set_repo repo' s ∧ (sv_clean s → repo_clean repo') ∧
       match r with
       | Ok a => f (sv_tables s) = Ok (repo_tables repo', a)
       | Err e => ∃ e', e = SvcRepository e' ∧ repo_tables repo' = sv_tables s ∧
                        (f (sv_tables s) = Err e' ∨ ¬ sv_clean s)
       end) s.
Proof.
  intros Hm. unfold repo_call. rewrite wp_zoom.
  eapply wp_mono; [by apply implements_spec|]. intros [a|e] repo' [Hc Hr]; exists repo'.
  - done.
  - split_and!; [done|done|]. by exists e.
Qed.

(** Reading does not change the tables. *)
Lemma repo_query_spec {A B} (m : RepoM B) (q : Tables → result A RepositoryError)
    (k : A → B) (s : Service R) :
  implements m (λ t, let? a := q t in Ok (t, k a)) →
  wp (repo_call m)
    (λ r s', ∃ repo', s' = set_repo repo' s ∧ (sv_clean s → repo_clean repo') ∧
       repo_tables repo' = sv_tables s ∧
       match r with
       | Ok b => ∃ a, q (sv_tables s) = Ok a ∧ b = k a
       | Err e => ∃ e', e = SvcRepository e' ∧ (q (sv_tables s) = Err e' ∨ ¬ sv_clean s)
       end) s.
Proof.
  intros Hm. eapply wp_mono; [by apply repo_call_spec|].
  intros r s' (repo' & -> & Hc & Hr). exists repo'. destruct r as [b|e].
  - destruct (q _) as [a|]; [|done]. injection Hr as Ht <-. split_and!; eauto.
  - destruct Hr as (e' & -> & Ht & He). split_and!; [done|done|done|].
    exists e'. split; [done|]. destruct (q _); [|by destruct He as [[= ->]|]; [left|right]].
    destruct He as [|]; [done|by right].
Qed.

(** Decoding the row of an allocation of a well-formed repository. *)
Lemma decode_with_binding t id :
  tables_wf t →
  transpose (row_to_allocation_with_binding <$> select_allocation_binding_join id t)
  = Ok (abstract t !! id).
Proof.
  intros Hwf. destruct (t_allocations t !! id) as [r|] eqn:Hr.
  - destruct (abstract_lookup_wf t id r Hwf Hr) as (p & Hp & Habs).
    revert Habs. unfold abstract. rewrite map_lookup_imap, Hr. simpl.
    unfold select_allocation_binding_join. rewrite Hr. simpl.
    destruct (row_to_allocation_with_binding _) as [e|e]; simpl; intros Habs; by simplify_eq.
  - rewrite (abstract_lookup_None t id Hr). unfold select_allocation_binding_join.
    by rewrite Hr.
Qed.

Lemma decode_allocation t id :
  tables_wf t →
  transpose (row_to_allocation <$> select_allocation_join id t) = Ok (fst <$> abstract t !! id).
Proof.
  intros Hwf. pose proof (decode_with_binding t id Hwf) as Hd.
  destruct (row_decoders_agree t id) as [H1 H2]. rewrite <-H2 in H1. clear H2.
  destruct (select_allocation_join id t) as [j|], (select_allocation_binding_join id t) as [k|];
    simpl in *; try done; [|by injection Hd as <-].
  destruct (row_to_allocation_with_binding k) as [e|e]; [|done].
  injection Hd as <-. destruct (row_to_allocation j); simpl in *; congruence.
Qed.

Lemma decode_binding t id :
  tables_wf t →
  transpose ((λ r, let? tp := port_from_i32 "binding.target_port" (rb_target_port r) in
                   Ok {| bi_allocation_id := rb_allocation_id r; bi_target_port := tp;
                         bi_host := rb_host r; bi_created_at_ms := rb_created_at_ms r;
                         bi_updated_at_ms := rb_updated_at_ms r |}) <$> t_bindings t !! id)
  = Ok (abstract t !! id ≫= snd).
Proof.
  intros Hwf. destruct (t_allocations t !! id) as [r|] eqn:Hr.
  - destruct (abstract_lookup_wf t id r Hwf Hr) as (p & Hp & ->). simpl.
    destruct (wf_rows t Hwf id r Hr) as (_ & _ & _ & Hm).
    destruct (t_bindings t !! id) as [b|]; [|done]. simpl.
    destruct Hm as (_ & Htp & _). by rewrite port_from_i32_u16.
  - rewrite abstract_lookup_None by done. simpl.
    destruct (t_bindings t !! id) eqn:Hb; [|done].
    destruct (wf_bindings t Hwf id); [by rewrite Hb|congruence].
Qed.

(** The reads of a well-formed repository, in terms of its abstract state: they fail
    only when the engine does. *)
Definition read_outcome {A} (s : Service R) (r : result A ServiceError) (a : A) : Prop :=
  match r with Ok x => x = a | Err e => (∃ e', e = SvcRepository e') ∧ ¬ sv_clean s end.

Definition only_repo (s s' : Service R) : Prop :=
  ∃ repo', s' = set_repo repo' s ∧ (sv_clean s → repo_clean repo') ∧
           repo_tables repo' = sv_tables s.

Lemma read_spec {B} (m : RepoM B) (q : Tables → result B RepositoryError) (a : B) s :
  implements m (λ t, let? x := q t in Ok (t, x)) → q (sv_tables s) = Ok a →
  wp (repo_call m) (λ r s', only_repo s s' ∧ read_outcome s r a) s.
Proof.
  intros Hm Hq. eapply wp_mono; [apply (repo_query_spec m q (λ x, x)), Hm|].
  rewrite Hq. intros r s' (repo' & -> & Hc & Ht & Hr). split; [by exists repo'|].
  destruct r; simpl; naive_solver.
Qed.

Lemma read_allocation_with_binding_spec id s :
  tables_wf (sv_tables s) →
  wp (repo_call (Repository_get_allocation_with_binding id))
    (λ r s', only_repo s s' ∧ read_outcome s r (sv_store s !! id)) s.
Proof.
  intros Hwf. eapply read_spec; [apply get_allocation_with_binding_implements|].
  by apply decode_with_binding.
Qed.

Lemma read_allocation_spec id s :
  tables_wf (sv_tables s) →
  wp (repo_call (Repository_get_allocation id))
    (λ r s', only_repo s s' ∧ read_outcome s r (fst <$> sv_store s !! id)) s.
Proof.
  intros Hwf. eapply read_spec; [apply get_allocation_implements|].
  by apply decode_allocation.
Qed.

Lemma read_binding_spec id s :
  tables_wf (sv_tables s) →
  wp (repo_call (Repository_get_binding id))
    (λ r s', only_repo s s' ∧ read_outcome s r (sv_store s !! id ≫= snd)) s.
Proof.
  intros Hwf. eapply read_spec; [apply get_binding_implements|].
  by apply decode_binding.
Qed.

Lemma read_list_spec s :
  tables_wf (sv_tables s) →
  wp (repo_call Repository_list_allocations)
    (λ r s', only_repo s s' ∧
       read_outcome s r ((fst ∘ decoded (sv_tables s)) <$> select_allocations (sv_tables s))) s.
Proof.
  intros Hwf. eapply read_spec; [apply list_allocations_implements|].
  by apply list_tables_wf.
Qed.

(** * Updates *)

Lemma wp_current_time Q (s : Service R) :
  wp (current_time_ms clock) Q s ↔ Q (Ok (clamp_ms (clock (sv_ticks s)))) (tick s).
Proof. done. Qed.

Lemma wp_generate_id Q (s : Service R) :
  wp (generate_id id_generator) Q s ↔ Q (Ok (id_generator (sv_ids s))) (draw_id s).
Proof. done. Qed.

Lemma wp_runtime_call {A} (m : M R RuntimeError A) Q (s : Service R) :
  (∀ r rt, m (sv_runtime s) = (r, rt) → Q (map_err SvcRuntime r) (set_runtime rt s)) →
  wp (runtime_call m) Q s.
Proof. intros HQ. unfold runtime_call. rewrite wp_zoom. by apply wp_intro. Qed.

(** Nothing was found to do: the error [e], or that of a failing read. *)
Definition rejected {A} (s : Service R) (e : ServiceError) (r : result A ServiceError) : Prop :=
  r = Err e ∨ (∃ e', r = Err (SvcRepository e')) ∧ ¬ sv_clean s.

(** What the end of an update did: [t] the new tables, [call] the runtime's update. *)
Definition applied {A} (s s' : Service R) (t : Tables) (call : M R RuntimeError unit)
    (value : A) (r : result A ServiceError) : Prop :=
  match r with
  | Ok a => a = value ∧ sv_tables s' = t ∧ call (sv_runtime s) = (Ok tt, sv_runtime s')
  | Err (SvcRepository _) =>
      sv_tables s' = sv_tables s ∧ sv_runtime s' = sv_runtime s ∧ ¬ sv_clean s
  | Err Timeout =>
      fp_update_timeout (sv_failpoints s) = true ∧ sv_tables s' = t ∧
      sv_runtime s' = sv_runtime s
  | Err (SvcRuntime e) =>
      sv_tables s' = t ∧ call (sv_runtime s) = (Err e, sv_runtime s')
  | Err _ => False
  end.

Lemma persist_and_update_spec a b s :
  wp (persist_and_update a b)
    (λ r s', same_settings s s' ∧ (sv_clean s → sv_clean s') ∧
       applied s s' (put_tables b (sv_tables s))
         (rt_update (allocation_with_binding a b) (sv_apply_timeout_ms s))
         (allocation_with_binding a b) r) s.
Proof.
  unfold persist_and_update. rewrite wp_bind.
  eapply wp_mono; [apply repo_call_spec, put_binding_implements|].
  intros [[]|e] s1 (repo' & -> & Hc & Hr); cbv beta iota.
  - injection Hr as Ht. rewrite Ht. wp_simpl. destruct (fp_update_timeout _) eqn:Hf.
    + wp_simpl. done.
    + wp_simpl. apply wp_runtime_call. intros [[]|e] rt Hrt; wp_simpl; by split_and!.
  - destruct Hr as (e' & -> & Ht & [?|He]); [done|]. by split_and!.
Qed.

(** C19: put_binding, on every branch. A host that is not an IP literal or an unknown
    allocation changes nothing. Otherwise the binding is written first (keeping the
    creation time of an existing one) and the runtime updated with it; a runtime
    error or the update timeout leaves the new binding persisted, a repository error
    leaves everything as it was. *)
Theorem put_binding_spec id host tp s (Hwf : tables_wf (sv_tables s)) :
  let now := clamp_ms (clock (sv_ticks s)) in
  wp (Service_put_binding clock id host tp)
    (λ r s', same_settings s s' ∧ (sv_clean s → sv_clean s') ∧
       match parse_ip_literal host, sv_store s !! id with
       | Err _, _ => r = Err InvalidHost ∧ s' = s
       | Ok _, None =>
           sv_tables s' = sv_tables s ∧ sv_runtime s' = sv_runtime s ∧
           rejected s NotFound r
       | Ok _, Some (a, old) =>
           let b := {| bi_allocation_id := id; bi_target_port := tp; bi_host := Some host;
                       bi_created_at_ms := from_option bi_created_at_ms now old;
                       bi_updated_at_ms := now |} in
           applied s s' (put_tables b (sv_tables s))
             (rt_update (allocation_with_binding a b) (sv_apply_timeout_ms s)) b r
       end) s.
Proof.
  cbv zeta. unfold Service_put_binding. rewrite wp_bind, wp_of_result.
  destruct (parse_ip_literal host) as [ip|e]; simpl; [|by split_and!].
  rewrite wp_bind. eapply wp_mono; [by apply read_allocation_with_binding_spec|].
  intros r s1 [(repo' & -> & Hc & Ht) Hr]. destruct r as [o|e]; simpl in Hr.
  - subst o. destruct (sv_store s !! id) as [[a old]|];
      [|wp_simpl; split_and!; [done|done|done|done|by left]].
    rewrite wp_bind, wp_current_time. cbv beta iota zeta. rewrite wp_bind.
    eapply wp_mono; [apply persist_and_update_spec|]. rewrite <-Ht.
    intros [a'|e'] s' (Hs & Hc' & Ha).
    + wp_simpl. destruct Ha as (_ & Ha). split; [exact Hs|]. split; [by intros Hcl; apply Hc', Hc|]. by split.
    + split; [exact Hs|]. split; [by intros Hcl; apply Hc', Hc|]. destruct e'; try done. destruct Ha as (Ht' & Hrt & Hn).
      split_and!; [by rewrite Ht'|done|]. intros Hcl. by apply Hn, Hc.
  - destruct Hr as [[e' ->] Hr]. split_and!; [by split_and!|exact Hc|].
    destruct (sv_store s !! id) as [[a old]|]; split_and!; (done || by right; eauto).
Qed.

(** [only_repo] and a failing read, put together. *)
Lemma only_repo_frame (s s' : Service R) :
  only_repo s s' → same_settings s s' ∧ (sv_clean s → sv_clean s') ∧
                   sv_tables s' = sv_tables s ∧ sv_runtime s' = sv_runtime s.
Proof. intros (repo' & -> & Hc & Ht). by split_and!. Qed.

(** [applied] with the state before replaced by one that agrees with it. *)
Lemma applied_frame {A} (s0 s s' : Service R) t call (v : A) r :
  same_settings s0 s → (sv_clean s0 → sv_clean s) → sv_tables s = sv_tables s0 →
  sv_runtime s = sv_runtime s0 → applied s s' t call v r → applied s0 s' t call v r.
Proof.
  intros (_ & _ & Hf & _) Hc Ht Hr. unfold applied. rewrite Ht, Hr, Hf.
  destruct r as [|[]]; try done. naive_solver.
Qed.

(** The binding an update writes, when the port and the host resolve. *)
Definition resolved_binding (id : string) (a : Allocation) (old : option Binding)
    (target_port : option Z) (host : option string) (now : Z) : option Binding :=
  (λ tp, {| bi_allocation_id := id; bi_target_port := tp;
            bi_host := option_or (option_or host (old ≫= bi_host)) (al_host a);
            bi_created_at_ms := from_option bi_created_at_ms now old;
            bi_updated_at_ms := now |})
    <$> option_or target_port (bi_target_port <$> old).

Definition host_ok (host : option string) : bool :=
  match host with Some h => is_ok (parse_ip_literal h) | None => true end.

(** C20: update_allocation, on every branch: an unknown allocation, an invalid host
    and a missing target port (none given and no binding) are rejected in this order
    with nothing changed; otherwise the fields not given are taken from the existing
    binding, then from the allocation, and the result is persisted and applied. *)
Theorem update_allocation_spec id target_port host s (Hwf : tables_wf (sv_tables s)) :
  let now := clamp_ms (clock (sv_ticks s)) in
  wp (Service_update_allocation clock id target_port host)
    (λ r s', same_settings s s' ∧
       match sv_store s !! id with
       | None =>
           sv_tables s' = sv_tables s ∧ sv_runtime s' = sv_runtime s ∧
           rejected s NotFound r
       | Some (a, old) =>
           match host_ok host, resolved_binding id a old target_port host now with
           | true, Some b =>
               applied s s' (put_tables b (sv_tables s))
                 (rt_update (allocation_with_binding a b) (sv_apply_timeout_ms s))
                 (allocation_with_binding a b) r
           | valid, _ =>
               sv_tables s' = sv_tables s ∧ sv_runtime s' = sv_runtime s ∧
               rejected s (if valid : bool then NotFound else InvalidHost) r
           end
       end) s.
Proof.
  cbv zeta. unfold Service_update_allocation. rewrite wp_bind.
  eapply wp_mono; [by apply read_allocation_with_binding_spec|].
  intros r s1 [Hs1 Hr]. destruct (only_repo_frame _ _ Hs1) as (Hset & Hcl & Ht & Hrt).
  assert (sv_ticks s1 = sv_ticks s) as Htick by (by destruct Hs1 as (? & -> & _)).
  destruct r as [o|e]; simpl in Hr.
  - subst o. destruct (sv_store s !! id) as [[a old]|];
      [|wp_simpl; split_and!; [done|done|done|by left]].
    rewrite wp_bind, wp_of_result. destruct (host_ok host) eqn:Hh; unfold host_ok in Hh.
    + replace (match host with Some h => _ | None => _ end)
        with (Ok (E := ServiceError) tt)
        by (destruct host as [h|]; [by destruct (parse_ip_literal h)|done]).
      rewrite wp_bind, wp_of_result. unfold resolved_binding.
      destruct (option_or target_port (bi_target_port <$> old)) as [tp|]; simpl;
        [|by split_and!; [..|left]].
      rewrite wp_bind, wp_current_time. rewrite Htick.
      eapply wp_mono; [apply persist_and_update_spec|].
      intros r s' (Hs & Hc' & Ha). simpl in *. split; [by etrans|].
      apply (applied_frame s s1); [done|done|done|done|]. rewrite <-Ht.
      destruct Hset as (_ & Hto & _). rewrite <-Hto. exact Ha.
    + destruct host as [h|]; [|done]. destruct (parse_ip_literal h); [done|]. simpl.
      split_and!; try done. by left.
  - destruct Hr as [[e' ->] Hr]. destruct (sv_store s !! id) as [[a old]|].
    + destruct (host_ok host); [case_match|]; (split; [done|]); try done; split_and!; (done || by right; eauto).
    + split_and!; (done || by right; eauto).
Qed.

(** * Deletions *)

(** Delete_binding: an unknown allocation or one without a binding is reported
    and nothing changes; otherwise the binding row goes, the legacy columns are
    cleared, and the runtime is told to serve no target. *)
Theorem delete_binding_spec id s (Hwf : tables_wf (sv_tables s)) :
  let now := clamp_ms (clock (sv_ticks s)) in
  wp (Service_delete_binding clock id)
    (λ r s', same_settings s s' ∧
       match sv_store s !! id with
       | Some (a, Some _) =>
           applied s s' (unbind_tables id now (sv_tables s))
             (rt_update (allocation_unbound a now) (sv_apply_timeout_ms s)) tt r
       | _ =>
           sv_tables s' = sv_tables s ∧ sv_runtime s' = sv_runtime s ∧
           rejected s NotFound r
       end) s.
Proof.
  cbv zeta. unfold Service_delete_binding. rewrite wp_bind.
  eapply wp_mono; [by apply read_allocation_with_binding_spec|].
  intros r s1 [Hs1 Hr]. destruct (only_repo_frame _ _ Hs1) as (Hset & Hcl & Ht & Hrt).
  assert (sv_ticks s1 = sv_ticks s) as Htick by (by destruct Hs1 as (? & -> & _)).
  destruct r as [o|e]; simpl in Hr.
  - subst o. destruct (sv_store s !! id) as [[a [b|]]|] eqn:Hst;
      [|wp_simpl; split_and!; [done|done|done|by left]..].
    rewrite wp_bind, wp_current_time, Htick. rewrite wp_bind.
    eapply wp_mono; [apply repo_call_spec, delete_binding_implements|].
    destruct (abstract_Some _ _ _ _ Hwf Hst) as (row & _ & _ & _ & Hb). simpl. rewrite Ht.
    destruct (t_bindings (sv_tables s) !! id) as [brow|]; [|done].
    destruct Hset as (Hset1 & Hset2 & Hset3 & Hset4).
    intros [changed|e] s2 (repo' & -> & Hc & Hr2).
    + injection Hr2 as Ht2 <-. simpl. rewrite wp_bind, wp_gets. simpl. rewrite Hset3.
      destruct (fp_update_timeout _) eqn:Hf.
      * wp_simpl. rewrite Ht2, Hrt. by split_and!.
      * rewrite wp_bind, wp_gets. simpl. rewrite Hset2. apply wp_runtime_call.
        simpl. rewrite Hrt. intros [[]|e] rt Hu; wp_simpl; simpl; by split_and!.
    + destruct Hr2 as (e' & -> & Ht2 & [?|Hn]); [done|]. simpl.
      rewrite Ht2, Hrt. split_and!; [done|done|done|]. auto.
  - destruct Hr as [[e' ->] Hr].
    destruct (sv_store s !! id) as [[a [b|]]|]; split_and!; (done || by right; eauto).
Qed.

(** C18: delete_allocation, on every branch. The runtime is told first; when it fails
    the rows stay. The persistence failpoint restores the runtime; a real repository
    failure after the runtime's deletion returns with the rows kept and the
    runtime's state gone. *)
Theorem delete_allocation_spec id s (Hwf : tables_wf (sv_tables s)) :
  let t := sv_apply_timeout_ms s in
  wp (Service_delete_allocation id)
    (λ r s', same_settings s s' ∧
       (sv_tables s' = sv_tables s ∧ sv_runtime s' = sv_runtime s ∧
          (∃ e, r = Err (SvcRepository e)) ∧ ¬ sv_clean s ∨
        match sv_store s !! id with
        | None => sv_tables s' = sv_tables s ∧ sv_runtime s' = sv_runtime s ∧ r = Err NotFound
        | Some (a, _) =>
            if fp_delete_timeout (sv_failpoints s) then
              sv_tables s' = sv_tables s ∧ sv_runtime s' = sv_runtime s ∧ r = Err Timeout
            else
              match rt_delete id t (sv_runtime s) with
              | (Err e, rt) =>
                  sv_tables s' = sv_tables s ∧ sv_runtime s' = rt ∧ r = Err (SvcRuntime e)
              | (Ok _, rt) =>
                  if fp_delete_db_failure (sv_failpoints s) then
                    sv_tables s' = sv_tables s ∧
                    match rt_restore a t rt with
                    | (Ok _, rt') => sv_runtime s' = rt' ∧ r = Err DeletePersistenceFailed
                    | (Err e, rt') => sv_runtime s' = rt' ∧ r = Err (SvcRuntime e)
                    end
                  else
                    sv_runtime s' = rt ∧
                    (sv_tables s' = delete_tables id (sv_tables s) ∧ r = Ok tt ∨
                     sv_tables s' = sv_tables s ∧ (∃ e, r = Err (SvcRepository e)) ∧
                       ¬ sv_clean s)
              end
        end)) s.
Proof.
  cbv zeta. unfold Service_delete_allocation. rewrite wp_bind.
  eapply wp_mono; [by apply read_allocation_spec|].
  intros r s1 [Hs1 Hr]. destruct (only_repo_frame _ _ Hs1) as (Hset & Hcl & Ht & Hrt).
  destruct r as [o|e]; simpl in Hr; [|by destruct Hr as [[e' ->] Hr]; split; [|left; eauto]].
  subst o. destruct (sv_store s !! id) as [[a ob]|] eqn:Hst; simpl;
    [|wp_simpl; by split; [|right]].
  destruct Hset as (Hset1 & Hset2 & Hset3 & Hset4).
  rewrite wp_bind, wp_gets, Hset3.
  destruct (fp_delete_timeout _); [wp_simpl; by split; [|right]|].
  rewrite wp_bind, wp_gets, Hset2, wp_bind. apply wp_runtime_call. rewrite Hrt.
  intros [[]|e] rt ->; simpl; [|by split; [|right]].
  rewrite wp_bind, wp_gets. simpl. rewrite Hset3.
  destruct (fp_delete_db_failure _).
  - rewrite wp_bind. apply wp_runtime_call. intros [[]|e] rt' Hre; simpl in *; rewrite ?wp_fail, Hre;
      by split; [|right].
  - rewrite wp_bind. eapply wp_mono; [apply repo_call_spec, delete_allocation_implements|].
    simpl. rewrite Ht. intros [del|e] s2 (repo' & -> & Hc & Hr2); simpl.
    + injection Hr2 as Ht2 <-.
      rewrite bool_decide_true by (by apply abstract_is_Some; [|unfold sv_store in Hst; rewrite Hst]).
      simpl. wp_simpl. split; [done|]. right. split; [done|]. by left.
    + destruct Hr2 as (e' & -> & Ht2 & [?|Hn]); [done|].
      split; [done|]. right. split; [done|]. right. split_and!; [done|eauto|]. auto.
Qed.

(** * Creation *)

Definition created_row (a : Allocation) : AllocationRow :=
  allocation_row a (opt_port_to_i32 (al_target_port a)) (al_host a) (al_updated_at_ms a).

Definition created_binding (a : Allocation) : option BindingRow :=
  (λ tp, {| rb_allocation_id := al_id a; rb_target_port := tp; rb_host := al_host a;
            rb_created_at_ms := al_created_at_ms a; rb_updated_at_ms := al_updated_at_ms a |})
    <$> al_target_port a.

Definition created_tables (a : Allocation) (t : Tables) : Tables :=
  insert_tables (created_row a) (created_binding a) t.

Lemma persist_created_spec a (s : Service R) :
  wp (persist_created_allocation a)
    (λ r s', ∃ repo', s' = set_repo repo' s ∧ (sv_clean s → repo_clean repo') ∧
       match r with
       | Ok _ => t_allocations (sv_tables s) !! al_id a = None ∧
                 repo_tables repo' = created_tables a (sv_tables s)
       | Err e => (∃ e', e = SvcRepository e') ∧ repo_tables repo' = sv_tables s ∧
                  (tables_wf (sv_tables s) → t_allocations (sv_tables s) !! al_id a = None →
                   port_taken (al_protocol a) (sv_tables s) (al_port a) = false → ¬ sv_clean s)
       end) s.
Proof.
  unfold persist_created_allocation, created_tables, created_binding, created_row.
  destruct (al_target_port a) as [tp|] eqn:Htp; simpl.
  - eapply wp_mono; [apply repo_call_spec, insert_allocation_with_binding_implements|].
    intros r s' (repo' & -> & Hc & Hr). exists repo'. split_and!; [done|done|].
    destruct r as [[]|e]; simpl in Hr.
    + destruct (stmt_insert_allocation _ _) as [[t' []]|] eqn:Hi; [|done].
      apply stmt_insert_allocation_inv in Hi as [Hid ->]. split; [done|].
      unfold stmt_insert_binding in Hr. simpl in Hr.
      destruct (t_bindings (sv_tables s) !! al_id a); simpl in Hr; [done|].
      injection Hr as <-. done.
    + destruct Hr as (e' & -> & Ht & He). split_and!; [eauto|done|].
      intros Hwf Hid Hport. destruct He as [He|]; [|done].
      rewrite (stmt_insert_allocation_free _ (al_protocol a)) in He by done. simpl in He.
      unfold stmt_insert_binding in He. simpl in He.
      pose proof (no_orphan _ (created_row a) Hwf Hid) as Hno. simpl in Hno.
      rewrite Hno in He. done.
  - eapply wp_mono; [apply repo_call_spec, insert_allocation_implements|].
    intros r s' (repo' & -> & Hc & Hr). exists repo'. split_and!; [done|done|].
    destruct r as [[]|e]; simpl in Hr.
    + destruct (stmt_insert_allocation _ _) as [[t' []]|] eqn:Hi; [|done].
      apply stmt_insert_allocation_inv in Hi as [Hid ->]. injection Hr as <-. by rewrite Htp.
    + destruct Hr as (e' & -> & Ht & He). split_and!; [eauto|done|].
      intros Hwf Hid Hport. destruct He as [He|]; [|done].
      by rewrite (stmt_insert_allocation_free _ (al_protocol a)) in He.
Qed.

(** The runtime states the loop passes through: each by one refused creation of a
    candidate for [protocol] and [target_port] with an identifier drawn since. *)
Section refusals.
  Context (timeout_ms : Z) (protocol : Protocol) (target_port : option Z).

Definition candidate_allocation (n0 : nat) (port : Z) (a : Allocation) : Prop :=
  al_protocol a = protocol ∧ al_target_port a = target_port ∧ al_host a = None ∧
  al_port a = port ∧ al_created_at_ms a = al_updated_at_ms a ∧
  ∃ n, (n0 ≤ n)%nat ∧ al_id a = id_generator n.

Inductive after_refusals (n0 : nat) (rt0 : R) : R → Prop :=
| refusals_none : after_refusals n0 rt0 rt0
| refusals_more rt a port rt' :
    after_refusals n0 rt0 rt → candidate_allocation n0 port a →
    rt_create a timeout_ms rt = (Err RuntimeCreateFailed, rt') →
    after_refusals n0 rt0 rt'.

(** The runtime refused a candidate at [port]. *)
Definition refused (n0 : nat) (rt0 : R) (port : Z) : Prop :=
  ∃ rt a rt', after_refusals n0 rt0 rt ∧ candidate_allocation n0 port a ∧
              rt_create a timeout_ms rt = (Err RuntimeCreateFailed, rt').

Lemma candidate_allocation_weaken n0 n1 port a :
  (n0 ≤ n1)%nat → candidate_allocation n1 port a → candidate_allocation n0 port a.
Proof. intros Hn (? & ? & ? & ? & ? & n & ? & ?). split_and!; try done. exists n. split; [lia|done]. Qed.

Lemma after_refusals_trans n0 n1 rt0 rt1 rt2 :
  (n0 ≤ n1)%nat → after_refusals n0 rt0 rt1 → after_refusals n1 rt1 rt2 →
  after_refusals n0 rt0 rt2.
Proof.
  intros Hn H01 H12. induction H12 as [|rt a port rt' H12 IH Ha Hc]; [done|].
  eapply refusals_more; [apply IH|by eapply candidate_allocation_weaken|done].
Qed.

Lemma refused_trans n0 n1 rt0 rt1 port :
  (n0 ≤ n1)%nat → after_refusals n0 rt0 rt1 → refused n1 rt1 port → refused n0 rt0 port.
Proof.
  intros Hn H01 (rt & a & rt' & H1 & Ha & Hc). exists rt, a, rt'. split_and!; [|by eapply candidate_allocation_weaken|done].
  by eapply after_refusals_trans.
Qed.
End refusals.

(** The contract of the search from [start]: first fit among the ports neither taken
    in the tables nor refused by the runtime. *)
Section create.
  Context (timeout_ms : Z) (protocol : Protocol) (target_port : option Z) (stop : Z).

Abbreviation candidate := (candidate_allocation protocol target_port).
Abbreviation refusals := (after_refusals timeout_ms protocol target_port).

Definition skipped (s : Service R) (q : Z) : Prop :=
  port_taken protocol (sv_tables s) q = true ∨
  refused timeout_ms protocol target_port (sv_ids s) (sv_runtime s) q.

(** The identifier was drawn between the two states. *)
Definition drawn (s s' : Service R) (id : string) : Prop :=
  ∃ n, (sv_ids s ≤ n < sv_ids s')%nat ∧ id = id_generator n.

Definition create_outcome (s s' : Service R) (start : Z) (r : result Allocation ServiceError)
    : Prop :=
  let t := sv_tables s in
  let n0 := sv_ids s in
  let rt0 := sv_runtime s in
  match r with
  | Ok a =>
      candidate n0 (al_port a) a ∧ drawn s s' (al_id a) ∧ start ≤ al_port a ≤ stop ∧
      port_taken protocol t (al_port a) = false ∧
      (∀ q, start ≤ q < al_port a → skipped s q) ∧
      t_allocations t !! al_id a = None ∧ sv_tables s' = created_tables a t ∧
      ∃ rt, refusals n0 rt0 rt ∧ rt_create a timeout_ms rt = (Ok tt, sv_runtime s')
  | Err NoAvailablePort =>
      sv_tables s' = t ∧ refusals n0 rt0 (sv_runtime s') ∧
      ∀ q, start ≤ q ≤ stop → skipped s q
  | Err (SvcRuntime e) =>
      sv_tables s' = t ∧ e ≠ RuntimeCreateFailed ∧
      ∃ rt a port, refusals n0 rt0 rt ∧ candidate n0 port a ∧ start ≤ port ≤ stop ∧
        port_taken protocol t port = false ∧ (∀ q, start ≤ q < port → skipped s q) ∧
        rt_create a timeout_ms rt = (Err e, sv_runtime s')
  | Err (SvcRepository _) =>
      sv_tables s' = t ∧
      (refusals n0 rt0 (sv_runtime s') ∧ ¬ sv_clean s ∨
       ∃ rt a port rt1, refusals n0 rt0 rt ∧ candidate n0 port a ∧ drawn s s' (al_id a) ∧
         rt_create a timeout_ms rt = (Ok tt, rt1) ∧
         sv_runtime s' = (rt_delete (al_id a) timeout_ms rt1).2 ∧
         (tables_wf t → t_allocations t !! al_id a = None → ¬ sv_clean s))
  | Err _ => False
  end.

(** One refused candidate at [port] and the search from the next port. *)
Lemma create_outcome_step s s1 s' start port a r :
  start ≤ port →
  (∀ q, start ≤ q < port → port_taken protocol (sv_tables s) q = true) →
  candidate (sv_ids s) port a →
  rt_create a timeout_ms (sv_runtime s) = (Err RuntimeCreateFailed, sv_runtime s1) →
  sv_tables s1 = sv_tables s → (sv_ids s ≤ sv_ids s1)%nat → (sv_clean s → sv_clean s1) →
  create_outcome s1 s' (port + 1) r → create_outcome s s' start r.
Proof.
  intros Hstart Hbelow Ha Hc Ht Hids Hcl.
  assert (refusals (sv_ids s) (sv_runtime s) (sv_runtime s1)) as Href
    by (eapply refusals_more; [apply refusals_none|done|done]).
  assert (∀ rt, refusals (sv_ids s1) (sv_runtime s1) rt →
                refusals (sv_ids s) (sv_runtime s) rt) as Htrans
    by (intros rt; by apply after_refusals_trans).
  assert (∀ p b, candidate (sv_ids s1) p b → candidate (sv_ids s) p b) as Hcand
    by (intros p b; by apply candidate_allocation_weaken).
  assert (∀ hi, (∀ q, port + 1 ≤ q < hi → skipped s1 q) →
                ∀ q, start ≤ q < hi → skipped s q) as Hskip.
  { intros hi H1 q Hq. destruct (Z.lt_trichotomy q port) as [?|[-> |?]].
    - left. apply Hbelow. lia.
    - right. exists (sv_runtime s), a, (sv_runtime s1). split_and!; [constructor|done|done].
    - destruct (H1 q) as [H2|H2]; [lia|left; by rewrite <-Ht|right].
      by eapply refused_trans. }
  assert (∀ id, drawn s1 s' id → drawn s s' id) as Hdrawn
    by (intros id (n & ? & ?); exists n; split; [lia|done]).
  unfold create_outcome. rewrite Ht. destruct r as [b|[e|e| | | | |]]; try done.
  - intros (? & ? & ? & ? & Hq & ? & ? & rt & ? & ?). split_and!; eauto; lia.
  - intros (? & [[? Hn]|(rt & b & p & rt1 & ? & ? & ? & ? & ? & Hn)]); split; [done| |done|].
    + left. split; auto.
    + right. exists rt, b, p, rt1. split_and!; auto. intros Hwf Hid Hcl0. by apply (Hn Hwf Hid), Hcl.
  - intros (? & ? & rt & b & p & ? & ? & ? & ? & ? & ?). split_and!; [done|done|].
    exists rt, b, p. split_and!; eauto; lia.
  - intros (? & ? & Hq). split_and!; [done|auto|]. intros q Hqr.
    apply (Hskip (stop + 1)); [|lia]. intros q' ?. apply Hq. lia.
Qed.

Ltac settings := unfold same_settings; split_and!; simpl; (reflexivity || lia).

Lemma create_loop_spec fuel start s :
  0 ≤ start → stop ≤ u16_max → (Z.to_nat (65536 - start) ≤ fuel)%nat →
  pr_end (sv_port_range s) = stop → sv_apply_timeout_ms s = timeout_ms →
  wp (create_loop clock id_generator fuel protocol target_port start)
    (λ r s', same_settings s s' ∧ (sv_clean s → sv_clean s') ∧
             create_outcome s s' start r) s.
Proof.
  revert start s. induction fuel as [|fuel IH]; intros start s Hstart Hstop Hfuel Hend Hto;
    unfold u16_max in *; cbn [create_loop].
  { wp_simpl. split_and!; [done|done|done|constructor|]. intros q Hq. lia. }
  rewrite wp_bind, wp_gets, wp_bind, wp_gets, wp_bind, Hend, Hto.
  eapply wp_mono; [apply repo_call_spec, find_available_implements|].
  pose proof (query_first_gap_spec protocol start stop (sv_tables s)) as Hgap.
  intros r s1 (repo' & -> & Hcl & Hr).
  destruct (query_first_gap _ _ _ _) as [port|]; simpl in Hr.
  - destruct Hgap as (Hport & Hfree & Hbelow).
    rewrite port_from_i32_u16 in Hr by (unfold is_u16, u16_max; lia). simpl in Hr.
    destruct r as [o|e]; [injection Hr as Ht <-|].
    2: { destruct Hr as (e' & -> & Ht & [?|?]); [done|]. split_and!; [done|done|split; [done|]].
         left. split; [constructor|done]. }
    rewrite wp_bind, wp_current_time, wp_bind, wp_generate_id, wp_bind, wp_attempt, wp_zoom.
    simpl. set (a := {| al_id := _ |}). apply wp_intro. intros r rt Hcreate.
    assert (candidate (sv_ids s) port a) as Ha by (split_and!; try done; by exists (sv_ids s)).
    destruct r as [[]|e]; simpl.
    + rewrite wp_bind, wp_attempt. eapply wp_mono; [apply persist_created_spec|].
      simpl. rewrite <-Ht. intros [[]|e] s2 (repo2 & -> & Hcl2 & Hr2); wp_simpl.
      * destruct Hr2 as [Hid Ht2]. split; [settings|]. split; [intros Hcs; by apply Hcl2, Hcl|].
        split; [exact Ha|].
        split; [exists (sv_ids s); split; [simpl; lia|done]|].
        split_and!; [lia|lia|done| |done|done|].
        -- intros q Hq. left. by apply Hbelow.
        -- exists (sv_runtime s). split; [constructor|done].
      * destruct Hr2 as ((e' & ->) & Ht2 & Hn). apply wp_runtime_call. simpl.
        intros rd rt2 Hdel. rewrite wp_fail. split_and!; [settings|intros Hcs; by apply Hcl2, Hcl|split; [done|]].
        right. exists (sv_runtime s), a, port, rt.
        change (rt_delete (al_id a) timeout_ms rt = (rd, rt2)) in Hdel. rewrite Hdel.
        split_and!; [constructor|done|exists (sv_ids s); split; [simpl; lia|done]|done|done|]. intros Hwf Hid Hc.
        apply (Hn Hwf Hid Hfree). by apply Hcl.
    + destruct e; simpl.
      1: { unfold u16_checked_add, u16_max. destruct (Z.leb_spec (port + 1) 65535).
           - eapply wp_mono; [apply IH; simpl; try done; lia|].
             simpl. intros r s' (Hs & Hc & Ho).
             split_and!; [etrans; [|exact Hs]; settings|intros Hcs; by apply Hc, Hcl|].
             revert Ho. apply (create_outcome_step _ _ _ _ port a); simpl; try done; lia.
           - rewrite wp_fail. split_and!; [settings|intros Hcs; by apply Hcl|split_and!; [done| |]].
             + by eapply refusals_more; [constructor| |].
             + intros q Hq. destruct (decide (q = port)) as [->|].
               * right. exists (sv_runtime s), a, rt. split_and!; [constructor|done|done].
               * left. apply Hbelow. lia. }
      all: rewrite wp_fail; split_and!; [settings|intros Hcs; by apply Hcl|split_and!; [done|done|]].
      all: exists (sv_runtime s), a, port; split_and!; [constructor|done|lia|lia|done| |done].
      all: intros q Hq; left; by apply Hbelow.
  - destruct r as [o|e]; [injection Hr as Ht <-|].
    + wp_simpl. split_and!; [done|done|done|constructor|]. intros q Hq. left. by apply Hgap.
    + destruct Hr as (e' & -> & Ht & [?|?]); [done|].
      split_and!; [done|done|split; [done|]]. left. split; [constructor|done].
Qed.
End create.

(** C13: create_allocation is a first-fit search. It succeeds with the first port of the
    range that no conflicting allocation uses and that the runtime did not refuse,
    and records exactly that allocation; on every error the tables are unchanged;
    NoAvailablePort is reported only when every port of the range is used or was
    refused. The loop's fuel is enough for every range of 16-bit ports. *)
Theorem create_allocation_spec protocol target_port s (Hrange : range_u16 s) :
  wp (Service_create_allocation clock id_generator protocol target_port)
    (λ r s', same_settings s s' ∧
       if fp_create_timeout (sv_failpoints s) then r = Err Timeout ∧ s' = s
       else create_outcome (sv_apply_timeout_ms s) protocol target_port
              (pr_end (sv_port_range s)) s s' (pr_start (sv_port_range s)) r) s.
Proof.
  unfold Service_create_allocation. rewrite wp_bind, wp_gets.
  destruct (fp_create_timeout _); [by wp_simpl|]. rewrite wp_bind, wp_gets.
  destruct Hrange. eapply wp_mono; [by apply create_loop_spec|].
  intros r s' (? & _ & ?). done.
Qed.
End service.
