(* ===== verification/ServiceInv.v ===== *)
(** Invariants of the allocation service over any sequence of its operations: the
    tables stay well formed and their ports disjoint and in range whatever the engine
    and the runtime do; what is persisted stays tracked by the runtime. *)
From stdpp Require Import base gmap strings list fin_maps relations.
From Stdlib Require Import ZArith Lia.
From S2P Require Import Prelude RustStd Model Config Facade Sqlite SqliteSpec Store.
From S2P Require Import AllocationService ServiceSpec.
Open Scope Z_scope.

(** * How an operation may change the tables *)
Inductive tables_step (lo hi : Z) (t : Tables) : Tables → Prop :=
| ts_same : tables_step lo hi t t
| ts_create a :
    al_host a = None → (∀ tp, al_target_port a = Some tp → is_u16 tp) →
    lo ≤ al_port a ≤ hi → port_taken (al_protocol a) t (al_port a) = false →
    t_allocations t !! al_id a = None →
    tables_step lo hi t (created_tables a t)
| ts_put b :
    is_Some (t_allocations t !! bi_allocation_id b) → is_u16 (bi_target_port b) →
    tables_step lo hi t (put_tables b t)
| ts_unbind id now : tables_step lo hi t (unbind_tables id now t)
| ts_delete id : tables_step lo hi t (delete_tables id t).

Definition ports_within (lo hi : Z) (t : Tables) : Prop :=
  ∀ id r, t_allocations t !! id = Some r → lo ≤ ro_port r ≤ hi.

Lemma created_row_wf a :
  al_host a = None → (∀ tp, al_target_port a = Some tp → is_u16 tp) → is_u16 (al_port a) →
  row_wf (al_id a) (created_row a) (created_binding a).
Proof.
  intros Hh Htp Hp. unfold row_wf, created_row, created_binding. simpl.
  split_and!; [done|by eexists|done|]. rewrite Hh.
  destruct (al_target_port a) as [tp|]; simpl; [|done]. split_and!; [done|auto|done|done].
Qed.

Lemma tables_step_wf lo hi t t' :
  0 ≤ lo → hi ≤ u16_max → tables_wf t → tables_step lo hi t t' → tables_wf t'.
Proof.
  intros Hlo Hhi Hwf [|a Hh Htp Hp Hfree Hid|b Hb Htp|id now|id].
  - done.
  - apply (insert_tables_wf _ _ _ (al_protocol a)); try done.
    apply created_row_wf; [done|done|]. unfold is_u16. lia.
  - by apply put_tables_wf.
  - by apply unbind_tables_wf.
  - by apply delete_tables_wf.
Qed.

Lemma tables_step_within lo hi t t' :
  ports_within lo hi t → tables_step lo hi t t' → ports_within lo hi t'.
Proof.
  intros Hin [|a Hh Htp Hp Hfree Hid|b Hb Htp|id now|id] i r; simpl; eauto.
  - rewrite lookup_insert. case_decide; [intros [= <-]; done|]. eauto.
  - rewrite lookup_alter. case_decide; [|eauto].
    destruct (t_allocations t !! bi_allocation_id b) eqn:Hr; [|done]. intros [= <-].
    simpl. eauto.
  - rewrite lookup_alter. case_decide; [|eauto].
    destruct (t_allocations t !! id) eqn:Hr; [|done]. intros [= <-]. simpl. eauto.
  - rewrite lookup_delete. case_decide; [done|]. eauto.
Qed.

(** * The operations as steps *)
Section service.
  Context {R : Type} `{RuntimeFacade R}.
  Context (clock : nat → Z) (id_generator : nat → string).

(** The mutating operations of the service and their arguments. *)
Inductive Request : Type :=
| ReqCreate (protocol : Protocol) (target_port : option Z)
| ReqPutBinding (id host : string) (target_port : Z)
| ReqDeleteBinding (id : string)
| ReqUpdate (id : string) (target_port : option Z) (host : option string)
| ReqDelete (id : string)
| ReqRestore (timeout_ms : Z).

(** Ports are [u16] in the signatures. *)
Definition request_typed (q : Request) : Prop :=
  match q with
  | ReqCreate _ (Some tp) | ReqPutBinding _ _ tp | ReqUpdate _ (Some tp) _ => is_u16 tp
  | _ => True
  end.

Definition run_request (q : Request) : SvcM R unit :=
  match q with
  | ReqCreate p tp => let! _x := Service_create_allocation clock id_generator p tp in ret tt
  | ReqPutBinding id host tp => let! _x := Service_put_binding clock id host tp in ret tt
  | ReqDeleteBinding id => Service_delete_binding clock id
  | ReqUpdate id tp host => let! _x := Service_update_allocation clock id tp host in ret tt
  | ReqDelete id => Service_delete_allocation id
  | ReqRestore t => Service_restore_all t
  end.

(** One step: an operation with any outcome, a change of the failpoints, or the
    environment, which may change the runtime's state and the engine's faults. *)
Inductive service_step : Service R → Service R → Prop :=
| step_request q s : request_typed q → service_step s (run_request q s).2
| step_failpoints f s : service_step s (Service_set_failpoints f s).2
| step_environment rt faults s :
    service_step s (set_repo {| repo_tables := sv_tables s; repo_faults := faults |}
                      (set_runtime rt s)).

(** Running the restore sweep or a snapshot leaves the tables alone. *)
Lemma mapM_runtime_tables {A B} (f : A → M R RuntimeError B) l (s : Service R) :
  wp (mapM (λ a, runtime_call (f a)) l)
    (λ _ s', sv_repo s' = sv_repo s ∧ same_settings s s') s.
Proof.
  revert s. induction l as [|a l IH]; intros s; [done|]. cbn [mapM].
  rewrite wp_bind. apply wp_runtime_call. intros [b|e] rt _; simpl; [|done].
  rewrite wp_bind. eapply wp_mono; [apply IH|]. intros [bs|e] s' [Hr Hs]; done.
Qed.

Lemma restore_all_tables t s :
  wp (Service_restore_all t) (λ _ s', sv_tables s' = sv_tables s ∧ same_settings s s') s.
Proof.
  unfold Service_restore_all. rewrite wp_bind. apply wp_runtime_call.
  intros [[]|e] rt _; simpl; [|done]. rewrite wp_bind.
  eapply wp_mono; [apply repo_call_spec, list_allocations_implements|]. simpl.
  intros [l|e] s1 (repo' & -> & _ & Hr).
  - assert (repo_tables repo' = sv_tables s) as Ht by (destruct (list_tables _); simpl in Hr; congruence).
    rewrite wp_bind. eapply wp_mono; [apply mapM_runtime_tables|].
    intros [x|e] s' [Hr' Hs]; unfold wp; simpl in *; rewrite Hr'; done.
  - by destruct Hr as (e' & -> & Ht & _).
Qed.

Lemma applied_tables {A} (s s' : Service R) t call (v : A) r :
  applied s s' t call v r → sv_tables s' = sv_tables s ∨ sv_tables s' = t.
Proof. destruct r as [|[]]; simpl; naive_solver. Qed.

Lemma resolved_binding_u16 id a old tp host now b :
  (∀ p, tp = Some p → is_u16 p) → (∀ x, old = Some x → is_u16 (bi_target_port x)) →
  resolved_binding id a old tp host now = Some b →
  bi_allocation_id b = id ∧ is_u16 (bi_target_port b).
Proof.
  intros Htp Hold. unfold resolved_binding. destruct tp as [p|]; simpl.
  - intros [= <-]. simpl. auto.
  - destruct old as [x|]; simpl; [|done]. intros [= <-]. simpl. auto.
Qed.

Lemma store_binding_u16 t id a b :
  tables_wf t → abstract t !! id = Some (a, Some b) → is_u16 (bi_target_port b).
Proof.
  intros Hwf (r & Hr & _ & _ & Hb)%abstract_Some; [|done].
  destruct (wf_rows t Hwf id r Hr) as (_ & _ & _ & Hm).
  destruct (t_bindings t !! id) as [br|]; [|done]. injection Hb as ->. simpl. tauto.
Qed.

Lemma store_present (s : Service R) id x :
  tables_wf (sv_tables s) → sv_store s !! id = Some x →
  is_Some (t_allocations (sv_tables s) !! id).
Proof. intros Hwf Hx. apply abstract_is_Some; [done|]. by exists x. Qed.

(** Every operation, with whatever outcome, changes the tables as [tables_step]
    allows. *)
Lemma run_request_tables q s :
  tables_wf (sv_tables s) → range_u16 s → request_typed q →
  wp (run_request q)
    (λ _ s', tables_step (pr_start (sv_port_range s)) (pr_end (sv_port_range s))
               (sv_tables s) (sv_tables s') ∧ same_settings s s') s.
Proof.
  intros Hwf Hrange Htyped. destruct q as [p tp|id host tp|id|id tp host|id|t]; simpl in *.
  - rewrite wp_bind. eapply wp_mono; [by apply create_allocation_spec|].
    intros r s' [Hs Ho]. destruct (fp_create_timeout _).
    { destruct Ho as [-> ->]. split; [constructor|done]. }
    destruct r as [a|e]; rewrite ?wp_ret.
    + split; [|done]. destruct Ho as (Ha & _ & Hp & Hfree & _ & Hid & -> & _).
      destruct Ha as (Hproto & Htp & Hh & _). apply ts_create; try done.
      * intros x Hx. by rewrite <-Htp, Hx in Htyped.
      * by rewrite Hproto.
    + split; [|done]. assert (sv_tables s' = sv_tables s) as -> by (destruct e; simpl in Ho; tauto).
      constructor.
  - rewrite wp_bind. eapply wp_mono; [by apply put_binding_spec|].
    intros r s' (Hs & _ & Ho).
    enough (tables_step (pr_start (sv_port_range s)) (pr_end (sv_port_range s))
              (sv_tables s) (sv_tables s')) by (by destruct r).
    destruct (parse_ip_literal host); [|destruct Ho as [_ ->]; apply ts_same].
    destruct (sv_store s !! id) as [[al old]|] eqn:Hst; [|destruct Ho as [-> _]; apply ts_same].
    apply applied_tables in Ho as [->| ->]; [apply ts_same|].
    apply ts_put; [|done]. by eapply store_present.
  - eapply wp_mono; [by apply delete_binding_spec|].
    intros r s' [Hs Ho]. split; [|done].
    destruct (sv_store s !! id) as [[a [b|]]|]; [|destruct Ho as [-> _]; constructor..].
    apply applied_tables in Ho as [->| ->]; constructor.
  - rewrite wp_bind. eapply wp_mono; [by apply update_allocation_spec|].
    intros r s' [Hs Ho].
    enough (tables_step (pr_start (sv_port_range s)) (pr_end (sv_port_range s))
              (sv_tables s) (sv_tables s')) by (by destruct r).
    destruct (sv_store s !! id) as [[a old]|] eqn:Hst; [|destruct Ho as [-> _]; constructor].
    destruct (host_ok host); [|destruct Ho as [-> _]; constructor].
    destruct (resolved_binding _ _ _ _ _ _) as [b|] eqn:Hb; [|destruct Ho as [-> _]; constructor].
    apply applied_tables in Ho as [->| ->]; [constructor|].
    apply resolved_binding_u16 in Hb as [Hid Hu].
    + apply ts_put; [|done]. rewrite Hid. by eapply store_present.
    + intros x ->. done.
    + intros x ->. by eapply store_binding_u16.
  - eapply wp_mono; [by apply delete_allocation_spec|].
    intros r s' [Hs [(-> & _)|Ho]]; (split; [|done]); [constructor|].
    destruct (sv_store s !! id) as [[a ob]|]; [|destruct Ho as [-> _]; constructor].
    destruct (fp_delete_timeout _); [destruct Ho as [-> _]; constructor|].
    destruct (rt_delete _ _ _) as [[|] rt]; [|destruct Ho as [-> _]; constructor].
    destruct (fp_delete_db_failure _); [destruct Ho as [-> _]; constructor|].
    destruct Ho as [_ [[-> _]|[-> _]]]; constructor.
  - eapply wp_mono; [apply restore_all_tables|]. intros r s' [-> ?]. split; [constructor|done].
Qed.
End service.

(** * Disjoint ports in every reachable state *)
Section reachable.
  Context {R : Type} `{RuntimeFacade R}.
  Context (clock : nat → Z) (id_generator : nat → string).

Abbreviation step := (service_step clock id_generator).

Definition service_inv (s : Service R) : Prop :=
  tables_wf (sv_tables s) ∧ range_u16 s ∧
  ports_within (pr_start (sv_port_range s)) (pr_end (sv_port_range s)) (sv_tables s).

Lemma service_step_inv s s' : service_inv s → step s s' → service_inv s'.
Proof.
  intros Hinv Hs. destruct Hs as [q s1 Hq|f s1|rt faults s1]; [|exact Hinv..].
  destruct Hinv as (Hwf & Hrange & Hin).
  pose proof (run_request_tables clock id_generator q s1 Hwf Hrange Hq) as Hstep.
  destruct Hstep as (Hstep & Hpr & _).
  destruct Hrange. split_and!.
  - by eapply tables_step_wf.
  - unfold range_u16. by rewrite Hpr.
  - rewrite Hpr. by eapply tables_step_within.
Qed.

Lemma reachable_inv s s' : service_inv s → rtc step s s' → service_inv s'.
Proof. intros Hinv Hr. induction Hr; [done|]. eauto using service_step_inv. Qed.

Lemma service_inv_disjoint (s : Service R) :
  service_inv s →
  ∀ i a oa, sv_store s !! i = Some (a, oa) →
    pr_start (sv_port_range s) ≤ al_port a ≤ pr_end (sv_port_range s) ∧
    ∀ j b ob, sv_store s !! j = Some (b, ob) → i ≠ j →
      overlaps (al_protocol a) (al_protocol b) = true → al_port a ≠ al_port b.
Proof.
  intros (Hwf & _ & Hin).
  intros i a oa (r & Hri & Hpi & -> & _)%abstract_Some; [|done]. split; [by apply (Hin i)|].
  intros j b ob (r' & Hrj & Hpj & -> & _)%abstract_Some Hij Hov; [|done].
  by apply (wf_disjoint _ Hwf i j r r' Hri Hrj Hij _ _ Hpi Hpj).
Qed.

(** C3: Over any sequence of operations, with any outcomes, failpoints, runtime
    behaviour and engine faults, no two allocations whose protocols overlap hold the
    same port, and every allocated port lies in the configured range. *)
Theorem reachable_ports_disjoint s0 s (Hinv : service_inv s0) (Hr : rtc step s0 s) :
  ∀ i a oa, sv_store s !! i = Some (a, oa) →
    pr_start (sv_port_range s) ≤ al_port a ≤ pr_end (sv_port_range s) ∧
    ∀ j b ob, sv_store s !! j = Some (b, ob) → i ≠ j →
      overlaps (al_protocol a) (al_protocol b) = true → al_port a ≠ al_port b.
Proof. exact (service_inv_disjoint _ (reachable_inv _ _ Hinv Hr)). Qed.
End reachable.

(** * Restoring, and what an interrupted deletion loses *)
Section restoring.
  Context {R : Type} `{Hlaws : RuntimeFacadeLaws R}.

(** Every persisted allocation is tracked by the runtime; [exact] also the converse. *)
Definition tracked (s : Service R) : Prop :=
  ∀ id, is_Some (t_allocations (sv_tables s) !! id) → rt_tracks (sv_runtime s) id.

Definition exact (s : Service R) : Prop :=
  ∀ id, rt_tracks (sv_runtime s) id → is_Some (t_allocations (sv_tables s) !! id).

(** Restoring a list of allocations tracks every one of them and drops none. *)
Lemma mapM_restore_tracks t l s :
  rt_ok (sv_runtime s) →
  wp (mapM (λ a, runtime_call (rt_restore a t)) l)
    (λ r s', sv_repo s' = sv_repo s ∧ same_settings s s' ∧ sv_ids s' = sv_ids s ∧
       rt_ok (sv_runtime s') ∧
       (∀ id, id ∉ al_id <$> l → rt_tracks (sv_runtime s') id ↔ rt_tracks (sv_runtime s) id) ∧
       (is_ok r = true → ∀ id, id ∈ al_id <$> l ∨ rt_tracks (sv_runtime s) id →
          rt_tracks (sv_runtime s') id)) s.
Proof.
  revert s. induction l as [|a l IH]; intros s Hok; cbn [mapM].
  { rewrite wp_ret. split_and!; try done. intros _ id [Hid|?]; [set_solver|done]. }
  rewrite wp_bind. apply wp_runtime_call. intros r rt Hr.
  destruct (wp_elim _ _ _ _ _ (rt_restore_spec a t _ Hok) Hr) as (Hok' & Hne & Htr).
  destruct r as [[]|e]; simpl.
  - rewrite wp_bind. eapply wp_mono; [by apply IH|]. simpl.
    intros r2 s2 (Hrepo & Hs & Hids & Hok2 & Hne2 & Htr2).
    enough (sv_repo s2 = sv_repo s ∧ same_settings s s2 ∧ sv_ids s2 = sv_ids s ∧
       rt_ok (sv_runtime s2) ∧
       (∀ id, id ∉ al_id <$> (a :: l) → rt_tracks (sv_runtime s2) id ↔ rt_tracks (sv_runtime s) id) ∧
       (is_ok r2 = true → ∀ id, id ∈ al_id <$> (a :: l) ∨ rt_tracks (sv_runtime s) id →
          rt_tracks (sv_runtime s2) id)) by (destruct r2; rewrite ?wp_ret; done).
    split_and!; try done.
    + intros id Hid. rewrite Hne2, Hne by set_solver. done.
    + intros Hr2 id Hid. apply Htr2; [done|].
      destruct (decide (id = al_id a)) as [->|Hn]; [right; by apply Htr|].
      rewrite Hne by done. set_solver.
  - split_and!; try done. intros id Hid. apply Hne. set_solver.
Qed.

Lemma restore_all_tracks t s :
  tables_wf (sv_tables s) → rt_ok (sv_runtime s) →
  wp (Service_restore_all t)
    (λ r s', same_settings s s' ∧ sv_ids s' = sv_ids s ∧ sv_tables s' = sv_tables s ∧
       rt_ok (sv_runtime s') ∧
       (∀ id, ¬ is_Some (t_allocations (sv_tables s) !! id) →
          rt_tracks (sv_runtime s') id ↔ rt_tracks (sv_runtime s) id) ∧
       (is_ok r = true → tracked s')) s.
Proof.
  intros Hwf Hok. unfold Service_restore_all. rewrite wp_bind. apply wp_runtime_call.
  intros r rt Hr. destruct (wp_elim _ _ _ _ _ (rt_initialize_spec t _ Hok) Hr) as [Hok1 Htr1].
  destruct r as [[]|e]; simpl; [|by split_and!].
  rewrite wp_bind. eapply wp_mono; [by apply read_list_spec|].
  intros r s1 [Hs1 Hr1]. destruct (only_repo_frame _ _ Hs1) as (Hset & _ & Ht1 & Hrt1).
  assert (sv_ids s1 = sv_ids s) as Hids1 by (by destruct Hs1 as (? & -> & _)).
  simpl in *. destruct r as [l|e]; simpl in Hr1; [|rewrite Ht1, Hrt1; by split_and!].
  assert (∀ id, id ∈ al_id <$> l ↔ is_Some (t_allocations (sv_tables s) !! id)) as Hl.
  { intros id. subst l. rewrite <-list_fmap_compose, list_elem_of_fmap. split.
    - intros (row & -> & (i & Hi)%elem_of_select_allocations). simpl.
      destruct (wf_rows _ Hwf i row Hi) as [-> _]. by exists row.
    - intros [row Hrow]. exists row. destruct (wf_rows _ Hwf id row Hrow) as [Hid _].
      split; [by rewrite <-Hid|]. apply elem_of_select_allocations. by exists id. }
  rewrite wp_bind. eapply wp_mono; [apply mapM_restore_tracks; by rewrite Hrt1|].
  intros r s2 (Hrepo & Hset2 & Hids2 & Hok2 & Hne2 & Htr2).
  enough (same_settings s s2 ∧ sv_ids s2 = sv_ids s ∧ sv_tables s2 = sv_tables s ∧
       rt_ok (sv_runtime s2) ∧
       (∀ id, ¬ is_Some (t_allocations (sv_tables s) !! id) →
          rt_tracks (sv_runtime s2) id ↔ rt_tracks (sv_runtime s) id) ∧
       (is_ok r = true → tracked s2)) by (by destruct r).
  rewrite Hrepo. split_and!; [by etrans|congruence|done|done| |].
  - intros id Hid. by rewrite Hne2, Hrt1, Htr1 by (by rewrite Hl).
  - intros Hrok id. rewrite Hrepo, Ht1, <-Hl. intros Hid. apply Htr2; [done|by left].
Qed.

(** A restart: over any runtime that keeps the facade's promises, a restore sweep
    that succeeds leaves every persisted allocation tracked, the tables untouched, and
    nothing newly tracked beside them. *)
Theorem restore_all_restores t s (Hwf : tables_wf (sv_tables s)) (Hok : rt_ok (sv_runtime s)) :
  wp (Service_restore_all t)
    (λ r s', sv_tables s' = sv_tables s ∧
       (is_ok r = true → tracked s') ∧
       ∀ id, rt_tracks (sv_runtime s') id →
             rt_tracks (sv_runtime s) id ∨ is_Some (sv_store s !! id)) s.
Proof.
  eapply wp_mono; [by apply restore_all_tracks|].
  intros r s' (_ & _ & Ht & _ & Hne & Htr). split_and!; [done|done|].
  intros id Hid. unfold sv_store. rewrite abstract_is_Some by done.
  destruct (t_allocations (sv_tables s) !! id) eqn:Ha; [by right|left].
  apply Hne; [rewrite Ha; by intros [? ?]|done].
Qed.

(** C28: What a real engine failure does to a deletion: when the runtime has deleted
    the listener and the repository's transaction then fails to begin, the operation
    reports a repository error with the allocation still persisted but no longer
    tracked, because only the failpoint path restores the runtime. *)
Theorem delete_engine_failure_loses_runtime id s a ob faults rt
    (Hwf : tables_wf (sv_tables s)) (Hok : rt_ok (sv_runtime s))
    (Hst : sv_store s !! id = Some (a, ob))
    (Hfp : sv_failpoints s = Failpoints_default)
    (Hfaults : repo_faults (sv_repo s) = false :: true :: faults)
    (Hdel : rt_delete id (sv_apply_timeout_ms s) (sv_runtime s) = (Ok tt, rt)) :
  let run := Service_delete_allocation id s in
  run.1 = Err (SvcRepository (RepoSqlx EngineFailure)) ∧
  sv_store run.2 = sv_store s ∧ ¬ rt_tracks (sv_runtime run.2) id.
Proof.
  cbv zeta. pose proof (decode_allocation (sv_tables s) id Hwf) as Hdec.
  unfold sv_store in Hst. rewrite Hst in Hdec. simpl in Hdec.
  destruct s as [[t f] rt0 range timeout fp ids ticks]. simpl in *. subst f fp.
  unfold Service_delete_allocation, bind, repo_call, runtime_call, zoom, gets.
  unfold Repository_get_allocation, sql_query, engine_call, bind, gets, of_result. simpl.
  rewrite Hdec. simpl. rewrite Hdel. simpl.
  split_and!; [done|done|].
  destruct (wp_elim _ _ _ _ _ (rt_delete_spec id timeout rt0 Hok) Hdel) as [_ Htr].
  rewrite Htr. naive_solver.
Qed.
End restoring.

(** * Persisted allocations stay tracked *)
Section tracking.
  Context {R : Type} `{Hlaws : RuntimeFacadeLaws R}.
  Context (clock : nat → Z) (id_generator : nat → string).
  Context (Hinj : ∀ m n, id_generator m = id_generator n → m = n).

(** Identifiers not drawn yet are in use nowhere. *)
Definition ids_fresh (s : Service R) : Prop :=
  ∀ n, (sv_ids s ≤ n)%nat →
    t_allocations (sv_tables s) !! id_generator n = None ∧
    ¬ rt_tracks (sv_runtime s) (id_generator n).

(** Refused candidates leave no trace. *)
Lemma refusals_tracks t p tp n0 rt0 rt :
  rt_ok rt0 → (∀ n, (n0 ≤ n)%nat → ¬ rt_tracks rt0 (id_generator n)) →
  after_refusals id_generator t p tp n0 rt0 rt →
  rt_ok rt ∧ ∀ id, rt_tracks rt id ↔ rt_tracks rt0 id.
Proof.
  intros Hok Hfresh Hr. induction Hr as [|rt a port rt' Hr [Hok' IH] Ha Hc]; [done|].
  destruct Ha as (_ & _ & _ & _ & _ & n & Hn & Hid).
  assert (¬ rt_tracks rt (al_id a)) as Hnt by (rewrite IH, Hid; by apply Hfresh).
  destruct (wp_elim _ _ _ _ _ (rt_create_spec a t rt Hok' Hnt) Hc) as [Hok'' Htr].
  split; [done|]. intros id. rewrite Htr. simpl. rewrite IH. naive_solver.
Qed.

Lemma created_tables_domain a t id :
  is_Some (t_allocations (created_tables a t) !! id) ↔
  is_Some (t_allocations t !! id) ∨ id = al_id a.
Proof. simpl. apply is_Some_insert. Qed.

(** Freshness after an operation that adds at most one drawn identifier. *)
Lemma ids_fresh_grow s s' id :
  ids_fresh s → drawn id_generator s s' id →
  (∀ i, is_Some (t_allocations (sv_tables s') !! i) →
        is_Some (t_allocations (sv_tables s) !! i) ∨ i = id) →
  (∀ i, rt_tracks (sv_runtime s') i → rt_tracks (sv_runtime s) i ∨ i = id) →
  ids_fresh s'.
Proof.
  intros Hf (m & Hm & ->) Ht Hr n Hn. destruct (Hf n) as [Hf1 Hf2]; [lia|].
  assert (id_generator n ≠ id_generator m) as Hne by (intros ?%Hinj; lia).
  split; [|by intros [?|?]%Hr].
  destruct (t_allocations (sv_tables s') !! _) eqn:Ha; [|done].
  destruct (Ht (id_generator n)) as [[x Hx]|?]; [by rewrite Ha|congruence|done].
Qed.

Lemma ids_fresh_mono s s' :
  ids_fresh s → (sv_ids s ≤ sv_ids s')%nat →
  (∀ i, is_Some (t_allocations (sv_tables s') !! i) → is_Some (t_allocations (sv_tables s) !! i)) →
  (∀ i, rt_tracks (sv_runtime s') i → rt_tracks (sv_runtime s) i) →
  ids_fresh s'.
Proof.
  intros Hf Hle Ht Hr n Hn. destruct (Hf n) as [Hf1 Hf2]; [lia|]. split; [|auto].
  destruct (t_allocations (sv_tables s') !! _) eqn:Ha; [|done].
  destruct (Ht (id_generator n)) as [x Hx]; [by rewrite Ha|congruence].
Qed.

(** What a creation does to the runtime: it tracks the new allocation and nothing
    else; a failed one adds at most a drawn identifier. *)
Lemma create_tracks p tp s :
  range_u16 s → rt_ok (sv_runtime s) → ids_fresh s →
  wp (Service_create_allocation clock id_generator p tp)
    (λ r s', rt_ok (sv_runtime s') ∧ ids_fresh s' ∧
       match r with
       | Ok a =>
           (∀ id, rt_tracks (sv_runtime s') id ↔ rt_tracks (sv_runtime s) id ∨ id = al_id a) ∧
           (∀ id, is_Some (t_allocations (sv_tables s') !! id) ↔
                  is_Some (t_allocations (sv_tables s) !! id) ∨ id = al_id a)
       | Err _ =>
           sv_tables s' = sv_tables s ∧
           (∀ id, rt_tracks (sv_runtime s) id → rt_tracks (sv_runtime s') id) ∧
           (tables_wf (sv_tables s) → sv_clean s →
            ∀ id, rt_tracks (sv_runtime s') id → rt_tracks (sv_runtime s) id)
       end) s.
Proof.
  intros Hrange Hok Hfresh. eapply wp_mono; [by apply create_allocation_spec|].
  intros r s' [(_ & _ & _ & Hids) Ho].
  destruct (fp_create_timeout _); [destruct Ho as [-> ->]; by split_and!|].
  set (T := sv_apply_timeout_ms s) in *.
  assert (∀ rt, after_refusals id_generator T p tp (sv_ids s) (sv_runtime s) rt →
          rt_ok rt ∧ ∀ id, rt_tracks rt id ↔ rt_tracks (sv_runtime s) id) as Href
    by (intros rt; apply refusals_tracks; [done|apply Hfresh]).
  assert (∀ rt a r rt', after_refusals id_generator T p tp (sv_ids s) (sv_runtime s) rt →
          (∃ n, (sv_ids s ≤ n)%nat ∧ al_id a = id_generator n) →
          rt_create a T rt = (r, rt') → rt_ok rt' ∧
          ∀ id, rt_tracks rt' id ↔ rt_tracks (sv_runtime s) id ∨ (is_ok r = true ∧ id = al_id a))
    as Hcr.
  { intros rt a r0 rt' Hrt (n & Hn & Hid) Hc. destruct (Href rt Hrt) as [Hok1 Htr1].
    assert (¬ rt_tracks rt (al_id a)) as Hnt by (rewrite Htr1, Hid; by apply Hfresh).
    destruct (wp_elim _ _ _ _ _ (rt_create_spec a T rt Hok1 Hnt) Hc) as [? Htr].
    split; [done|]. intros id. by rewrite Htr, Htr1. }
  destruct r as [a|e].
  - destruct Ho as (Ha & Hd & _ & _ & _ & _ & Ht & rt & Hrt & Hc).
    destruct Ha as (_ & _ & _ & _ & _ & Hn).
    destruct (Hcr _ _ _ _ Hrt Hn Hc) as [Hok' Htr]. rewrite Ht.
    assert (∀ id, rt_tracks (sv_runtime s') id ↔ rt_tracks (sv_runtime s) id ∨ id = al_id a)
      as Htr' by (intros id; rewrite Htr; naive_solver).
    split_and!; [done| |done|apply created_tables_domain].
    eapply (ids_fresh_grow s); [done|done| |apply Htr'].
    intros i. rewrite Ht. apply created_tables_domain.
  - assert (sv_tables s' = sv_tables s) as Ht by (destruct e; simpl in Ho; tauto).
    assert ((∀ id, rt_tracks (sv_runtime s') id ↔ rt_tracks (sv_runtime s) id) →
            rt_ok (sv_runtime s') → rt_ok (sv_runtime s') ∧ ids_fresh s' ∧
            sv_tables s' = sv_tables s ∧
            (∀ id, rt_tracks (sv_runtime s) id → rt_tracks (sv_runtime s') id) ∧
            (tables_wf (sv_tables s) → sv_clean s →
             ∀ id, rt_tracks (sv_runtime s') id → rt_tracks (sv_runtime s) id)) as Hsame.
    { intros Htr Hok'. split_and!; [done| |done|intros id; apply Htr|intros _ _ id; apply Htr].
      eapply ids_fresh_mono; [done|done|by rewrite Ht|apply Htr]. }
    destruct e as [e|e| | | | |]; simpl in Ho; try done.
    + destruct Ho as [_ [[Hrt Hn]|(rt & a & port & rt1 & Hrt & Ha & Hd & Hc & Hs' & Hcl)]].
      * destruct (Href _ Hrt) as [Hok' Htr]. by apply Hsame.
      * clear Hsame. destruct Ha as (_ & _ & _ & _ & _ & Hn).
        destruct (Hcr _ _ _ _ Hrt Hn Hc) as [Hok1 Htr1].
        destruct (rt_delete_spec (al_id a) T rt1 Hok1) as [Hok2 Htr2].
        rewrite <-Hs' in Hok2, Htr2. destruct Hn as (n & Hn & Hid).
        destruct (Hfresh n Hn) as [Hf1 Hf2]. rewrite <-Hid in Hf1, Hf2. split_and!; [done| |done| |].
        -- eapply (ids_fresh_grow s); [done|done|rewrite Ht; by left|].
           intros i [[?|[_ ?]]%Htr1 _]%Htr2; [by left|by right].
        -- intros id Hid'. apply Htr2. split; [apply Htr1; by left|]. by intros _ ->.
        -- intros Hwf Hclean. exfalso. by apply Hcl.
    + destruct Ho as (_ & Hne & rt & a & port & Hrt & Ha & _ & _ & _ & Hc).
      destruct Ha as (_ & _ & _ & _ & _ & Hn). destruct (Hcr _ _ _ _ Hrt Hn Hc) as [Hok' Htr].
      apply Hsame; [|done]. intros id. rewrite Htr. simpl. naive_solver.
    + destruct Ho as (_ & Hrt & _). destruct (Href _ Hrt) as [Hok' Htr]. by apply Hsame.
Qed.

(** The state in which the service and the runtime agree. *)
Record tracked_inv (s : Service R) : Prop := {
  ti_wf : tables_wf (sv_tables s);
  ti_range : range_u16 s;
  ti_ok : rt_ok (sv_runtime s);
  ti_fresh : ids_fresh s;
  ti_tracked : tracked s;
}.

(** An operation that changes neither the set of allocations nor what is tracked. *)
Definition kept (s s' : Service R) : Prop :=
  (∀ id, is_Some (t_allocations (sv_tables s') !! id) ↔
         is_Some (t_allocations (sv_tables s) !! id)) ∧
  rt_ok (sv_runtime s') ∧
  ∀ id, rt_tracks (sv_runtime s') id ↔ rt_tracks (sv_runtime s) id.

Lemma kept_tracked s s' :
  ids_fresh s → tracked s → same_settings s s' → kept s s' →
  ids_fresh s' ∧ tracked s' ∧ (exact s → exact s').
Proof.
  intros Hf Ht (_ & _ & _ & Hids) (Hd & Hok & Htr). split_and!.
  - eapply ids_fresh_mono; [done|done|apply Hd|apply Htr].
  - intros id. rewrite Hd, Htr. apply Ht.
  - intros He id. rewrite Hd, Htr. apply He.
Qed.

Lemma applied_kept {A} s s' t a (v : A) r :
  rt_ok (sv_runtime s) → rt_tracks (sv_runtime s) (al_id a) →
  (∀ id, is_Some (t_allocations t !! id) ↔ is_Some (t_allocations (sv_tables s) !! id)) →
  applied s s' t (rt_update a (sv_apply_timeout_ms s)) v r → kept s s'.
Proof.
  intros Hok Hin Hdom Happ. unfold kept.
  pose proof (rt_update_spec a (sv_apply_timeout_ms s) (sv_runtime s) Hok Hin) as Hu.
  destruct r as [x|[e|e| | | | |]]; simpl in Happ; try done.
  - destruct Happ as (_ & -> & Hc). by destruct (wp_elim _ _ _ _ _ Hu Hc).
  - destruct Happ as (-> & -> & _). done.
  - destruct Happ as (-> & Hc). by destruct (wp_elim _ _ _ _ _ Hu Hc).
  - destruct Happ as (_ & -> & ->). done.
Qed.

Lemma unchanged_kept s s' :
  rt_ok (sv_runtime s) → sv_tables s' = sv_tables s → sv_runtime s' = sv_runtime s → kept s s'.
Proof. intros Hok Ht Hr. unfold kept. by rewrite Ht, Hr. Qed.

Lemma alter_domain {A} (f : A → A) (m : gmap string A) i id :
  is_Some (alter f i m !! id) ↔ is_Some (m !! id).
Proof. rewrite lookup_alter. case_decide; [|done]. subst. by rewrite fmap_is_Some. Qed.

Lemma store_tracked s id a ob :
  tables_wf (sv_tables s) → tracked s → sv_store s !! id = Some (a, ob) →
  al_id a = id ∧ rt_tracks (sv_runtime s) id.
Proof.
  intros Hwf Htr Hst. split.
  - apply abstract_Some in Hst as (r & Hr & _ & -> & _); [|done]. simpl.
    by destruct (wf_rows _ Hwf id r Hr).
  - apply Htr. by eapply store_present.
Qed.

(** The operations on bindings keep everything that is tracked. *)
Lemma binding_requests_kept q s :
  tracked_inv s → request_typed q →
  match q with ReqPutBinding _ _ _ | ReqDeleteBinding _ | ReqUpdate _ _ _ => True | _ => False end →
  wp (run_request clock id_generator q) (λ _ s', same_settings s s' ∧ kept s s') s.
Proof.
  intros [Hwf Hrange Hok Hfresh Htr] Htyped Hq.
  destruct q as [| id host tp | id | id tp host | | ]; try done; simpl run_request; rewrite ?wp_bind.
  - eapply wp_mono; [by apply put_binding_spec|]. intros r s' (Hs & _ & Ho).
    enough (kept s s') by (by destruct r).
    destruct (parse_ip_literal host) as [ip|]; [|destruct Ho as [_ ->]; by apply unchanged_kept].
    destruct (sv_store s !! id) as [[a old]|] eqn:Hst;
      [|destruct Ho as (? & ? & _); by apply unchanged_kept].
    destruct (store_tracked s id a old Hwf Htr Hst) as [<- Htid].
    eapply applied_kept; [done| | |exact Ho]; [done|intros i; apply alter_domain].
  - eapply wp_mono; [by apply delete_binding_spec|]. intros r s' [Hs Ho].
    split; [done|].
    destruct (sv_store s !! id) as [[a [b|]]|] eqn:Hst;
      [|destruct Ho as (? & ? & _); by apply unchanged_kept..].
    destruct (store_tracked s id a (Some b) Hwf Htr Hst) as [<- Htid].
    eapply applied_kept; [done| | |exact Ho]; [done|intros i; apply alter_domain].
  - eapply wp_mono; [by apply update_allocation_spec|]. intros r s' [Hs Ho].
    enough (kept s s') by (by destruct r).
    destruct (sv_store s !! id) as [[a old]|] eqn:Hst;
      [|destruct Ho as (? & ? & _); by apply unchanged_kept].
    destruct (host_ok host); [|destruct Ho as (? & ? & _); by apply unchanged_kept].
    destruct (resolved_binding _ _ _ _ _ _) as [b|];
      [|destruct Ho as (? & ? & _); by apply unchanged_kept].
    destruct (store_tracked s id a old Hwf Htr Hst) as [<- Htid].
    eapply applied_kept; [done| | |exact Ho]; [done|intros i; apply alter_domain].
Qed.

Definition is_repository_error {A} (r : result A ServiceError) : bool :=
  match r with Err (SvcRepository _) => true | _ => false end.

(** The requests and outcomes that may lose the runtime's state of a persisted
    allocation: a deletion that an error of the engine or the failpoint interrupts, and a
    restore sweep that fails. *)
Definition keeps_runtime (q : Request) (s : Service R) : Prop :=
  match q with
  | ReqDelete id =>
      is_repository_error (Service_delete_allocation id s).1 = false ∧
      fp_delete_db_failure (sv_failpoints s) = false
  | ReqRestore t => is_ok (Service_restore_all t s).1 = true
  | _ => True
  end.

Lemma delete_tracks id s :
  tracked_inv s → keeps_runtime (ReqDelete id) s →
  wp (Service_delete_allocation id)
    (λ _ s', same_settings s s' ∧ rt_ok (sv_runtime s') ∧ ids_fresh s' ∧ tracked s' ∧
             (exact s → exact s')) s.
Proof.
  intros [Hwf Hrange Hok Hfresh Htr] [Hclean Hfp].
  eapply wp_mono; [by apply wp_result, delete_allocation_spec|]. intros r s' [[Hs Ho] Hres].
  rewrite <-Hres in Hclean. split; [done|].
  assert (sv_tables s' = sv_tables s ∧
          (∀ i, rt_tracks (sv_runtime s') i ↔ rt_tracks (sv_runtime s) i) ∧
          rt_ok (sv_runtime s') →
          rt_ok (sv_runtime s') ∧ ids_fresh s' ∧ tracked s' ∧ (exact s → exact s')) as Hkept.
  { intros (Ht & Hi & Hok'). split; [done|]. apply (kept_tracked s s'); try done.
    unfold kept. by rewrite Ht. }
  destruct Ho as [(_ & _ & [e ->] & _)|Ho]; [done|].
  destruct (sv_store s !! id) as [[a ob]|]; [|apply Hkept; by destruct Ho as (-> & -> & _)].
  destruct (fp_delete_timeout _); [apply Hkept; by destruct Ho as (-> & -> & _)|].
  pose proof (rt_delete_spec id (sv_apply_timeout_ms s) (sv_runtime s) Hok) as Hd.
  unfold wp in Hd. destruct (rt_delete _ _ _) as [d rt]. simpl in Hd.
  destruct Hd as [Hok' Hd]. destruct d as [x|e].
  - rewrite Hfp in Ho. destruct Ho as [Hrt [[Ht _]|(_ & [e ->] & _)]]; [|done].
    rewrite <-Hrt in Hok', Hd. simpl in Hd. clear Hkept.
    assert (∀ i, is_Some (t_allocations (sv_tables s') !! i) ↔
                 is_Some (t_allocations (sv_tables s) !! i) ∧ i ≠ id) as Hdom
      by (intros i; rewrite Ht; apply is_Some_delete).
    split_and!; [done| | |].
    + destruct Hs as (_ & _ & _ & Hids). eapply (ids_fresh_mono s); [done|done|apply Hdom|apply Hd].
    + intros i [Hi Hne]%Hdom. apply Hd. split; [by apply Htr|done].
    + intros He i [Hi Hne]%Hd. apply Hdom. split; [by apply He|auto].
  - destruct Ho as (Ht & Hrt & _). apply Hkept. rewrite Hrt. split_and!; [done| |done].
    intros i. rewrite Hd. simpl. naive_solver.
Qed.

(** Without engine faults the engine interrupts no deletion. *)
Lemma delete_clean id s :
  tables_wf (sv_tables s) → sv_clean s → is_repository_error (Service_delete_allocation id s).1 = false.
Proof.
  intros Hwf Hclean. change (wp (Service_delete_allocation id) (λ r _, is_repository_error r = false) s).
  eapply wp_mono; [by apply delete_allocation_spec|]. intros r s' [_ [(_ & _ & _ & Hn)|Ho]]; [done|].
  destruct (sv_store s !! id) as [[a ob]|]; [|by destruct Ho as (_ & _ & ->)].
  destruct (fp_delete_timeout _); [by destruct Ho as (_ & _ & ->)|].
  destruct (rt_delete _ _ _) as [[x|e] rt]; [|by destruct Ho as (_ & _ & ->)].
  destruct (fp_delete_db_failure _).
  - destruct Ho as [_ Ho]. by destruct (rt_restore _ _ _) as [[y|e] rt']; destruct Ho as [_ ->].
  - destruct Ho as [_ [[_ ->]|(_ & _ & Hn)]]; done.
Qed.

Lemma request_tracked q s :
  tracked_inv s → request_typed q → keeps_runtime q s →
  wp (run_request clock id_generator q) (λ _ s', tracked_inv s') s.
Proof.
  intros Hinv Htyped Hkeeps.
  enough (wp (run_request clock id_generator q)
            (λ _ s', rt_ok (sv_runtime s') ∧ ids_fresh s' ∧ tracked s') s) as (Hok & Hf & Ht).
  { destruct (run_request_tables clock id_generator q s) as [Hstep Hs]; [apply Hinv..|done|].
    destruct Hs as (Hpr & _). destruct (ti_range s Hinv). split; [|unfold range_u16; by rewrite Hpr|done..].
    eapply tables_step_wf; [done..|apply Hinv|done]. }
  destruct q as [p tp|id host tp|id|id tp host|id|t]; simpl run_request.
  - rewrite wp_bind. eapply wp_mono; [apply create_tracks; apply Hinv|].
    intros r s' (Hok & Hf & Ho). destruct r as [a|e].
    + destruct Ho as [Htr Hd]. rewrite wp_ret. split_and!; [done|done|].
      intros id [?| ->]%Hd; apply Htr; [left; by apply Hinv|by right].
    + destruct Ho as (Ht & Htr & _). split_and!; [done|done|].
      intros id. rewrite Ht. intros ?. by apply Htr, Hinv.
  - eapply wp_mono; [by apply (binding_requests_kept (ReqPutBinding id host tp))|].
    intros r s' [Hs Hk]. split; [apply Hk|].
    destruct (kept_tracked s s') as (? & ? & _); try apply Hinv; done.
  - eapply wp_mono; [by apply (binding_requests_kept (ReqDeleteBinding id))|].
    intros r s' [Hs Hk]. split; [apply Hk|].
    destruct (kept_tracked s s') as (? & ? & _); try apply Hinv; done.
  - eapply wp_mono; [by apply (binding_requests_kept (ReqUpdate id tp host))|].
    intros r s' [Hs Hk]. split; [apply Hk|].
    destruct (kept_tracked s s') as (? & ? & _); try apply Hinv; done.
  - eapply wp_mono; [by apply delete_tracks|]. intros r s' (_ & ? & ? & ? & _). done.
  - simpl in Hkeeps. destruct (restore_all_tracks t s) as (Hs & Hids & Ht & Hok & Hne & Htr);
      [apply Hinv..|]. unfold wp. split_and!; [done| |by apply Htr].
    intros n Hn. rewrite Hids in Hn. destruct (ti_fresh s Hinv n Hn) as [Hf1 Hf2].
    rewrite Ht. split; [done|]. rewrite Hne by (rewrite Hf1; by intros [? ?]). done.
Qed.

(** C4: The invariant that ties the database to the runtime: after any operation, with
    any outcome, of a service over any runtime that keeps the facade's promises, every
    persisted allocation is tracked by the runtime; the only exceptions are a deletion
    the engine or the persistence failpoint interrupts and a failing restore sweep. *)
Theorem request_keeps_tracked q s
    (Hinv : tracked_inv s) (Htyped : request_typed q) (Hkeeps : keeps_runtime q s) :
  tracked_inv (run_request clock id_generator q s).2.
Proof. by apply request_tracked. Qed.

(** C21: In runs without engine faults and persistence failpoint the runtime tracks
    nothing but persisted allocations: no operation, failing or not, leaves an orphan
    listener behind. *)
Theorem request_leaves_no_orphan q s
    (Hinv : tracked_inv s) (Htyped : request_typed q) (Hexact : exact s)
    (Hclean : sv_clean s) (Hfp : fp_delete_db_failure (sv_failpoints s) = false) :
  exact (run_request clock id_generator q s).2.
Proof.
  enough (wp (run_request clock id_generator q) (λ _ s', exact s') s) by done.
  assert (∀ q', request_typed q' →
    match q' with ReqPutBinding _ _ _ | ReqDeleteBinding _ | ReqUpdate _ _ _ => True | _ => False end →
    wp (run_request clock id_generator q') (λ _ s', exact s') s) as Hbind.
  { intros q' Ht' Hq'. eapply wp_mono; [by apply binding_requests_kept|].
    intros r s' [Hs Hk]. by apply (kept_tracked s s'); try apply Hinv. }
  destruct q as [p tp|id host tp|id|id tp host|id|t]; try by apply Hbind.
  - simpl run_request. rewrite wp_bind. eapply wp_mono; [apply create_tracks; apply Hinv|].
    intros r s' (_ & _ & Ho). destruct r as [a|e].
    + destruct Ho as [Htr Hd]. rewrite wp_ret. intros id [?| ->]%Htr; apply Hd; [left; by apply Hexact|by right].
    + destruct Ho as (Ht & _ & Htr). intros id Hid. rewrite Ht. apply Hexact, Htr; try apply Hinv; done.
  - eapply wp_mono; [apply delete_tracks; [done|split; [apply delete_clean; [apply Hinv|done]|done]]|].
    intros r s' (_ & _ & _ & _ & He). by apply He.
  - eapply wp_mono; [apply restore_all_tracks; apply Hinv|]. intros r s' (_ & _ & Ht & _ & Hne & _) id Hid.
    rewrite Ht. destruct (t_allocations (sv_tables s) !! id) eqn:Ha; [done|].
    apply Hne, Hexact in Hid as [x Hx]; [congruence|]. rewrite Ha. by intros [? ?].
Qed.

End tracking.
