(* ===== verification/ServiceMem.v ===== *)
(** The service over the in-memory runtime: end-to-end behaviour of whole requests. *)
From stdpp Require Import base gmap strings list fin_maps.
From Stdlib Require Import ZArith Lia.
From S2P Require Import Prelude RustStd Model Config Facade Sqlite SqliteSpec Store.
From S2P Require Import AllocationService ServiceSpec ServiceInv.
Open Scope Z_scope.

Section mem.
  Context (clock : nat → Z) (id_generator : nat → string).

(** Creations never change the failure switches, and fail by them alone. *)
Lemma mem_create_result a t rt :
  (InMemoryRuntime_create a t rt).1 =
    (if decide (al_port a ∈ rs_create_fail_ports rt) then Err RuntimeCreateFailed
     else if decide (al_port a ∈ rs_apply_fail_ports rt) then Err RuntimeApplyFailed
     else Ok tt) ∧
  rs_create_fail_ports (InMemoryRuntime_create a t rt).2 = rs_create_fail_ports rt ∧
  rs_apply_fail_ports (InMemoryRuntime_create a t rt).2 = rs_apply_fail_ports rt.
Proof.
  unfold InMemoryRuntime_create, bind, modify, gets, fail. simpl.
  repeat (case_decide; simpl); done.
Qed.

Lemma mem_refusals t p tp n0 rt0 rt :
  after_refusals id_generator t p tp n0 rt0 rt →
  rs_create_fail_ports rt = rs_create_fail_ports rt0 ∧
  rs_apply_fail_ports rt = rs_apply_fail_ports rt0.
Proof.
  induction 1 as [|rt a port rt' Hr [IH1 IH2] Ha Hc]; [done|]. simpl in Hc.
  destruct (mem_create_result a t rt) as (_ & H1 & H2). rewrite Hc in H1, H2. simpl in *.
  split; congruence.
Qed.

Lemma mem_refused t p tp n0 rt0 port :
  refused id_generator t p tp n0 rt0 port → port ∈ rs_create_fail_ports rt0.
Proof.
  intros (rt & a & rt' & Hr & (_ & _ & _ & Hp & _) & Hc). simpl in Hc.
  destruct (mem_refusals _ _ _ _ _ _ Hr) as [Hf _].
  destruct (mem_create_result a t rt) as (H1 & _). rewrite Hc in H1. simpl in H1.
  rewrite <-Hf, <-Hp. by repeat case_decide.
Qed.

(** Without engine faults, creation over the in-memory runtime is exactly a linear
    first-fit scan: it yields the first port of the range that no conflicting
    allocation uses and whose listener can be created, and NoAvailablePort when there
    is none; an apply failure at that port is reported, not skipped. *)
Theorem create_allocation_first_fit p tp (s : Service RuntimeState)
    (Hwf : tables_wf (sv_tables s)) (Hrange : range_u16 s) (Hclean : sv_clean s)
    (Hfp : fp_create_timeout (sv_failpoints s) = false)
    (Hfresh : ids_fresh id_generator s) :
  let r := (Service_create_allocation clock id_generator p tp s).1 in
  let refuses q := bool_decide (q ∈ rs_create_fail_ports (sv_runtime s)) in
  let range := sv_port_range s in
  match first_free (λ q, port_taken p (sv_tables s) q || refuses q)
          (Z.to_nat (pr_end range - pr_start range + 1)) (pr_start range) with
  | None => r = Err NoAvailablePort
  | Some port =>
      if decide (port ∈ rs_apply_fail_ports (sv_runtime s))
      then r = Err (SvcRuntime RuntimeApplyFailed)
      else ∃ a, r = Ok a ∧ al_port a = port ∧ al_protocol a = p ∧ al_target_port a = tp
  end.
Proof.
  cbv zeta.
  set (busy q := port_taken p (sv_tables s) q || _).
  destruct (create_allocation_spec clock id_generator p tp s Hrange) as [_ Ho].
  rewrite Hfp in Ho. destruct (Service_create_allocation _ _ _ _ s) as [r s']. simpl in *.
  set (T := sv_apply_timeout_ms s) in *.
  assert (∀ q, skipped id_generator T p tp s q → busy q = true) as Hskip.
  { intros q [Ht|Hr]; unfold busy; [by rewrite Ht|]. apply mem_refused in Hr.
    rewrite bool_decide_true by done. apply orb_true_r. }
  assert (∀ rt a port r rt', after_refusals id_generator T p tp (sv_ids s) (sv_runtime s) rt →
            candidate_allocation id_generator p tp (sv_ids s) port a →
            port_taken p (sv_tables s) port = false → r ≠ Err RuntimeCreateFailed →
            InMemoryRuntime_create a T rt = (r, rt') →
            busy port = false ∧
            r = if decide (port ∈ rs_apply_fail_ports (sv_runtime s))
                then Err RuntimeApplyFailed else Ok tt) as Hcreate.
  { intros rt a port r0 rt' Hr (_ & _ & _ & Hp & _) Hfree Hne Hc.
    destruct (mem_refusals _ _ _ _ _ _ Hr) as [Hf1 Hf2].
    destruct (mem_create_result a T rt) as (H1 & _). rewrite Hc, Hp, Hf1, Hf2 in H1. simpl in H1.
    unfold busy. rewrite Hfree. simpl. case_decide; [done|]. by rewrite bool_decide_false. }
  destruct r as [a|e].
  - destruct Ho as (Ha & _ & Hp & Hfree & Hq & _ & _ & rt & Hr & Hc).
    destruct (Hcreate rt a (al_port a) (Ok tt) (sv_runtime s')) as [Hb Happ]; try done.
    rewrite (first_free_Some busy _ _ (al_port a)); [|lia|done|by intros q Hq'; apply Hskip, Hq].
    case_decide; [done|]. exists a. by destruct Ha as (? & ? & _).
  - destruct e as [e|e| | | | |]; simpl in Ho; try done.
    + destruct Ho as [_ [[_ ?]|(rt & a & port & rt1 & _ & Ha & _ & _ & _ & Hcl)]]; [done|].
      destruct Ha as (_ & _ & _ & _ & _ & n & Hn & Hid). exfalso. apply Hcl; [done| |done].
      rewrite Hid. by apply Hfresh.
    + destruct Ho as (_ & Hne & rt & a & port & Hr & Ha & Hp & Hfree & Hq & Hc).
      destruct (Hcreate rt a port (Err e) (sv_runtime s')) as [Hb Happ]; [done..|congruence|done|].
      rewrite (first_free_Some busy _ _ port); [|lia|done|by intros q Hq'; apply Hskip, Hq].
      case_decide; by simplify_eq.
    + destruct Ho as (_ & _ & Hq). rewrite first_free_None; [done|].
      intros q Hq'. apply Hskip, Hq. lia.
Qed.

(** A binding that was put is served: without engine faults, failpoints or runtime
    failure, put_binding with an IP literal on a known allocation succeeds, and the
    binding read back afterwards is active with exactly that host and target port. *)
Theorem put_binding_then_view id host tp a ob ip (s : Service RuntimeState)
    (Hwf : tables_wf (sv_tables s)) (Hclean : sv_clean s) (Htp : is_u16 tp)
    (Hhost : parse_ip_literal host = Ok ip)
    (Hst : sv_store s !! id = Some (a, ob))
    (Hfp : fp_update_timeout (sv_failpoints s) = false)
    (Hup : id ∉ rs_update_fail_ids (sv_runtime s)) :
  let run := Service_put_binding clock id host tp s in
  is_ok run.1 = true ∧
  ∃ view, (Service_get_binding_view id run.2).1 = Ok (Some view) ∧
    bv_host view = Some host ∧ bv_target_port view = tp ∧
    bv_effective_host view = Some host ∧ bv_effective_target_port view = Some tp ∧
    bv_runtime_status view = Active.
Proof.
  cbv zeta. destruct (put_binding_spec clock id host tp s Hwf) as (_ & Hc & Ho).
  rewrite Hhost, Hst in Ho. destruct (Service_put_binding _ _ _ _ s) as [r s']. simpl in *.
  set (b := {| bi_allocation_id := id |}) in *.
  assert (is_Some (t_allocations (sv_tables s) !! id)) as Hin by (by eapply store_present).
  assert (al_id a = id) as Hid.
  { apply abstract_Some in Hst as (row & Hr & _ & -> & _); [|done]. simpl.
    by destruct (wf_rows _ Hwf id row Hr). }
  destruct r as [b'|e]; simpl in Ho.
  - destruct Ho as (_ & Ht & Hu). split; [done|].
    assert (tables_wf (sv_tables s')) as Hwf' by (rewrite Ht; by apply put_tables_wf).
    assert (rs_allocations (sv_runtime s') !! id = Some (allocation_with_binding a b)) as Hrs.
    { unfold InMemoryRuntime_update, bind, modify, gets in Hu. simpl in Hu. rewrite Hid in Hu.
      rewrite decide_False in Hu by done. injection Hu as <-. simpl.
      by rewrite lookup_insert_eq. }
    enough (wp (Service_get_binding_view id) (λ r _, ∃ view, r = Ok (Some view) ∧
      bv_host view = Some host ∧ bv_target_port view = tp ∧
      bv_effective_host view = Some host ∧ bv_effective_target_port view = Some tp ∧
      bv_runtime_status view = Active) s') as (view & Hv & ?) by (by exists view).
    unfold Service_get_binding_view. rewrite wp_bind.
    eapply wp_mono; [by apply read_binding_spec|]. intros r1 s1 [Hs1 Hr1].
    destruct (only_repo_frame _ _ Hs1) as (_ & _ & _ & Hrt1).
    destruct r1 as [o|e]; simpl in Hr1; [|by destruct Hr1 as [_ []]; auto].
    subst o. unfold sv_store. rewrite Ht, put_tables_abstract by done. unfold store_put.
    simpl. rewrite lookup_alter_eq. unfold sv_store in Hst. rewrite Hst. simpl.
    unfold Service_binding_view_for. rewrite !wp_bind. apply wp_runtime_call. simpl.
    unfold InMemoryRuntime_snapshot, gets. rewrite Hrt1, Hrs. intros r rt [= <- <-]. simpl.
    eexists. split; [done|]. by split_and!.
  - exfalso. destruct e as [e|e| | | | |]; try done.
    + by destruct Ho as (_ & _ & ?).
    + destruct Ho as [_ Hu]. unfold InMemoryRuntime_update, bind, modify, gets in Hu. simpl in Hu.
      rewrite Hid in Hu. by rewrite decide_False in Hu.
    + destruct Ho as [Hf _]. congruence.
Qed.
End mem.
