(* ===== verification/ServiceWitness.v ===== *)
(** The service's theorems at concrete states: a service over the in-memory runtime
    with one TCP allocation on port 10000 bound to 127.0.0.1:80. *)
From stdpp Require Import base gmap strings list fin_maps relations.
From Stdlib Require Import ZArith Lia Ascii.
From S2P Require Import Prelude RustStd Model Config Facade Sqlite SqliteSpec SqliteOpen Store.
From S2P Require Import AllocationService ServiceSpec ServiceInv ServiceMem.
Open Scope Z_scope.

Fixpoint ex_id (n : nat) : string :=
  match n with O => "i"%string | S n' => String "x"%char (ex_id n') end.

Definition ex_clock (n : nat) : Z := 1000 + Z.of_nat n.

Lemma ex_id_inj m n : ex_id m = ex_id n → m = n.
Proof. revert n. induction m as [|m IH]; intros [|n]; simpl; naive_solver. Qed.

Definition ex_tables0 : Tables := {| t_allocations := ∅; t_bindings := ∅ |}.

Definition ex_service0 : Service RuntimeState :=
  Service_new {| repo_tables := ex_tables0; repo_faults := [] |} RuntimeState_default
    {| pr_start := 10000; pr_end := 10002 |} 2000.

(** The state after creating an allocation and putting a binding on it. *)
Definition ex_service1 : Service RuntimeState :=
  (run_request ex_clock ex_id (ReqCreate Tcp (Some 80)) ex_service0).2.

Definition ex_service2 : Service RuntimeState :=
  (run_request ex_clock ex_id (ReqPutBinding "i" "127.0.0.1" 80) ex_service1).2.

Lemma ex_tables0_wf : tables_wf ex_tables0.
Proof. split; simpl; intros *; rewrite ?lookup_empty; by try intros [? ?]. Qed.

Lemma ex_service0_inv : service_inv ex_service0.
Proof. split; [exact ex_tables0_wf|]. split; [done|]. intros id r. simpl. by rewrite lookup_empty. Qed.

Lemma ex_service0_tracked : tracked_inv ex_id ex_service0.
Proof.
  split; [exact ex_tables0_wf|done|done| |].
  - intros n _. simpl. unfold mem_tracks. simpl. rewrite !lookup_empty. split; [done|]. by intros [? ?].
  - intros id. simpl. rewrite lookup_empty. by intros [? ?].
Qed.

Lemma ex_service2_reachable : rtc (service_step ex_clock ex_id) ex_service0 ex_service2.
Proof.
  eapply rtc_l; [apply (step_request _ _ (ReqCreate Tcp (Some 80))); done|].
  eapply rtc_l; [apply (step_request _ _ (ReqPutBinding "i" "127.0.0.1" 80)); done|].
  apply rtc_refl.
Qed.

Lemma ex_service2_wf : tables_wf (sv_tables ex_service2).
Proof. apply (reachable_inv _ _ _ _ ex_service0_inv ex_service2_reachable). Qed.

Lemma ex_service2_range : range_u16 ex_service2.
Proof. apply (reachable_inv _ _ _ _ ex_service0_inv ex_service2_reachable). Qed.

Lemma ex_service1_wf : tables_wf (sv_tables ex_service1).
Proof.
  apply (service_step_inv ex_clock ex_id _ ex_service1 ex_service0_inv).
  by apply (step_request _ _ (ReqCreate Tcp (Some 80))).
Qed.

Lemma reachable_ports_disjoint_witness :
  ∃ a oa, sv_store ex_service2 !! "i"%string = Some (a, oa) ∧ al_port a = 10000 ∧
    10000 ≤ al_port a ≤ 10002.
Proof.
  eexists _, _. split; [vm_compute; reflexivity|]. split; [reflexivity|].
  exact (proj1 (reachable_ports_disjoint ex_clock ex_id ex_service0 ex_service2 ex_service0_inv
           ex_service2_reachable "i" _ _ ltac:(vm_compute; reflexivity))).
Defined.

Lemma request_keeps_tracked_witness :
  tracked_inv ex_id ex_service1 ∧ sv_store ex_service1 !! "i"%string ≠ None ∧
  rt_tracks (sv_runtime ex_service1) "i".
Proof.
  assert (tracked_inv ex_id ex_service1) as Hinv
    by exact (request_keeps_tracked ex_clock ex_id ex_id_inj (ReqCreate Tcp (Some 80)) ex_service0
                ex_service0_tracked ltac:(done) I).
  split; [exact Hinv|]. split; [by vm_compute|]. vm_compute. eexists. reflexivity.
Defined.

Lemma request_leaves_no_orphan_witness :
  exact (run_request ex_clock ex_id (ReqCreate Tcp (Some 80)) ex_service0).2.
Proof.
  apply (request_leaves_no_orphan ex_clock ex_id ex_id_inj).
  - exact ex_service0_tracked.
  - done.
  - intros id [x Hx]. by vm_compute in Hx.
  - constructor.
  - reflexivity.
Defined.

Lemma restore_all_restores_witness :
  tracked (Service_restore_all 30000 (set_runtime RuntimeState_default ex_service2)).2 ∧
  ¬ tracked (set_runtime RuntimeState_default ex_service2).
Proof.
  split.
  - apply (proj1 (proj2 (restore_all_restores 30000 (set_runtime RuntimeState_default ex_service2)
                           ex_service2_wf ltac:(exact I)))).
    vm_compute. reflexivity.
  - intros H. destruct (H "i"%string) as [x Hx]; [vm_compute; by eexists|]. by vm_compute in Hx.
Defined.

Lemma put_binding_spec_witness :
  let run := Service_put_binding ex_clock "i" "127.0.0.1" 443 ex_service1 in
  same_settings ex_service1 run.2 ∧ is_ok run.1 = true ∧
  (Service_put_binding ex_clock "i" "nohost" 443 ex_service1).1 = Err InvalidHost.
Proof.
  cbv zeta. destruct (put_binding_spec ex_clock "i" "127.0.0.1" 443 ex_service1 ex_service1_wf) as [H _]. split; [exact H|]. clear H.
  split; vm_compute; reflexivity.
Defined.

Lemma update_allocation_spec_witness :
  let run := Service_update_allocation ex_clock "i" None (Some "::1"%string) ex_service2 in
  same_settings ex_service2 run.2 ∧ is_ok run.1 = true ∧
  (Service_update_allocation ex_clock "j" None None ex_service2).1 = Err NotFound.
Proof.
  cbv zeta. destruct (update_allocation_spec ex_clock "i" None (Some "::1"%string) ex_service2
                          ex_service2_wf) as [H _]. split; [exact H|]. clear H.
  split; vm_compute; reflexivity.
Defined.

Lemma delete_binding_spec_witness :
  let run := Service_delete_binding ex_clock "i" ex_service2 in
  same_settings ex_service2 run.2 ∧ run.1 = Ok tt ∧
  (Service_delete_binding ex_clock "i" run.2).1 = Err NotFound.
Proof.
  cbv zeta. destruct (delete_binding_spec ex_clock "i" ex_service2 ex_service2_wf) as [H _]. split; [exact H|]. clear H.
  split; vm_compute; reflexivity.
Defined.

Lemma delete_allocation_spec_witness :
  let run := Service_delete_allocation "i" ex_service2 in
  same_settings ex_service2 run.2 ∧ run.1 = Ok tt ∧ sv_store run.2 = ∅.
Proof.
  cbv zeta. destruct (delete_allocation_spec "i" ex_service2 ex_service2_wf) as [H _]. split; [exact H|]. clear H.
  split; vm_compute; reflexivity.
Defined.

(** The engine fails to begin the deletion's transaction. *)
Definition ex_service_fault : Service RuntimeState :=
  set_repo {| repo_tables := sv_tables ex_service2; repo_faults := [false; true] |} ex_service2.

Lemma delete_engine_failure_loses_runtime_witness :
  sv_store (Service_delete_allocation "i" ex_service_fault).2 !! "i"%string ≠ None ∧
  ¬ rt_tracks (sv_runtime (Service_delete_allocation "i" ex_service_fault).2) "i".
Proof.
  assert (∃ a ob, sv_store ex_service_fault !! "i"%string = Some (a, ob)) as (a & ob & Hst)
    by (eexists _, _; vm_compute; reflexivity).
  destruct (delete_engine_failure_loses_runtime "i" ex_service_fault a ob []
              (InMemoryRuntime_delete "i" 2000 (sv_runtime ex_service2)).2
              ex_service2_wf ltac:(exact I) Hst eq_refl eq_refl ltac:(vm_compute; reflexivity))
    as (_ & Hstore & Htr).
  split; [by rewrite Hstore, Hst|exact Htr].
Defined.

Lemma create_allocation_spec_witness :
  let run := Service_create_allocation ex_clock ex_id Both None ex_service2 in
  same_settings ex_service2 run.2 ∧ (al_port <$> result_ok run.1) = Some 10001.
Proof.
  cbv zeta. destruct (create_allocation_spec ex_clock ex_id Both None ex_service2 ex_service2_range) as [H _]. split; [exact H|]. clear H.
  vm_compute. reflexivity.
Defined.

(** The first port of the range cannot be listened on. *)
Definition ex_service_busy : Service RuntimeState :=
  set_runtime (InMemoryRuntime_fail_create_port 10000 RuntimeState_default) ex_service0.

Lemma ex_service_busy_fresh : ids_fresh ex_id ex_service_busy.
Proof. exact (ti_fresh _ _ ex_service0_tracked). Qed.

Lemma create_allocation_first_fit_witness :
  ∃ a, (Service_create_allocation ex_clock ex_id Tcp None ex_service_busy).1 = Ok a ∧
       al_port a = 10001.
Proof.
  pose proof (create_allocation_first_fit ex_clock ex_id Tcp None ex_service_busy ex_tables0_wf
                ltac:(done) ltac:(constructor) ltac:(reflexivity) ex_service_busy_fresh) as H.
  vm_compute in H. destruct H as (a & Ha & Hp & _). exists a. split; [|exact Hp].
  rewrite <-Ha. vm_compute. reflexivity.
Defined.

Lemma put_binding_then_view_witness :
  ∃ view,
    (Service_get_binding_view "i" (Service_put_binding ex_clock "i" "127.0.0.1" 443 ex_service1).2).1
      = Ok (Some view) ∧ bv_runtime_status view = Active ∧
    bv_effective_target_port view = Some 443.
Proof.
  assert (∃ a ob, sv_store ex_service1 !! "i"%string = Some (a, ob)) as (a & ob & Hst)
    by (eexists _, _; vm_compute; reflexivity).
  assert ("i"%string ∉ rs_update_fail_ids (sv_runtime ex_service1)) as Hup
    by (replace (rs_update_fail_ids _) with (∅ : gset string) by (vm_compute; reflexivity);
        apply not_elem_of_empty).
  destruct (put_binding_then_view ex_clock "i" "127.0.0.1" 443 a ob (V4 127 0 0 1) ex_service1
              ex_service1_wf ltac:(constructor) ltac:(done) ltac:(reflexivity) Hst
              ltac:(reflexivity) Hup) as (_ & view & Hv & _ & _ & _ & Hp & Ha).
  exists view. exact (conj Hv (conj Ha Hp)).
Defined.

Lemma list_tables_complete_sorted_witness :
  ∃ l, list_tables (sv_tables ex_service2) = Ok l ∧ length l = 1%nat.
Proof.
  destruct (list_tables_complete_sorted (sv_tables ex_service2) ex_service2_wf) as (l & Hl & _).
  exists l. split; [exact Hl|]. vm_compute in Hl. by injection Hl as <-.
Defined.

(** A legacy file: an allocation with a target and no bindings table. *)
Definition ex_legacy_row : AllocationRow := {|
  ro_id := "i"; ro_protocol := "tcp"; ro_port := 10000; ro_target_port := 80;
  ro_host := Some "127.0.0.1"%string; ro_created_at_ms := 1; ro_updated_at_ms := 2 |}.

Definition ex_world : World := {|
  w_modes := {["db"%string := 420]};
  w_database := {| db_allocations := Some {["i"%string := ex_legacy_row]};
                   db_bindings := None; db_unique_index := false; db_port_index := false |};
  w_faults := [] |}.

(** The engine creates a write-ahead log that everybody can read. *)
Definition ex_connect (modes : gmap string Z) : bool * gmap string Z :=
  (true, <["db-wal"%string := 420]> modes).

Definition ex_open (w : World) : result Repository RepositoryError * World :=
  Sqlite.Repository_open true (λ _, false) ex_connect (λ m, m) "db" w.

Lemma open_migrates_witness :
  ∃ repo, (ex_open ex_world).1 = Ok repo ∧
    t_bindings (repo_tables repo) !! "i"%string =
      Some {| rb_allocation_id := "i"; rb_target_port := 80; rb_host := Some "127.0.0.1"%string;
              rb_created_at_ms := 1; rb_updated_at_ms := 2 |}.
Proof.
  eexists. split; [vm_compute; reflexivity|].
  refine (proj2 (proj1 (proj2 (SqliteOpen.open_migrates true (λ _, false) ex_connect (λ m, m) "db" ex_world _
                   (ex_open ex_world).2 _)) "i"%string _) _).
  - vm_compute. reflexivity.
  - right. split; [vm_compute; reflexivity|]. exists ex_legacy_row.
    split; [vm_compute; reflexivity|]. split; [reflexivity|reflexivity].
Defined.

Lemma open_files_private_witness :
  ∃ m, w_modes (ex_open ex_world).2 !! "db-wal"%string = Some m ∧ m = mode_600.
Proof.
  assert (∃ repo, (ex_open ex_world).1 = Ok repo) as [repo Hr] by (eexists; vm_compute; reflexivity).
  assert (ex_open ex_world = (Ok repo, (ex_open ex_world).2)) as Hrun
    by (rewrite <-Hr; apply surjective_pairing).
  assert (∃ m, w_modes (ex_open ex_world).2 !! "db-wal"%string = Some m) as [m Hm]
    by (eexists; vm_compute; reflexivity).
  exists m. split; [exact Hm|]. revert Hm. apply (SqliteOpen.open_files_private true (λ _, false) ex_connect (λ m, m) "db" ex_world
                     repo (ex_open ex_world).2 eq_refl eq_refl Hrun).
  right. left.
Defined.

Lemma open_idempotent_witness :
  ∃ repo repo' w'', (ex_open ex_world).1 = Ok repo ∧
    ex_open (ex_open ex_world).2 = (Ok repo', w'') ∧ repo_tables repo' = repo_tables repo.
Proof.
  assert (∃ repo, (ex_open ex_world).1 = Ok repo) as [repo Hr] by (eexists; vm_compute; reflexivity).
  assert (∃ repo' w'', ex_open (ex_open ex_world).2 = (Ok repo', w'')) as (repo' & w'' & Hr')
    by (eexists _, _; vm_compute; reflexivity).
  exists repo, repo', w''. split; [exact Hr|]. split; [exact Hr'|].
  refine (SqliteOpen.open_idempotent true (λ _, false) ex_connect (λ m, m) "db" ex_world
            repo (ex_open ex_world).2 repo' w'' _ Hr').
  rewrite <-Hr. apply surjective_pairing.
Defined.
