(* ===== verification/Serving.v ===== *)
(** The data plane agrees with the repository: what a runtime forwards is what the
    allocation service has stored.

    [RuntimeServes] is what a runtime promises about its listeners beyond the trait's
    bookkeeping; over any such runtime the service keeps every stored allocation served as
    it is stored, except where it reported that applying a change failed. *)
From stdpp Require Import base gmap strings list fin_maps relations.
From Stdlib Require Import ZArith Lia.
From S2P Require Import Prelude RustStd Model Config Facade Sqlite SqliteSpec Store.
From S2P Require Import AllocationService ServiceSpec ServiceInv.
Open Scope Z_scope.

(** * What a runtime promises about its listeners *)

(** Where the traffic of an allocation goes; without a target it is rejected. *)
Definition al_target (a : Allocation) : option (string * Z) :=
  match al_host a, al_target_port a with
  | Some host, Some target_port => Some (host, target_port)
  | _, _ => None
  end.

Definition same_listener (a b : Allocation) : Prop :=
  al_id a = al_id b ∧ al_protocol a = al_protocol b ∧ al_port a = al_port b.

(** The step from [s] to [s'] keeps what is listened to and served for [P]. *)
Definition spares {R} (listens serves : R → Allocation → Prop) (P : Allocation → Prop) (s s' : R)
    : Prop :=
  ∀ b, P b → (listens s b → listens s' b) ∧ (serves s b → serves s' b).

Class RuntimeServes (R : Type) `{RuntimeFacadeLaws R} : Type := {
  rt_listens : R → Allocation → Prop;     (* on its port, for its protocol *)
  rt_serves : R → Allocation → Prop;      (* and with its target *)
  rt_listens_same s a b : same_listener a b → rt_listens s a → rt_listens s b;
  rt_serves_same s a b :
    same_listener a b → al_target a = al_target b → rt_serves s a → rt_serves s b;
  rt_serves_listens s a : rt_serves s a → rt_listens s a;
  rt_initialize_serves t s :
    rt_ok s → wp (rt_initialize t) (λ _ s', spares rt_listens rt_serves (λ _, True) s s') s;
  rt_create_serves a t s :
    rt_ok s → ¬ rt_tracks s (al_id a) →
    wp (rt_create a t)
      (λ r s', (is_ok r = true → rt_serves s' a) ∧
        spares rt_listens rt_serves (λ b, al_id b ≠ al_id a) s s') s;
  rt_update_serves a t s :
    rt_ok s → rt_listens s a →
    wp (rt_update a t)
      (λ r s', rt_listens s' a ∧ (is_ok r = true → rt_serves s' a) ∧
        spares rt_listens rt_serves (λ b, al_id b ≠ al_id a) s s') s;
  rt_delete_serves i t s :
    rt_ok s →
    wp (rt_delete i t)
      (λ r s', spares rt_listens rt_serves (λ b, is_ok r = true → al_id b ≠ i) s s') s;
  rt_restore_serves a t s :
    rt_ok s →
    wp (rt_restore a t)
      (λ r s', (is_ok r = true → rt_serves s' a) ∧
        spares rt_listens rt_serves (λ b, al_id b ≠ al_id a) s s') s;
}.

Section serving.
  Context {R : Type} `{HR : RuntimeServes R}.
  Context (clock : nat → Z) (id_generator : nat → string).

Abbreviation keeps := (spares (R := R) rt_listens rt_serves).

#[local] Instance keeps_po P : PreOrder (keeps P).
Proof.
  split; [by intros s b|]. intros s1 s2 s3 H12 H23 b Hb.
  destruct (H12 b Hb), (H23 b Hb). auto.
Qed.

Lemma keeps_weaken (P Q : Allocation → Prop) s s' :
  (∀ b, Q b → P b) → keeps P s s' → keeps Q s s'.
Proof. intros HQ Hk b Hb. by apply Hk, HQ. Qed.

(** * The agreement of service and runtime *)

(** Every stored allocation is listened to, and served as stored except for [D]. *)
Definition served (D : gset string) (s : Service R) : Prop :=
  ∀ id a ob, sv_store s !! id = Some (a, ob) →
    rt_listens (sv_runtime s) a ∧ (id ∉ D → rt_serves (sv_runtime s) a).

(** The allocations whose stored target may not have been applied: an update that stored
    it and then reports a timeout or an error of the runtime adds one, a successful one
    removes it. *)
Definition after_update {A} (id : string) (r : result A ServiceError) (D : gset string) : gset string :=
  match r with
  | Ok _ => D ∖ {[id]}
  | Err (SvcRuntime _) | Err Timeout => {[id]} ∪ D
  | Err _ => D
  end.

Definition unapplied (q : Request) (r : result unit ServiceError) (D : gset string) : gset string :=
  match q with
  | ReqPutBinding id _ _ | ReqDeleteBinding id | ReqUpdate id _ _ => after_update id r D
  | ReqRestore _ => match r with Ok _ => ∅ | Err _ => D end
  | ReqCreate _ _ | ReqDelete _ => D
  end.

Lemma store_id (s : Service R) id a ob :
  tables_wf (sv_tables s) → sv_store s !! id = Some (a, ob) → al_id a = id.
Proof.
  intros Hwf (r & Hr & _ & -> & _)%abstract_Some; [|done]. simpl.
  by destruct (wf_rows _ Hwf id r Hr).
Qed.

(** Only the allocation [i] is touched, in the store and in the runtime; the step of the
    runtime keeps [P], which all others have. *)
Lemma served_step (P : Allocation → Prop) D D' i (s s' : Service R) :
  served D s → keeps P (sv_runtime s) (sv_runtime s') →
  (∀ id a ob, id ≠ i → sv_store s !! id = Some (a, ob) → P a) →
  (∀ id, id ≠ i → sv_store s' !! id = sv_store s !! id) →
  (∀ id, id ≠ i → id ∈ D → id ∈ D') →
  (∀ a ob, sv_store s' !! i = Some (a, ob) →
     rt_listens (sv_runtime s') a ∧ (i ∉ D' → rt_serves (sv_runtime s') a)) →
  served D' s'.
Proof.
  intros Hs Hk HP Hst HD Hi id a ob Ha. destruct (decide (id = i)) as [->|Hne]; [by apply (Hi a ob)|].
  rewrite Hst in Ha by done.
  destruct (Hs id a ob Ha) as [Hl Hv], (Hk a) as [Hl' Hv']; [by eapply HP|]. split; [auto|].
  intros Hn. apply Hv', Hv. intros ?. by apply Hn, HD.
Qed.

Lemma served_touch D D' i (s s' : Service R) :
  tables_wf (sv_tables s) → served D s →
  keeps (λ b, al_id b ≠ i) (sv_runtime s) (sv_runtime s') →
  (∀ id, id ≠ i → sv_store s' !! id = sv_store s !! id) →
  (∀ id, id ≠ i → id ∈ D → id ∈ D') →
  (∀ a ob, sv_store s' !! i = Some (a, ob) →
     rt_listens (sv_runtime s') a ∧ (i ∉ D' → rt_serves (sv_runtime s') a)) →
  served D' s'.
Proof.
  intros Hwf Hs Hk. apply (served_step (λ b, al_id b ≠ i)); [done..|].
  intros id a ob Hne Ha. by rewrite (store_id s id a ob).
Qed.

Lemma served_same D (s s' : Service R) :
  sv_tables s' = sv_tables s → sv_runtime s' = sv_runtime s → served D s → served D s'.
Proof. intros Ht Hr Hs id a ob. unfold sv_store. rewrite Ht, Hr. apply Hs. Qed.

Lemma served_keeps (P : Allocation → Prop) D (s s' : Service R) :
  sv_tables s' = sv_tables s → keeps P (sv_runtime s) (sv_runtime s') →
  (∀ id a ob, sv_store s !! id = Some (a, ob) → P a) → served D s → served D s'.
Proof.
  intros Ht Hk HP Hs id a ob. unfold sv_store. rewrite Ht. intros Ha.
  destruct (Hs id a ob Ha), (Hk a (HP id a ob Ha)). auto.
Qed.

(** An operation that stores [t] and then tells the runtime to update [upd]. *)
Lemma applied_served {A} D id a old upd a' ob' t (v : A) r (s s' : Service R) :
  tables_wf (sv_tables s) → rt_ok (sv_runtime s) → served D s →
  sv_store s !! id = Some (a, old) →
  abstract t = <[id := (a', ob')]> (sv_store s) →
  same_listener a upd → same_listener upd a' → al_target upd = al_target a' →
  applied s s' t (rt_update upd (sv_apply_timeout_ms s)) v r →
  served (after_update id r D) s'.
Proof.
  intros Hwf Hok Hs Ha Ht Hsame Hsame' Htar Happ.
  destruct (Hs _ _ _ Ha) as [Hl _]. pose proof (store_id s id a old Hwf Ha) as Hid.
  apply (rt_listens_same _ _ upd) in Hl; [|done].
  pose proof (rt_update_serves upd (sv_apply_timeout_ms s) _ Hok Hl) as Hu.
  assert (al_id upd = id) as Hupd by (destruct Hsame; congruence). rewrite Hupd in Hu.
  assert (sv_tables s' = t → (∀ i, i ≠ id → sv_store s' !! i = sv_store s !! i) ∧
            sv_store s' !! id = Some (a', ob')) as Hst'.
  { unfold sv_store. intros ->. rewrite Ht. split; [|apply lookup_insert_eq].
    intros i Hi. by apply lookup_insert_ne. }
  destruct r as [x|[e|e| | | | |]]; simpl in Happ; try done.
  - destruct Happ as (_ & Htab & Hc). destruct (Hst' Htab) as [Ho Hi].
    destruct (wp_elim _ _ _ _ _ Hu Hc) as (Hl' & Hv & Hk).
    apply (served_touch D _ id s); [done..|simpl; set_solver|]. rewrite Hi. intros ?? [= <- <-].
    split; [by eapply rt_listens_same|]. intros _. eapply rt_serves_same; [done|done|by apply Hv].
  - destruct Happ as (Htab & Hrt & _). by apply (served_same D s).
  - destruct Happ as (Htab & Hc). destruct (Hst' Htab) as [Ho Hi].
    destruct (wp_elim _ _ _ _ _ Hu Hc) as (Hl' & _ & Hk).
    apply (served_touch D _ id s); [done..|simpl; set_solver|]. rewrite Hi. intros ?? [= <- <-].
    split; [by eapply rt_listens_same|]. simpl. set_solver.
  - destruct Happ as (_ & Htab & Hrt). destruct (Hst' Htab) as [Ho Hi].
    apply (served_touch D _ id s); [done|done|by rewrite Hrt|done|simpl; set_solver|].
    rewrite Hi, Hrt. intros ?? [= <- <-]. split; [by eapply rt_listens_same|]. simpl. set_solver.
Qed.

(** Rejected requests: nothing changed, and the answer is neither Ok nor a failed
    application. *)
Lemma rejected_served {A} D id e (r : result A ServiceError) (s s' : Service R) :
  e = NotFound ∨ e = InvalidHost →
  served D s → sv_tables s' = sv_tables s → sv_runtime s' = sv_runtime s → rejected s e r →
  served (after_update id r D) s'.
Proof.
  intros He Hs Ht Hr Hrej. apply (served_same D s s') in Hs; [|done..].
  by destruct Hrej as [->|[[e' ->] _]]; [destruct He as [-> | ->]|].
Qed.

(** * The operations *)
Lemma put_abstract (s : Service R) id a old b :
  tables_wf (sv_tables s) → sv_store s !! id = Some (a, old) → bi_allocation_id b = id →
  is_u16 (bi_target_port b) →
  abstract (put_tables b (sv_tables s)) =
  <[id := (allocation_with_binding a b, Some (merged_binding b old))]> (sv_store s).
Proof.
  intros Hwf Ha Hb Htp. rewrite put_tables_abstract; [|done|rewrite Hb; by eapply store_present|done].
  unfold store_put. fold (sv_store s). rewrite Hb. apply map_eq. intros i. rewrite lookup_alter, lookup_insert.
  case_decide; [subst i; by rewrite Ha|done].
Qed.

Lemma with_binding_same a b : same_listener a (allocation_with_binding a b).
Proof. by split_and!. Qed.

Lemma put_binding_served D id host tp (s : Service R) :
  tables_wf (sv_tables s) → rt_ok (sv_runtime s) → is_u16 tp → served D s →
  wp (Service_put_binding clock id host tp) (λ r s', served (after_update id r D) s') s.
Proof.
  intros Hwf Hok Htp Hs. eapply wp_mono; [by apply put_binding_spec|]. intros r s' (_ & _ & Ho).
  destruct (parse_ip_literal host) as [ip|].
  2: { destruct Ho as [-> ->]. exact Hs. }
  destruct (sv_store s !! id) as [[a old]|] eqn:Ha.
  - eapply applied_served; [done..| | | |reflexivity|exact Ho]; [by eapply put_abstract|by split_and!..].
  - destruct Ho as (Ht & Hr & Hrej). eapply rejected_served; [|done..|exact Hrej]. by left.
Qed.

Lemma update_served D id tp host (s : Service R) :
  tables_wf (sv_tables s) → rt_ok (sv_runtime s) → (∀ p, tp = Some p → is_u16 p) → served D s →
  wp (Service_update_allocation clock id tp host) (λ r s', served (after_update id r D) s') s.
Proof.
  intros Hwf Hok Htp Hs. eapply wp_mono; [by apply update_allocation_spec|]. intros r s' (_ & Ho).
  destruct (sv_store s !! id) as [[a old]|] eqn:Ha.
  - destruct (host_ok host) eqn:Hh; [destruct (resolved_binding _ _ _ _ _ _) as [b|] eqn:Hb|].
    + apply resolved_binding_u16 in Hb as [Hbi Hu]; [|done|intros x ->; by eapply store_binding_u16].
      eapply applied_served; [done..| | | |reflexivity|exact Ho]; [by eapply put_abstract|by split_and!..].
    + destruct Ho as (Ht & Hr & Hrej). eapply rejected_served; [|done..|exact Hrej]. by left.
    + destruct Ho as (Ht & Hr & Hrej). eapply rejected_served; [|done..|exact Hrej]. by right.
  - destruct Ho as (Ht & Hr & Hrej). eapply rejected_served; [|done..|exact Hrej]. by left.
Qed.

Lemma delete_binding_served D id (s : Service R) :
  tables_wf (sv_tables s) → rt_ok (sv_runtime s) → served D s →
  wp (Service_delete_binding clock id) (λ r s', served (after_update id r D) s') s.
Proof.
  intros Hwf Hok Hs. eapply wp_mono; [by apply delete_binding_spec|]. intros r s' (_ & Ho).
  destruct (sv_store s !! id) as [[a [b|]]|] eqn:Ha.
  2,3: destruct Ho as (Ht & Hr & Hrej); eapply rejected_served; [|done..|exact Hrej]; by left.
  eapply applied_served; [done..| | | |reflexivity|exact Ho]; [|by split_and!..].
  rewrite unbind_tables_abstract by done. unfold store_unbind. fold (sv_store s).
  apply map_eq. intros i. rewrite lookup_alter, lookup_insert. case_decide; [subst i; by rewrite Ha|done].
Qed.

(** Restoring allocations of distinct identifiers serves each of them. *)
Lemma mapM_restore_serves t l (s : Service R) :
  rt_ok (sv_runtime s) → NoDup (al_id <$> l) →
  wp (mapM (λ a, runtime_call (rt_restore a t)) l)
    (λ r s', sv_repo s' = sv_repo s ∧
       keeps (λ b, al_id b ∉ al_id <$> l) (sv_runtime s) (sv_runtime s') ∧
       (is_ok r = true → ∀ a, a ∈ l → rt_serves (sv_runtime s') a)) s.
Proof.
  revert s. induction l as [|a l IH]; intros s Hok Hnd; cbn [mapM].
  { rewrite wp_ret. split_and!; [done|done|]. intros _ a Ha. by apply elem_of_nil in Ha. }
  cbn [fmap list_fmap] in Hnd. apply NoDup_cons in Hnd as [Hnin Hnd].
  rewrite wp_bind. apply wp_runtime_call. intros r rt Hr.
  destruct (wp_elim _ _ _ _ _ (rt_restore_spec a t _ Hok) Hr) as (Hok' & _ & _).
  destruct (wp_elim _ _ _ _ _ (rt_restore_serves a t _ Hok) Hr) as (Hv & Hk).
  assert (keeps (λ b, al_id b ∉ al_id <$> (a :: l)) (sv_runtime s) rt) as Hk1.
  { eapply keeps_weaken; [|exact Hk]. simpl. set_solver. }
  destruct r as [[]|e]; simpl.
  - rewrite wp_bind. eapply wp_mono; [by apply IH|]. simpl. intros r2 s2 (Hrepo & Hk2 & Hv2).
    enough (sv_repo s2 = sv_repo s ∧
       keeps (λ b, al_id b ∉ al_id <$> (a :: l)) (sv_runtime s) (sv_runtime s2) ∧
       (is_ok r2 = true → ∀ b, b ∈ a :: l → rt_serves (sv_runtime s2) b)) by (destruct r2; rewrite ?wp_ret; done).
    split_and!; [done| |].
    + etrans; [exact Hk1|]. eapply keeps_weaken; [|exact Hk2]. simpl. set_solver.
    + intros Hr2 b [->|Hb]%elem_of_cons; [|by apply Hv2]. apply (Hk2 a); [done|by apply Hv].
  - by split_and!.
Qed.

Lemma restore_served t (s : Service R) :
  tables_wf (sv_tables s) → rt_ok (sv_runtime s) →
  wp (Service_restore_all t) (λ r s', is_ok r = true → served ∅ s') s.
Proof.
  intros Hwf Hok. unfold Service_restore_all. rewrite wp_bind. apply wp_runtime_call.
  intros r rt Hr. destruct (wp_elim _ _ _ _ _ (rt_initialize_spec t _ Hok) Hr) as [Hok1 _].
  destruct r as [[]|e]; simpl; [|done].
  rewrite wp_bind. eapply wp_mono; [by apply read_list_spec|].
  intros r s1 [Hs1 Hr1]. destruct (only_repo_frame _ _ Hs1) as (_ & _ & Ht1 & Hrt1). simpl in *.
  destruct r as [l|e]; simpl in Hr1; [|done]. subst l. set (l := _ <$> _).
  assert (l ≡ₚ (fst ∘ snd) <$> map_to_list (abstract (sv_tables s))) as Hl by (by apply decoded_allocations).
  rewrite wp_bind. eapply wp_mono; [apply mapM_restore_serves|].
  - by rewrite Hrt1.
  - rewrite Hl, <-list_fmap_compose.
    rewrite (list_fmap_ext _ fst); [apply NoDup_fst_map_to_list|].
    intros i [id [a ob]] Hi%list_elem_of_lookup_2%elem_of_map_to_list. simpl.
    by eapply (store_id s).
  - intros r s2 (Hrepo & _ & Hv). destruct r as [x|e]; [|done]. wp_simpl. intros _ id a ob Ha.
    assert (a ∈ l) as Hin.
    { rewrite Hl. apply list_elem_of_fmap. exists (id, (a, ob)). split; [done|].
      apply elem_of_map_to_list.
      rewrite <-Ht1. unfold sv_store, sv_tables in *. by rewrite <-Hrepo. }
    specialize (Hv eq_refl a Hin). split; [by apply rt_serves_listens|done].
Qed.

(** Stored allocations have identifiers drawn before. *)
Definition drawn_before (n0 : nat) (b : Allocation) : Prop :=
  ∀ n, (n0 ≤ n)%nat → al_id b ≠ id_generator n.

Lemma stored_drawn (s : Service R) id a ob :
  tables_wf (sv_tables s) → ids_fresh id_generator s → sv_store s !! id = Some (a, ob) →
  drawn_before (sv_ids s) a.
Proof.
  intros Hwf Hf Ha n Hn Hid. destruct (Hf n Hn) as [Hno _].
  pose proof (store_id s id a ob Hwf Ha) as Hi. destruct (store_present s id _ Hwf Ha) as [x Hx].
  congruence.
Qed.

Lemma refusals_keeps t p tp n0 rt0 rt :
  rt_ok rt0 → (∀ n, (n0 ≤ n)%nat → ¬ rt_tracks rt0 (id_generator n)) →
  after_refusals id_generator t p tp n0 rt0 rt → keeps (drawn_before n0) rt0 rt.
Proof.
  intros Hok Hfresh Hr. induction Hr as [|rt a port rt' Hr IH Ha Hc]; [done|]. etrans; [exact IH|].
  destruct (refusals_tracks clock id_generator t p tp n0 rt0 rt Hok Hfresh Hr) as [Hok' Htr].
  destruct Ha as (_ & _ & _ & _ & _ & n & Hn & Hid).
  assert (¬ rt_tracks rt (al_id a)) as Hnt by (rewrite Htr, Hid; by apply Hfresh).
  destruct (wp_elim _ _ _ _ _ (rt_create_serves a t rt Hok' Hnt) Hc) as [_ Hk].
  eapply keeps_weaken; [|exact Hk]. intros b Hb. rewrite Hid. by apply Hb.
Qed.

(** The store after a creation. *)
Lemma created_abstract a t :
  tables_wf t → t_allocations t !! al_id a = None → al_host a = None →
  (∀ tp, al_target_port a = Some tp → is_u16 tp) → is_u16 (al_port a) →
  port_taken (al_protocol a) t (al_port a) = false →
  ∃ a' ob, abstract (created_tables a t) = <[al_id a := (a', ob)]> (abstract t) ∧
    same_listener a a' ∧ al_target a = None ∧ al_target a' = None.
Proof.
  intros Hwf Hid Hh Htp Hp Hfree. eexists _, _. split.
  - apply (insert_tables_abstract t (created_row a) (created_binding a) (al_protocol a)); try done.
    by apply created_row_wf.
  - split; [by split_and!|]. unfold al_target. simpl. rewrite Hh.
    split; [done|]. unfold created_binding. destruct (al_target_port a); simpl; [by rewrite Hh|done].
Qed.

Lemma create_served D p tp (s : Service R) :
  tracked_inv id_generator s → (∀ x, tp = Some x → is_u16 x) → served D s →
  wp (Service_create_allocation clock id_generator p tp) (λ _ s', served D s') s.
Proof.
  intros [Hwf Hrange Hok Hfresh Htr] Htp Hs.
  eapply wp_mono; [by apply create_allocation_spec|]. intros r s' [_ Ho].
  destruct (fp_create_timeout _); [by destruct Ho as [-> ->]|].
  set (T := sv_apply_timeout_ms s) in *.
  assert (∀ n, (sv_ids s ≤ n)%nat → ¬ rt_tracks (sv_runtime s) (id_generator n)) as Hnt by (intros; by apply Hfresh).
  assert (∀ id a ob, sv_store s !! id = Some (a, ob) → drawn_before (sv_ids s) a) as Hold
    by (intros; by eapply stored_drawn).
  assert (∀ rt a r rt', after_refusals id_generator T p tp (sv_ids s) (sv_runtime s) rt →
     (∃ n, (sv_ids s ≤ n)%nat ∧ al_id a = id_generator n) → rt_create a T rt = (r, rt') →
     rt_ok rt' ∧ keeps (drawn_before (sv_ids s)) (sv_runtime s) rt' ∧ (is_ok r = true → rt_serves rt' a)) as Hcr.
  { intros rt a r0 rt' Hrt (n & Hn & Hid) Hc.
    destruct (refusals_tracks clock _ _ _ _ _ _ _ Hok Hnt Hrt) as [Hok' Htr'].
    assert (¬ rt_tracks rt (al_id a)) as Hno by (rewrite Htr', Hid; by apply Hnt).
    destruct (wp_elim _ _ _ _ _ (rt_create_spec a T rt Hok' Hno) Hc) as [Hok'' _].
    destruct (wp_elim _ _ _ _ _ (rt_create_serves a T rt Hok' Hno) Hc) as [Hv Hk].
    split_and!; [done| |done]. etrans; [by eapply refusals_keeps|].
    eapply keeps_weaken; [|exact Hk]. intros b Hb. rewrite Hid. by apply Hb. }
  destruct r as [a|[e|e| | | | |]]; simpl in Ho; try done.
  - destruct Ho as (Ha & _ & Hp & Hfree & _ & Hid & Ht & rt & Hrt & Hc).
    destruct Ha as (Hpr & Htpa & Hh & _ & _ & Hn). destruct (Hcr _ _ _ _ Hrt Hn Hc) as (_ & Hk & Hv).
    destruct (created_abstract a (sv_tables s)) as (a' & ob & Hab & Hsame & Hta & Hta');
      [done|done|done|by rewrite Htpa|unfold is_u16; destruct Hrange; lia|by rewrite Hpr|].
    apply (served_step (drawn_before (sv_ids s)) D D (al_id a) s); [done|done|by eauto| |done|];
      unfold sv_store; rewrite Ht, Hab.
    + intros i Hi. by apply lookup_insert_ne.
    + rewrite lookup_insert_eq. intros ?? [= <- <-].
      assert (rt_serves (sv_runtime s') a') as Hv' by (eapply rt_serves_same; [done|congruence|by apply Hv]).
      split; [by apply rt_serves_listens|done].
  - destruct Ho as [Ht [[Hrt _]|(rt & a & port & rt1 & Hrt & Ha & _ & Hc & Hs' & _)]];
      (eapply served_keeps; [exact Ht| |exact Hold|exact Hs]); [by eapply refusals_keeps|].
    destruct Ha as (_ & _ & _ & _ & _ & Hn). destruct (Hcr _ _ _ _ Hrt Hn Hc) as (Hok1 & Hk & _).
    etrans; [exact Hk|]. rewrite Hs'. pose proof (rt_delete_serves (al_id a) T rt1 Hok1) as Hd. unfold wp in Hd.
    eapply keeps_weaken; [|exact Hd]. destruct Hn as (n & Hn & ->). intros b Hb _. by apply Hb.
  - destruct Ho as (Ht & _ & rt & a & port & Hrt & Ha & _ & _ & _ & Hc).
    destruct Ha as (_ & _ & _ & _ & _ & Hn). destruct (Hcr _ _ _ _ Hrt Hn Hc) as (_ & Hk & _).
    eapply served_keeps; [exact Ht|exact Hk|exact Hold|exact Hs].
  - destruct Ho as (Ht & Hrt & _).
    eapply served_keeps; [exact Ht|by eapply refusals_keeps|exact Hold|exact Hs].
Qed.

Lemma delete_served D id (s : Service R) :
  tracked_inv id_generator s → keeps_runtime (ReqDelete id) s → served D s →
  wp (Service_delete_allocation id) (λ _ s', served D s') s.
Proof.
  intros [Hwf Hrange Hok Hfresh Htr] [Hclean Hfp] Hs.
  eapply wp_mono; [by apply wp_result, delete_allocation_spec|]. intros r s' [[_ Ho] Hres].
  rewrite <-Hres in Hclean. destruct Ho as [(_ & _ & [e ->] & _)|Ho]; [done|].
  destruct (sv_store s !! id) as [[a ob]|] eqn:Ha; [|destruct Ho as (Ht & Hrt & _); by apply (served_same D s)].
  destruct (fp_delete_timeout _); [destruct Ho as (Ht & Hrt & _); by apply (served_same D s)|].
  pose proof (rt_delete_serves id (sv_apply_timeout_ms s) (sv_runtime s) Hok) as Hd.
  unfold wp in Hd. destruct (rt_delete _ _ _) as [[x|e] rt]; simpl in Hd.
  - rewrite Hfp in Ho. destruct Ho as [<- [[Ht _]|(_ & [e ->] & _)]]; [|done].
    apply (served_touch D D id s); [done|done| | |done|].
    + eapply keeps_weaken; [|exact Hd]. by intros b Hb _.
    + intros i Hi. unfold sv_store. rewrite Ht, delete_tables_abstract by done. by apply lookup_delete_ne.
    + intros a' ob'. unfold sv_store. rewrite Ht, delete_tables_abstract by done. by rewrite lookup_delete_eq.
  - destruct Ho as (Ht & <- & _). eapply served_keeps; [exact Ht|exact Hd| |exact Hs]. done.
Qed.

(** The runtime forwards what the repository stores: after every operation each stored
    allocation is listened to on its port and its traffic goes to the stored target (or is
    rejected, without one), except for the allocations whose last change was stored and
    then reported as timed out or failed in the runtime. *)
Lemma request_served D q (s : Service R) :
  tracked_inv id_generator s → request_typed q → keeps_runtime q s → served D s →
  wp (run_request clock id_generator q) (λ r s', served (unapplied q r D) s') s.
Proof.
  intros Hinv Htyped Hkeeps Hs.
  destruct Hinv as [Hwf Hrange Hok Hfresh Htr] eqn:Hi.
  destruct q as [p tp|id host tp|id|id tp host|id|t]; simpl run_request; cbn [unapplied].
  - rewrite wp_bind. eapply wp_mono; [apply (create_served D); [done| |done]|].
    + intros x ->. done.
    + intros [a|e] s' Hs'; done.
  - rewrite wp_bind. eapply wp_mono; [by apply (put_binding_served D)|]. by intros [a|e] s' Hs'.
  - eapply wp_mono; [by apply (delete_binding_served D)|]. by intros [[]|e] s' Hs'.
  - rewrite wp_bind. eapply wp_mono; [apply (update_served D); [done|done| |done]|].
    + intros x ->. done.
    + by intros [a|e] s' Hs'.
  - by apply delete_served.
  - simpl in Hkeeps. pose proof (restore_served t s Hwf Hok) as Hw. unfold wp in *.
    destruct (Service_restore_all t s) as [[x|e] s']; simpl in *; [by apply Hw|done].
Qed.
End serving.
