(* ===== verification/Netlink.v ===== *)
(** runtime/netlink.rs: the runtime that keeps the kernel's DNAT rules equal to the
    rules of its allocations. The backend that applies a ruleset is a state [B] with
    one operation ([NftBackend]); the library-backed one is in NetlinkBatch.v. The
    mutating operations hold [mutation_lock], so each is one step. *)
From stdpp Require Import base gmap strings list sorting fin_maps.
From Stdlib Require Import ZArith Lia.
From S2P Require Import Prelude RustStd Model Facade.
Open Scope Z_scope.

Record NftDnatRule : Type := {
  nr_allocation_id : string;
  nr_protocol : Protocol;
  nr_in_port : Z;
  nr_out_host : IpAddr;
  nr_out_port : Z;
}.

#[export] Instance NftDnatRule_eq_dec : EqDecision NftDnatRule.
Proof. solve_decision. Defined.

Inductive NftBackendError : Type :=
| Apply (message : string).

Definition NftBackendError_to_string (e : NftBackendError) : string :=
  match e with Apply m => m end.

(** [replace_ruleset table chain rules timeout_ms]. *)
Class NftBackend (B : Type) : Type :=
  replace_ruleset : string → string → list NftDnatRule → Z → M B NftBackendError unit.

Record NetlinkRuntimeConfig : Type := { nc_table : string; nc_chain : string }.

Definition NetlinkRuntimeConfig_new (table chain : string) : NetlinkRuntimeConfig :=
  {| nc_table := table; nc_chain := chain |}.

Record NetlinkState : Type := {
  ns_allocations : gmap string Allocation;
  ns_stale_error : option string;
  ns_initialized : bool;
}.

Definition NetlinkState_default : NetlinkState :=
  {| ns_allocations := ∅; ns_stale_error := None; ns_initialized := false |}.

Record NetlinkRuntime (B : Type) : Type := {
  nl_backend : B;
  nl_config : NetlinkRuntimeConfig;
  nl_state : NetlinkState;
}.
Arguments nl_backend {B} _.
Arguments nl_config {B} _.
Arguments nl_state {B} _.

Definition NetlinkRuntime_new {B} (config : NetlinkRuntimeConfig) (backend : B)
    : NetlinkRuntime B :=
  {| nl_backend := backend; nl_config := config; nl_state := NetlinkState_default |}.

(** * Rules *)
Definition bound_target (a : Allocation) : option (IpAddr * Z) :=
  match al_host a with
  | None => None
  | Some h =>
      match IpAddr_from_str h with
      | None => None
      | Some ip => match al_target_port a with None => None | Some p => Some (ip, p) end
      end
  end.

Definition protocols_for (p : Protocol) : list Protocol :=
  match p with Tcp => [Tcp] | Udp => [Udp] | Both => [Tcp; Udp] end.

(** [sort_unstable_by(|l, r| l.id.cmp(&r.id))]: byte order of the identifiers. *)
Definition id_order (a b : Allocation) : Prop := String.le (al_id a) (al_id b).

#[export] Instance id_order_dec : RelDecision id_order.
Proof. intros a b. unfold id_order. apply _. Defined.

Definition rules_of (a : Allocation) : list NftDnatRule :=
  match bound_target a with
  | None => []
  | Some (out_host, out_port) =>
      (λ protocol, {| nr_allocation_id := al_id a; nr_protocol := protocol;
                      nr_in_port := al_port a; nr_out_host := out_host;
                      nr_out_port := out_port |}) <$> protocols_for (al_protocol a)
  end.

Definition rules_for_allocations (allocations : gmap string Allocation) : list NftDnatRule :=
  let bound :=
    filter (λ a, is_Some (al_host a) ∧ is_Some (al_target_port a))
      (snd <$> map_to_list allocations) in
  mjoin (rules_of <$> merge_sort id_order bound).

(** * The runtime *)
Definition observed_state_for (a : Allocation) : ObservedState :=
  match bound_target a with
  | Some (host, port) =>
      {| os_effective_target_port := Some port;
         os_effective_host := Some (ip_to_string host);
         os_runtime_status := Active; os_error_kind := None; os_last_error := None |}
  | None =>
      {| os_effective_target_port := al_target_port a;
         os_effective_host := al_host a;
         os_runtime_status := RejectingNoHost; os_error_kind := None; os_last_error := None |}
  end.

Definition set_allocations (f : gmap string Allocation → gmap string Allocation)
    (s : NetlinkState) : NetlinkState :=
  {| ns_allocations := f (ns_allocations s); ns_stale_error := ns_stale_error s;
     ns_initialized := ns_initialized s |}.

Definition mark_fresh (s : NetlinkState) : NetlinkState :=
  {| ns_allocations := ns_allocations s; ns_stale_error := None; ns_initialized := true |}.

Definition mark_stale (e : NftBackendError) (s : NetlinkState) : NetlinkState :=
  {| ns_allocations := ns_allocations s;
     ns_stale_error := Some (NftBackendError_to_string e);
     ns_initialized := ns_initialized s |}.

Section runtime.
  Context {B : Type} `{NftBackend B}.

Abbreviation NetM := (M (NetlinkRuntime B) RuntimeError).

Definition nl_set_backend (b : B) (s : NetlinkRuntime B) : NetlinkRuntime B :=
  {| nl_backend := b; nl_config := nl_config s; nl_state := nl_state s |}.

Definition on_state (f : NetlinkState → NetlinkState) (s : NetlinkRuntime B) : NetlinkRuntime B :=
  {| nl_backend := nl_backend s; nl_config := nl_config s; nl_state := f (nl_state s) |}.

(** The outcome of the backend is handed over, not returned early. *)
Definition apply_rules (rules : list NftDnatRule) (timeout_ms : Z)
    : NetM (result unit NftBackendError) :=
  λ s, attempt (zoom nl_backend nl_set_backend (λ e, e)
         (replace_ruleset (nc_table (nl_config s)) (nc_chain (nl_config s)) rules timeout_ms)) s.

(** The map is changed, the rules computed, and the map restored: under the state
    lock nobody sees the candidate. *)
Definition project_upsert (a : Allocation) : NetM (list NftDnatRule) := λ s,
  let m := ns_allocations (nl_state s) in
  let previous := m !! al_id a in
  let m1 := <[al_id a := a]> m in
  let rules := rules_for_allocations m1 in
  let m2 := match previous with
            | Some p => <[al_id a := p]> m1
            | None => delete (al_id a) m1
            end in
  (Ok rules, on_state (set_allocations (λ _, m2)) s).

Definition project_delete (id : string) : NetM (list NftDnatRule) := λ s,
  let m := ns_allocations (nl_state s) in
  let removed := m !! id in
  let m1 := delete id m in
  let rules := rules_for_allocations m1 in
  let m2 := match removed with Some a => <[id := a]> m1 | None => m1 end in
  (Ok rules, on_state (set_allocations (λ _, m2)) s).

(** The two arms of every mutating operation. *)
Definition finish (outcome : result unit NftBackendError) : NetM unit :=
  match outcome with
  | Ok _ => modify (on_state mark_fresh)
  | Err e => modify (on_state (mark_stale e));; fail RuntimeApplyFailed
  end.

Definition NetlinkRuntime_initialize (timeout_ms : Z) : NetM unit :=
  let! rules := gets (λ s, rules_for_allocations (ns_allocations (nl_state s))) in
  let! outcome := apply_rules rules timeout_ms in
  finish outcome.

Definition NetlinkRuntime_create (a : Allocation) (timeout_ms : Z) : NetM unit :=
  let! rules := project_upsert a in
  let! outcome := apply_rules rules timeout_ms in
  (if is_ok outcome then modify (on_state (set_allocations <[al_id a := a]>)) else ret tt);;
  finish outcome.

Definition NetlinkRuntime_update (a : Allocation) (timeout_ms : Z) : NetM unit :=
  let! rules := project_upsert a in
  let! outcome := apply_rules rules timeout_ms in
  modify (on_state (set_allocations <[al_id a := a]>));;
  finish outcome.

Definition NetlinkRuntime_delete (id : string) (timeout_ms : Z) : NetM unit :=
  let! rules := project_delete id in
  let! outcome := apply_rules rules timeout_ms in
  (if is_ok outcome then modify (on_state (set_allocations (delete id))) else ret tt);;
  finish outcome.

Definition NetlinkRuntime_restore (a : Allocation) (timeout_ms : Z) : NetM unit :=
  let! rules := project_upsert a in
  let! outcome := apply_rules rules timeout_ms in
  modify (on_state (set_allocations <[al_id a := a]>));;
  finish outcome.

Definition NetlinkRuntime_snapshot (id : string) : NetM (option ObservedState) :=
  gets (λ s,
    (λ a,
       match bound_target a with
       | None => observed_state_for a
       | Some _ =>
           match ns_stale_error (nl_state s) with
           | Some error =>
               {| os_effective_target_port := al_target_port a;
                  os_effective_host := al_host a;
                  os_runtime_status := DegradedApplyFailed;
                  os_error_kind := Some ApplyFailed;
                  os_last_error := Some error |}
           | None => observed_state_for a
           end
       end) <$> ns_allocations (nl_state s) !! id).

Definition NetlinkRuntime_snapshot_listener_metrics : NetM (list ListenerMetricsSnapshot) :=
  ret [].

#[export] Instance NetlinkRuntime_facade : RuntimeFacade (NetlinkRuntime B) := {|
  rt_initialize := NetlinkRuntime_initialize;
  rt_create := NetlinkRuntime_create;
  rt_update := NetlinkRuntime_update;
  rt_delete := NetlinkRuntime_delete;
  rt_restore := NetlinkRuntime_restore;
  rt_snapshot := NetlinkRuntime_snapshot;
  rt_snapshot_listener_metrics := NetlinkRuntime_snapshot_listener_metrics;
|}.
End runtime.
