(* ===== verification/NetlinkSpec.v ===== *)
(** The contract of runtime/netlink.rs: it keeps the facade's promises over any
    backend; a runtime that is not stale has exactly the rules of its allocations
    installed; the rules are those of the bound allocations, one per protocol. *)
From stdpp Require Import base gmap strings list sorting fin_maps relations.
From Stdlib Require Import ZArith Lia.
From S2P Require Import Prelude RustStd Model Facade Store Netlink.
Open Scope Z_scope.

(** * The rules *)

Lemma elem_of_rules_of a r :
  r ∈ rules_of a ↔
  ∃ host port, bound_target a = Some (host, port) ∧ nr_protocol r ∈ protocols_for (al_protocol a) ∧
    r = {| nr_allocation_id := al_id a; nr_protocol := nr_protocol r; nr_in_port := al_port a;
           nr_out_host := host; nr_out_port := port |}.
Proof.
  unfold rules_of. destruct (bound_target a) as [[host port]|].
  - rewrite list_elem_of_fmap. split.
    + intros (p & -> & Hp). simpl. by exists host, port.
    + intros (h & p & [= <- <-] & Hp & Hr). by exists (nr_protocol r).
  - split; [set_solver|]. by intros (? & ? & ? & _).
Qed.

Lemma bound_target_is_Some a x :
  bound_target a = Some x → is_Some (al_host a) ∧ is_Some (al_target_port a).
Proof.
  unfold bound_target. destruct (al_host a) as [h|]; [|done].
  destruct (IpAddr_from_str h); [|done]. destruct (al_target_port a); [|done]. eauto.
Qed.

Lemma elem_of_rules m r :
  r ∈ rules_for_allocations m ↔ ∃ id a, m !! id = Some a ∧ r ∈ rules_of a.
Proof.
  unfold rules_for_allocations. rewrite list_elem_of_join. setoid_rewrite list_elem_of_fmap.
  setoid_rewrite merge_sort_Permutation. setoid_rewrite list_elem_of_filter.
  setoid_rewrite list_elem_of_fmap. split.
  - intros (l & Hr & a & -> & _ & [id a'] & -> & Hin%elem_of_map_to_list). by exists id, a'.
  - intros (id & a & Hm & Hr). exists (rules_of a). split; [done|]. exists a. split; [done|].
    pose proof Hr as Hb. apply elem_of_rules_of in Hb as (h & p & Hb & _).
    apply bound_target_is_Some in Hb. split; [done|].
    exists (id, a). by rewrite elem_of_map_to_list.
Qed.

Lemma protocols_for_not_both p q : q ∈ protocols_for p → q ≠ Both.
Proof. destruct p; set_solver. Qed.

Lemma protocols_for_overlap p1 p2 q :
  q ∈ protocols_for p1 → q ∈ protocols_for p2 → overlaps p1 p2 = true.
Proof. destruct p1, p2; simpl; try done; set_solver. Qed.

(** No two allocations of the map may claim the same port for a common protocol. *)
Definition ports_disjoint (m : gmap string Allocation) : Prop :=
  ∀ i j a b, m !! i = Some a → m !! j = Some b → i ≠ j →
    overlaps (al_protocol a) (al_protocol b) = true → al_port a ≠ al_port b.

(** Over allocations with disjoint ports the rule set is a function: a protocol and
    a listening port determine the rule, so the kernel's first match is the only
    match. Every rule is for TCP or UDP and comes from a bound allocation of the map,
    and every bound allocation has a rule for each of its protocols. *)
Theorem rules_deterministic m (Hdisj : ports_disjoint m) :
  (∀ r1 r2, r1 ∈ rules_for_allocations m → r2 ∈ rules_for_allocations m →
     nr_protocol r1 = nr_protocol r2 → nr_in_port r1 = nr_in_port r2 → r1 = r2) ∧
  (∀ id a host port q, m !! id = Some a → bound_target a = Some (host, port) →
     q ∈ protocols_for (al_protocol a) →
     ∃ r, r ∈ rules_for_allocations m ∧ nr_protocol r = q ∧ nr_in_port r = al_port a ∧
          nr_out_host r = host ∧ nr_out_port r = port) ∧
  Forall (λ r, nr_protocol r ≠ Both) (rules_for_allocations m).
Proof.
  split_and!.
  - intros r1 r2 (i & a & Hi & H1)%elem_of_rules (j & b & Hj & H2)%elem_of_rules Hp Hport.
    apply elem_of_rules_of in H1 as (h1 & p1 & Hb1 & Hq1 & Hr1).
    apply elem_of_rules_of in H2 as (h2 & p2 & Hb2 & Hq2 & Hr2).
    destruct (decide (i = j)) as [->|Hij].
    + rewrite Hr1, Hr2, Hp. congruence.
    + exfalso. apply (Hdisj i j a b Hi Hj Hij).
      * rewrite Hp in Hq1. by eapply protocols_for_overlap.
      * rewrite Hr1, Hr2 in Hport. done.
  - intros id a host port q Ha Hb Hq.
    exists {| nr_allocation_id := al_id a; nr_protocol := q; nr_in_port := al_port a;
              nr_out_host := host; nr_out_port := port |}.
    split_and!; [|done..]. apply elem_of_rules. exists id, a. split; [done|].
    apply elem_of_rules_of. by exists host, port.
  - apply Forall_forall. intros r (i & a & _ & Hr)%elem_of_rules.
    apply elem_of_rules_of in Hr as (_ & _ & _ & Hq & _). by eapply protocols_for_not_both.
Qed.

(** * The runtime over any backend *)
Section runtime.
  Context {B : Type} `{NftBackend B}.

(** The projections leave the runtime as it was. *)
Lemma project_upsert_eq a (s : NetlinkRuntime B) :
  project_upsert a s =
  (Ok (rules_for_allocations (<[al_id a := a]> (ns_allocations (nl_state s)))), s).
Proof.
  unfold project_upsert, on_state, set_allocations. destruct s as [b c [m st init]]. simpl.
  destruct (m !! al_id a) as [p|] eqn:Hp; do 4 f_equal.
  - by rewrite insert_insert_eq, insert_id.
  - by rewrite delete_insert_id.
Qed.

Lemma project_delete_eq id (s : NetlinkRuntime B) :
  project_delete id s =
  (Ok (rules_for_allocations (delete id (ns_allocations (nl_state s)))), s).
Proof.
  unfold project_delete, on_state, set_allocations. destruct s as [b c [m st init]]. simpl.
  destruct (m !! id) as [p|] eqn:Hp; do 4 f_equal.
  - by rewrite insert_delete_id.
  - by rewrite delete_id.
Qed.

Lemma wp_project_upsert a Q (s : NetlinkRuntime B) :
  wp (project_upsert a) Q s ↔
  Q (Ok (rules_for_allocations (<[al_id a := a]> (ns_allocations (nl_state s))))) s.
Proof. unfold wp. by rewrite project_upsert_eq. Qed.

Lemma wp_project_delete id Q (s : NetlinkRuntime B) :
  wp (project_delete id) Q s ↔
  Q (Ok (rules_for_allocations (delete id (ns_allocations (nl_state s))))) s.
Proof. unfold wp. by rewrite project_delete_eq. Qed.

(** The backend's call, as the runtime makes it. *)
Definition replaced (s : NetlinkRuntime B) (rules : list NftDnatRule) (t : Z)
    (outcome : result unit NftBackendError) (b : B) : Prop :=
  replace_ruleset (nc_table (nl_config s)) (nc_chain (nl_config s)) rules t (nl_backend s)
  = (outcome, b).

Lemma wp_apply_rules rules t Q (s : NetlinkRuntime B) :
  (∀ outcome b, replaced s rules t outcome b → Q (Ok outcome) (nl_set_backend b s)) →
  wp (apply_rules rules t) Q s.
Proof.
  intros HQ. unfold wp, apply_rules, attempt, zoom, map_err.
  destruct (replace_ruleset _ _ rules t (nl_backend s)) as [[[]|e] b] eqn:Hr; simpl; by apply HQ.
Qed.
End runtime.

#[export] Hint Rewrite @wp_project_upsert @wp_project_delete : wp.

(** [net_run]: one operation, down to the backend's outcome. *)
Ltac net_run :=
  autorewrite with wp; simpl; try apply wp_apply_rules;
  intros [[]|?] ? ?; autorewrite with wp; simpl; autorewrite with wp; simpl.

(** * The kernel's rules *)

(** What a backend promises: a batch is one transaction of the kernel. A reported
    success means that the ruleset is installed; after a reported failure either the
    old or the new one is (the acknowledgement may be what was lost). *)
Class NftBackendLaws (B : Type) `{NftBackend B} : Type := {
  installed : B → option (list NftDnatRule);
  replace_ruleset_spec table chain rules t b :
    wp (replace_ruleset table chain rules t)
      (λ r b', match r with
               | Ok _ => installed b' = Some rules
               | Err _ => installed b' = installed b ∨ installed b' = Some rules
               end) b;
}.

Section sync.
  Context {B : Type} `{NftBackendLaws B}.

Inductive NetRequest : Type :=
| NetInitialize (t : Z)
| NetCreate (a : Allocation) (t : Z)
| NetUpdate (a : Allocation) (t : Z)
| NetDelete (id : string) (t : Z)
| NetRestore (a : Allocation) (t : Z).

Definition run_net (q : NetRequest) : M (NetlinkRuntime B) RuntimeError unit :=
  match q with
  | NetInitialize t => rt_initialize t
  | NetCreate a t => rt_create a t
  | NetUpdate a t => rt_update a t
  | NetDelete id t => rt_delete id t
  | NetRestore a t => rt_restore a t
  end.

Inductive net_step : NetlinkRuntime B → NetlinkRuntime B → Prop :=
| net_step_run q s : net_step s (run_net q s).2.

(** Nothing is stale: the last application of a ruleset succeeded. *)
Definition fresh (s : NetlinkRuntime B) : Prop :=
  ns_initialized (nl_state s) = true ∧ ns_stale_error (nl_state s) = None.

Definition in_sync (s : NetlinkRuntime B) : Prop :=
  fresh s → installed (nl_backend s) = Some (rules_for_allocations (ns_allocations (nl_state s))).

(** Success reports freshness, failure staleness; success installs the rules. *)
Lemma run_net_spec q s :
  wp (run_net q)
    (λ r s', match r with
             | Ok _ => fresh s' ∧ installed (nl_backend s') =
                         Some (rules_for_allocations (ns_allocations (nl_state s')))
             | Err e => e = RuntimeApplyFailed ∧ is_Some (ns_stale_error (nl_state s'))
             end) s.
Proof.
  assert (∀ rules t outcome b, replaced s rules t outcome b → is_ok outcome = true →
            installed b = Some rules) as Hinst.
  { intros rules t outcome b Hr Hok.
    pose proof (wp_elim _ _ _ _ _ (replace_ruleset_spec _ _ rules t (nl_backend s)) Hr) as Hi.
    by destruct outcome. }
  destruct q as [t|a t|a t|id t|a t]; simpl;
    [unfold NetlinkRuntime_initialize|unfold NetlinkRuntime_create|unfold NetlinkRuntime_update
    |unfold NetlinkRuntime_delete|unfold NetlinkRuntime_restore];
    net_run; (by split) || (split; [done|]; by eapply Hinst).
Qed.

Lemma run_net_in_sync q s : in_sync (run_net q s).2.
Proof.
  intros [_ Hf]. pose proof (run_net_spec q s) as Hq. unfold wp in Hq.
  destruct (run_net q s) as [[[]|e] s']; simpl in *; [by destruct Hq|].
  destruct Hq as [_ [x Hx]]. congruence.
Qed.

(** C15: In every reachable state of the netlink runtime over a backend whose batches
    are transactions: when no error is pending, the ruleset installed in the kernel is
    exactly the one derived from the runtime's allocations. *)
Theorem reachable_in_sync config b s
    (Hr : rtc net_step (NetlinkRuntime_new config b) s) (Hfresh : fresh s) :
  installed (nl_backend s) = Some (rules_for_allocations (ns_allocations (nl_state s))).
Proof.
  enough (in_sync s) by auto. clear Hfresh.
  assert (in_sync (NetlinkRuntime_new config b)) as Hinit by (intros [[=] _]).
  induction Hr as [|s s1 s' [q s0] _ IH]; [done|]. apply IH, run_net_in_sync.
Qed.

(** Operations report errors faithfully, and a snapshot never claims a binding is
    active while the kernel may hold other rules: after a failed application every
    bound allocation is shown as degraded, with the backend's message. *)
Theorem failed_apply_degrades q s e s' id a x
    (Hrun : run_net q s = (Err e, s'))
    (Ha : ns_allocations (nl_state s') !! id = Some a) (Hb : bound_target a = Some x) :
  e = RuntimeApplyFailed ∧
  ∃ o, (NetlinkRuntime_snapshot id s').1 = Ok (Some o) ∧
       os_runtime_status o = DegradedApplyFailed ∧ os_error_kind o = Some ApplyFailed ∧
       os_last_error o = ns_stale_error (nl_state s').
Proof.
  destruct (wp_elim _ _ _ _ _ (run_net_spec q s) Hrun) as [-> [msg Hmsg]].
  split; [done|]. unfold NetlinkRuntime_snapshot, gets. simpl. rewrite Ha. simpl.
  rewrite Hb, Hmsg. by eexists.
Qed.
End sync.

(** * The promises of the trait *)
Section laws.
  Context {B : Type} `{NftBackend B}.

Definition nl_tracks (s : NetlinkRuntime B) (id : string) : Prop :=
  is_Some (ns_allocations (nl_state s) !! id).

(** The map's keys are the identifiers, and whatever the backend promises of its rulesets,
    one that is not stale is that of the map. *)
Definition nl_ok (s : NetlinkRuntime B) : Prop :=
  map_Forall (λ id a, al_id a = id) (ns_allocations (nl_state s)) ∧
  ∀ L : NftBackendLaws B, in_sync s.

Lemma NetlinkRuntime_new_ok config b : nl_ok (NetlinkRuntime_new config b).
Proof. split; [apply map_Forall_empty|]. by intros L [[=] _]. Qed.

(** What an operation does to the map. *)
Lemma net_ok (q : NetRequest) (s : NetlinkRuntime B) Q :
  wp (run_net q)
    (λ r s', map_Forall (λ id a, al_id a = id) (ns_allocations (nl_state s')) ∧ Q r s') s →
  wp (run_net q) (λ r s', nl_ok s' ∧ Q r s') s.
Proof.
  unfold wp. intros [Hk HQ]. split; [|done]. split; [done|]. intros L. apply run_net_in_sync.
Qed.

Lemma keyed_insert a (m : gmap string Allocation) :
  map_Forall (λ id a, al_id a = id) m → map_Forall (λ id a, al_id a = id) (<[al_id a := a]> m).
Proof. intros Hm. by apply map_Forall_insert_2. Qed.

#[export] Program Instance NetlinkRuntime_laws : RuntimeFacadeLaws (NetlinkRuntime B) := {|
  rt_ok := nl_ok;
  rt_tracks := nl_tracks;
|}.
Next Obligation.
  intros t s Hok. apply (net_ok (NetInitialize t)). destruct Hok as [Hk _].
  simpl. unfold NetlinkRuntime_initialize. net_run; done.
Qed.
Next Obligation.
  intros a t s Hok Hn. apply (net_ok (NetCreate a t)). destruct Hok as [Hk _].
  simpl. unfold NetlinkRuntime_create. net_run.
  - split; [by apply keyed_insert|]. intros id. unfold nl_tracks. simpl. rewrite is_Some_insert. naive_solver.
  - split; [done|]. intros id. naive_solver.
Qed.
Next Obligation.
  intros a t s Hok Hin. apply (net_ok (NetUpdate a t)). destruct Hok as [Hk _].
  simpl. unfold NetlinkRuntime_update.
  net_run; (split; [by apply keyed_insert|]; intros id; unfold nl_tracks in *; simpl; rewrite is_Some_insert;
    naive_solver).
Qed.
Next Obligation.
  intros i t s Hok. apply (net_ok (NetDelete i t)). destruct Hok as [Hk _].
  simpl. unfold NetlinkRuntime_delete. net_run.
  - split; [by apply map_Forall_delete|]. intros id. unfold nl_tracks. simpl. rewrite is_Some_delete. naive_solver.
  - split; [done|]. intros id. naive_solver.
Qed.
Next Obligation.
  intros a t s Hok. apply (net_ok (NetRestore a t)). destruct Hok as [Hk _].
  simpl. unfold NetlinkRuntime_restore.
  net_run; (split; [by apply keyed_insert|]; split; unfold nl_tracks; simpl; [intros id ?|intros _];
    rewrite is_Some_insert; naive_solver).
Qed.
Next Obligation.
  intros i s Hok. simpl. unfold NetlinkRuntime_snapshot. autorewrite with wp.
  split; [done|]. eexists. split; [done|]. by rewrite fmap_is_Some.
Qed.
Next Obligation. by intros s _. Qed.
End laws.
