(* ===== verification/NetlinkServing.v ===== *)
(** The netlink runtime forwards what it was told: its map of allocations is what the
    service has stored, and while it is not stale the kernel's rules are those of the map. *)
From stdpp Require Import base gmap strings list fin_maps.
From Stdlib Require Import ZArith Lia.
From S2P Require Import Prelude RustStd Model Facade Store ServiceSpec ServiceInv Serving Netlink NetlinkSpec.
Open Scope Z_scope.

(** The rules of an allocation depend on its listener and target only. *)
Lemma bound_target_al a b : al_target a = al_target b → bound_target a = bound_target b.
Proof.
  unfold al_target, bound_target.
  destruct (al_host a), (al_target_port a), (al_host b), (al_target_port b); intros [=]; subst; try done;
    by repeat destruct (IpAddr_from_str _).
Qed.

Lemma rules_of_same a b : same_listener a b → al_target a = al_target b → rules_of a = rules_of b.
Proof.
  intros (Hi & Hp & Hport) Ht. unfold rules_of. by rewrite (bound_target_al a b Ht), Hi, Hp, Hport.
Qed.

Section serving.
  Context {B : Type} `{NftBackend B}.

Definition nl_has (P : Allocation → Prop) (s : NetlinkRuntime B) (a : Allocation) : Prop :=
  ∃ b, ns_allocations (nl_state s) !! al_id a = Some b ∧ same_listener a b ∧ P b.

Definition nl_listens : NetlinkRuntime B → Allocation → Prop := nl_has (λ _, True).

Definition nl_serves (s : NetlinkRuntime B) (a : Allocation) : Prop :=
  nl_has (λ b, al_target a = al_target b) s a.

Definition same_but (P : string → Prop) (s s' : NetlinkRuntime B) : Prop :=
  ∀ id, P id → ns_allocations (nl_state s') !! id = ns_allocations (nl_state s) !! id.

Lemma same_but_spares P s s' :
  same_but P s s' → spares nl_listens nl_serves (λ b, P (al_id b)) s s'.
Proof. intros Hs b Hb. unfold nl_listens, nl_serves, nl_has. by rewrite (Hs _ Hb). Qed.

Lemma nl_told s a : ns_allocations (nl_state s) !! al_id a = Some a → nl_listens s a ∧ nl_serves s a.
Proof. intros Ha. by split; exists a. Qed.

Lemma same_listener_trans a b c : same_listener a b → same_listener a c → same_listener b c.
Proof. unfold same_listener. naive_solver congruence. Qed.

#[export] Program Instance NetlinkRuntime_serves : RuntimeServes (NetlinkRuntime B) := {|
  rt_listens := nl_listens;
  rt_serves := nl_serves;
|}.
Next Obligation.
  intros s a b Hab (c & Hc & Hac & _). exists c. split; [by rewrite <- (proj1 Hab)|].
  split; [by eapply same_listener_trans|done].
Qed.
Next Obligation.
  intros s a b Hab Ht (c & Hc & Hac & Htc). exists c. split; [by rewrite <- (proj1 Hab)|].
  split; [by eapply same_listener_trans|congruence].
Qed.
Next Obligation. intros s a (c & Hc & Hac & _). by exists c. Qed.
Next Obligation.
  intros t s _. simpl. unfold NetlinkRuntime_initialize. net_run; by intros x.
Qed.
Next Obligation.
  intros a t s _ _. simpl. unfold NetlinkRuntime_create. net_run.
  - split; [intros _; apply nl_told, lookup_insert_eq|].
    apply (same_but_spares (λ id, id ≠ al_id a)). intros id Hid. by apply lookup_insert_ne.
  - split; [done|]. by intros x.
Qed.
Next Obligation.
  intros a t s _ _. simpl. unfold NetlinkRuntime_update.
  net_run; (split_and!; [apply nl_told, lookup_insert_eq|intros _; apply nl_told, lookup_insert_eq|
    apply (same_but_spares (λ id, id ≠ al_id a)); intros id Hid; by apply lookup_insert_ne]).
Qed.
Next Obligation.
  intros i t s _. simpl. unfold NetlinkRuntime_delete. net_run.
  - intros x Hx. apply (same_but_spares (λ id, id ≠ i)); [|by apply Hx].
    intros id Hid. by apply lookup_delete_ne.
  - by intros x.
Qed.
Next Obligation.
  intros a t s _. simpl. unfold NetlinkRuntime_restore.
  net_run; (split; [intros _; apply nl_told, lookup_insert_eq|
    apply (same_but_spares (λ id, id ≠ al_id a)); intros id Hid; by apply lookup_insert_ne]).
Qed.
End serving.

(** The kernel's rules for a served allocation are its rules. *)
Lemma served_rules {B} `{NftBackendLaws B} (s : NetlinkRuntime B) a :
  nl_ok s → fresh s → nl_serves s a →
  ∃ rules, installed (nl_backend s) = Some rules ∧
    ∀ r, nr_allocation_id r = al_id a → r ∈ rules ↔ r ∈ rules_of a.
Proof.
  intros [Hkeys Hsync] Hf (b & Hb & Hl & Ht). eexists. split; [by apply (Hsync _)|].
  intros r Hr. rewrite elem_of_rules, (rules_of_same a b Hl Ht). split; [|by eauto].
  intros (id & c & Hc & Hrc). rewrite <- Hr in Hb.
  assert (nr_allocation_id r = al_id c) as Hid by (by apply elem_of_rules_of in Hrc as (? & ? & _ & _ & ->)).
  rewrite Hid, (Hkeys id c Hc) in Hb. simpl in Hb. congruence.
Qed.
