(* ===== verification/NetlinkBatch.v ===== *)
(** runtime/netlink.rs and runtime/netlink/maps.rs, the library-backed backend: the
    batch of nftables messages that replaces the chain, the expressions of its rules
    as libnftnl objects (a name and the attributes set on it), the anonymous maps, and
    the exchange with the kernel under a deadline.

    libnftnl, libmnl and the kernel are outside the sources. Attribute names and
    constants stay symbolic; what the kernel does with the messages and how it runs a rule
    is the class [NftKernel] of NetlinkKernel.v. *)
From stdpp Require Import base gmap strings list.
From Stdlib Require Import ZArith Lia Ascii.
From S2P Require Import Prelude RustStd Model Netlink.
Open Scope Z_scope.

(** * Names *)

(** [CString::new]: fails at the first NUL byte, whose position [NulError] prints. *)
Definition nul_position (s : string) : option nat := find_char (ascii_of_nat 0) s.

Definition cstring_error (kind : string) (position : nat) : NftBackendError :=
  Apply ("invalid nftables " +:+ kind +:+
         " name: nul byte found in provided data at position: " +:+
         u64_to_string (Z.of_nat position))%string.

Definition cstring_name (kind value : string) : result string NftBackendError :=
  match nul_position value with
  | Some position => Err (cstring_error kind position)
  | None => Ok value
  end.

(** * Expressions *)
Inductive Register : Type := Reg1 | Reg2 | Reg3.

#[export] Instance Register_eq_dec : EqDecision Register.
Proof. solve_decision. Defined.

Definition REG_PROTOCOL : Register := Reg1.
Definition REG_PORT : Register := Reg2.
Definition REG_FIB_TYPE : Register := Reg3.
Definition REG_DNAT_ADDR : Register := Reg1.
Definition REG_DNAT_PORT : Register := Reg2.

Definition NF_IP_PRI_NAT_DST : Z := -100.
Definition NFT_FIB_RESULT_ADDRTYPE : Z := 3.
Definition NFT_FIB_F_DADDR : Z := Z.shiftl 1 1.
Definition RTN_LOCAL : Z := 2.

(** libc's constants the code names. *)
Definition NFPROTO_IPV4 : Z := 2.
Definition NFPROTO_IPV6 : Z := 10.
Definition IPPROTO_TCP : Z := 6.
Definition IPPROTO_UDP : Z := 17.
Definition NFT_PAYLOAD_TRANSPORT_HEADER : Z := 2.
Definition NFT_CMP_EQ : Z := 0.
Definition NFT_SET_ANONYMOUS : Z := 1.
Definition NFT_SET_CONSTANT : Z := 2.
Definition NFT_SET_MAP : Z := 8.
Definition NLM_F_ACK : Z := 4.
Definition NLM_F_CREATE : Z := 1024.

Inductive Meta : Type := NfProto | L4Proto.

Inductive ProtoFamily : Type := Inet | Ipv4 | Ipv6.

(** What the chain and its rules are told to be. *)
Inductive ChainType : Type := ChainFilter | ChainRoute | ChainNat.
Inductive Hook : Type := PreRouting.
Inductive Policy : Type := Accept | Drop.
Inductive NatType : Type := SNat | DNat.

Inductive ExprAttr : Type :=
| META_DREG | META_KEY
| PAYLOAD_BASE | PAYLOAD_OFFSET | PAYLOAD_LEN | PAYLOAD_DREG
| CMP_SREG | CMP_OP | CMP_DATA
| FIB_DREG | FIB_RESULT | FIB_FLAGS
| LOOKUP_SREG | LOOKUP_DREG | LOOKUP_SET | LOOKUP_SET_ID.

Inductive AttrValue : Type :=
| VU32 (n : Z) | VReg (r : Register) | VMeta (k : Meta) | VData (bytes : list Z)
| VStr (s : string).

(** An expression built attribute by attribute, or one of the crate's own. *)
Inductive Expr : Type :=
| FfiExpr (name : string) (attrs : list (ExprAttr * AttrValue))
| CounterExpr
| NatExpr (nat_type : NatType) (family : ProtoFamily) (ip_register port_register : Register).

Definition LoadMeta_to_expr (key : Meta) (register : Register) : Expr :=
  FfiExpr "meta" [(META_DREG, VReg register); (META_KEY, VMeta key)].

Definition LoadPayload_to_expr (base offset len : Z) (register : Register) : Expr :=
  FfiExpr "payload" [(PAYLOAD_BASE, VU32 base); (PAYLOAD_OFFSET, VU32 offset);
                     (PAYLOAD_LEN, VU32 len); (PAYLOAD_DREG, VReg register)].

(** The data compared with is a [u8] at every use. *)
Definition CmpRegister_to_expr (register : Register) (data : Z) : Expr :=
  FfiExpr "cmp" [(CMP_SREG, VReg register); (CMP_OP, VU32 NFT_CMP_EQ);
                 (CMP_DATA, VData [data])].

Definition FibDaddrType_to_expr (register : Register) : Expr :=
  FfiExpr "fib" [(FIB_DREG, VReg register); (FIB_RESULT, VU32 NFT_FIB_RESULT_ADDRTYPE);
                 (FIB_FLAGS, VU32 NFT_FIB_F_DADDR)].

(** * Maps *)

(** A set of libnftnl with the attributes [Set::new] and [port_map] give it. *)
Record NftSet : Type := {
  set_name : string;
  set_table : string;
  set_id : Z;
  set_family : ProtoFamily;
  set_flags : Z;
  set_key_type : Z;
  set_key_len : Z;
  set_data_type : Z;
  set_data_len : Z;
  set_elements : list (list Z * list Z);
}.

Definition PortKey_TYPE : Z := 13.
Definition PortKey_LEN : Z := 2.

Definition port_map (table : string) (id data_type data_len : Z) : NftSet := {|
  set_name := "__relayd%d";
  set_table := table;
  set_id := id;
  set_family := Inet;
  set_flags := Z.lor (Z.lor NFT_SET_ANONYMOUS NFT_SET_CONSTANT) NFT_SET_MAP;
  set_key_type := PortKey_TYPE;
  set_key_len := PortKey_LEN;
  set_data_type := data_type;
  set_data_len := data_len;
  set_elements := [];
|}.

Definition add_element (s : NftSet) (port : Z) (data : list Z) : NftSet := {|
  set_name := set_name s; set_table := set_table s; set_id := set_id s; set_family := set_family s;
  set_flags := set_flags s; set_key_type := set_key_type s; set_key_len := set_key_len s;
  set_data_type := set_data_type s; set_data_len := set_data_len s;
  set_elements := set_elements s ++ [(u16_to_be_bytes port, data)];
|}.

Definition MapLookup_to_expr (s : NftSet) (destination : Register) : Expr :=
  FfiExpr "lookup" [(LOOKUP_SREG, VReg REG_PORT); (LOOKUP_DREG, VReg destination);
                    (LOOKUP_SET, VStr (set_name s)); (LOOKUP_SET_ID, VU32 (set_id s))].

(** * The rule *)
Definition nfproto_for (addr : IpAddr) : Z :=
  match addr with V4 _ _ _ _ => NFPROTO_IPV4 | V6 _ => NFPROTO_IPV6 end.

Definition nfproto_family_for (addr : IpAddr) : ProtoFamily :=
  match addr with V4 _ _ _ _ => Ipv4 | V6 _ => Ipv6 end.

(** [Both] is [unreachable!]: the rules never carry it. *)
Definition l4proto_for (p : Protocol) : option Z :=
  match p with Tcp => Some IPPROTO_TCP | Udp => Some IPPROTO_UDP | Both => None end.

Definition add_dnat_rule_exprs (dnat : NftDnatRule) (l4proto : Z) (addresses ports : NftSet)
    : list Expr :=
  let nfproto := nfproto_for (nr_out_host dnat) in
  [LoadMeta_to_expr NfProto REG_PROTOCOL;
   CmpRegister_to_expr REG_PROTOCOL nfproto;
   LoadMeta_to_expr L4Proto REG_PROTOCOL;
   CmpRegister_to_expr REG_PROTOCOL l4proto;
   LoadPayload_to_expr NFT_PAYLOAD_TRANSPORT_HEADER 2 2 REG_PORT;
   FibDaddrType_to_expr REG_FIB_TYPE;
   CmpRegister_to_expr REG_FIB_TYPE RTN_LOCAL;
   MapLookup_to_expr addresses REG_DNAT_ADDR;
   MapLookup_to_expr ports REG_DNAT_PORT;
   CounterExpr;
   NatExpr DNat (nfproto_family_for (nr_out_host dnat)) REG_DNAT_ADDR REG_DNAT_PORT].

(** * The batch *)
Inductive TableAttr : Type := TABLE_FAMILY (f : ProtoFamily) | TABLE_NAME (s : string) | TABLE_FLAGS (n : Z).
Inductive RuleAttr : Type := RULE_FAMILY (f : ProtoFamily) | RULE_TABLE (s : string) | RULE_CHAIN (s : string).
Inductive NlMsgType : Type := NFT_MSG_NEWTABLE | NFT_MSG_DELRULE.

(** The header's type, family and flags, and the payload's attributes. *)
Inductive Message : Type :=
| TableMsg (type : NlMsgType) (family : ProtoFamily) (flags : Z) (attrs : list TableAttr)
| RuleDelMsg (type : NlMsgType) (family : ProtoFamily) (flags : Z) (attrs : list RuleAttr)
| ChainMsg (table chain : string) (type : ChainType) (hook : Hook) (priority : Z) (policy : Policy)
| SetMsg (s : NftSet)
| ElemsMsg (set_id : Z) (elements : list (list Z * list Z))
| RuleMsg (table chain : string) (exprs : list Expr).

Definition EnsureTable_write (name : string) : Message :=
  TableMsg NFT_MSG_NEWTABLE Inet (Z.lor NLM_F_ACK NLM_F_CREATE)
    [TABLE_FAMILY Inet; TABLE_NAME name; TABLE_FLAGS 0].

Definition FlushChain_write (table chain : string) : Message :=
  RuleDelMsg NFT_MSG_DELRULE Inet NLM_F_ACK
    [RULE_FAMILY Inet; RULE_TABLE table; RULE_CHAIN chain].

(** One group: the rules of a family and a protocol, in their order. *)
Definition group_of (ipv6 : bool) (protocol : Protocol) (rules : list NftDnatRule)
    : list NftDnatRule :=
  filter (λ r, is_ipv6 (nr_out_host r) = ipv6 ∧ nr_protocol r = protocol) rules.

(** The loop over a group's entries: a port seen before is passed over. *)
Fixpoint fill_maps (seen : gset Z) (addresses ports : NftSet) (group : list NftDnatRule)
    : NftSet * NftSet :=
  match group with
  | [] => (addresses, ports)
  | entry :: group' =>
      if decide (nr_in_port entry ∈ seen) then fill_maps seen addresses ports group'
      else
        fill_maps ({[nr_in_port entry]} ∪ seen)
          (add_element addresses (nr_in_port entry) (ip_octets (nr_out_host entry)))
          (add_element ports (nr_in_port entry) (u16_to_be_bytes (nr_out_port entry)))
          group'
  end.

Section batch.
  (** [elems_iter] cuts a set's elements into messages. *)
  Context (elems_iter : list (list Z * list Z) → list (list (list Z * list Z))).

Definition set_messages (s : NftSet) : list Message :=
  SetMsg s :: (ElemsMsg (set_id s) <$> elems_iter (set_elements s)).

(** One turn of the two nested loops: [id] is the next set id. *)
Definition group_messages (table chain : string) (rules : list NftDnatRule)
    (ipv6 : bool) (protocol : Protocol) (id : Z) : list Message * Z :=
  let group := group_of ipv6 protocol rules in
  match group, l4proto_for protocol with
  | first :: _, Some l4proto =>
      let addresses := port_map table id (if ipv6 then 8 else 7) (if ipv6 then 16 else 4) in
      let ports := port_map table (id + 1) 13 2 in
      let '(addresses, ports) := fill_maps ∅ addresses ports group in
      (set_messages addresses ++ set_messages ports ++
       [RuleMsg table chain (add_dnat_rule_exprs first l4proto addresses ports)], id + 2)
  | _, _ => ([], id)
  end.

Definition groups : list (bool * Protocol) :=
  ipv6 ← [false; true]; protocol ← [Tcp; Udp]; [(ipv6, protocol)].

Fixpoint groups_messages (table chain : string) (rules : list NftDnatRule)
    (gs : list (bool * Protocol)) (id : Z) : list Message :=
  match gs with
  | [] => []
  | (ipv6, protocol) :: gs' =>
      let '(msgs, id') := group_messages table chain rules ipv6 protocol id in
      msgs ++ groups_messages table chain rules gs' id'
  end.

Definition ruleset_batch (table chain : string) (rules : list NftDnatRule) : list Message :=
  EnsureTable_write table ::
  ChainMsg table chain ChainNat PreRouting NF_IP_PRI_NAT_DST Accept ::
  FlushChain_write table chain ::
  groups_messages table chain rules groups 1.

End batch.

(** * The exchange with the kernel *)
Inductive IoErrorKind : Type := WouldBlock | TimedOut | OtherIo.

#[export] Instance IoErrorKind_eq_dec : EqDecision IoErrorKind.
Proof. solve_decision. Defined.

Record IoError : Type := { io_kind : IoErrorKind; io_message : string }.

Definition apply_timed_out : IoError :=
  {| io_kind := TimedOut; io_message := "nftables netlink apply timed out" |}.

(** Durations and instants are counted in nanoseconds. *)
Definition timeout_duration (timeout_ms : Z) : Z := Z.max timeout_ms 1 * 1000000.

Definition apply_deadline (now timeout_ms : Z) : Z := now + timeout_duration timeout_ms.

(** [checked_duration_since] is [None] when the deadline is past; zero is filtered. *)
Definition remaining_timeout (deadline now : Z) : result Z IoError :=
  ok_or apply_timed_out (if now <? deadline then Some (deadline - now) else None).

Definition timeout_io_error (e : IoError) : IoError :=
  match io_kind e with
  | WouldBlock | TimedOut => apply_timed_out
  | OtherIo => e
  end.

Record timeval : Type := { tv_sec : Z; tv_usec : Z }.

Definition duration_to_timeval (ns : Z) : timeval := {|
  tv_sec := if ns / 1000000000 <=? i64_max then ns / 1000000000 else i64_max;
  tv_usec := (ns mod 1000000000) / 1000;
|}.

(** The socket options for how long a call may block; zero is no limit. *)
Inductive SocketOption : Type := SO_RCVTIMEO | SO_SNDTIMEO.

Record SocketTimeouts : Type := { so_rcvtimeo : timeval; so_sndtimeo : timeval }.

(** A new socket. *)
Definition no_timeouts : SocketTimeouts :=
  {| so_rcvtimeo := {| tv_sec := 0; tv_usec := 0 |}; so_sndtimeo := {| tv_sec := 0; tv_usec := 0 |} |}.

Section exchange.
  (** A message received, and [mnl::cb_run]'s verdict on it for a sequence number; the
      clock and the socket's calls, by the number of the turn they are made in. A call that
      blocks is given the timeout in force, and answers [None] when it never returns. *)
  Context {Received : Type} (cb_run : Received → Z → result unit IoError).
  Context (now : nat → Z) (setsockopt : nat → SocketOption → timeval → result unit IoError).
  Context (send : nat → timeval → Message → option (result bool IoError)).   (* whether all was sent *)
  Context (recv : nat → timeval → option (result (list (result Received IoError)) IoError)).

Definition set_socket_timeout (n : nat) (option : SocketOption) (timeout : timeval) (socket : SocketTimeouts)
    : result SocketTimeouts IoError :=
  let? _set := setsockopt n option timeout in
  Ok (match option with
      | SO_RCVTIMEO => {| so_rcvtimeo := timeout; so_sndtimeo := so_sndtimeo socket |}
      | SO_SNDTIMEO => {| so_rcvtimeo := so_rcvtimeo socket; so_sndtimeo := timeout |}
      end).

Definition set_socket_timeouts (n : nat) (duration : Z) (socket : SocketTimeouts)
    : result SocketTimeouts IoError :=
  let timeout := duration_to_timeval duration in
  let? socket := set_socket_timeout n SO_RCVTIMEO timeout socket in
  set_socket_timeout n SO_SNDTIMEO timeout socket.

(** The head of both loops: the socket with the time that is left. *)
Definition within_deadline (n : nat) (deadline : Z) (socket : SocketTimeouts)
    : result SocketTimeouts IoError :=
  let? duration := remaining_timeout deadline (now n) in
  set_socket_timeouts n duration socket.

(** The number of the turn after the batch; [None]: a send never returns. *)
Fixpoint send_batch_with_deadline (n : nat) (socket : SocketTimeouts) (batch : list Message) (deadline : Z)
    : option (result (nat * SocketTimeouts) IoError) :=
  match batch with
  | [] => Some (Ok (n, socket))
  | message :: batch' =>
      match within_deadline n deadline socket with
      | Err e => Some (Err e)
      | Ok socket =>
          sent ← send n (so_sndtimeo socket) message;
          match sent with
          | Err e => Some (Err e)
          | Ok false =>
              Some (Err {| io_kind := OtherIo; io_message := "sendto did not send entire message" |})
          | Ok true => send_batch_with_deadline (S n) socket batch' deadline
          end
      end
  end.

(** The messages of one [recv]: each acknowledges the next expected number. *)
Fixpoint process_messages (messages : list (result Received IoError)) (expected : list Z)
    : result (list Z) IoError :=
  match messages with
  | [] => Ok expected
  | message :: messages' =>
      let? m := message in
      match expected with
      | [] => Err {| io_kind := OtherIo;
                     io_message := "received unexpected nftables ACK message" |}
      | seq :: expected' =>
          let? _ack := cb_run m seq in
          process_messages messages' expected'
      end
  end.

(** The receive loop; [None]: out of fuel, or a receive never returns. *)
Fixpoint receive_acks (fuel n : nat) (socket : SocketTimeouts) (deadline : Z) (expected : list Z)
    : option (result unit IoError) :=
  match expected with
  | [] => Some (Ok tt)
  | _ =>
      match fuel with
      | O => None
      | S fuel' =>
          match within_deadline n deadline socket with
          | Err e => Some (Err e)
          | Ok socket =>
              received ← recv n (so_rcvtimeo socket);
              match
                (let? messages := map_err timeout_io_error received in
                 process_messages messages expected)
              with
              | Err e => Some (Err e)
              | Ok expected' => receive_acks fuel' (S n) socket deadline expected'
              end
          end
      end
  end.

(** [send_and_process], from an open socket; [seqs] are the sequence numbers the
    library gave the batch's messages. *)
Definition send_and_process (fuel : nat) (batch : list Message) (seqs : list Z) (timeout_ms : Z)
    : option (result unit IoError) :=
  let deadline := apply_deadline (now 0) timeout_ms in
  sent ← send_batch_with_deadline 1 no_timeouts batch deadline;
  match sent with
  | Err e => Some (Err e)
  | Ok (n, socket) => receive_acks fuel n socket deadline seqs
  end.
End exchange.

(** [LibNftnlBackend::replace_ruleset]: names, batch, exchange. [transact] is the
    exchange with a kernel of state [K]; its error is printed into the message. *)
Definition LibNftnlBackend_replace_ruleset {K : Type}
    (elems_iter : list (list Z * list Z) → list (list (list Z * list Z)))
    (transact : list Message → Z → M K string unit)
    (table_name chain_name : string) (rules : list NftDnatRule) (timeout_ms : Z)
    : M K NftBackendError unit :=
  let! table := of_result (cstring_name "table" table_name) in
  let! chain := of_result (cstring_name "chain" chain_name) in
  zoom (λ k, k) (λ k _, k) (λ e, Apply ("nftnl ruleset replace failed: " +:+ e)%string)
    (transact (ruleset_batch elems_iter table chain rules) timeout_ms).

(** The builds without the feature refuse. *)
Definition LibNftnlBackend_without_feature {K : Type} (_table _chain : string)
    (_rules : list NftDnatRule) (_timeout_ms : Z) : M K NftBackendError unit :=
  fail (Apply "netlink runtime requires building relayd with the netlink Cargo feature").
