(* ===== verification/NetlinkKernel.v ===== *)
(** What the batch of NetlinkBatch.v makes of a kernel's ruleset, and of its packets.

    How nf_tables takes a batch and runs a chain is documented behaviour outside the
    sources: the kernel is a parameter, a ruleset with the operations [NftKernel], and
    [NftKernelLaws] says what each kind of message that it takes does to the ruleset and how
    each kind of expression runs. The laws speak of attributes and numbers of the kernel's
    interface (linux/netfilter/nf_tables.h), not of the code's builders and constants, and
    say nothing of messages and expressions of another form: not of a set that is not
    declared as a map, of data that does not have the declared length, of a chain that is
    not one for address translation. The theorem holds for every such kernel;
    [doc_kernel] of NetlinkWitness.v is one. *)
From stdpp Require Import base gmap strings list.
From Stdlib Require Import ZArith Lia Ascii.
From S2P Require Import Prelude RustStd Model Netlink NetlinkBatch.
Open Scope Z_scope.

(** * The kernel *)

(** A packet at the prerouting hook: its network family and transport protocol, the
    transport header's bytes, and the routing type of its destination address. *)
Record Packet : Type := {
  pk_nfproto : Z;
  pk_l4proto : Z;
  pk_transport : list Z;
  pk_daddr_type : Z;
}.

Abbreviation Regs := (Register → list Z).

Definition set_reg (r : Register) (v : list Z) (regs : Regs) : Regs :=
  λ q, if decide (q = r) then v else regs q.

Definition no_regs : Regs := λ _, [].

(** Where a packet's destination is translated to: family, address, port. *)
Definition Translation : Type := ProtoFamily * list Z * list Z.

(** An expression goes on, ends the rule without a match, or translates. *)
Inductive Verdict : Type :=
| Continue (regs : Regs)
| Break
| Dnat (to : Translation).

(** A base chain with the expressions of its rules, and a map. *)
Record KChain : Type := {
  kc_type : ChainType;
  kc_hook : Hook;
  kc_priority : Z;
  kc_policy : Policy;
  kc_rules : list (list Expr);
}.

Record KMap : Type := {
  km_key_len : Z;
  km_data_len : Z;
  km_elements : list (list Z * list Z);
}.

Definition kc_set_rules (x : list (list Expr)) (c : KChain) : KChain :=
  {| kc_type := kc_type c; kc_hook := kc_hook c; kc_priority := kc_priority c;
     kc_policy := kc_policy c; kc_rules := x |}.

Definition map_get (elements : list (list Z * list Z)) (key : list Z) : option (list Z) :=
  snd <$> head (filter (λ e, e.1 = key) elements).

Class NftKernel (K : Type) : Type := {
  kn_apply : Message → K → option K;                  (* a message of a batch; [None]: refused *)
  kn_table : K → string → Prop;                       (* the tables of the family inet *)
  kn_chain : K → string → string → option KChain;     (* table, chain *)
  kn_map : K → Z → option KMap;                       (* by the batch's identifiers *)
  kn_eval : K → Packet → Expr → Regs → Verdict;
  kn_traverse : K → string → string → Packet → option Translation;
}.

(** A rule runs its expressions in order; a chain its rules, until one translates. *)
Fixpoint run_rule (eval : Expr → Regs → Verdict) (exprs : list Expr) (regs : Regs)
    : option Translation :=
  match exprs with
  | [] => None
  | e :: exprs' =>
      match eval e regs with
      | Continue regs' => run_rule eval exprs' regs'
      | Break => None
      | Dnat to => Some to
      end
  end.

Fixpoint run_rules (eval : Expr → Regs → Verdict) (rules : list (list Expr)) : option Translation :=
  match rules with
  | [] => None
  | exprs :: rules' =>
      match run_rule eval exprs no_regs with Some to => Some to | None => run_rules eval rules' end
  end.

(** nft's datatypes with their length in bytes: ipv4_addr, ipv6_addr, inet_service. *)
Definition nft_type_len (type : Z) : option Z :=
  if type =? 7 then Some 4 else if type =? 8 then Some 16 else if type =? 13 then Some 2 else None.

(** An anonymous (1) constant (2) map (8): its name is a template, and its datatypes have
    the lengths it declares. *)
Definition declares_map (s : NftSet) : Prop :=
  set_family s = Inet ∧ set_flags s = 11 ∧ (∃ prefix, set_name s = (prefix +:+ "%d")%string) ∧
  nft_type_len (set_key_type s) = Some (set_key_len s) ∧
  nft_type_len (set_data_type s) = Some (set_data_len s).

Definition fits (m : KMap) (e : list Z * list Z) : Prop :=
  Z.of_nat (length e.1) = km_key_len m ∧ Z.of_nat (length e.2) = km_data_len m.

(** The maps that a rule looks up. *)
Definition looks_up (e : Expr) (id : Z) : Prop :=
  ∃ q r name, e = FfiExpr "lookup" [(LOOKUP_SREG, VReg q); (LOOKUP_DREG, VReg r);
                                    (LOOKUP_SET, VStr name); (LOOKUP_SET_ID, VU32 id)].

Section laws.
  Context {K : Type} `{NftKernel K}.

(** Tables stay, and so do the chains other than [ex_chain] and the maps other than
    [ex_map]. *)
Record kept (ex_chain : option (string * string)) (ex_map : option Z) (k k' : K) : Prop := {
  kept_table t : kn_table k t → kn_table k' t;
  kept_chain t c : ex_chain ≠ Some (t, c) → kn_chain k' t c = kn_chain k t c;
  kept_map i : ex_map ≠ Some i → kn_map k' i = kn_map k i;
}.

Class NftKernelLaws : Prop := {
  (* NFT_MSG_NEWTABLE with NLM_F_CREATE (0x400): the table is there, and not dormant *)
  apply_table t flags k k' :
    Z.testbit flags 10 = true →
    kn_apply (TableMsg NFT_MSG_NEWTABLE Inet flags [TABLE_FAMILY Inet; TABLE_NAME t; TABLE_FLAGS 0]) k = Some k' →
    kn_table k' t ∧ kept None None k k';
  (* NFT_MSG_NEWCHAIN makes the chain, or keeps the rules of the one that is there *)
  apply_chain t c type hook priority policy k k' :
    kn_table k t → kn_apply (ChainMsg t c type hook priority policy) k = Some k' →
    kept (Some (t, c)) None k k' ∧
    kn_chain k' t c =
      Some {| kc_type := type; kc_hook := hook; kc_priority := priority; kc_policy := policy;
              kc_rules := default [] (kc_rules <$> kn_chain k t c) |};
  (* NFT_MSG_DELRULE without a handle removes all rules, and the anonymous maps they own *)
  apply_flush t c ch flags k k' :
    kn_chain k t c = Some ch →
    kn_apply (RuleDelMsg NFT_MSG_DELRULE Inet flags [RULE_FAMILY Inet; RULE_TABLE t; RULE_CHAIN c]) k = Some k' →
    (∀ t', kn_table k t' → kn_table k' t') ∧ kn_chain k' t c = Some (kc_set_rules [] ch);
  (* NFT_MSG_NEWSET *)
  apply_set s k k' :
    kn_table k (set_table s) → declares_map s → kn_apply (SetMsg s) k = Some k' →
    kept None (Some (set_id s)) k k' ∧
    kn_map k' (set_id s) =
      Some {| km_key_len := set_key_len s; km_data_len := set_data_len s; km_elements := [] |};
  (* NFT_MSG_NEWSETELEM, for keys that are not there yet *)
  apply_elems id m elements k k' :
    kn_map k id = Some m → Forall (fits m) elements → NoDup (km_elements m ++ elements).*1 →
    kn_apply (ElemsMsg id elements) k = Some k' →
    kept None (Some id) k k' ∧
    kn_map k' id = Some {| km_key_len := km_key_len m; km_data_len := km_data_len m;
                           km_elements := km_elements m ++ elements |};
  (* NFT_MSG_NEWRULE, at the chain's end *)
  apply_rule t c ch exprs k k' :
    kn_chain k t c = Some ch → (∀ e id, e ∈ exprs → looks_up e id → is_Some (kn_map k id)) →
    kn_apply (RuleMsg t c exprs) k = Some k' →
    kept (Some (t, c)) None k k' ∧ kn_chain k' t c = Some (kc_set_rules (kc_rules ch ++ [exprs]) ch);

  (* a chain of type nat at the prerouting hook *)
  traverse_nat t c ch k pk :
    kn_chain k t c = Some ch → kc_type ch = ChainNat → kc_hook ch = PreRouting → kc_policy ch = Accept →
    kn_traverse k t c pk = run_rules (kn_eval k pk) (kc_rules ch);

  eval_nfproto k pk r regs :
    kn_eval k pk (FfiExpr "meta" [(META_DREG, VReg r); (META_KEY, VMeta NfProto)]) regs =
      Continue (set_reg r [pk_nfproto pk] regs);
  eval_l4proto k pk r regs :
    kn_eval k pk (FfiExpr "meta" [(META_DREG, VReg r); (META_KEY, VMeta L4Proto)]) regs =
      Continue (set_reg r [pk_l4proto pk] regs);
  (* NFT_CMP_EQ is 0 *)
  eval_cmp k pk r v regs :
    kn_eval k pk (FfiExpr "cmp" [(CMP_SREG, VReg r); (CMP_OP, VU32 0); (CMP_DATA, VData [v])]) regs =
      if decide (take 1 (regs r) = [v]) then Continue regs else Break;
  (* NFT_PAYLOAD_TRANSPORT_HEADER is 2 *)
  eval_payload k pk offset len r regs :
    0 ≤ offset → 0 < len → (Z.to_nat (offset + len) ≤ length (pk_transport pk))%nat →
    kn_eval k pk (FfiExpr "payload" [(PAYLOAD_BASE, VU32 2); (PAYLOAD_OFFSET, VU32 offset);
                                     (PAYLOAD_LEN, VU32 len); (PAYLOAD_DREG, VReg r)]) regs =
      Continue (set_reg r (take (Z.to_nat len) (drop (Z.to_nat offset) (pk_transport pk))) regs);
  (* NFT_FIB_RESULT_ADDRTYPE is 3, NFTA_FIB_F_DADDR is 2; the type is in the first byte *)
  eval_fib k pk r regs :
    ∃ rest, kn_eval k pk (FfiExpr "fib" [(FIB_DREG, VReg r); (FIB_RESULT, VU32 3); (FIB_FLAGS, VU32 2)]) regs =
              Continue (set_reg r (pk_daddr_type pk :: rest) regs);
  eval_lookup k pk q r name id m regs :
    kn_map k id = Some m → Z.of_nat (length (regs q)) = km_key_len m →
    kn_eval k pk (FfiExpr "lookup" [(LOOKUP_SREG, VReg q); (LOOKUP_DREG, VReg r);
                                    (LOOKUP_SET, VStr name); (LOOKUP_SET_ID, VU32 id)]) regs =
      match map_get (km_elements m) (regs q) with
      | Some data => Continue (set_reg r data regs)
      | None => Break
      end;
  eval_counter k pk regs : kn_eval k pk CounterExpr regs = Continue regs;
  eval_nat k pk family ip_register port_register regs :
    kn_eval k pk (NatExpr DNat family ip_register port_register) regs =
      Dnat (family, regs ip_register, regs port_register);
}.

(** The messages of a batch, one after the other; refusing one refuses the batch. *)
Fixpoint kn_commit (batch : list Message) (k : K) : option K :=
  match batch with
  | [] => Some k
  | message :: batch' => k' ← kn_apply message k; kn_commit batch' k'
  end.

Lemma kn_commit_app l l' k : kn_commit (l ++ l') k = k' ← kn_commit l k; kn_commit l' k'.
Proof. revert k. induction l as [|m l IH]; intros k; simpl; [done|]. destruct (kn_apply m k); simpl; auto. Qed.
End laws.

(** The rule a map lookup stands for: the first of the group on the port. *)
Definition first_on (port : Z) (group : list NftDnatRule) : option NftDnatRule :=
  head (filter (λ r, nr_in_port r = port) group).

Lemma first_on_snoc port done e :
  first_on port (done ++ [e]) =
  match first_on port done with
  | Some r => Some r
  | None => if decide (nr_in_port e = port) then Some e else None
  end.
Proof.
  unfold first_on. rewrite filter_app. destruct (filter _ done); [|done]. simpl.
  rewrite filter_cons. by case_decide.
Qed.

Lemma u16_to_be_bytes_inj m n :
  is_u16 m → is_u16 n → u16_to_be_bytes m = u16_to_be_bytes n → m = n.
Proof.
  unfold is_u16, u16_max, u16_to_be_bytes. intros Hm Hn [= H1 H2].
  rewrite (Z.div_mod m 256), (Z.div_mod n 256) by lia. lia.
Qed.

Lemma map_get_snoc es k d key :
  map_get (es ++ [(k, d)]) key =
  match map_get es key with
  | Some v => Some v
  | None => if decide (k = key) then Some d else None
  end.
Proof.
  unfold map_get. rewrite filter_app. destruct (filter _ es); [|done]. simpl.
  rewrite filter_cons. simpl. by case_decide.
Qed.

(** [fill_maps] turns a group into two maps that answer for its first rule on a port. *)
Lemma fill_maps_spec group : ∀ seen A P done A' P',
  Forall (λ r, is_u16 (nr_in_port r)) (done ++ group) →
  (∀ p, p ∈ seen ↔ is_Some (first_on p done)) →
  (∀ p, is_u16 p → map_get (set_elements A) (u16_to_be_bytes p) =
                   (λ r, ip_octets (nr_out_host r)) <$> first_on p done) →
  (∀ p, is_u16 p → map_get (set_elements P) (u16_to_be_bytes p) =
                   (λ r, u16_to_be_bytes (nr_out_port r)) <$> first_on p done) →
  fill_maps seen A P group = (A', P') →
  set_id A' = set_id A ∧ set_id P' = set_id P ∧
  (∀ p, is_u16 p → map_get (set_elements A') (u16_to_be_bytes p) =
                   (λ r, ip_octets (nr_out_host r)) <$> first_on p (done ++ group)) ∧
  (∀ p, is_u16 p → map_get (set_elements P') (u16_to_be_bytes p) =
                   (λ r, u16_to_be_bytes (nr_out_port r)) <$> first_on p (done ++ group)).
Proof.
  induction group as [|e group IH]; intros seen A P done A' P' Hu Hseen HA HP; simpl.
  { rewrite app_nil_r. intros [= <- <-]. done. }
  assert (is_u16 (nr_in_port e)) as He by (rewrite Forall_app, Forall_cons in Hu; tauto).
  assert (done ++ e :: group = (done ++ [e]) ++ group) as Happ by (by rewrite <-app_assoc).
  rewrite Happ in Hu |- *.
  case_decide as Hin; intros Hf; (eapply IH in Hf; [exact Hf|exact Hu| | |]); clear Hf.
  - intros p. rewrite first_on_snoc, Hseen. destruct (first_on p done) eqn:Hp; [done|].
    case_decide as Hpe; [|done]. subst p. apply Hseen in Hin. by rewrite Hp in Hin.
  - intros p Hp. rewrite HA, first_on_snoc by done. destruct (first_on p done) eqn:Hd; [done|].
    case_decide as Hpe; [|done]. subst p. apply Hseen in Hin. by rewrite Hd in Hin.
  - intros p Hp. rewrite HP, first_on_snoc by done. destruct (first_on p done) eqn:Hd; [done|].
    case_decide as Hpe; [|done]. subst p. apply Hseen in Hin. by rewrite Hd in Hin.
  - intros p. rewrite first_on_snoc, elem_of_union, elem_of_singleton, Hseen.
    destruct (first_on p done); [split; eauto|]. case_decide; split; naive_solver.
  - intros p Hp. simpl. rewrite map_get_snoc, HA, first_on_snoc by done.
    destruct (first_on p done); [done|]. simpl.
    destruct (decide (nr_in_port e = p)) as [->|Hne]; [by rewrite decide_True|].
    rewrite decide_False; [done|]. intros Heq%u16_to_be_bytes_inj; done.
  - intros p Hp. simpl. rewrite map_get_snoc, HP, first_on_snoc by done.
    destruct (first_on p done); [done|]. simpl.
    destruct (decide (nr_in_port e = p)) as [->|Hne]; [by rewrite decide_True|].
    rewrite decide_False; [done|]. intros Heq%u16_to_be_bytes_inj; done.
Qed.

(** [fill_maps] adds elements with the keys of ports it has not seen, each once. *)
Definition with_elements (es : list (list Z * list Z)) (s : NftSet) : NftSet := {|
  set_name := set_name s; set_table := set_table s; set_id := set_id s; set_family := set_family s;
  set_flags := set_flags s; set_key_type := set_key_type s; set_key_len := set_key_len s;
  set_data_type := set_data_type s; set_data_len := set_data_len s; set_elements := es |}.

Lemma fill_maps_elements group : ∀ seen A P A' P',
  fill_maps seen A P group = (A', P') →
  ∃ es : list NftDnatRule,
    (∀ e, e ∈ es → e ∈ group) ∧ NoDup (nr_in_port <$> es) ∧ (∀ e, e ∈ es → nr_in_port e ∉ seen) ∧
    A' = with_elements (set_elements A ++ ((λ e, (u16_to_be_bytes (nr_in_port e), ip_octets (nr_out_host e))) <$> es)) A ∧
    P' = with_elements (set_elements P ++ ((λ e, (u16_to_be_bytes (nr_in_port e), u16_to_be_bytes (nr_out_port e))) <$> es)) P.
Proof.
  induction group as [|e group IH]; intros seen A P A' P'; simpl.
  { intros [= <- <-]. exists []. simpl. rewrite !app_nil_r. destruct A, P.
    split_and!; [set_solver|constructor|set_solver|done|done]. }
  case_decide as Hin; intros (es & Hg & Hnd & Hns & -> & ->)%IH.
  - exists es. split_and!; [set_solver|done|done|done|done].
  - exists (e :: es). rewrite !fmap_cons. split_and!.
    + set_solver.
    + constructor; [|done]. intros (x & Hx & Hxs)%list_elem_of_fmap. apply (Hns x Hxs). rewrite <- Hx. set_solver.
    + intros x [->|Hx]%elem_of_cons; [done|]. specialize (Hns x Hx). set_solver.
    + unfold with_elements, add_element. simpl. by rewrite <- app_assoc.
    + unfold with_elements, add_element. simpl. by rewrite <- app_assoc.
Qed.

(** * What one rule does *)

Definition has_port (pk : Packet) (port : Z) : Prop :=
  (4 ≤ length (pk_transport pk))%nat ∧ take 2 (drop 2 (pk_transport pk)) = u16_to_be_bytes port.

(** The rule asked for: the first of the list for the packet's address family, protocol and
    destination port. *)
Definition dnat_for (ipv6 : bool) (q : Protocol) (port : Z) (rules : list NftDnatRule) : option NftDnatRule :=
  head (filter (λ r, is_ipv6 (nr_out_host r) = ipv6 ∧ nr_protocol r = q ∧ nr_in_port r = port) rules).

Definition target_of (r : NftDnatRule) : Translation :=
  (if is_ipv6 (nr_out_host r) then Ipv6 else Ipv4, ip_octets (nr_out_host r), u16_to_be_bytes (nr_out_port r)).

Lemma first_on_group ipv6 q port rules : first_on port (group_of ipv6 q rules) = dnat_for ipv6 q port rules.
Proof.
  unfold first_on, group_of, dnat_for. f_equal. rewrite list_filter_filter. apply list_filter_iff. tauto.
Qed.

Lemma first_on_elem port group r : first_on port group = Some r → r ∈ group.
Proof.
  unfold first_on. intros Hr. destruct (filter _ group) as [|x l] eqn:Hf; [done|].
  injection Hr as ->. assert (r ∈ filter (λ r, nr_in_port r = port) group) as Hin
    by (rewrite Hf; left). by apply list_elem_of_filter in Hin as [_ ?].
Qed.

Lemma set_reg_eq r v regs : set_reg r v regs r = v.
Proof. unfold set_reg. by rewrite decide_True. Qed.

Lemma set_reg_ne r q v regs : q ≠ r → set_reg r v regs q = regs q.
Proof. intros Hne. unfold set_reg. by rewrite decide_False. Qed.

(** The numbers of the kernel's interface: NFPROTO_IPV4 and NFPROTO_IPV6, IPPROTO_TCP and
    IPPROTO_UDP, RTN_LOCAL. *)
Definition nfproto (ipv6 : bool) : Z := if ipv6 then 10 else 2.
Definition l4proto (q : Protocol) : Z := match q with Udp => 17 | _ => 6 end.

Definition matches_packet (pk : Packet) (ipv6 : bool) (q : Protocol) : Prop :=
  pk_nfproto pk = nfproto ipv6 ∧ pk_l4proto pk = l4proto q ∧ pk_daddr_type pk = 2.

#[export] Instance matches_packet_dec pk ipv6 q : Decision (matches_packet pk ipv6 q).
Proof. unfold matches_packet. apply _. Defined.

Section kernel.
  Context {K : Type} `{NftKernelLaws K}.

Lemma run_dnat_rule k pk dnat q l4 A P mA mP port :
  has_port pk port → l4proto_for q = Some l4 → km_key_len mA = 2 → km_key_len mP = 2 →
  kn_map k (set_id A) = Some mA → kn_map k (set_id P) = Some mP →
  run_rule (kn_eval k pk) (add_dnat_rule_exprs dnat l4 A P) no_regs =
  if decide (matches_packet pk (is_ipv6 (nr_out_host dnat)) q)
  then address ← map_get (km_elements mA) (u16_to_be_bytes port);
       dport ← map_get (km_elements mP) (u16_to_be_bytes port);
       Some (if is_ipv6 (nr_out_host dnat) then Ipv6 else Ipv4, address, dport)
  else None.
Proof.
  intros [Hlen Hport] Hl4 HkA HkP HA HP.
  assert (l4 = l4proto q) as -> by (destruct q; simpl in Hl4; [by injection Hl4 as <-..|done]).
  assert (nfproto_for (nr_out_host dnat) = nfproto (is_ipv6 (nr_out_host dnat))) as Hnf by (by destruct (nr_out_host dnat)).
  assert (nfproto_family_for (nr_out_host dnat) = if is_ipv6 (nr_out_host dnat) then Ipv6 else Ipv4) as Hff
    by (by destruct (nr_out_host dnat)).
  unfold add_dnat_rule_exprs. rewrite Hnf, Hff. generalize (is_ipv6 (nr_out_host dnat)). intros ipv6.
  unfold LoadMeta_to_expr, CmpRegister_to_expr, LoadPayload_to_expr, FibDaddrType_to_expr, MapLookup_to_expr.
  change NFT_CMP_EQ with 0. change NFT_PAYLOAD_TRANSPORT_HEADER with 2.
  change NFT_FIB_RESULT_ADDRTYPE with 3. change NFT_FIB_F_DADDR with 2.
  cbn [run_rule]. rewrite eval_nfproto, eval_cmp, set_reg_eq. cbn [take].
  destruct (decide ([pk_nfproto pk] = [nfproto ipv6])) as [E1|E1];
    [injection E1 as E1|by rewrite decide_False by (intros (? & ? & ?); congruence)].
  rewrite eval_l4proto, eval_cmp, set_reg_eq. cbn [take].
  destruct (decide ([pk_l4proto pk] = [l4proto q])) as [E2|E2];
    [injection E2 as E2|by rewrite decide_False by (intros (? & ? & ?); congruence)].
  rewrite eval_payload by (done || lia).
  replace (take (Z.to_nat 2) (drop (Z.to_nat 2) (pk_transport pk)))
    with (u16_to_be_bytes port) by (by rewrite <-Hport).
  match goal with |- context [kn_eval k pk (FfiExpr "fib" [(FIB_DREG, VReg ?r); _; _]) ?regs] =>
    destruct (eval_fib k pk r regs) as [rest Hfib]; rewrite Hfib end.
  rewrite eval_cmp, set_reg_eq. change (take 1 (pk_daddr_type pk :: rest)) with [pk_daddr_type pk].
  destruct (decide ([pk_daddr_type pk] = [RTN_LOCAL])) as [E3|E3];
    [injection E3 as E3|by rewrite decide_False by (intros (? & ? & E); apply E3; by rewrite E)].
  rewrite decide_True by done.
  rewrite (eval_lookup _ _ _ _ _ _ _ _ HA); rewrite set_reg_ne, set_reg_eq by done; [|by rewrite HkA].
  destruct (map_get (km_elements mA) (u16_to_be_bytes port)) as [address|]; simpl; [|done].
  rewrite (eval_lookup _ _ _ _ _ _ _ _ HP); rewrite !set_reg_ne, set_reg_eq by done; [|by rewrite HkP].
  destruct (map_get (km_elements mP) (u16_to_be_bytes port)) as [dport|]; simpl; [|done].
  rewrite eval_counter, eval_nat, set_reg_eq, set_reg_ne, set_reg_eq by done. done.
Qed.

(** * The batch *)
Section batch.
  Context (elems_iter : list (list Z * list Z) → list (list (list Z * list Z))).
  Context (Hiter : ∀ es, mjoin (elems_iter es) = es).

(** What the messages for sets leave alone: everything but those sets. *)
Definition only_maps (P : Z → Prop) (k k' : K) : Prop :=
  (∀ t, kn_table k t → kn_table k' t) ∧ (∀ t c, kn_chain k' t c = kn_chain k t c) ∧
  (∀ i, ¬ P i → kn_map k' i = kn_map k i).

Lemma kept_only_maps id k k' : kept None (Some id) k k' → only_maps (λ i, i = id) k k'.
Proof. intros [Ht Hc Hm]. split_and!; [done|intros t c; by apply Hc|intros i Hi; apply Hm; congruence]. Qed.

Lemma only_maps_trans P Q k1 k2 k3 :
  (∀ i, P i → Q i) → only_maps P k1 k2 → only_maps Q k2 k3 → only_maps Q k1 k3.
Proof.
  intros HPQ (Ht1 & Hc1 & Hm1) (Ht2 & Hc2 & Hm2). split_and!; [auto|intros t c; by rewrite Hc2|].
  intros i Hi. rewrite Hm2 by done. apply Hm1. auto.
Qed.

Lemma commit_elems id chunks : ∀ k k' m,
  kn_map k id = Some m → Forall (fits m) (mjoin chunks) → NoDup (km_elements m ++ mjoin chunks).*1 →
  kn_commit (ElemsMsg id <$> chunks) k = Some k' →
  only_maps (λ i, i = id) k k' ∧
  kn_map k' id = Some {| km_key_len := km_key_len m; km_data_len := km_data_len m;
                         km_elements := km_elements m ++ mjoin chunks |}.
Proof.
  induction chunks as [|es chunks IH]; intros k k' m Hm Hf Hnd; simpl.
  { intros [= <-]. rewrite app_nil_r, Hm. split; [done|]. by destruct m. }
  intros (k1 & H1 & H2)%bind_Some. simpl in Hf, Hnd. apply Forall_app in Hf as [Hf1 Hf2].
  rewrite app_assoc in Hnd. pose proof Hnd as Hnd1. rewrite fmap_app in Hnd1. apply NoDup_app in Hnd1 as (Hnd1 & _ & _).
  apply (apply_elems id m) in H1 as [Hk1 Hm1]; [|done..]. apply kept_only_maps in Hk1.
  destruct (IH k1 k' _ Hm1) as [Hk2 Hm2]; [exact Hf2|exact Hnd|exact H2|].
  split; [by eapply only_maps_trans; [|exact Hk1|exact Hk2]|]. rewrite Hm2. simpl. by rewrite app_assoc.
Qed.

(** A map with its elements. *)
Definition map_of (s : NftSet) : KMap :=
  {| km_key_len := set_key_len s; km_data_len := set_data_len s; km_elements := set_elements s |}.

Lemma commit_set s k k' :
  kn_table k (set_table s) → declares_map s →
  Forall (λ e, Z.of_nat (length e.1) = set_key_len s ∧ Z.of_nat (length e.2) = set_data_len s) (set_elements s) →
  NoDup (set_elements s).*1 → kn_commit (set_messages elems_iter s) k = Some k' →
  only_maps (λ i, i = set_id s) k k' ∧
  kn_map k' (set_id s) = Some (map_of s).
Proof.
  intros Ht Hd Hf Hnd. unfold set_messages. simpl. intros (k1 & H1 & H2)%bind_Some.
  apply apply_set in H1 as [Hk1 Hm1]; [|done..]. apply kept_only_maps in Hk1.
  apply (commit_elems _ _ _ _ _ Hm1) in H2 as [Hk2 Hm2]; simpl; rewrite ?Hiter; [|done..].
  split; [by eapply only_maps_trans; [|exact Hk1|exact Hk2]|]. rewrite Hm2. simpl. by rewrite Hiter.
Qed.
(** A map as [port_map] declares it, with one element per key. *)
Definition well_made (s : NftSet) : Prop :=
  declares_map s ∧ set_key_len s = 2 ∧
  Forall (λ e, Z.of_nat (length e.1) = set_key_len s ∧ Z.of_nat (length e.2) = set_data_len s) (set_elements s) ∧
  NoDup (set_elements s).*1.

Lemma port_map_made table id type len (f : NftDnatRule → list Z) (es : list NftDnatRule) :
  nft_type_len type = Some len → (∀ e, e ∈ es → Z.of_nat (length (f e)) = len) →
  Forall (λ e, is_u16 (nr_in_port e)) es → NoDup (nr_in_port <$> es) →
  well_made (with_elements ([] ++ ((λ e, (u16_to_be_bytes (nr_in_port e), f e)) <$> es)) (port_map table id type len)).
Proof.
  intros Ht Hf Hu Hnd. unfold well_made. split_and!.
  - split_and!; [done|done|by exists "__relayd"%string|done|done].
  - done.
  - simpl. apply Forall_fmap, Forall_forall. intros e He. simpl. split; [done|by apply Hf].
  - simpl. rewrite <- list_fmap_compose. induction es as [|e es IH]; simpl; [constructor|].
    apply Forall_cons in Hu as [Hu1 Hu2]. rewrite fmap_cons in Hnd. apply NoDup_cons in Hnd as [Hni Hnd].
    constructor; [|by apply IH; [intros x Hx; apply Hf; by right|..]].
    intros (x & Hx & Hxs)%list_elem_of_fmap. apply Hni. rewrite Forall_forall in Hu2.
    apply u16_to_be_bytes_inj in Hx; [|done|by apply Hu2]. rewrite Hx. by apply list_elem_of_fmap_2.
Qed.

Context (table chain : string) (rules : list NftDnatRule).
Context (Hu16 : Forall (λ r, is_u16 (nr_in_port r)) rules).
Context (Hoctets : Forall (λ r, length (ip_octets (nr_out_host r)) = if is_ipv6 (nr_out_host r) then 16 else 4)%nat rules).

Lemma group_of_family ipv6 q r : r ∈ group_of ipv6 q rules → is_ipv6 (nr_out_host r) = ipv6 ∧ r ∈ rules.
Proof. unfold group_of. rewrite list_elem_of_filter. tauto. Qed.

(** One group's messages: nothing, or two maps that answer for its rules and a rule
    that looks packets up in them. *)
Lemma group_messages_spec ipv6 q id l4 :
  l4proto_for q = Some l4 →
  match group_of ipv6 q rules with
  | first :: _ => ∃ A P,
      group_messages elems_iter table chain rules ipv6 q id =
        (set_messages elems_iter A ++ set_messages elems_iter P ++
         [RuleMsg table chain (add_dnat_rule_exprs first l4 A P)], id + 2) ∧
      set_id A = id ∧ set_id P = id + 1 ∧ set_table A = table ∧ set_table P = table ∧
      well_made A ∧ well_made P ∧
      (∀ p, is_u16 p → map_get (set_elements A) (u16_to_be_bytes p) =
         (λ r, ip_octets (nr_out_host r)) <$> first_on p (group_of ipv6 q rules)) ∧
      (∀ p, is_u16 p → map_get (set_elements P) (u16_to_be_bytes p) =
         (λ r, u16_to_be_bytes (nr_out_port r)) <$> first_on p (group_of ipv6 q rules))
  | [] => group_messages elems_iter table chain rules ipv6 q id = ([], id)
  end.
Proof.
  intros Hl4. unfold group_messages. cbv zeta. rewrite Hl4. pose proof (group_of_family ipv6 q) as Hfam.
  assert (Forall (λ r, is_u16 (nr_in_port r)) ([] ++ group_of ipv6 q rules)) as Hu.
  { simpl. apply Forall_forall. intros r [_ Hr]%Hfam. rewrite Forall_forall in Hu16. by apply Hu16. }
  destruct (group_of ipv6 q rules) as [|first group] eqn:Hg; [done|].
  destruct (fill_maps ∅ _ _ (first :: group)) as [A P] eqn:Hf. exists A, P.
  pose proof Hf as (es & Hes & Hnd & _ & HAeq & HPeq)%fill_maps_elements.
  eapply (fill_maps_spec _ _ _ _ []) in Hf as (HA & HP & HAe & HPe); [|exact Hu| |done|done].
  2: { intros p. unfold first_on. simpl. split; [set_solver|]. by intros [? ?]. }
  assert (Forall (λ e, is_u16 (nr_in_port e)) es) as Hues.
  { rewrite Forall_forall in Hu |- *. intros e He. by apply Hu, Hes. }
  split_and!; [done|by rewrite HA|by rewrite HP|by subst A|by subst P| | |done|done].
  - subst A. apply port_map_made; [by destruct ipv6| |done|done]. intros e He.
    destruct (Hfam e (Hes e He)) as [Hi Hr]. rewrite Forall_forall in Hoctets.
    rewrite (Hoctets e Hr), Hi. by destruct ipv6.
  - subst P. by apply port_map_made.
Qed.

Lemma run_rules_app eval l l' :
  run_rules eval (l ++ l') = match run_rules eval l with Some to => Some to | None => run_rules eval l' end.
Proof. induction l as [|e l IH]; simpl; [done|]. by destruct (run_rule _ _ _). Qed.

(** What a group contributes for a packet with destination port [port]. *)
Definition group_target (pk : Packet) (port : Z) (g : bool * Protocol) : option Translation :=
  if decide (matches_packet pk g.1 g.2) then target_of <$> dnat_for g.1 g.2 port rules else None.

(** The chain after messages, with the rules [rs] added; the tables stay, and the maps
    below [id]. *)
Record extends (id : Z) (rs : list (list Expr)) (k k' : K) : Prop := {
  ext_table : kn_table k table → kn_table k' table;
  ext_chain ch : kn_chain k table chain = Some ch →
    kn_chain k' table chain = Some (kc_set_rules (kc_rules ch ++ rs) ch);
  ext_map i : i < id → kn_map k' i = kn_map k i;
}.

Lemma extends_trans id id' rs rs' k1 k2 k3 :
  id ≤ id' → extends id rs k1 k2 → extends id' rs' k2 k3 → extends id (rs ++ rs') k1 k3.
Proof.
  intros Hid [Ht1 Hc1 Hm1] [Ht2 Hc2 Hm2]. split; [auto| |].
  - intros ch Hch. rewrite (Hc2 _ (Hc1 _ Hch)). unfold kc_set_rules. simpl. by rewrite app_assoc.
  - intros i Hi. rewrite Hm2 by lia. by apply Hm1.
Qed.

Lemma extends_refl id k : extends id [] k k.
Proof. split; [done| |done]. intros ch ->. rewrite app_nil_r. by destruct ch. Qed.

Lemma lookups_known first l4 A P (k : K) :
  is_Some (kn_map k (set_id A)) → is_Some (kn_map k (set_id P)) →
  ∀ e id, e ∈ add_dnat_rule_exprs first l4 A P → looks_up e id → is_Some (kn_map k id).
Proof.
  intros HA HP e id He (q & r & name & ->). unfold add_dnat_rule_exprs in He.
  repeat (apply elem_of_cons in He as [He|He]; [try discriminate He|]); [..|by apply elem_of_nil in He];
    by injection He as _ _ _ ->.
Qed.

(** One group: a rule is added that does what the group asks for, as long as its maps stay. *)
Lemma commit_group ipv6 q id l4 k k' ch :
  l4proto_for q = Some l4 → kn_table k table → kn_chain k table chain = Some ch →
  kn_commit (group_messages elems_iter table chain rules ipv6 q id).1 k = Some k' →
  id ≤ (group_messages elems_iter table chain rules ipv6 q id).2 ∧
  ∃ rs, extends id rs k k' ∧ ∀ k2 pk port,
    is_u16 port → has_port pk port →
    (∀ i, i < (group_messages elems_iter table chain rules ipv6 q id).2 → kn_map k2 i = kn_map k' i) →
    run_rules (kn_eval k2 pk) rs = group_target pk port (ipv6, q).
Proof.
  intros Hl4 Ht Hch. pose proof (group_messages_spec ipv6 q id l4 Hl4) as Hg. unfold group_target. cbn [fst snd].
  pose proof (λ port, first_on_group ipv6 q port rules) as Hfo. pose proof (group_of_family ipv6 q) as Hfam.
  destruct (group_of ipv6 q rules) as [|first group] eqn:Hgroup.
  { rewrite Hg. simpl. intros [= <-]. split; [lia|]. exists []. split; [apply extends_refl|].
    intros k2 pk port _ _ _. simpl. rewrite <- Hfo. by destruct (decide _). }
  destruct Hg as (A & P & -> & HA & HP & HtA & HtP & (HdA & HkA & HfA & HnA) & (HdP & HkP & HfP & HnP) & HAe & HPe).
  cbn [fst snd]. rewrite kn_commit_app. intros (k1 & H1 & H2)%bind_Some.
  rewrite kn_commit_app in H2. apply bind_Some in H2 as (k2 & H2 & H3). simpl in H3.
  apply bind_Some in H3 as (k3 & H3 & [= <-]). split; [lia|].
  apply commit_set in H1 as [(Ht1 & Hc1 & Hm1) HmA]; [|by rewrite HtA|done..].
  apply commit_set in H2 as [(Ht2 & Hc2 & Hm2) HmP]; [|rewrite HtP; by apply Ht1|done..].
  rewrite <- (Hm2 (set_id A)) in HmA by lia.
  assert (kn_chain k2 table chain = Some ch) as Hch2 by (by rewrite Hc2, Hc1).
  apply (apply_rule _ _ _ _ _ _ Hch2) in H3 as [[Ht3 Hc3 Hm3] Hch3];
    [|apply lookups_known; by eexists].
  exists [add_dnat_rule_exprs first l4 A P]. split.
  - split; [auto| |].
    + intros ch' Hch'. assert (ch' = ch) as -> by congruence. exact Hch3.
    + intros i Hi. rewrite Hm3 by done. rewrite Hm2, Hm1 by lia. done.
  - intros k4 pk port Hport Hpk Hsame. cbn [run_rules].
    assert (∀ i m, i < id + 2 → kn_map k2 i = Some m → kn_map k4 i = Some m) as Hkeep
      by (intros i m Hi Hm; by rewrite Hsame, Hm3 by done).
    apply Hkeep in HmA; [|lia]. apply Hkeep in HmP; [|lia].
    rewrite (run_dnat_rule k4 pk first q l4 A P (map_of A) (map_of P) port Hpk Hl4 HkA HkP HmA HmP).
    simpl. rewrite HAe, HPe by done. destruct (Hfam first) as [-> _]; [by left|].
    destruct (decide (matches_packet pk ipv6 q)); [|done]. rewrite <- Hfo.
    destruct (first_on port (first :: group)) as [r|] eqn:Hr; simpl; [|done].
    apply first_on_elem in Hr. destruct (Hfam r Hr) as [Hi _]. unfold target_of. by rewrite Hi.
Qed.

(** The first group that contributes decides. *)
Fixpoint first_target (pk : Packet) (port : Z) (gs : list (bool * Protocol)) : option Translation :=
  match gs with
  | [] => None
  | g :: gs' =>
      match group_target pk port g with
      | Some v => Some v
      | None => first_target pk port gs'
      end
  end.

Lemma commit_groups gs : ∀ id k k' ch,
  Forall (λ g, is_Some (l4proto_for g.2)) gs → kn_table k table → kn_chain k table chain = Some ch →
  kn_commit (groups_messages elems_iter table chain rules gs id) k = Some k' →
  ∃ rs, extends id rs k k' ∧ ∀ pk port,
    is_u16 port → has_port pk port → run_rules (kn_eval k' pk) rs = first_target pk port gs.
Proof.
  induction gs as [|[ipv6 q] gs IH]; intros id k k' ch Hgs Ht Hch; cbn [groups_messages first_target].
  { intros [= <-]. exists []. split; [apply extends_refl|done]. }
  apply Forall_cons in Hgs as [[l4 Hl4] Hgs]. simpl in Hl4.
  pose proof (λ k', commit_group ipv6 q id l4 k k' ch Hl4 Ht Hch) as Hgroup.
  destruct (group_messages elems_iter table chain rules ipv6 q id) as [msgs id'] eqn:Hmsgs. cbn [fst snd] in Hgroup.
  rewrite kn_commit_app. intros (k1 & H1 & H2)%bind_Some.
  destruct (Hgroup k1 H1) as (Hid & rs1 & Hext1 & Hrun1).
  apply (IH _ _ _ _ Hgs (ext_table _ _ _ _ Hext1 Ht) (ext_chain _ _ _ _ Hext1 ch Hch)) in H2 as (rs2 & Hext2 & Hrun2).
  exists (rs1 ++ rs2). split; [by eapply extends_trans|].
  intros pk port Hport Hpk. rewrite run_rules_app, (Hrun2 pk port Hport Hpk).
  rewrite (Hrun1 k' pk port Hport Hpk); [done|]. intros i Hi. by apply Hext2.
Qed.

(** Of the groups only the packet's own contributes. *)
Lemma group_target_for pk (ipv6 : bool) q port v p :
  q = Tcp ∨ q = Udp → p = Tcp ∨ p = Udp →
  pk_nfproto pk = (if ipv6 then 10 else 2) → pk_l4proto pk = (if decide (q = Udp) then 17 else 6) →
  group_target pk port (v, p) =
    if bool_decide (v = ipv6) && bool_decide (p = q)
    then if decide (pk_daddr_type pk = 2) then target_of <$> dnat_for ipv6 q port rules else None
    else None.
Proof.
  intros Hq Hp Hn Hl. unfold group_target. cbn [fst snd].
  assert (matches_packet pk v p ↔ v = ipv6 ∧ p = q ∧ pk_daddr_type pk = 2) as Hm.
  { unfold matches_packet. rewrite Hn, Hl. by destruct Hq as [-> | ->], Hp as [-> | ->], v, ipv6; simpl; naive_solver. }
  destruct (decide (matches_packet pk v p)) as [(-> & -> & Hd)%Hm|Hno].
  - rewrite !bool_decide_true by done. simpl. by rewrite decide_True.
  - repeat case_bool_decide; simpl; [|done..]. rewrite decide_False; [done|]. intros Hd. by apply Hno, Hm.
Qed.

(** C7: what the batch makes the kernel do. Whatever is in the kernel before, also an older
    ruleset of the chain, when a kernel that behaves as documented takes the batch, the
    table and the chain are there, a chain of type nat at the prerouting hook with the
    priority of destination NAT that lets packets pass; and a TCP or UDP packet addressed to
    the host is translated to the host and port of the first rule of the list with its
    protocol, its address family and its destination port. Without such a rule, and when it
    is not addressed to the host, it is left alone. *)
Theorem ruleset_batch_translates k k'
    (Hcommit : kn_commit (ruleset_batch elems_iter table chain rules) k = Some k') :
  (∃ ch, kn_chain k' table chain = Some ch ∧ kc_type ch = ChainNat ∧ kc_hook ch = PreRouting ∧
     kc_priority ch = -100 ∧ kc_policy ch = Accept) ∧
  ∀ pk (ipv6 : bool) q port, is_u16 port → has_port pk port → q = Tcp ∨ q = Udp →
    pk_nfproto pk = (if ipv6 then 10 else 2) → pk_l4proto pk = (if decide (q = Udp) then 17 else 6) →
    kn_traverse k' table chain pk =
      if decide (pk_daddr_type pk = 2) then target_of <$> dnat_for ipv6 q port rules else None.
Proof.
  unfold ruleset_batch, EnsureTable_write, FlushChain_write in Hcommit. cbn [kn_commit] in Hcommit.
  apply bind_Some in Hcommit as (k1 & H1 & Hcommit). apply apply_table in H1 as [Ht1 _]; [|done].
  apply bind_Some in Hcommit as (k2 & H2 & Hcommit). apply apply_chain in H2 as [[Ht2 _ _] Hch2]; [|done].
  apply bind_Some in Hcommit as (k3 & H3 & Hcommit). apply (apply_flush _ _ _ _ _ _ Hch2) in H3 as [Ht3 Hch3].
  eapply commit_groups in Hcommit as (rs & Hext & Hrun);
    [|by repeat (constructor; [by eexists|])|exact (Ht3 _ (Ht2 _ Ht1))|exact Hch3].
  pose proof (ext_chain _ _ _ _ Hext _ Hch3) as Hch. split; [by eexists|].
  intros pk ipv6 q port Hport Hpk Hq Hfam Hl4. rewrite (traverse_nat _ _ _ _ _ Hch) by done.
  simpl. rewrite (Hrun pk port Hport Hpk). unfold groups. simpl.
  rewrite !(group_target_for pk ipv6 q port) by auto.
  by destruct Hq as [-> | ->], ipv6, (decide (pk_daddr_type pk = 2)); simpl; try destruct (dnat_for _ _ _ _).
Qed.
End batch.
End kernel.
