(* ===== verification/NetlinkExchange.v ===== *)
(** The exchange with the kernel (runtime/netlink.rs: send_and_process): it reports success
    only when every message was acknowledged, and it comes to an end, but for one gap in
    the timeouts it gives the socket. *)
From stdpp Require Import base gmap strings list.
From Stdlib Require Import ZArith Lia.
From S2P Require Import Prelude RustStd Model Netlink NetlinkBatch.
Open Scope Z_scope.

(** A timeout other than "no limit". *)
Definition limits (timeout : timeval) : Prop := 0 < tv_sec timeout ∨ 0 < tv_usec timeout.

Lemma duration_limits ns : 0 ≤ ns → limits (duration_to_timeval ns) ↔ 1000 ≤ ns.
Proof.
  intros Hns. unfold limits, duration_to_timeval. simpl.
  pose proof (Z.div_mod ns 1000000000 ltac:(lia)). pose proof (Z.mod_pos_bound ns 1000000000 ltac:(lia)).
  set (s := ns / 1000000000) in *. set (r := ns mod 1000000000) in *.
  pose proof (Z.div_mod r 1000 ltac:(lia)). pose proof (Z.mod_pos_bound r 1000 ltac:(lia)).
  set (u := r / 1000) in *. set (v := r mod 1000) in *.
  destruct (Z.leb_spec s i64_max); unfold i64_max in *; lia.
Qed.

Section exchange.
  Context {Received : Type} (cb_run : Received → Z → result unit IoError).
  Context (now : nat → Z) (setsockopt : nat → SocketOption → timeval → result unit IoError).
  Context (send : nat → timeval → Message → option (result bool IoError)).
  Context (recv : nat → timeval → option (result (list (result Received IoError)) IoError)).

(** Both calls get the time that is left, in whole microseconds. *)
Lemma within_deadline_ok n deadline socket socket' :
  within_deadline now setsockopt n deadline socket = Ok socket' →
  now n < deadline ∧ so_rcvtimeo socket' = duration_to_timeval (deadline - now n) ∧
  so_sndtimeo socket' = duration_to_timeval (deadline - now n).
Proof.
  unfold within_deadline, remaining_timeout. destruct (Z.ltb_spec (now n) deadline); simpl; [|done].
  unfold set_socket_timeouts, set_socket_timeout. destruct (setsockopt n SO_RCVTIMEO _); simpl; [|done].
  destruct (setsockopt n SO_SNDTIMEO _); simpl; [|done]. by intros [= <-].
Qed.

(** Messages [ms] acknowledge the numbers [seqs] in order. *)
Definition acknowledges (ms : list Received) (seqs : list Z) : Prop :=
  Forall2 (λ m seq, cb_run m seq = Ok tt) ms seqs.

Lemma process_messages_spec messages expected rest :
  process_messages cb_run messages expected = Ok rest →
  ∃ done ms, expected = done ++ rest ∧ messages = Ok <$> ms ∧ acknowledges ms done.
Proof.
  revert expected. induction messages as [|m messages IH]; intros expected; simpl.
  { intros [= ->]. exists [], []. split_and!; [done|done|constructor]. }
  destruct m as [m|e]; simpl; [|done]. destruct expected as [|seq expected]; [done|].
  destruct (cb_run m seq) as [[]|e] eqn:Hc; simpl; [|done].
  intros (done & ms & -> & -> & Hack)%IH. exists (seq :: done), (m :: ms).
  split_and!; [done|done|]. by constructor.
Qed.

(** One turn of the loop either acknowledges a prefix of what is expected or fails. *)
Lemma receive_acks_ok fuel n socket deadline expected :
  receive_acks cb_run now setsockopt recv fuel n socket deadline expected = Some (Ok tt) →
  ∃ ms, acknowledges ms expected ∧
        ∀ m, m ∈ ms → ∃ k tv l, (n ≤ k)%nat ∧ recv k tv = Some (Ok l) ∧ Ok m ∈ l ∧ now k < deadline.
Proof.
  revert n socket expected. induction fuel as [|fuel IH]; intros n socket [|seq expected]; simpl;
    [|done| |]; try (intros _; exists []; split; [constructor|set_solver]).
  destruct (within_deadline _ _ _ _ _) as [socket'|e] eqn:Hw; [|done]. apply within_deadline_ok in Hw as (Hlt & _).
  intros (received & Hr & Hres)%bind_Some. destruct received as [messages|e]; simpl in Hres; [|done].
  destruct (process_messages cb_run messages (seq :: expected)) as [rest|e] eqn:Hp; [|done].
  apply IH in Hres as (ms & Hack & Hms). apply process_messages_spec in Hp as (done & ms0 & -> & -> & Hack0).
  exists (ms0 ++ ms). split; [by apply Forall2_app|].
  intros m [Hm|Hm]%elem_of_app.
  - exists n, (so_rcvtimeo socket'), (Ok <$> ms0). split_and!; [lia|done| |done]. by apply list_elem_of_fmap_2.
  - destruct (Hms m Hm) as (k & tv & l & Hk & ? & ? & ?). exists k, tv, l. split_and!; [lia|done..].
Qed.

(** C32: Success is never reported without the kernel: when the exchange returns Ok, the
    messages received before the deadline acknowledge every sequence number of the
    batch, in order, and each acknowledgement was accepted. *)
Theorem send_and_process_acknowledged fuel batch seqs timeout_ms
    (Hrun : send_and_process cb_run now setsockopt send recv fuel batch seqs timeout_ms
            = Some (Ok tt)) :
  ∃ ms, acknowledges ms seqs ∧
        ∀ m, m ∈ ms → ∃ k tv l, recv k tv = Some (Ok l) ∧ Ok m ∈ l ∧ now k < apply_deadline (now 0) timeout_ms.
Proof.
  unfold send_and_process in Hrun. apply bind_Some in Hrun as ([[n socket]|e] & _ & Hrun); [|done].
  apply receive_acks_ok in Hrun as (ms & Hack & Hms). exists ms. split; [done|].
  intros m Hm. destruct (Hms m Hm) as (k & tv & l & _ & ? & ? & ?). by exists k, tv, l.
Qed.

(** ** Coming to an end *)
Section ends.
  (** socket(7): with a timeout set, send and receive return. *)
  Context (Hsend : ∀ n tv m, limits tv → is_Some (send n tv m)).
  Context (Hrecv : ∀ n tv, limits tv → is_Some (recv n tv)).
  Context (deadline : Z) (Hgrain : ∀ n, now n < deadline → 1000 ≤ deadline - now n).

Lemma within_deadline_limits n socket socket' :
  within_deadline now setsockopt n deadline socket = Ok socket' →
  limits (so_rcvtimeo socket') ∧ limits (so_sndtimeo socket').
Proof.
  intros (Hlt & -> & ->)%within_deadline_ok. specialize (Hgrain n Hlt).
  by split; apply duration_limits; lia.
Qed.

Lemma send_batch_returns n socket batch :
  ∃ r, send_batch_with_deadline now setsockopt send n socket batch deadline = Some r ∧
    ∀ n' socket', r = Ok (n', socket') → n' = (n + length batch)%nat.
Proof.
  revert n socket. induction batch as [|m batch IH]; intros n socket; simpl.
  { eexists. split; [done|]. intros n' socket' [= <- _]. lia. }
  destruct (within_deadline _ _ _ _ _) as [socket'|e] eqn:Hw; [|by eexists].
  apply within_deadline_limits in Hw as [_ Hs]. destruct (Hsend n _ m Hs) as [sent ->]. simpl.
  destruct sent as [[]|e]; [|by eexists..]. destruct (IH (S n) socket') as (r & -> & Hr).
  eexists. split; [done|]. intros n' s' ->. specialize (Hr n' s' eq_refl). lia.
Qed.

Lemma receive_acks_ends d n socket expected :
  deadline ≤ now (n + d)%nat →
  receive_acks cb_run now setsockopt recv (S d) n socket deadline expected ≠ None.
Proof.
  revert n socket expected. induction d as [|d IH]; intros n socket [|seq expected] Hd;
    cbn [receive_acks]; try done; (destruct (within_deadline _ _ _ _ _) as [socket'|e] eqn:Hw; [|done]);
    pose proof (within_deadline_limits _ _ _ Hw) as [Hr _]; apply within_deadline_ok in Hw as (Hlt & _).
  - rewrite Nat.add_0_r in Hd. lia.
  - destruct (Hrecv n _ Hr) as [received ->]. cbn [mbind option_bind].
    destruct (let? messages := _ in _) as [rest|e]; [|done].
    apply (IH (S n)). by rewrite Nat.add_succ_r in Hd.
Qed.
End ends.

(** C33: The exchange ends. The kernel need not answer anything: it is enough that calls on a
    socket return when a timeout is set for them (socket(7); none is set on a new socket,
    and zero sets none). Once the clock has passed the deadline by the [k]-th reading after
    the batch was sent, a result is there after at most [k + 1] receive turns, unless one of
    the readings finds less than a microsecond left. *)
Theorem send_and_process_terminates batch seqs timeout_ms k
    (Hsend : ∀ n tv m, limits tv → is_Some (send n tv m))
    (Hrecv : ∀ n tv, limits tv → is_Some (recv n tv))
    (Hgrain : ∀ n, now n < apply_deadline (now 0) timeout_ms → 1000 ≤ apply_deadline (now 0) timeout_ms - now n)
    (Hclock : apply_deadline (now 0) timeout_ms ≤ now (1 + length batch + k)%nat) :
  send_and_process cb_run now setsockopt send recv (S k) batch seqs timeout_ms ≠ None.
Proof.
  unfold send_and_process.
  destruct (send_batch_returns Hsend _ Hgrain 1 no_timeouts batch) as ([[n socket]|e] & -> & Hn); simpl; [|done].
  rewrite (Hn n socket eq_refl). by apply receive_acks_ends.
Qed.

(** The exception is real: when the deadline is less than a microsecond ahead the socket
    is told to wait without a limit, and if the kernel stays silent the receive loop never
    comes back, however much later than the deadline it gets. *)
Theorem receive_blocks_past_deadline fuel n socket deadline seq expected
    (Hleft : 0 < deadline - now n < 1000) (Hset : ∀ option tv, setsockopt n option tv = Ok tt)
    (Hsilent : ∀ tv, ¬ limits tv → recv n tv = None) :
  receive_acks cb_run now setsockopt recv fuel n socket deadline (seq :: expected) = None.
Proof.
  destruct fuel as [|fuel]; [done|]. cbn [receive_acks].
  destruct (within_deadline _ _ _ _ _) as [socket'|e] eqn:Hw.
  - apply within_deadline_ok in Hw as (_ & -> & _). rewrite Hsilent; [done|].
    intros Hl%duration_limits; lia.
  - unfold within_deadline, remaining_timeout in Hw. destruct (Z.ltb_spec (now n) deadline); [|lia].
    simpl in Hw. unfold set_socket_timeouts, set_socket_timeout in Hw. by rewrite !Hset in Hw.
Qed.
End exchange.

(** The socket timeout derived from the time left: whenever at least a microsecond
    is left it is positive and never longer than that; but with less than a microsecond
    left it is the zero timeval, which the socket options take for "no timeout". *)
Theorem remaining_timeval_bounds deadline now ns
    (Hleft : remaining_timeout deadline now = Ok ns) (Hfits : ns / 1000000000 ≤ i64_max) :
  let tv := duration_to_timeval ns in
  0 < ns ∧ 0 ≤ tv_usec tv < 1000000 ∧
  tv_sec tv * 1000000000 + tv_usec tv * 1000 ≤ ns ∧
  (limits tv ↔ 1000 ≤ ns).
Proof.
  unfold remaining_timeout in Hleft. destruct (Z.ltb_spec now deadline) as [Hlt|]; [|done].
  injection Hleft as Hns. cbv zeta. split; [lia|]. rewrite duration_limits by lia.
  unfold duration_to_timeval. simpl. destruct (Z.leb_spec (ns / 1000000000) i64_max); [|lia].
  pose proof (Z.div_mod ns 1000000000 ltac:(lia)). pose proof (Z.mod_pos_bound ns 1000000000 ltac:(lia)).
  pose proof (Z.div_mod (ns mod 1000000000) 1000 ltac:(lia)).
  pose proof (Z.mod_pos_bound (ns mod 1000000000) 1000 ltac:(lia)).
  split_and!; [| |lia|done]; [|]; lia.
Qed.
