(* ===== verification/NetlinkWitness.v ===== *)
(** The netlink theorems at concrete inputs: a backend that records the ruleset, a kernel
    that takes batches and runs rules as documented, and one allocation for both protocols. *)
From stdpp Require Import base gmap strings list fin_maps relations.
From Stdlib Require Import ZArith Lia.
From S2P Require Import Prelude RustStd Model Facade Store Netlink NetlinkSpec NetlinkBatch.
From S2P Require Import NetlinkKernel NetlinkExchange.
Open Scope Z_scope.

Definition ex_allocation : Allocation := {|
  al_id := "i"; al_protocol := Both; al_port := 10000; al_target_port := Some 80;
  al_host := Some "127.0.0.1"%string; al_created_at_ms := 1; al_updated_at_ms := 2 |}.

Definition ex_map : gmap string Allocation := {["i"%string := ex_allocation]}.

Lemma ex_map_disjoint : ports_disjoint ex_map.
Proof.
  unfold ports_disjoint, ex_map. intros i j a b Hi Hj Hij.
  apply lookup_singleton_Some in Hi as [<- _], Hj as [<- _]. done.
Qed.

Lemma rules_deterministic_witness :
  length (rules_for_allocations ex_map) = 2%nat ∧
  Forall (λ r, nr_protocol r ≠ Both) (rules_for_allocations ex_map).
Proof.
  split; [vm_compute; reflexivity|].
  exact (proj2 (proj2 (rules_deterministic ex_map ex_map_disjoint))).
Defined.

(** * A backend *)
Record ExBackend : Type := { eb_rules : option (list NftDnatRule); eb_failures : list bool }.

#[export] Instance ExBackend_backend : NftBackend ExBackend := λ _ _ rules _ b,
  match eb_failures b with
  | true :: fs => (Err (Apply "refused"), {| eb_rules := eb_rules b; eb_failures := fs |})
  | fs => (Ok tt, {| eb_rules := Some rules; eb_failures := tail fs |})
  end.

#[export] Instance ExBackend_laws : NftBackendLaws ExBackend.
Proof.
  refine {| installed := eb_rules |}. intros table chain rules t [r [|[] fs]]; [done|by left|done].
Defined.

Definition ex_runtime : NetlinkRuntime ExBackend :=
  NetlinkRuntime_new (NetlinkRuntimeConfig_new "relayd" "mapping")
    {| eb_rules := None; eb_failures := [false; true] |}.

Definition ex_created : NetlinkRuntime ExBackend :=
  (run_net (NetCreate ex_allocation 2000) ex_runtime).2.

Lemma reachable_in_sync_witness :
  installed (nl_backend ex_created) =
    Some (rules_for_allocations (ns_allocations (nl_state ex_created))) ∧
  ns_allocations (nl_state ex_created) ≠ ∅.
Proof.
  split; [|by vm_compute].
  refine (reachable_in_sync (nl_config ex_runtime) (nl_backend ex_runtime) ex_created _ _).
  - eapply rtc_l; [apply (net_step_run (NetCreate ex_allocation 2000))|apply rtc_refl].
  - split; vm_compute; reflexivity.
Defined.

Lemma failed_apply_degrades_witness :
  ∃ o, (NetlinkRuntime_snapshot "i" (run_net (NetUpdate ex_allocation 2000) ex_created).2).1
         = Ok (Some o) ∧ os_runtime_status o = DegradedApplyFailed.
Proof.
  assert (run_net (NetUpdate ex_allocation 2000) ex_created =
          (Err RuntimeApplyFailed, (run_net (NetUpdate ex_allocation 2000) ex_created).2)) as Hrun
    by (vm_compute; reflexivity).
  assert (ns_allocations (nl_state (run_net (NetUpdate ex_allocation 2000) ex_created).2) !!
            "i"%string = Some ex_allocation) as Ha by (vm_compute; reflexivity).
  assert (bound_target ex_allocation = Some (V4 127 0 0 1, 80)) as Hb by reflexivity.
  destruct (failed_apply_degrades _ _ _ _ _ _ _ Hrun Ha Hb) as (_ & o & Ho & Hs & _).
  exists o. exact (conj Ho Hs).
Defined.

(** * A kernel *)
Record DocKernel : Type := {
  dk_tables : gset string;
  dk_chains : gmap (string * string) KChain;
  dk_maps : gmap Z KMap;
}.

Definition dk_put_chain (t c : string) (ch : KChain) (k : DocKernel) : DocKernel :=
  {| dk_tables := dk_tables k; dk_chains := <[(t, c) := ch]> (dk_chains k); dk_maps := dk_maps k |}.

Definition dk_put_map (id : Z) (m : KMap) (k : DocKernel) : DocKernel :=
  {| dk_tables := dk_tables k; dk_chains := dk_chains k; dk_maps := <[id := m]> (dk_maps k) |}.

#[export] Instance fits_dec m e : Decision (fits m e).
Proof. unfold fits. apply _. Defined.

Definition known (k : DocKernel) (e : Expr) : bool :=
  match e with
  | FfiExpr _ [_; _; _; (LOOKUP_SET_ID, VU32 id)] => bool_decide (is_Some (dk_maps k !! id))
  | _ => true
  end.

(** A chain for address translation is made once, or updated. *)
Definition doc_chain (t c : string) (type : ChainType) (hook : Hook) (priority : Z) (policy : Policy)
    (k : DocKernel) : option DocKernel :=
  if decide (t ∈ dk_tables k) then
    Some (dk_put_chain t c
      {| kc_type := type; kc_hook := hook; kc_priority := priority; kc_policy := policy;
         kc_rules := default [] (kc_rules <$> dk_chains k !! (t, c)) |} k)
  else None.

Definition doc_apply (message : Message) (k : DocKernel) : option DocKernel :=
  match message with
  | TableMsg NFT_MSG_NEWTABLE Inet flags [TABLE_FAMILY Inet; TABLE_NAME t; TABLE_FLAGS 0] =>
      if Z.testbit flags 10 || bool_decide (t ∈ dk_tables k) then
        Some {| dk_tables := {[t]} ∪ dk_tables k; dk_chains := dk_chains k; dk_maps := dk_maps k |}
      else None
  | ChainMsg t c type hook priority policy => doc_chain t c type hook priority policy k
  | RuleDelMsg NFT_MSG_DELRULE Inet _ [RULE_FAMILY Inet; RULE_TABLE t; RULE_CHAIN c] =>
      (λ ch, dk_put_chain t c (kc_set_rules [] ch) k) <$> dk_chains k !! (t, c)
  | SetMsg s =>
      if decide (set_table s ∈ dk_tables k ∧ nft_type_len (set_key_type s) = Some (set_key_len s)
                 ∧ nft_type_len (set_data_type s) = Some (set_data_len s))
      then Some (dk_put_map (set_id s) {| km_key_len := set_key_len s; km_data_len := set_data_len s;
                                          km_elements := [] |} k)
      else None
  | ElemsMsg id elements =>
      m ← dk_maps k !! id;
      if decide (Forall (fits m) elements ∧ NoDup (km_elements m ++ elements).*1) then
        Some (dk_put_map id {| km_key_len := km_key_len m; km_data_len := km_data_len m;
                               km_elements := km_elements m ++ elements |} k)
      else None
  | RuleMsg t c exprs =>
      ch ← dk_chains k !! (t, c);
      if forallb (known k) exprs then Some (dk_put_chain t c (kc_set_rules (kc_rules ch ++ [exprs]) ch) k) else None
  | _ => None
  end.

Definition doc_eval (k : DocKernel) (pk : Packet) (e : Expr) (regs : Regs) : Verdict :=
  match e with
  | FfiExpr _ [(META_DREG, VReg r); (META_KEY, VMeta key)] =>
      Continue (set_reg r [match key with NfProto => pk_nfproto pk | L4Proto => pk_l4proto pk end] regs)
  | FfiExpr _ [(PAYLOAD_BASE, VU32 2); (PAYLOAD_OFFSET, VU32 o); (PAYLOAD_LEN, VU32 l);
               (PAYLOAD_DREG, VReg r)] =>
      if decide (Z.to_nat (o + l) ≤ length (pk_transport pk))%nat
      then Continue (set_reg r (take (Z.to_nat l) (drop (Z.to_nat o) (pk_transport pk))) regs)
      else Break
  | FfiExpr _ [(CMP_SREG, VReg r); (CMP_OP, VU32 0); (CMP_DATA, VData d)] =>
      if decide (take (length d) (regs r) = d) then Continue regs else Break
  | FfiExpr _ [(FIB_DREG, VReg r); (FIB_RESULT, VU32 3); (FIB_FLAGS, VU32 2)] =>
      Continue (set_reg r [pk_daddr_type pk; 0; 0; 0] regs)
  | FfiExpr _ [(LOOKUP_SREG, VReg q); (LOOKUP_DREG, VReg r); (LOOKUP_SET, VStr _);
               (LOOKUP_SET_ID, VU32 i)] =>
      match dk_maps k !! i ≫= λ m, map_get (km_elements m) (regs q) with
      | Some data => Continue (set_reg r data regs)
      | None => Break
      end
  | FfiExpr _ _ => Break
  | CounterExpr => Continue regs
  | NatExpr DNat family ip port => Dnat (family, regs ip, regs port)
  | NatExpr SNat _ _ _ => Break
  end.

#[export] Instance doc_kernel : NftKernel DocKernel := {|
  kn_apply := doc_apply;
  kn_table := λ k t, t ∈ dk_tables k;
  kn_chain := λ k t c, dk_chains k !! (t, c);
  kn_map := λ k id, dk_maps k !! id;
  kn_eval := doc_eval;
  kn_traverse := λ k t c pk,
    ch ← dk_chains k !! (t, c);
    match kc_type ch, kc_policy ch with
    | ChainNat, Accept => run_rules (doc_eval k pk) (kc_rules ch)
    | _, _ => None
    end;
|}.

Lemma put_chain_kept t c ch k : kept (Some (t, c)) None k (dk_put_chain t c ch k).
Proof. split; simpl; [done| |done]. intros t' c' Hne. rewrite lookup_insert_ne by congruence. done. Qed.

Lemma put_map_kept id m k : kept None (Some id) k (dk_put_map id m k).
Proof. split; simpl; [done|done|]. intros i Hne. rewrite lookup_insert_ne by congruence. done. Qed.

#[export] Instance doc_kernel_laws : NftKernelLaws (K := DocKernel).
Proof.
  split; simpl.
  - intros t flags k k' ->. simpl. intros [= <-]. simpl. split; [set_solver|]. split; simpl; [set_solver|done|done].
  - intros t c type hook priority policy k k' Ht. unfold doc_chain. rewrite decide_True by done. intros [= <-].
    split; [apply put_chain_kept|]. simpl. by rewrite lookup_insert_eq.
  - intros t c ch flags k k' ->. simpl. intros [= <-]. split; [done|]. simpl. by rewrite lookup_insert_eq.
  - intros s k k' Ht (_ & _ & _ & Hk & Hd). rewrite decide_True by done. intros [= <-].
    split; [apply put_map_kept|]. simpl. by rewrite lookup_insert_eq.
  - intros id m elements k k' -> Hf Hnd. simpl. rewrite decide_True by done. intros [= <-].
    split; [apply put_map_kept|]. simpl. by rewrite lookup_insert_eq.
  - intros t c ch exprs k k' -> _. simpl. destruct (forallb _ _); [|done]. intros [= <-].
    split; [apply put_chain_kept|]. simpl. by rewrite lookup_insert_eq.
  - intros t c ch k pk -> Hty _ Hp. simpl. by rewrite Hty, Hp.
  - done.
  - done.
  - done.
  - intros k pk offset len r regs Ho Hl Hlen. by rewrite decide_True.
  - intros k pk r regs. by eexists.
  - intros k pk q r name id m regs -> _. done.
  - done.
  - done.
Defined.

(** An older rule in the chain translates every packet to nowhere. *)
Definition ex_kernel : DocKernel := {|
  dk_tables := {["relayd"%string]};
  dk_chains := {[("relayd", "mapping")%string :=
    {| kc_type := ChainNat; kc_hook := PreRouting; kc_priority := -100; kc_policy := Accept;
       kc_rules := [[NatExpr DNat Ipv4 Reg1 Reg2]] |}]};
  dk_maps := ∅;
|}.

(** A TCP packet from port 4000 to port 10000 of the host. *)
Definition ex_packet : Packet := {|
  pk_nfproto := 2; pk_l4proto := 6; pk_transport := [15; 160; 39; 16; 0; 0; 0; 0]; pk_daddr_type := 2 |}.

Definition ex_batch : list Message := ruleset_batch (λ es, [es]) "relayd" "mapping" (rules_for_allocations ex_map).

Definition ex_applied : DocKernel := default ex_kernel (kn_commit ex_batch ex_kernel).

Lemma ex_batch_applied : kn_commit ex_batch ex_kernel = Some ex_applied.
Proof.
  unfold ex_applied. assert (bool_decide (is_Some (kn_commit ex_batch ex_kernel)) = true) as Hs by (vm_compute; reflexivity).
  apply bool_decide_eq_true in Hs as [k Hk]. by rewrite Hk.
Qed.

Lemma ruleset_batch_translates_witness :
  kn_traverse ex_kernel "relayd" "mapping" ex_packet = Some (Ipv4, [], []) ∧
  kn_traverse ex_applied "relayd" "mapping" ex_packet = Some (Ipv4, [127; 0; 0; 1], [0; 80]).
Proof.
  split; [vm_compute; reflexivity|].
  rewrite (proj2 (ruleset_batch_translates (λ es, [es]) (λ es, app_nil_r es) "relayd" "mapping"
             (rules_for_allocations ex_map) ltac:(vm_compute; repeat constructor; done)
             ltac:(vm_compute; repeat constructor) ex_kernel ex_applied ex_batch_applied)
             ex_packet false Tcp 10000 ltac:(done)
             ltac:(split; [simpl; lia|vm_compute; reflexivity]) ltac:(by left)
             ltac:(reflexivity) ltac:(reflexivity)).
  vm_compute. reflexivity.
Defined.

(** * The exchange *)
Definition ex_now (n : nat) : Z := 1000000 * Z.of_nat n.

(** A call that comes back if there is a limit to its waiting. *)
Definition if_limited {A} (r : A) (tv : timeval) : option A :=
  if (0 <? tv_sec tv) || (0 <? tv_usec tv) then Some r else None.

Lemma if_limited_returns {A} (r : A) tv : limits tv → is_Some (if_limited r tv).
Proof.
  unfold limits, if_limited. intros [Hl|Hl]; apply Z.ltb_lt in Hl; rewrite Hl, ?orb_true_r; by eexists.
Qed.

Lemma send_and_process_acknowledged_witness :
  ∃ ms : list Z, acknowledges (λ m seq, if m =? seq then Ok tt else Err apply_timed_out) ms [7].
Proof.
  destruct (send_and_process_acknowledged
              (λ m seq, if m =? seq then Ok tt else Err apply_timed_out)
              ex_now (λ _ _ _, Ok tt) (λ _ tv _, if_limited (Ok true) tv) (λ _, if_limited (Ok [Ok 7])) 1
              [EnsureTable_write "relayd"] [7] 2000 ltac:(vm_compute; reflexivity))
    as (ms & Hms & _).
  exists ms. exact Hms.
Defined.

(** A kernel that takes the message and acknowledges nothing, a clock of a millisecond a
    reading and five milliseconds of time: the answer is an error. *)
Lemma send_and_process_terminates_witness :
  let r := send_and_process (λ (_ : Z) _, Ok tt) ex_now (λ _ _ _, Ok tt) (λ _ tv _, if_limited (Ok true) tv)
    (λ _, if_limited (Ok [])) 4 [EnsureTable_write "relayd"] [7] 5 in
  r = Some (Err apply_timed_out) ∧ r ≠ None.
Proof.
  split; [vm_compute; reflexivity|].
  apply (send_and_process_terminates (λ (_ : Z) _, Ok tt) ex_now (λ _ _ _, Ok tt) (λ _ tv _, if_limited (Ok true) tv)
           (λ _, if_limited (Ok [])) [EnsureTable_write "relayd"] [7] 5 3).
  - intros _ tv _. apply if_limited_returns.
  - intros _ tv. apply if_limited_returns.
  - intros n. unfold ex_now, apply_deadline, timeout_duration. lia.
  - vm_compute. discriminate.
Defined.

Lemma receive_blocks_past_deadline_witness :
  receive_acks (λ (_ : Z) _, Ok tt) ex_now (λ _ _ _, Ok tt) (λ _, if_limited (Ok [])) 10 0 no_timeouts 999 [7] = None.
Proof.
  apply receive_blocks_past_deadline; [vm_compute; split; reflexivity|done|].
  intros tv Hl. unfold if_limited. destruct (_ || _) eqn:Hb; [|done]. destruct Hl. unfold limits. lia.
Defined.

Lemma remaining_timeval_bounds_witness :
  duration_to_timeval 999 = {| tv_sec := 0; tv_usec := 0 |} ∧ 0 < 999.
Proof.
  split; [reflexivity|].
  exact (proj1 (remaining_timeval_bounds 1999 1000 999 ltac:(reflexivity) ltac:(vm_compute; discriminate))).
Defined.
