(* ===== verification/Metrics.v ===== *)
(** metrics.rs: the process-wide counters and gauges and their JSON snapshot.

    Every cell is an [AtomicU64] changed by one relaxed read-modify-write, so the
    changes of all threads to one cell happen in one order: a run is a list of
    operations, and the theorem of this file holds for every interleaving. *)
From stdpp Require Import base gmap strings list.
From Stdlib Require Import ZArith Lia.
From S2P Require Import Prelude RustStd.
Open Scope Z_scope.

(** The fields of [Metrics]; [udp_active_sessions] and [tcp_active_sessions] are
    gauges, every other field a counter. *)
Inductive MetricName : Type :=
| allocations_total | runtime_apply_total | restore_failures_total | rejected_no_host_total
| bind_fail_total | tcp_splice_fast_path_total | tcp_copy_fallback_total
| tcp_splice_attempt_total | tcp_splice_success_total | tcp_splice_fallback_total
| tcp_splice_hard_failure_total | tcp_splice_fallback_forced_total
| tcp_splice_fallback_unsupported_total | tcp_splice_fallback_runtime_error_total
| tcp_session_create_total | tcp_session_close_total | tcp_session_event_total
| tcp_session_worker_dispatch_total | tcp_session_worker0_dispatch_total
| tcp_session_worker1_dispatch_total | tcp_accept_handoff_total
| tcp_accept_handoff_worker0_total | tcp_accept_handoff_worker1_total
| tcp_accept_handoff_worker2_total | tcp_accept_handoff_worker3_total
| tcp_listener_accept_total | tcp_listener_accept_worker0_total
| tcp_listener_accept_worker1_total | tcp_listener_accept_worker2_total
| tcp_listener_accept_worker3_total | tcp_upstream_connect_total
| tcp_upstream_connect_fail_total | tcp_active_sessions | udp_packets_in_total
| udp_packets_out_total | udp_bytes_in_total | udp_bytes_out_total | udp_recv_errors_total
| udp_send_errors_total | udp_session_create_total | udp_session_expire_total
| udp_batch_calls_total | udp_batch_messages_total | udp_drop_total | udp_reply_primary_total
| udp_reply_drop_total | udp_reply_stale_total | udp_worker_packets_in_total
| udp_worker_packets_out_total | udp_worker0_packets_in_total | udp_worker1_packets_in_total
| udp_worker2_packets_in_total | udp_worker3_packets_in_total | udp_worker0_packets_out_total
| udp_worker1_packets_out_total | udp_worker2_packets_out_total | udp_worker3_packets_out_total
| udp_dataplane_redesign_packets_in_total | udp_dataplane_redesign_packets_out_total
| udp_io_uring_submit_total | udp_io_uring_cqe_total | udp_io_uring_multishot_total
| udp_io_uring_buf_release_total | udp_io_uring_fallback_total | udp_fast_path_packets_in_total
| udp_fast_path_packets_out_total | udp_fast_path_gso_send_total | udp_fast_path_gro_recv_total
| udp_fast_path_fallback_total | udp_fast_path_drop_total | udp_active_sessions
| restore_timeout_total | http_non_loopback_bind_total.

#[export] Instance MetricName_eq_dec : EqDecision MetricName.
Proof. solve_decision. Defined.

Definition is_gauge (f : MetricName) : bool :=
  match f with tcp_active_sessions | udp_active_sessions => true | _ => false end.

(** [Metrics]: one 64-bit cell per field. *)
Definition Metrics : Type := MetricName → Z.

Definition Metrics_default : Metrics := λ _, 0.

(** [fetch_add] and [fetch_sub] wrap around. *)
Definition fetch_add (f : MetricName) (amount : Z) (m : Metrics) : Metrics :=
  λ g, if decide (g = f) then u64_wrapping_add (m g) amount else m g.

Definition fetch_sub (f : MetricName) (amount : Z) (m : Metrics) : Metrics :=
  λ g, if decide (g = f) then u64_wrapping_sub (m g) amount else m g.

Definition Counter_add (f : MetricName) (amount : Z) (m : Metrics) : Metrics :=
  fetch_add f amount m.

Definition Counter_inc (f : MetricName) (m : Metrics) : Metrics := Counter_add f 1 m.

Definition Counter_load (f : MetricName) (m : Metrics) : Z := m f.

Definition Gauge_inc (f : MetricName) (m : Metrics) : Metrics := fetch_add f 1 m.

Definition Gauge_dec (f : MetricName) (m : Metrics) : Metrics := fetch_sub f 1 m.

Definition Gauge_load (f : MetricName) (m : Metrics) : Z := m f.

(** [JsonMetrics], as serde writes it: the fields in their order under their names. *)
Definition JsonMetrics : Type := list (string * Z).

Definition Metrics_snapshot (m : Metrics) : JsonMetrics := [
  ("allocations_total", Counter_load allocations_total m);
  ("runtime_apply_total", Counter_load runtime_apply_total m);
  ("restore_failures_total", Counter_load restore_failures_total m);
  ("rejected_no_host_total", Counter_load rejected_no_host_total m);
  ("bind_fail_total", Counter_load bind_fail_total m);
  ("tcp_splice_fast_path_total", Counter_load tcp_splice_fast_path_total m);
  ("tcp_copy_fallback_total", Counter_load tcp_copy_fallback_total m);
  ("tcp_splice_attempt_total", Counter_load tcp_splice_attempt_total m);
  ("tcp_splice_success_total", Counter_load tcp_splice_success_total m);
  ("tcp_splice_fallback_total", Counter_load tcp_splice_fallback_total m);
  ("tcp_splice_hard_failure_total", Counter_load tcp_splice_hard_failure_total m);
  ("tcp_splice_fallback_forced_total", Counter_load tcp_splice_fallback_forced_total m);
  ("tcp_splice_fallback_unsupported_total", Counter_load tcp_splice_fallback_unsupported_total m);
  ("tcp_splice_fallback_runtime_error_total", Counter_load tcp_splice_fallback_runtime_error_total m);
  ("tcp_session_create_total", Counter_load tcp_session_create_total m);
  ("tcp_session_close_total", Counter_load tcp_session_close_total m);
  ("tcp_session_event_total", Counter_load tcp_session_event_total m);
  ("tcp_session_worker_dispatch_total", Counter_load tcp_session_worker_dispatch_total m);
  ("tcp_session_worker0_dispatch_total", Counter_load tcp_session_worker0_dispatch_total m);
  ("tcp_session_worker1_dispatch_total", Counter_load tcp_session_worker1_dispatch_total m);
  ("tcp_accept_handoff_total", Counter_load tcp_accept_handoff_total m);
  ("tcp_accept_handoff_worker0_total", Counter_load tcp_accept_handoff_worker0_total m);
  ("tcp_accept_handoff_worker1_total", Counter_load tcp_accept_handoff_worker1_total m);
  ("tcp_accept_handoff_worker2_total", Counter_load tcp_accept_handoff_worker2_total m);
  ("tcp_accept_handoff_worker3_total", Counter_load tcp_accept_handoff_worker3_total m);
  ("tcp_listener_accept_total", Counter_load tcp_listener_accept_total m);
  ("tcp_listener_accept_worker0_total", Counter_load tcp_listener_accept_worker0_total m);
  ("tcp_listener_accept_worker1_total", Counter_load tcp_listener_accept_worker1_total m);
  ("tcp_listener_accept_worker2_total", Counter_load tcp_listener_accept_worker2_total m);
  ("tcp_listener_accept_worker3_total", Counter_load tcp_listener_accept_worker3_total m);
  ("tcp_upstream_connect_total", Counter_load tcp_upstream_connect_total m);
  ("tcp_upstream_connect_fail_total", Counter_load tcp_upstream_connect_fail_total m);
  ("tcp_active_sessions", Gauge_load tcp_active_sessions m);
  ("udp_packets_in_total", Counter_load udp_packets_in_total m);
  ("udp_packets_out_total", Counter_load udp_packets_out_total m);
  ("udp_bytes_in_total", Counter_load udp_bytes_in_total m);
  ("udp_bytes_out_total", Counter_load udp_bytes_out_total m);
  ("udp_recv_errors_total", Counter_load udp_recv_errors_total m);
  ("udp_send_errors_total", Counter_load udp_send_errors_total m);
  ("udp_session_create_total", Counter_load udp_session_create_total m);
  ("udp_session_expire_total", Counter_load udp_session_expire_total m);
  ("udp_batch_calls_total", Counter_load udp_batch_calls_total m);
  ("udp_batch_messages_total", Counter_load udp_batch_messages_total m);
  ("udp_drop_total", Counter_load udp_drop_total m);
  ("udp_reply_primary_total", Counter_load udp_reply_primary_total m);
  ("udp_reply_drop_total", Counter_load udp_reply_drop_total m);
  ("udp_reply_stale_total", Counter_load udp_reply_stale_total m);
  ("udp_worker_packets_in_total", Counter_load udp_worker_packets_in_total m);
  ("udp_worker_packets_out_total", Counter_load udp_worker_packets_out_total m);
  ("udp_worker0_packets_in_total", Counter_load udp_worker0_packets_in_total m);
  ("udp_worker1_packets_in_total", Counter_load udp_worker1_packets_in_total m);
  ("udp_worker2_packets_in_total", Counter_load udp_worker2_packets_in_total m);
  ("udp_worker3_packets_in_total", Counter_load udp_worker3_packets_in_total m);
  ("udp_worker0_packets_out_total", Counter_load udp_worker0_packets_out_total m);
  ("udp_worker1_packets_out_total", Counter_load udp_worker1_packets_out_total m);
  ("udp_worker2_packets_out_total", Counter_load udp_worker2_packets_out_total m);
  ("udp_worker3_packets_out_total", Counter_load udp_worker3_packets_out_total m);
  ("udp_dataplane_redesign_packets_in_total", Counter_load udp_dataplane_redesign_packets_in_total m);
  ("udp_dataplane_redesign_packets_out_total", Counter_load udp_dataplane_redesign_packets_out_total m);
  ("udp_io_uring_submit_total", Counter_load udp_io_uring_submit_total m);
  ("udp_io_uring_cqe_total", Counter_load udp_io_uring_cqe_total m);
  ("udp_io_uring_multishot_total", Counter_load udp_io_uring_multishot_total m);
  ("udp_io_uring_buf_release_total", Counter_load udp_io_uring_buf_release_total m);
  ("udp_io_uring_fallback_total", Counter_load udp_io_uring_fallback_total m);
  ("udp_fast_path_packets_in_total", Counter_load udp_fast_path_packets_in_total m);
  ("udp_fast_path_packets_out_total", Counter_load udp_fast_path_packets_out_total m);
  ("udp_fast_path_gso_send_total", Counter_load udp_fast_path_gso_send_total m);
  ("udp_fast_path_gro_recv_total", Counter_load udp_fast_path_gro_recv_total m);
  ("udp_fast_path_fallback_total", Counter_load udp_fast_path_fallback_total m);
  ("udp_fast_path_drop_total", Counter_load udp_fast_path_drop_total m);
  ("udp_active_sessions", Gauge_load udp_active_sessions m);
  ("restore_timeout_total", Counter_load restore_timeout_total m);
  ("http_non_loopback_bind_total", Counter_load http_non_loopback_bind_total m)
]%string.

(** * Runs *)
Inductive MetricOp : Type :=
| OpAdd (f : MetricName) (amount : Z)
| OpInc (f : MetricName)
| OpGaugeInc (f : MetricName)
| OpGaugeDec (f : MetricName).

Definition run_op (op : MetricOp) (m : Metrics) : Metrics :=
  match op with
  | OpAdd f n => Counter_add f n m
  | OpInc f => Counter_inc f m
  | OpGaugeInc f => Gauge_inc f m
  | OpGaugeDec f => Gauge_dec f m
  end.

Definition run_ops (ops : list MetricOp) : Metrics :=
  foldl (λ m op, run_op op m) Metrics_default ops.

(** The field's name, which serde makes the key. *)
Definition metric_key (f : MetricName) : string :=
  match f with
  | allocations_total => "allocations_total" | runtime_apply_total => "runtime_apply_total"
  | restore_failures_total => "restore_failures_total"
  | rejected_no_host_total => "rejected_no_host_total" | bind_fail_total => "bind_fail_total"
  | tcp_splice_fast_path_total => "tcp_splice_fast_path_total"
  | tcp_copy_fallback_total => "tcp_copy_fallback_total"
  | tcp_splice_attempt_total => "tcp_splice_attempt_total"
  | tcp_splice_success_total => "tcp_splice_success_total"
  | tcp_splice_fallback_total => "tcp_splice_fallback_total"
  | tcp_splice_hard_failure_total => "tcp_splice_hard_failure_total"
  | tcp_splice_fallback_forced_total => "tcp_splice_fallback_forced_total"
  | tcp_splice_fallback_unsupported_total => "tcp_splice_fallback_unsupported_total"
  | tcp_splice_fallback_runtime_error_total => "tcp_splice_fallback_runtime_error_total"
  | tcp_session_create_total => "tcp_session_create_total"
  | tcp_session_close_total => "tcp_session_close_total"
  | tcp_session_event_total => "tcp_session_event_total"
  | tcp_session_worker_dispatch_total => "tcp_session_worker_dispatch_total"
  | tcp_session_worker0_dispatch_total => "tcp_session_worker0_dispatch_total"
  | tcp_session_worker1_dispatch_total => "tcp_session_worker1_dispatch_total"
  | tcp_accept_handoff_total => "tcp_accept_handoff_total"
  | tcp_accept_handoff_worker0_total => "tcp_accept_handoff_worker0_total"
  | tcp_accept_handoff_worker1_total => "tcp_accept_handoff_worker1_total"
  | tcp_accept_handoff_worker2_total => "tcp_accept_handoff_worker2_total"
  | tcp_accept_handoff_worker3_total => "tcp_accept_handoff_worker3_total"
  | tcp_listener_accept_total => "tcp_listener_accept_total"
  | tcp_listener_accept_worker0_total => "tcp_listener_accept_worker0_total"
  | tcp_listener_accept_worker1_total => "tcp_listener_accept_worker1_total"
  | tcp_listener_accept_worker2_total => "tcp_listener_accept_worker2_total"
  | tcp_listener_accept_worker3_total => "tcp_listener_accept_worker3_total"
  | tcp_upstream_connect_total => "tcp_upstream_connect_total"
  | tcp_upstream_connect_fail_total => "tcp_upstream_connect_fail_total"
  | tcp_active_sessions => "tcp_active_sessions"
  | udp_packets_in_total => "udp_packets_in_total"
  | udp_packets_out_total => "udp_packets_out_total"
  | udp_bytes_in_total => "udp_bytes_in_total" | udp_bytes_out_total => "udp_bytes_out_total"
  | udp_recv_errors_total => "udp_recv_errors_total"
  | udp_send_errors_total => "udp_send_errors_total"
  | udp_session_create_total => "udp_session_create_total"
  | udp_session_expire_total => "udp_session_expire_total"
  | udp_batch_calls_total => "udp_batch_calls_total"
  | udp_batch_messages_total => "udp_batch_messages_total" | udp_drop_total => "udp_drop_total"
  | udp_reply_primary_total => "udp_reply_primary_total"
  | udp_reply_drop_total => "udp_reply_drop_total"
  | udp_reply_stale_total => "udp_reply_stale_total"
  | udp_worker_packets_in_total => "udp_worker_packets_in_total"
  | udp_worker_packets_out_total => "udp_worker_packets_out_total"
  | udp_worker0_packets_in_total => "udp_worker0_packets_in_total"
  | udp_worker1_packets_in_total => "udp_worker1_packets_in_total"
  | udp_worker2_packets_in_total => "udp_worker2_packets_in_total"
  | udp_worker3_packets_in_total => "udp_worker3_packets_in_total"
  | udp_worker0_packets_out_total => "udp_worker0_packets_out_total"
  | udp_worker1_packets_out_total => "udp_worker1_packets_out_total"
  | udp_worker2_packets_out_total => "udp_worker2_packets_out_total"
  | udp_worker3_packets_out_total => "udp_worker3_packets_out_total"
  | udp_dataplane_redesign_packets_in_total => "udp_dataplane_redesign_packets_in_total"
  | udp_dataplane_redesign_packets_out_total => "udp_dataplane_redesign_packets_out_total"
  | udp_io_uring_submit_total => "udp_io_uring_submit_total"
  | udp_io_uring_cqe_total => "udp_io_uring_cqe_total"
  | udp_io_uring_multishot_total => "udp_io_uring_multishot_total"
  | udp_io_uring_buf_release_total => "udp_io_uring_buf_release_total"
  | udp_io_uring_fallback_total => "udp_io_uring_fallback_total"
  | udp_fast_path_packets_in_total => "udp_fast_path_packets_in_total"
  | udp_fast_path_packets_out_total => "udp_fast_path_packets_out_total"
  | udp_fast_path_gso_send_total => "udp_fast_path_gso_send_total"
  | udp_fast_path_gro_recv_total => "udp_fast_path_gro_recv_total"
  | udp_fast_path_fallback_total => "udp_fast_path_fallback_total"
  | udp_fast_path_drop_total => "udp_fast_path_drop_total"
  | udp_active_sessions => "udp_active_sessions"
  | restore_timeout_total => "restore_timeout_total"
  | http_non_loopback_bind_total => "http_non_loopback_bind_total"
  end.

(** What an operation adds to a field, before any wrap-around. *)
Definition delta (f : MetricName) (op : MetricOp) : Z :=
  match op with
  | OpAdd g n => if decide (g = f) then n else 0
  | OpInc g | OpGaugeInc g => if decide (g = f) then 1 else 0
  | OpGaugeDec g => if decide (g = f) then -1 else 0
  end.

Fixpoint total (f : MetricName) (ops : list MetricOp) : Z :=
  match ops with
  | [] => 0
  | op :: ops' => delta f op + total f ops'
  end.

#[export] Instance total_proper f : Proper ((≡ₚ) ==> (=)) (total f).
Proof. induction 1; simpl; lia. Qed.

Lemma run_op_delta op m f : run_op op m f mod (u64_max + 1) = (m f + delta f op) mod (u64_max + 1).
Proof.
  destruct op as [g n|g|g|g];
    unfold run_op, delta, Counter_inc, Counter_add, Gauge_inc, Gauge_dec, fetch_add, fetch_sub,
      u64_wrapping_add, u64_wrapping_sub; simpl;
    destruct (decide (g = f)) as [->|Hne];
    rewrite ?decide_True, ?Z.mod_mod by done; rewrite ?decide_False by congruence;
    f_equal; lia.
Qed.

Lemma run_op_range op m f : 0 ≤ m f ≤ u64_max → 0 ≤ run_op op m f ≤ u64_max.
Proof.
  assert (∀ x, 0 ≤ x mod (u64_max + 1) ≤ u64_max) as Hmod
    by (intros x; pose proof (Z.mod_pos_bound x (u64_max + 1) eq_refl); lia).
  intros Hm. destruct op;
    unfold run_op, Counter_inc, Counter_add, Gauge_inc, Gauge_dec, fetch_add, fetch_sub,
      u64_wrapping_add, u64_wrapping_sub; case_decide; auto.
Qed.

Lemma foldl_run_op ops m f :
  0 ≤ m f ≤ u64_max →
  foldl (λ m op, run_op op m) m ops f = (m f + total f ops) mod (u64_max + 1).
Proof.
  revert m. induction ops as [|op ops IH]; intros m Hm; simpl.
  - rewrite Z.mod_small; lia.
  - rewrite IH by (by apply run_op_range).
    rewrite <- Z.add_mod_idemp_l, run_op_delta, Z.add_mod_idemp_l by done. f_equal. lia.
Qed.

(** The snapshot as the JSON object a reader sees. *)
Definition json_object (j : JsonMetrics) : gmap string Z := list_to_map j.

Definition all_metrics : list MetricName := [
  allocations_total; runtime_apply_total; restore_failures_total; rejected_no_host_total;
  bind_fail_total; tcp_splice_fast_path_total; tcp_copy_fallback_total;
  tcp_splice_attempt_total; tcp_splice_success_total; tcp_splice_fallback_total;
  tcp_splice_hard_failure_total; tcp_splice_fallback_forced_total;
  tcp_splice_fallback_unsupported_total; tcp_splice_fallback_runtime_error_total;
  tcp_session_create_total; tcp_session_close_total; tcp_session_event_total;
  tcp_session_worker_dispatch_total; tcp_session_worker0_dispatch_total;
  tcp_session_worker1_dispatch_total; tcp_accept_handoff_total;
  tcp_accept_handoff_worker0_total; tcp_accept_handoff_worker1_total;
  tcp_accept_handoff_worker2_total; tcp_accept_handoff_worker3_total;
  tcp_listener_accept_total; tcp_listener_accept_worker0_total;
  tcp_listener_accept_worker1_total; tcp_listener_accept_worker2_total;
  tcp_listener_accept_worker3_total; tcp_upstream_connect_total;
  tcp_upstream_connect_fail_total; tcp_active_sessions; udp_packets_in_total;
  udp_packets_out_total; udp_bytes_in_total; udp_bytes_out_total; udp_recv_errors_total;
  udp_send_errors_total; udp_session_create_total; udp_session_expire_total;
  udp_batch_calls_total; udp_batch_messages_total; udp_drop_total; udp_reply_primary_total;
  udp_reply_drop_total; udp_reply_stale_total; udp_worker_packets_in_total;
  udp_worker_packets_out_total; udp_worker0_packets_in_total; udp_worker1_packets_in_total;
  udp_worker2_packets_in_total; udp_worker3_packets_in_total; udp_worker0_packets_out_total;
  udp_worker1_packets_out_total; udp_worker2_packets_out_total; udp_worker3_packets_out_total;
  udp_dataplane_redesign_packets_in_total; udp_dataplane_redesign_packets_out_total;
  udp_io_uring_submit_total; udp_io_uring_cqe_total; udp_io_uring_multishot_total;
  udp_io_uring_buf_release_total; udp_io_uring_fallback_total; udp_fast_path_packets_in_total;
  udp_fast_path_packets_out_total; udp_fast_path_gso_send_total; udp_fast_path_gro_recv_total;
  udp_fast_path_fallback_total; udp_fast_path_drop_total; udp_active_sessions;
  restore_timeout_total; http_non_loopback_bind_total
].

Lemma snapshot_map m :
  Metrics_snapshot m = (λ f, (metric_key f, m f)) <$> all_metrics.
Proof. reflexivity. Qed.

Lemma snapshot_ext m m' : (∀ f, m f = m' f) → Metrics_snapshot m = Metrics_snapshot m'.
Proof. intros H. rewrite !snapshot_map. apply list_fmap_ext. intros ? f _. by rewrite H. Qed.

Lemma snapshot_NoDup m : NoDup (Metrics_snapshot m).*1.
Proof.
  rewrite snapshot_map, <- list_fmap_compose. change (NoDup (metric_key <$> all_metrics)).
  apply (bool_decide_eq_true_1 _). vm_compute. reflexivity.
Qed.

Lemma all_metrics_complete f : f ∈ all_metrics.
Proof. apply (bool_decide_eq_true_1 _). destruct f; vm_compute; reflexivity. Qed.

Lemma snapshot_lookup m f : json_object (Metrics_snapshot m) !! metric_key f = Some (m f).
Proof.
  apply elem_of_list_to_map_1; [apply snapshot_NoDup|].
  rewrite snapshot_map. apply (list_elem_of_fmap_2 (λ f, (metric_key f, m f))).
  apply all_metrics_complete.
Qed.

(** The metrics are exact under every interleaving: after any operations, in any
    order, the JSON object maps each field's name to the sum of what was added to that
    field minus what was taken from it, modulo 2^64; it has one key per field; and when
    the sum is a 64-bit number (a gauge decremented no more than incremented) the value
    is the sum itself. *)
Theorem snapshot_totals ops ops' (Hperm : ops ≡ₚ ops') :
  Metrics_snapshot (run_ops ops) = Metrics_snapshot (run_ops ops') ∧
  size (json_object (Metrics_snapshot (run_ops ops))) = 73%nat ∧
  ∀ f, json_object (Metrics_snapshot (run_ops ops)) !! metric_key f =
         Some (total f ops mod (u64_max + 1)) ∧
       (0 ≤ total f ops ≤ u64_max →
        json_object (Metrics_snapshot (run_ops ops)) !! metric_key f = Some (total f ops)).
Proof.
  assert (∀ l f, run_ops l f = total f l mod (u64_max + 1)) as Htot.
  { intros l f. unfold run_ops. by rewrite foldl_run_op by done. }
  split_and!.
  - apply snapshot_ext. intros f. by rewrite !Htot, Hperm.
  - unfold json_object. rewrite <- size_dom, dom_list_to_map_L, size_list_to_set; [done|].
    apply snapshot_NoDup.
  - intros f. rewrite snapshot_lookup, Htot. split; [done|].
    intros ?. by rewrite Z.mod_small by lia.
Qed.

Lemma snapshot_totals_witness :
  let ops := [OpInc allocations_total; OpGaugeInc tcp_active_sessions; OpAdd udp_bytes_in_total 7;
              OpGaugeDec tcp_active_sessions] in
  let ops' := [OpAdd udp_bytes_in_total 7; OpGaugeDec tcp_active_sessions;
               OpInc allocations_total; OpGaugeInc tcp_active_sessions] in
  ops ≡ₚ ops' ∧
  json_object (Metrics_snapshot (run_ops ops)) !! "udp_bytes_in_total"%string = Some 7.
Proof.
  intros ops ops'. assert (ops ≡ₚ ops') as Hperm
    by exact (Permutation_app_comm [OpInc allocations_total; OpGaugeInc tcp_active_sessions]
      [OpAdd udp_bytes_in_total 7; OpGaugeDec tcp_active_sessions]).
  destruct (snapshot_totals ops ops' Hperm) as (_ & _ & H).
  split; [exact Hperm|]. exact (proj1 (H udp_bytes_in_total)).
Defined.
