(* ===== verification/Float64.v ===== *)
(** Rust's [f64], as far as the sources use it: [u64 as f64], [i64 as f64], division,
    and [Display]. The values are the binary64 numbers of the Standard Library's
    SpecFloat; every operation rounds to nearest, ties to even. *)
From stdpp Require Import base strings list.
From Stdlib Require Import ZArith Lia Ascii SpecFloat.
From S2P Require Import Prelude RustStd.
Open Scope Z_scope.

Definition f64 : Type := spec_float.
Definition f64_prec : Z := 53.
Definition f64_emax : Z := 1024.

Definition f64_zero : f64 := S754_zero false.

(** [n as f64]. *)
Definition f64_of_Z (n : Z) : f64 := binary_normalize f64_prec f64_emax n 0 false.

Definition f64_div (a b : f64) : f64 := SFdiv f64_prec f64_emax a b.

(** The binary64 number nearest to [d * 10^q], for [d > 0]. *)
Definition f64_of_decimal (d q : Z) : f64 :=
  if 0 <=? q then f64_of_Z (d * 10 ^ q)
  else
    let '(m, e, l) := SFdiv_core_binary f64_prec f64_emax d 0 (10 ^ (- q)) 0 in
    binary_round_aux f64_prec f64_emax false m e l.

(** * Display: the shortest decimal that reads back as the number, the nearest such one,
    a tie going up, without an exponent. *)

(** [num / den] is the number. *)
Definition f64_fraction (m : positive) (e : Z) : Z * Z :=
  if 0 <=? e then (Z.pos m * 2 ^ e, 1) else (Z.pos m, 2 ^ (- e)).

Fixpoint digit_count (fuel : nat) (n : Z) : Z :=
  match fuel with
  | O => 0
  | S fuel' => if n <? 10 then 1 else 1 + digit_count fuel' (n / 10)
  end.

(** The least [j] with [num * 10^j >= den]. *)
Fixpoint leading_zeros (fuel : nat) (num den : Z) : Z :=
  match fuel with
  | O => 0
  | S fuel' => if den <=? num then 0 else 1 + leading_zeros fuel' (num * 10) den
  end.

(** [10^(k-1) <= num/den < 10^k]. *)
Definition decimal_exponent (num den : Z) : Z :=
  if den <=? num then digit_count 310 (num / den) else 1 - leading_zeros 330 num den.

(** The decimals with [n] digits around the number that read back as it. *)
Definition decimal_candidate (x : f64) (num den q : Z) : option Z :=
  let '(a, b) := if 0 <=? q then (num, den * 10 ^ q) else (num * 10 ^ (- q), den) in
  let down := a / b in
  let up := down + 1 in
  let reads d := (0 <? d) && SFeqb (f64_of_decimal d q) x in
  match reads down, reads up with
  | true, true => Some (if 2 * (a - down * b) <? b then down else up)
  | true, false => Some down
  | false, true => Some up
  | false, false => None
  end.

(** Rounding up may carry into one more digit, a power of ten. *)
Fixpoint shortest_from (fuel : nat) (n : Z) (x : f64) (num den k : Z) : option (Z * Z) :=
  match fuel with
  | O => None
  | S fuel' =>
      match decimal_candidate x num den (k - n) with
      | Some d => Some (if d =? 10 ^ n then (d / 10, k - n + 1) else (d, k - n))
      | None => shortest_from fuel' (n + 1) x num den k
      end
  end.

Fixpoint str_repeat (n : nat) (c : ascii) (s : string) : string :=
  match n with
  | O => s
  | S n' => String c (str_repeat n' c s)
  end.

(** Rust pads a fraction with zeros to its width. *)
Definition pad_zeros (width : Z) (s : string) : string :=
  str_repeat (Z.to_nat width - String.length s) "0"%char s.

(** [d * 10^q] in positional notation. *)
Definition decimal_to_string (d q : Z) : string :=
  if 0 <=? q then (u64_to_string d +:+ str_repeat (Z.to_nat q) "0"%char "")%string
  else
    (u64_to_string (d / 10 ^ (- q)) +:+ "." +:+
     pad_zeros (- q) (u64_to_string (d mod 10 ^ (- q))))%string.

Definition f64_to_string (x : f64) : string :=
  match x with
  | S754_zero s => if s then "-0" else "0"
  | S754_infinity s => if s then "-inf" else "inf"
  | S754_nan => "NaN"
  | S754_finite s m e =>
      let '(num, den) := f64_fraction m e in
      match shortest_from 17 1 (S754_finite false m e) num den (decimal_exponent num den) with
      | Some (d, q) => ((if s then "-" else "") +:+ decimal_to_string d q)%string
      | None => ""      (* never: 17 digits always read back *)
      end
  end.

(** * Finite results

    Within the exponents of the sources, rounding and division keep numbers finite,
    positive and normal: a mantissa of 53 digits. *)
Definition finite_between (x : f64) (lo hi : Z) : Prop :=
  ∃ m e, x = S754_finite false m e ∧ Z.log2 (Z.pos m) = 52 ∧ lo ≤ e ≤ hi.

Lemma digits2_log2 p : Z.pos (digits2_pos p) = Z.log2 (Z.pos p) + 1.
Proof.
  induction p as [p IH|p IH|]; [| |reflexivity]; simpl digits2_pos; rewrite Pos2Z.inj_succ, IH.
  - rewrite Pos2Z.inj_xI, Z.log2_succ_double by done. lia.
  - rewrite Pos2Z.inj_xO, Z.log2_double by done. lia.
Qed.

Lemma shr_1_div r : 0 ≤ shr_m r → shr_m (shr_1 r) = shr_m r / 2.
Proof.
  destruct r as [[|p|p] b1 b2]; simpl; [done| |lia]. intros _. destruct p as [p|p|]; simpl.
  - rewrite Pos2Z.inj_xI. apply Z.div_unique with 1; lia.
  - rewrite Pos2Z.inj_xO. apply Z.div_unique with 0; lia.
  - reflexivity.
Qed.

Lemma iter_shr_div p r : 0 ≤ shr_m r → shr_m (iter_pos shr_1 p r) = shr_m r / 2 ^ Z.pos p.
Proof.
  assert (∀ m a b, 0 ≤ a → 0 ≤ b → m / 2 ^ a / 2 ^ b = m / 2 ^ (a + b)) as Hdiv
    by (intros m a b ??; rewrite Z.pow_add_r by lia;
        pose proof (Z.pow_pos_nonneg 2 a); pose proof (Z.pow_pos_nonneg 2 b);
        apply Z.div_div; lia).
  assert (∀ m a, 0 ≤ m → 0 ≤ m / 2 ^ a) as Hnn by (intros m a ?; destruct (Z.le_gt_cases 0 a);
        [apply Z.div_pos; [lia|apply Z.pow_pos_nonneg; lia]|rewrite Z.pow_neg_r by lia; by rewrite Zdiv_0_r]).
  revert r. induction p as [p IH|p IH|]; intros r Hr; simpl iter_pos.
  - pose proof (shr_1_div r Hr) as H1. change 2 with (2 ^ 1) in H1.
    rewrite !IH by (rewrite ?IH, ?H1; auto; rewrite H1; auto).
    rewrite H1, !Hdiv by lia. do 2 f_equal. lia.
  - rewrite !IH by (rewrite ?IH; auto). rewrite Hdiv by lia. do 2 f_equal. lia.
  - by apply shr_1_div.
Qed.

Lemma shr_record_m m l : shr_m (shr_record_of_loc m l) = m.
Proof. by destruct l as [|[]]. Qed.

(** Within the exponents, a mantissa of at least 53 digits is cut to 53. *)
Lemma shr_fexp_cut m e l :
  0 < m → 52 ≤ Z.log2 m → -1000 ≤ e →
  shr_m (shr_fexp f64_prec f64_emax m e l).1 = m / 2 ^ (Z.log2 m - 52) ∧
  (shr_fexp f64_prec f64_emax m e l).2 = e + (Z.log2 m - 52).
Proof.
  intros Hm Hlog He. unfold shr_fexp.
  assert (Zdigits2 m = Z.log2 m + 1) as -> by (destruct m; simpl; [lia|apply digits2_log2|lia]).
  assert (fexp f64_prec f64_emax (Z.log2 m + 1 + e) - e = Z.log2 m - 52) as ->.
  { unfold fexp, emin, f64_prec, f64_emax. lia. }
  destruct (Z.log2 m - 52) as [|p|p] eqn:Hn; simpl; [| |lia].
  - rewrite shr_record_m, Z.div_1_r. lia.
  - by rewrite iter_shr_div; rewrite shr_record_m; [|lia].
Qed.

Lemma log2_div_pow2 m n : 0 < m → 0 ≤ n ≤ Z.log2 m → Z.log2 (m / 2 ^ n) = Z.log2 m - n.
Proof. intros. rewrite <- Z.shiftr_div_pow2 by lia. rewrite Z.log2_shiftr; lia. Qed.

Lemma round_nearest_even_bounds m l : m ≤ round_nearest_even m l ≤ m + 1.
Proof. destruct l as [|[]]; simpl; [lia| |lia|lia]. destruct (Z.even m); lia. Qed.

Lemma finite_between_mono x lo hi lo' hi' :
  finite_between x lo hi → lo' ≤ lo → hi ≤ hi' → finite_between x lo' hi'.
Proof. intros (m & e & -> & ? & ?) ??. exists m, e. split_and!; [done..|lia|lia]. Qed.

(** Rounding a number of at least 53 digits. *)
Lemma binary_round_aux_finite m e l :
  0 < m → 52 ≤ Z.log2 m → -1000 ≤ e → Z.log2 m + e ≤ 900 →
  finite_between (binary_round_aux f64_prec f64_emax false m e l)
    (e + Z.log2 m - 52) (e + Z.log2 m - 51).
Proof.
  intros Hm Hlog He Hmag. unfold binary_round_aux, finite_between.
  destruct (shr_fexp_cut m e l Hm Hlog He) as [Hm1 He1].
  destruct (shr_fexp f64_prec f64_emax m e l) as [r1 e1]. simpl in Hm1, He1.
  assert (Z.log2 (shr_m r1) = 52) as Hlog1 by (rewrite Hm1, log2_div_pow2; lia).
  assert (0 < shr_m r1) as Hpos1 by (destruct (Z.le_gt_cases (shr_m r1) 0);
    [rewrite Z.log2_nonpos in Hlog1 by done; lia|lia]).
  pose proof (round_nearest_even_bounds (shr_m r1) (loc_of_shr_record r1)) as Hr.
  set (m1 := round_nearest_even _ _) in *.
  assert (52 ≤ Z.log2 m1 ≤ 53) as Hlogm1.
  { pose proof (Z.log2_le_mono (shr_m r1) m1). pose proof (Z.log2_le_mono m1 (Z.succ (shr_m r1))).
    pose proof (Z.log2_succ_le (shr_m r1)). lia. }
  destruct (shr_fexp_cut m1 e1 loc_Exact) as [Hm2 He2]; [lia..|].
  destruct (shr_fexp f64_prec f64_emax m1 e1 loc_Exact) as [r2 e2]. simpl in Hm2, He2.
  assert (Z.log2 (shr_m r2) = 52) as Hlog2 by (rewrite Hm2, log2_div_pow2; lia).
  destruct (shr_m r2) as [|p|p]; [simpl in Hlog2; lia| |simpl in Hlog2; lia].
  rewrite (proj2 (Z.leb_le _ _)) by (unfold f64_emax, f64_prec; lia).
  exists p, e2. split_and!; [done|done|lia..].
Qed.

Lemma pos_iter_xO m d : Z.pos (Pos.iter xO m d) = Z.pos m * 2 ^ Z.pos d.
Proof.
  revert m. induction d as [|d IH] using Pos.peano_ind; intros m.
  - simpl Pos.iter. rewrite Pos2Z.inj_xO. lia.
  - rewrite Pos.iter_succ, Pos2Z.inj_xO, IH, Pos2Z.inj_succ, Z.pow_succ_r by lia. lia.
Qed.

(** A positive integer of at most 64 bits. *)
Lemma f64_of_Z_finite n : 0 < n < 2 ^ 64 → finite_between (f64_of_Z n) (-52) 12.
Proof.
  intros [Hn Hlt]. destruct n as [|p|p]; [lia| |lia]. unfold f64_of_Z, binary_normalize, binary_round.
  assert (Z.log2 (Z.pos p) < 64) as Hlog by (apply Z.log2_lt_pow2; lia).
  pose proof (Z.log2_nonneg (Z.pos p)). rewrite digits2_log2.
  assert (fexp f64_prec f64_emax (Z.log2 (Z.pos p) + 1 + 0) = Z.log2 (Z.pos p) - 52) as ->
    by (unfold fexp, emin, f64_prec, f64_emax; lia).
  unfold shl_align. rewrite Z.sub_0_r. destruct (Z.log2 (Z.pos p) - 52) as [|d|d] eqn:Hd.
  - eapply finite_between_mono; [apply binary_round_aux_finite|..]; lia.
  - eapply finite_between_mono; [apply binary_round_aux_finite|..]; lia.
  - assert (Z.log2 (Z.pos (Pos.iter xO p d)) = 52) as Hlog'
      by (rewrite pos_iter_xO, Z.log2_mul_pow2; lia).
    eapply finite_between_mono; [apply binary_round_aux_finite|..]; lia.
Qed.

Lemma f64_div_finite x y lo hi lo' hi' :
  finite_between x lo hi → finite_between y lo' hi' →
  -400 ≤ lo → hi ≤ 400 → -400 ≤ lo' → hi' ≤ 400 →
  finite_between (f64_div x y) (lo - hi' - 54) (hi - lo' - 50).
Proof.
  intros (m1 & e1 & -> & Hl1 & He1) (m2 & e2 & -> & Hl2 & He2) ????.
  unfold f64_div, SFdiv, SFdiv_core_binary.
  assert (∀ m, Zdigits2 (Z.pos m) = Z.log2 (Z.pos m) + 1) as Hdig by apply digits2_log2.
  rewrite !Hdig, Hl1, Hl2.
  assert (Z.min (fexp f64_prec f64_emax (52 + 1 + e1 - (52 + 1 + e2))) (e1 - e2) = e1 - e2 - 53) as ->
    by (unfold fexp, emin, f64_prec, f64_emax; lia).
  replace (e1 - e2 - (e1 - e2 - 53)) with 53 by lia. rewrite Z.shiftl_mul_pow2 by lia.
  pose proof (Z.log2_spec (Z.pos m1) eq_refl) as Hs1. rewrite Hl1 in Hs1.
  pose proof (Z.log2_spec (Z.pos m2) eq_refl) as Hs2. rewrite Hl2 in Hs2.
  destruct (Z.div_eucl (Z.pos m1 * 2 ^ 53) (Z.pos m2)) as [q r] eqn:Hq.
  assert (q = Z.pos m1 * 2 ^ 53 / Z.pos m2) as Hqeq by (unfold Z.div; by rewrite Hq).
  assert (2 ^ 52 ≤ q) as Hqlo by (rewrite Hqeq; apply Z.div_le_lower_bound; lia).
  assert (q < 2 ^ 54) as Hqhi by (rewrite Hqeq; apply Z.div_lt_upper_bound; lia).
  assert (52 ≤ Z.log2 q) by (apply Z.log2_le_pow2; lia).
  assert (Z.log2 q < 54) by (apply Z.log2_lt_pow2; lia).
  simpl xorb. eapply finite_between_mono; [apply binary_round_aux_finite|..]; lia.
Qed.
