(* ===== verification/Prometheus.v ===== *)
(** prometheus.rs: transfer rates between two scrapes and their text rendering. *)
From stdpp Require Import base gmap strings list.
From Stdlib Require Import ZArith Lia Ascii SpecFloat.
From S2P Require Import Prelude RustStd Float64 Model Facade.
Open Scope Z_scope.

Definition CONTENT_TYPE : string := "text/plain; version=0.0.4; charset=utf-8".

Record ListenerMetricsRate : Type := {
  lr_port : Z;
  lr_protocol : Protocol;
  lr_connections_current : Z;
  lr_rx_bytes_per_second : f64;
  lr_tx_bytes_per_second : f64;
}.

(** * The hasher of the sample map *)
Definition PackedKeyHasher : Type := Z.

Definition PackedKeyHasher_default : PackedKeyHasher := 0.

Definition PackedKeyHasher_finish (h : PackedKeyHasher) : Z := h.

(** FNV-1a over the bytes; what was hashed before is dropped. *)
Definition PackedKeyHasher_write (bytes : list Z) (h : PackedKeyHasher) : PackedKeyHasher :=
  foldl (λ hash byte, (Z.lxor hash byte * 1099511628211) mod (u64_max + 1))
        14695981039346656037 bytes.

Definition PackedKeyHasher_write_u32 (value : Z) (h : PackedKeyHasher) : PackedKeyHasher :=
  value.

(** * Rates *)
Record Sample : Type := {
  sm_rx_bytes_total : Z;
  sm_tx_bytes_total : Z;
  sm_timestamp_ms : Z;
  sm_generation : Z;
}.

Record RateCalculator : Type := { rc_samples : gmap Z Sample; rc_generation : Z }.

Definition RateCalculator_default : RateCalculator :=
  {| rc_samples := ∅; rc_generation := 0 |}.

Definition listener_key (port : Z) (p : Protocol) : Z :=
  Z.lor (Z.shiftl port 2) (match p with Tcp => 0 | Udp => 1 | Both => 2 end).

Definition bytes_per_second (current previous : Z) (elapsed_seconds : f64) : f64 :=
  if current <=? previous then f64_zero
  else f64_div (f64_of_Z (current - previous)) elapsed_seconds.

Definition calculate_rate (snapshot : ListenerMetricsSnapshot) (previous : option Sample)
    (timestamp_ms : Z) : ListenerMetricsRate :=
  let '(rx_rate, tx_rate) :=
    match previous with
    | Some prev =>
        let elapsed_ms := i64_saturating_sub timestamp_ms (sm_timestamp_ms prev) in
        if elapsed_ms >? 0 then
          let elapsed_seconds := f64_div (f64_of_Z elapsed_ms) (f64_of_Z 1000) in
          (bytes_per_second (lm_rx_bytes_total snapshot) (sm_rx_bytes_total prev) elapsed_seconds,
           bytes_per_second (lm_tx_bytes_total snapshot) (sm_tx_bytes_total prev) elapsed_seconds)
        else (f64_zero, f64_zero)
    | None => (f64_zero, f64_zero)
    end in
  {| lr_port := lm_port snapshot; lr_protocol := lm_protocol snapshot;
     lr_connections_current := lm_connections_current snapshot;
     lr_rx_bytes_per_second := rx_rate; lr_tx_bytes_per_second := tx_rate |}.

Definition current_sample (snapshot : ListenerMetricsSnapshot) (timestamp_ms generation : Z)
    : Sample :=
  {| sm_rx_bytes_total := lm_rx_bytes_total snapshot;
     sm_tx_bytes_total := lm_tx_bytes_total snapshot;
     sm_timestamp_ms := timestamp_ms; sm_generation := generation |}.

Definition snapshot_key (snapshot : ListenerMetricsSnapshot) : Z :=
  listener_key (lm_port snapshot) (lm_protocol snapshot).

(** The loop over the snapshots. *)
Fixpoint calculate_loop (snapshots : list ListenerMetricsSnapshot) (timestamp_ms generation : Z)
    (samples : gmap Z Sample) : gmap Z Sample * list ListenerMetricsRate :=
  match snapshots with
  | [] => (samples, [])
  | snapshot :: snapshots' =>
      let key := snapshot_key snapshot in
      let current := current_sample snapshot timestamp_ms generation in
      let previous := samples !! key in
      let '(samples', rates) :=
        calculate_loop snapshots' timestamp_ms generation (<[key := current]> samples) in
      (samples', calculate_rate snapshot previous timestamp_ms :: rates)
  end.

Definition RateCalculator_calculate (snapshots : list ListenerMetricsSnapshot) (timestamp_ms : Z)
    (c : RateCalculator) : RateCalculator * list ListenerMetricsRate :=
  let generation := u64_wrapping_add (rc_generation c) 1 in
  let '(samples, rates) := calculate_loop snapshots timestamp_ms generation (rc_samples c) in
  ({| rc_samples := filter (λ ks, sm_generation ks.2 = generation) samples;
      rc_generation := generation |}, rates).

Definition RateCalculator_sample_count (c : RateCalculator) : nat := size (rc_samples c).

(** * Rendering *)
Definition dquote : string := String (ascii_of_nat 34) EmptyString.
Definition newline : string := String (ascii_of_nat 10) EmptyString.

(** One line: name, labels, value. *)
Definition render_line (name : string) (row : ListenerMetricsRate) (value : string) : string :=
  (name +:+ "{port=" +:+ dquote +:+ u64_to_string (lr_port row) +:+ dquote +:+ ",protocol=" +:+
   dquote +:+ Protocol_as_str (lr_protocol row) +:+ dquote +:+ "} " +:+ value +:+ newline)%string.

Fixpoint str_concat (l : list string) : string :=
  match l with
  | [] => EmptyString
  | s :: l' => (s +:+ str_concat l')%string
  end.

Definition render_rates (rows : list ListenerMetricsRate) : string :=
  ("# TYPE relayd_connections_current gauge" +:+ newline +:+
   str_concat ((λ row, render_line "relayd_connections_current" row
                         (u64_to_string (lr_connections_current row))) <$> rows) +:+
   "# TYPE relayd_rx_bytes_per_second gauge" +:+ newline +:+
   str_concat ((λ row, render_line "relayd_rx_bytes_per_second" row
                         (f64_to_string (lr_rx_bytes_per_second row))) <$> rows) +:+
   "# TYPE relayd_tx_bytes_per_second gauge" +:+ newline +:+
   str_concat ((λ row, render_line "relayd_tx_bytes_per_second" row
                         (f64_to_string (lr_tx_bytes_per_second row))) <$> rows))%string.

Definition render (rows : list ListenerMetricsSnapshot) : string :=
  render_rates (RateCalculator_calculate rows 0 RateCalculator_default).2.
