(* ===== verification/PrometheusSpec.v ===== *)
(** The contract of prometheus.rs: keys identify listeners, a rate compares a scrape with
    the one just before it and with no other, and no rate is negative or NaN. *)
From stdpp Require Import base gmap strings list.
From Stdlib Require Import ZArith Lia SpecFloat.
From S2P Require Import Prelude RustStd Float64 Model Facade Prometheus.
Open Scope Z_scope.

Definition listener_of (s : ListenerMetricsSnapshot) : Z * Protocol :=
  (lm_port s, lm_protocol s).

Definition port_ok (s : ListenerMetricsSnapshot) : Prop := is_u16 (lm_port s).

Lemma port_ok_in snaps s : Forall port_ok snaps → s ∈ snaps → port_ok s.
Proof. rewrite Forall_forall. auto. Qed.

(** * Keys *)
Definition protocol_code (p : Protocol) : Z := match p with Tcp => 0 | Udp => 1 | Both => 2 end.

Lemma listener_key_arith port p : 0 ≤ port → listener_key port p = 4 * port + protocol_code p.
Proof.
  intros Hport. unfold listener_key, protocol_code.
  rewrite Z.shiftl_mul_pow2 by lia. change (2 ^ 2) with 4.
  set (k := match p with Tcp => 0 | Udp => 1 | Both => 2 end).
  assert (0 ≤ k < 4) as Hk by (subst k; destruct p; lia).
  pose proof (Z.add_lor_land (port * 4) k). enough (Z.land (port * 4) k = 0) by lia.
  apply Z.bits_inj'. intros n Hn. rewrite Z.land_spec, Z.bits_0.
  destruct (Z.ltb_spec n 2).
  - change 4 with (2 ^ 2). by rewrite Z.mul_pow2_bits_low by lia.
  - apply andb_false_intro2. destruct (decide (k = 0)) as [->|]; [by rewrite Z.bits_0|].
    apply Z.bits_above_log2; [lia|]. assert (Z.log2 k < 2); [|lia].
    apply Z.log2_lt_pow2; lia.
Qed.

Lemma listener_key_inj port port' p p' :
  0 ≤ port → 0 ≤ port' → listener_key port p = listener_key port' p' → port = port' ∧ p = p'.
Proof.
  intros ??. rewrite !listener_key_arith by done. unfold protocol_code.
  destruct p, p'; intros; split; try done; lia.
Qed.

(** The sample map's hash is perfect: the packed key of a 16-bit port and a protocol
    fits in 32 bits, and two listeners with the same hash are the same listener. *)
Theorem listener_key_perfect_hash port port' p p' h h'
    (Hport : is_u16 port) (Hport' : is_u16 port')
    (Hhash : PackedKeyHasher_finish (PackedKeyHasher_write_u32 (listener_key port p) h) =
             PackedKeyHasher_finish (PackedKeyHasher_write_u32 (listener_key port' p') h')) :
  port = port' ∧ p = p' ∧ 0 ≤ listener_key port p ≤ u32_max.
Proof.
  unfold is_u16, u16_max, u32_max in *.
  destruct (listener_key_inj port port' p p') as [-> ->]; [lia|lia|exact Hhash|].
  split_and!; try done; rewrite listener_key_arith by lia; unfold protocol_code; destruct p'; lia.
Qed.

Lemma snapshot_key_listener s s' :
  port_ok s → port_ok s' → snapshot_key s = snapshot_key s' ↔ listener_of s = listener_of s'.
Proof.
  unfold port_ok, is_u16, snapshot_key, listener_of. intros [? _] [? _]. split.
  - intros [-> ->]%listener_key_inj; done.
  - by intros [= -> ->].
Qed.

(** * The loop *)
Lemma calculate_loop_lookup snaps ts g samples k :
  (k ∉ snapshot_key <$> snaps → (calculate_loop snaps ts g samples).1 !! k = samples !! k) ∧
  (k ∈ snapshot_key <$> snaps → ∃ s, s ∈ snaps ∧ snapshot_key s = k ∧
     (calculate_loop snaps ts g samples).1 !! k = Some (current_sample s ts g)).
Proof.
  revert samples. induction snaps as [|s snaps IH]; intros samples; simpl; [set_solver|].
  destruct (IH (<[snapshot_key s:=current_sample s ts g]> samples)) as [IHout IHin].
  destruct (calculate_loop snaps ts g _) as [samples' rates]. simpl in *. split.
  - rewrite not_elem_of_cons. intros [? Hk]. rewrite IHout by done. by rewrite lookup_insert_ne.
  - intros Hk. destruct (decide (k ∈ snapshot_key <$> snaps)) as [Hin|Hout].
    + destruct (IHin Hin) as (s' & ? & ? & ?). exists s'. set_solver.
    + apply elem_of_cons in Hk as [->|]; [|done]. exists s.
      rewrite IHout, lookup_insert_eq by done. set_solver.
Qed.

Lemma calculate_loop_rates snaps ts g samples :
  NoDup (snapshot_key <$> snaps) →
  (calculate_loop snaps ts g samples).2 =
    (λ s, calculate_rate s (samples !! snapshot_key s) ts) <$> snaps.
Proof.
  revert samples. induction snaps as [|s snaps IH]; intros samples; simpl; [done|].
  intros [Hs Hnd]%NoDup_cons.
  specialize (IH (<[snapshot_key s:=current_sample s ts g]> samples) Hnd).
  destruct (calculate_loop snaps ts g _) as [samples' rates]. simpl in *. rewrite IH. f_equal.
  apply list_fmap_ext. intros i s' Hi. f_equal. apply lookup_insert_ne.
  intros Heq. apply Hs. rewrite Heq. apply list_elem_of_fmap_2. by eapply list_elem_of_lookup_2.
Qed.

(** * Sequences of scrapes *)
Definition run_scrapes (calls : list (list ListenerMetricsSnapshot * Z)) : RateCalculator :=
  foldl (λ c call, (RateCalculator_calculate call.1 call.2 c).1) RateCalculator_default calls.

(** Every sample is of the last generation. *)
Definition calculator_inv (c : RateCalculator) : Prop :=
  is_u64 (rc_generation c) ∧
  map_Forall (λ _ s, sm_generation s = rc_generation c) (rc_samples c).

Lemma next_generation_ne g : is_u64 g → u64_wrapping_add g 1 ≠ g ∧ is_u64 (u64_wrapping_add g 1).
Proof.
  unfold is_u64, u64_wrapping_add. intros Hg. split.
  - destruct (decide (g = u64_max)) as [->|]; [done|]. rewrite Z.mod_small; lia.
  - pose proof (Z.mod_pos_bound (g + 1) (u64_max + 1) eq_refl). lia.
Qed.

(** What a call leaves: the last sample of every listener it saw, and nothing else. *)
Lemma calculate_samples snaps ts c k :
  calculator_inv c →
  let c' := (RateCalculator_calculate snaps ts c).1 in
  (k ∉ snapshot_key <$> snaps → rc_samples c' !! k = None) ∧
  (k ∈ snapshot_key <$> snaps → ∃ s, s ∈ snaps ∧ snapshot_key s = k ∧
     rc_samples c' !! k = Some (current_sample s ts (rc_generation c'))).
Proof.
  intros [Hg Hall]. destruct (next_generation_ne _ Hg) as [Hne _].
  unfold RateCalculator_calculate. set (g := u64_wrapping_add (rc_generation c) 1) in *.
  destruct (calculate_loop_lookup snaps ts g (rc_samples c) k) as [Hout Hin].
  destruct (calculate_loop snaps ts g (rc_samples c)) as [samples rates]. simpl in *. split.
  - intros Hk. apply map_lookup_filter_None_2. right. intros s Hs. rewrite (Hout Hk) in Hs.
    simpl. apply Hall in Hs. simpl in Hs. congruence.
  - intros Hk. destruct (Hin Hk) as (s & ? & ? & Hs). exists s. split_and!; [done..|].
    by apply map_lookup_filter_Some_2.
Qed.

Lemma calculate_inv snaps ts c :
  calculator_inv c → calculator_inv (RateCalculator_calculate snaps ts c).1.
Proof.
  intros Hc. split.
  - unfold RateCalculator_calculate. destruct (calculate_loop _ _ _ _).
    apply next_generation_ne, Hc.
  - intros k s. destruct (calculate_samples snaps ts c k Hc) as [Hout Hin].
    destruct (decide (k ∈ snapshot_key <$> snaps)) as [Hk|Hk].
    + destruct (Hin Hk) as (s' & _ & _ & ->). by intros [= <-].
    + by rewrite (Hout Hk).
Qed.

Lemma run_scrapes_inv calls : calculator_inv (run_scrapes calls).
Proof.
  induction calls as [|call calls IH] using rev_ind.
  - split; [by vm_compute|]. apply map_Forall_empty.
  - unfold run_scrapes. rewrite foldl_snoc. by apply calculate_inv.
Qed.

Lemma size_list_to_set_le (l : list Z) : (size (list_to_set l : gset Z) ≤ length l)%nat.
Proof.
  induction l as [|x l IH]; simpl; [done|].
  destruct (decide (x ∈@{gset Z} list_to_set l)) as [Hin|Hout].
  - replace ({[x]} ∪ list_to_set l : gset Z) with (list_to_set l : gset Z) by set_solver. lia.
  - rewrite size_union by set_solver. rewrite size_singleton. lia.
Qed.

(** The calculator does not grow: after any sequence of scrapes it holds one sample
    per listener of the last one, also when the generation counter wraps around. *)
Theorem calculator_forgets calls snaps ts :
  let c := (RateCalculator_calculate snaps ts (run_scrapes calls)).1 in
  dom (rc_samples c) = list_to_set (snapshot_key <$> snaps) ∧
  (RateCalculator_sample_count c ≤ length snaps)%nat.
Proof.
  intros c. assert (dom (rc_samples c) =@{gset Z} list_to_set (snapshot_key <$> snaps)) as Hdom.
  { apply set_eq. intros k. rewrite elem_of_dom, elem_of_list_to_set.
    destruct (calculate_samples snaps ts _ k (run_scrapes_inv calls)) as [Hout Hin].
    fold c in Hout, Hin. split.
    - intros [s Hs]. destruct (decide (k ∈ snapshot_key <$> snaps)); [done|]. rewrite Hout in Hs; done.
    - intros Hk. destruct (Hin Hk) as (s & _ & _ & ->). by eexists. }
  split; [done|]. unfold RateCalculator_sample_count. rewrite <- size_dom, Hdom.
  rewrite <- (length_fmap snapshot_key snaps). apply size_list_to_set_le.
Qed.

(** * Rates between scrapes *)

(** What the previous scrape saw of a listener. *)
Definition last_seen (prev : list ListenerMetricsSnapshot) (s : ListenerMetricsSnapshot)
    : option ListenerMetricsSnapshot :=
  head (filter (λ s', listener_of s' = listener_of s) prev).

(** The rate of a counter between two scrapes, [0] without progress of both the clock
    and the counter. *)
Definition rate_between (current previous ts prev_ts : Z) : f64 :=
  if bool_decide (prev_ts < ts ∧ previous < current) then
    f64_div (f64_of_Z (current - previous))
            (f64_div (f64_of_Z (Z.min i64_max (ts - prev_ts))) (f64_of_Z 1000))
  else f64_zero.

Definition rate_since (prev : list ListenerMetricsSnapshot) (prev_ts ts : Z)
    (s : ListenerMetricsSnapshot) : ListenerMetricsRate :=
  let rate f := match last_seen prev s with
                | Some s' => rate_between (f s) (f s') ts prev_ts
                | None => f64_zero
                end in
  {| lr_port := lm_port s; lr_protocol := lm_protocol s;
     lr_connections_current := lm_connections_current s;
     lr_rx_bytes_per_second := rate lm_rx_bytes_total;
     lr_tx_bytes_per_second := rate lm_tx_bytes_total |}.

Lemma bytes_per_second_between current previous ts prev_ts :
  (if i64_saturating_sub ts prev_ts >? 0 then
     bytes_per_second current previous
       (f64_div (f64_of_Z (i64_saturating_sub ts prev_ts)) (f64_of_Z 1000))
   else f64_zero) = rate_between current previous ts prev_ts.
Proof.
  unfold rate_between, bytes_per_second, i64_saturating_sub, i64_min, i64_max.
  case_bool_decide as Hd.
  - rewrite (proj2 (Z.gtb_lt _ _)) by lia. rewrite (proj2 (Z.leb_gt _ _)) by lia.
    do 3 f_equal. lia.
  - destruct (Z.gtb_spec (Z.max (-9223372036854775808) (Z.min 9223372036854775807 (ts - prev_ts))) 0);
      [|done]. destruct (Z.leb_spec current previous); [done|]. lia.
Qed.

Lemma calculate_rate_between s s' ts prev_ts g :
  calculate_rate s (Some (current_sample s' prev_ts g)) ts =
  {| lr_port := lm_port s; lr_protocol := lm_protocol s;
     lr_connections_current := lm_connections_current s;
     lr_rx_bytes_per_second := rate_between (lm_rx_bytes_total s) (lm_rx_bytes_total s') ts prev_ts;
     lr_tx_bytes_per_second := rate_between (lm_tx_bytes_total s) (lm_tx_bytes_total s') ts prev_ts |}.
Proof.
  rewrite <- !bytes_per_second_between. unfold calculate_rate, current_sample. simpl.
  by destruct (i64_saturating_sub ts prev_ts >? 0).
Qed.

Lemma last_seen_unique prev s s' :
  NoDup (listener_of <$> prev) → s' ∈ prev → listener_of s' = listener_of s →
  last_seen prev s = Some s'.
Proof.
  unfold last_seen. induction prev as [|x prev IH]; simpl; [set_solver|].
  intros [Hx Hnd]%NoDup_cons Hin Heq. rewrite filter_cons. apply elem_of_cons in Hin as [->|Hin].
  - by rewrite decide_True.
  - rewrite decide_False; [by apply IH|]. intros Hxs. apply Hx. rewrite Hxs, <- Heq.
    by apply list_elem_of_fmap_2.
Qed.

Lemma last_seen_None prev s : listener_of s ∉ listener_of <$> prev → last_seen prev s = None.
Proof.
  unfold last_seen. induction prev as [|x prev IH]; [done|]. simpl.
  rewrite not_elem_of_cons. intros [Hx Hs]. rewrite filter_cons, decide_False by done. by apply IH.
Qed.

Lemma NoDup_keys snaps :
  Forall port_ok snaps → NoDup (listener_of <$> snaps) → NoDup (snapshot_key <$> snaps).
Proof.
  induction 1 as [|s snaps Hs Hall IH]; [intros _; constructor|]. simpl.
  intros [Hout Hnd]%NoDup_cons. constructor; [|by apply IH].
  intros (s' & Hk & Hin)%list_elem_of_fmap. apply Hout.
  apply snapshot_key_listener in Hk; [|done|by apply (port_ok_in snaps)].
  rewrite Hk. by apply list_elem_of_fmap_2.
Qed.

(** C36: A rate compares a scrape with the one just before it: whatever was scraped
    earlier, a listener the previous scrape saw gets the rounded quotient of the
    counters' difference and the seconds between the two when clock and counter both
    advanced and zero otherwise, and a listener it did not see gets zero. *)
Theorem rates_between_scrapes calls prev prev_ts snaps ts
    (Hports : Forall port_ok (prev ++ snaps))
    (Hprev : NoDup (listener_of <$> prev)) (Hsnaps : NoDup (listener_of <$> snaps)) :
  (RateCalculator_calculate snaps ts (run_scrapes (calls ++ [(prev, prev_ts)]))).2 =
  rate_since prev prev_ts ts <$> snaps.
Proof.
  apply Forall_app in Hports as [Hp Hs].
  unfold run_scrapes. rewrite foldl_snoc. fold (run_scrapes calls). simpl.
  set (c := (RateCalculator_calculate prev prev_ts (run_scrapes calls)).1).
  unfold RateCalculator_calculate.
  pose proof (calculate_loop_rates snaps ts (u64_wrapping_add (rc_generation c) 1) (rc_samples c)
                (NoDup_keys _ Hs Hsnaps)) as Hr.
  destruct (calculate_loop snaps ts _ _) as [samples rates]. simpl in *. rewrite Hr.
  apply list_fmap_ext. intros i s Hi. apply list_elem_of_lookup_2 in Hi.
  assert (port_ok s) as Hsok by (by apply (port_ok_in snaps)).
  destruct (calculate_samples prev prev_ts _ (snapshot_key s) (run_scrapes_inv calls)) as [Hout Hin].
  fold c in Hout, Hin. unfold rate_since.
  destruct (decide (snapshot_key s ∈ snapshot_key <$> prev)) as [Hk|Hk].
  - destruct (Hin Hk) as (s' & Hs' & Heq & ->). rewrite calculate_rate_between.
    assert (listener_of s' = listener_of s) as Hl
      by (apply snapshot_key_listener; [by apply (port_ok_in prev)|done|done]).
    by rewrite (last_seen_unique prev s s' Hprev Hs' Hl).
  - rewrite (Hout Hk), last_seen_None; [done|].
    intros (s' & Heq & Hs')%list_elem_of_fmap. apply Hk.
    rewrite (proj2 (snapshot_key_listener s s' Hsok (port_ok_in prev s' Hp Hs')) Heq).
    by apply list_elem_of_fmap_2.
Qed.

(** Rates are numbers a scraper can use: over 64-bit counters a rate is finite, never
    NaN and never negative, and it is positive exactly when both the clock and the
    counter advanced. *)
Theorem rate_between_finite current previous ts prev_ts
    (Hc : is_u64 current) (Hp : is_u64 previous) :
  (prev_ts < ts ∧ previous < current ∧
   ∃ m e, rate_between current previous ts prev_ts = S754_finite false m e) ∨
  (¬ (prev_ts < ts ∧ previous < current) ∧
   rate_between current previous ts prev_ts = f64_zero).
Proof.
  unfold rate_between, is_u64, u64_max, i64_max in *. case_bool_decide as Hd; [left|by right].
  split_and!; [lia..|].
  destruct (f64_div_finite (f64_of_Z (current - previous))
    (f64_div (f64_of_Z (Z.min 9223372036854775807 (ts - prev_ts))) (f64_of_Z 1000))
    (-52) 12 (-118) 14) as (m & e & -> & _); [| |lia..|by eauto].
  - apply f64_of_Z_finite. lia.
  - apply (f64_div_finite _ _ (-52) 12 (-52) 12); [apply f64_of_Z_finite; lia..|lia|lia|lia|lia].
Qed.
