(* ===== verification/ControlPlane.v ===== *)
(** http/control_plane.rs: the HTTP control plane. A handler runs over the state the
    router shares, [AppState], and may return its response early.

    axum, http and serde are outside the sources: matching a path against the route
    patterns ([matchit]), extracting the path parameter, reading a body up to a limit,
    a header value as text and decoding a body are parameters. A response's JSON is
    the value handed to serde. *)
From stdpp Require Import base gmap strings list.
From Stdlib Require Import ZArith Lia Ascii.
From S2P Require Import Prelude RustStd Model Config Facade Sqlite SqliteSpec Store.
From S2P Require Import AllocationService Metrics Float64 Prometheus.
Open Scope Z_scope.

(** * Responses *)
Inductive JsonValue : Type :=
| JMetrics (m : JsonMetrics)
| JResource (r : AllocationResource)
| JResources (rs : list AllocationResource)
| JBindingView (v : BindingView)
| JAllocationView (v : AllocationView)
| JAllocationViews (vs : list AllocationView).

Inductive ResponseBody : Type :=
| EmptyBody
| TextBody (s : string)
| JsonBody (v : JsonValue).

(** The content type is the one the code sets itself. *)
Record Response : Type := {
  rp_status : Z;
  rp_content_type : option string;
  rp_body : ResponseBody;
}.

Definition OK : Z := 200.
Definition CREATED : Z := 201.
Definition NO_CONTENT : Z := 204.
Definition BAD_REQUEST : Z := 400.
Definition UNAUTHORIZED : Z := 401.
Definition NOT_FOUND : Z := 404.
Definition CONFLICT : Z := 409.
Definition INTERNAL_SERVER_ERROR : Z := 500.
Definition SERVICE_UNAVAILABLE : Z := 503.

Definition json_response (status : Z) (value : JsonValue) : Response :=
  {| rp_status := status; rp_content_type := None; rp_body := JsonBody value |}.

Definition text_response (status : Z) (body : string) : Response :=
  {| rp_status := status; rp_content_type := None; rp_body := TextBody body |}.

Definition status_response (status : Z) : Response :=
  {| rp_status := status; rp_content_type := None; rp_body := EmptyBody |}.

Record HttpTextError : Type := { he_status : Z; he_body : string }.

Definition HttpTextError_into_response (e : HttpTextError) : Response :=
  text_response (he_status e) (he_body e).

Definition service_error_response (error : ServiceError) : Response :=
  match error with
  | NotFound => text_response NOT_FOUND "NotFound"
  | NoAvailablePort => text_response CONFLICT "NoAvailablePort"
  | InvalidHost => text_response BAD_REQUEST "InvalidHost"
  | Timeout => text_response SERVICE_UNAVAILABLE "Timeout"
  | SvcRuntime RuntimeCreateFailed => text_response SERVICE_UNAVAILABLE "RuntimeCreateFailed"
  | SvcRuntime RuntimeUpdateFailed => text_response SERVICE_UNAVAILABLE "RuntimeUpdateFailed"
  | SvcRuntime RuntimeDeleteFailed => text_response SERVICE_UNAVAILABLE "RuntimeDeleteFailed"
  | SvcRuntime RuntimeRestoreFailed => text_response SERVICE_UNAVAILABLE "RuntimeRestoreFailed"
  | SvcRuntime RuntimeApplyFailed => text_response SERVICE_UNAVAILABLE "RuntimeApplyFailed"
  | SvcRuntime RuntimeTimeout => text_response SERVICE_UNAVAILABLE "Timeout"
  | DeletePersistenceFailed => text_response INTERNAL_SERVER_ERROR "DeletePersistenceFailed"
  | SvcRepository _ => text_response INTERNAL_SERVER_ERROR "internal server error"
  end.

(** * Requests *)
Inductive Method : Type := GET | HEAD | POST | PUT | DELETE | OtherMethod (name : string).

Record AllocationCreateRequest : Type := { ac_protocol : string }.
Record BindingPutRequest : Type := { bp_host : string; bp_target_port : Z }.
Record PortCreateRequest : Type := { pc_protocol : string; pc_target_port : Z }.
Record TargetRequest : Type := { tr_id : string; tr_host : string }.
Record UpdateRequest : Type := { ur_target_port : option Z; ur_host : option string }.

(** What the handlers read of a request; the header is the first Authorization
    header's value. *)
Record HttpRequest (Body : Type) : Type := {
  rq_method : Method;
  rq_path : string;
  rq_authorization : option string;
  rq_body : Body;
}.
Arguments rq_method {Body} _.
Arguments rq_path {Body} _.
Arguments rq_authorization {Body} _.
Arguments rq_body {Body} _.

Definition parse_protocol (value : string) : result Protocol HttpTextError :=
  map_err (λ _, {| he_status := BAD_REQUEST; he_body := "invalid protocol" |})
    (Protocol_from_str value).

Definition parse_request_port (port : Z) : result Z HttpTextError :=
  map_err (λ _, {| he_status := BAD_REQUEST; he_body := "invalid port" |})
    (parse_port (u64_to_string port)).

Fixpoint as_bytes (s : string) : list Z :=
  match s with
  | EmptyString => []
  | String c s' => ascii_code c :: as_bytes s'
  end.

(** [diff] is a [u8]. *)
Definition constant_time_eq (a b : list Z) : bool :=
  if negb (length a =? length b)%nat then false
  else foldl (λ diff xy, Z.lor diff (Z.lxor xy.1 xy.2)) 0 (zip a b) =? 0.

(** serde's decoders of the five bodies. *)
Record Decoders : Type := {
  de_allocation_create : string → option AllocationCreateRequest;
  de_binding_put : string → option BindingPutRequest;
  de_port_create : string → option PortCreateRequest;
  de_target : string → option TargetRequest;
  de_update : string → option UpdateRequest;
}.

Record AppState (R : Type) : Type := {
  as_service : Service R;
  as_metrics : Metrics;
  as_auth_token : string;
  as_prometheus_rates : RateCalculator;
}.
Arguments as_service {R} _.
Arguments as_metrics {R} _.
Arguments as_auth_token {R} _.
Arguments as_prometheus_rates {R} _.

Definition AppState_new {R} (service : Service R) (metrics : Metrics) (auth_token : string)
    : AppState R :=
  {| as_service := service; as_metrics := metrics; as_auth_token := auth_token;
     as_prometheus_rates := RateCalculator_default |}.

Definition set_service {R} (v : Service R) (s : AppState R) : AppState R :=
  {| as_service := v; as_metrics := as_metrics s; as_auth_token := as_auth_token s;
     as_prometheus_rates := as_prometheus_rates s |}.

Definition set_rates {R} (c : RateCalculator) (s : AppState R) : AppState R :=
  {| as_service := as_service s; as_metrics := as_metrics s; as_auth_token := as_auth_token s;
     as_prometheus_rates := c |}.

Section handlers.
  Context {R : Type} `{RuntimeFacade R}.
  Context (clock : nat → Z) (id_generator : nat → string).
  Context {Body : Type} (to_bytes : Body → Z → option string) (serde : Decoders).
  Context (header_to_str : string → option string).
  (** [matchit patterns path]: the index of the pattern the path matches. *)
  Context (matchit : list string → string → option nat).
  Context (path_param : string → result string Response).

Abbreviation Handler := (M (AppState R) Response Response).
Abbreviation HM := (M (AppState R) Response).

(** A call of the service whose error becomes the response. *)
Definition service_call {A} (m : SvcM R A) : HM A :=
  zoom as_service set_service service_error_response m.

Definition or_respond {A} (r : result A HttpTextError) : HM A :=
  of_result (map_err HttpTextError_into_response r).

Definition Authed_from_request_parts (rq : HttpRequest Body) : HM unit :=
  let unauthorized := text_response UNAUTHORIZED "unauthorized" in
  let! value := of_result (ok_or unauthorized (rq_authorization rq ≫= header_to_str)) in
  let! provided := of_result (ok_or unauthorized (strip_prefix "Bearer " value)) in
  let! token := gets as_auth_token in
  if constant_time_eq (as_bytes provided) (as_bytes token) then ret tt else fail unauthorized.

Definition read_json {T} (from_slice : string → option T) (rq : HttpRequest Body)
    : result T HttpTextError :=
  let invalid := {| he_status := BAD_REQUEST; he_body := "invalid request body" |} in
  let? bytes := ok_or invalid (to_bytes (rq_body rq) 4096) in
  ok_or invalid (from_slice bytes).

(** The parameter of the path, axum's [Path<String>]. *)
Definition Path (rq : HttpRequest Body) : HM string := of_result (path_param (rq_path rq)).

Definition http_current_time_ms : HM Z :=
  zoom as_service set_service service_error_response (current_time_ms clock).

Definition calculate_rates (rows : list ListenerMetricsSnapshot) (timestamp_ms : Z)
    : HM (list ListenerMetricsRate) := λ s,
  let '(c, rates) := RateCalculator_calculate rows timestamp_ms (as_prometheus_rates s) in
  (Ok rates, set_rates c s).

(** * Handlers, after the [Authed] extractor *)
Definition prometheus_metrics (_rq : HttpRequest Body) : Handler :=
  let! rows := service_call Service_snapshot_listener_metrics in
  let! timestamp_ms := http_current_time_ms in
  let! rates := calculate_rates rows timestamp_ms in
  ret {| rp_status := OK; rp_content_type := Some CONTENT_TYPE;
         rp_body := TextBody (render_rates rates) |}.

Definition json_metrics (_rq : HttpRequest Body) : Handler :=
  let! metrics := gets as_metrics in
  ret (json_response OK (JMetrics (Metrics_snapshot metrics))).

Definition list_allocations (_rq : HttpRequest Body) : Handler :=
  let! resources := service_call Service_list_allocation_resources in
  ret (json_response OK (JResources resources)).

Definition create_allocation (rq : HttpRequest Body) : Handler :=
  let! body := or_respond (read_json (de_allocation_create serde) rq) in
  let! protocol := or_respond (parse_protocol (ac_protocol body)) in
  let! allocation := service_call (Service_create_allocation clock id_generator protocol None) in
  ret (json_response CREATED (JResource (allocation_resource allocation))).

Definition get_allocation (rq : HttpRequest Body) : Handler :=
  let! id := Path rq in
  let! found := service_call (Service_get_allocation_resource id) in
  match found with
  | Some resource => ret (json_response OK (JResource resource))
  | None => ret (text_response NOT_FOUND "NotFound")
  end.

Definition delete_allocation (rq : HttpRequest Body) : Handler :=
  let! id := Path rq in
  let! _done := service_call (Service_delete_allocation id) in
  ret (status_response NO_CONTENT).

Definition get_binding (rq : HttpRequest Body) : Handler :=
  let! id := Path rq in
  let! found := service_call (Service_get_binding_view id) in
  match found with
  | Some view => ret (json_response OK (JBindingView view))
  | None => ret (text_response NOT_FOUND "NotFound")
  end.

Definition put_binding (rq : HttpRequest Body) : Handler :=
  let! id := Path rq in
  let! body := or_respond (read_json (de_binding_put serde) rq) in
  let! target_port := or_respond (parse_request_port (bp_target_port body)) in
  let! binding := service_call (Service_put_binding clock id (bp_host body) target_port) in
  let! view := service_call (Service_binding_view_for binding) in
  ret (json_response OK (JBindingView view)).

Definition delete_binding (rq : HttpRequest Body) : Handler :=
  let! id := Path rq in
  let! _done := service_call (Service_delete_binding clock id) in
  ret (status_response NO_CONTENT).

Definition aggregate_view (allocation : Allocation) (status : Z) : Handler :=
  let! view := service_call (Service_allocation_view_for allocation) in
  ret (json_response status (JAllocationView view)).

Definition list_ports (_rq : HttpRequest Body) : Handler :=
  let! views := service_call Service_list_allocations in
  ret (json_response OK (JAllocationViews views)).

Definition create_port (rq : HttpRequest Body) : Handler :=
  let! body := or_respond (read_json (de_port_create serde) rq) in
  let! protocol := or_respond (parse_protocol (pc_protocol body)) in
  let! target_port := or_respond (parse_request_port (pc_target_port body)) in
  let! allocation :=
    service_call (Service_create_allocation clock id_generator protocol (Some target_port)) in
  aggregate_view allocation CREATED.

Definition set_target (rq : HttpRequest Body) : Handler :=
  let! body := or_respond (read_json (de_target serde) rq) in
  let! allocation := service_call (Service_set_target clock (tr_id body) (tr_host body)) in
  aggregate_view allocation OK.

Definition update_port (rq : HttpRequest Body) : Handler :=
  let! id := Path rq in
  let! body := or_respond (read_json (de_update serde) rq) in
  let! target_port :=
    match ur_target_port body with
    | Some port => or_respond (let? value := parse_request_port port in Ok (Some value))
    | None => ret None
    end in
  match target_port, ur_host body with
  | None, None => ret (text_response BAD_REQUEST "empty update")
  | _, _ =>
      let! allocation := service_call (Service_update_allocation clock id target_port (ur_host body)) in
      aggregate_view allocation OK
  end.

Definition delete_port (rq : HttpRequest Body) : Handler :=
  let! id := Path rq in
  let! _done := service_call (Service_delete_allocation id) in
  ret (status_response NO_CONTENT).

Definition not_found (_rq : HttpRequest Body) : Handler :=
  ret (text_response NOT_FOUND "not found").

(** * The router *)
Record MethodRouter : Type := {
  mr_get : option (HttpRequest Body → Handler);
  mr_post : option (HttpRequest Body → Handler);
  mr_put : option (HttpRequest Body → Handler);
  mr_delete : option (HttpRequest Body → Handler);
}.

Definition routes : list (string * MethodRouter) := [
  ("/metrics"%string,
   {| mr_get := Some prometheus_metrics; mr_post := None; mr_put := None; mr_delete := None |});
  ("/v1/metrics"%string,
   {| mr_get := Some json_metrics; mr_post := None; mr_put := None; mr_delete := None |});
  ("/v1/allocations"%string,
   {| mr_get := Some list_allocations; mr_post := Some create_allocation;
      mr_put := None; mr_delete := None |});
  ("/v1/allocations/{id}"%string,
   {| mr_get := Some get_allocation; mr_post := None; mr_put := None;
      mr_delete := Some delete_allocation |});
  ("/v1/allocations/{id}/binding"%string,
   {| mr_get := Some get_binding; mr_post := None; mr_put := Some put_binding;
      mr_delete := Some delete_binding |});
  ("/v1/ports"%string,
   {| mr_get := Some list_ports; mr_post := Some create_port; mr_put := None; mr_delete := None |});
  ("/v1/ports/target"%string,
   {| mr_get := None; mr_post := Some set_target; mr_put := None; mr_delete := None |});
  ("/v1/ports/{id}"%string,
   {| mr_get := None; mr_post := Some update_port; mr_put := None;
      mr_delete := Some delete_port |})].

(** axum serves HEAD by the GET handler, and drops the response's body afterwards. *)
Definition method_handler (mr : MethodRouter) (m : Method) : option (HttpRequest Body → Handler) :=
  match m with
  | GET | HEAD => mr_get mr
  | POST => mr_post mr
  | PUT => mr_put mr
  | DELETE => mr_delete mr
  | OtherMethod _ => None
  end.

(** Both fallbacks are [not_found]. *)
Definition select_handler (rq : HttpRequest Body) : HttpRequest Body → Handler :=
  default not_found
    (i ← matchit routes.*1 (rq_path rq); route ← routes !! i;
     method_handler route.2 (rq_method rq)).

(** Every handler, the fallbacks included, takes [Authed] first. *)
Definition handle (rq : HttpRequest Body) : Handler :=
  Authed_from_request_parts rq;; select_handler rq rq.

(** The response and the state, whether the handler returned early or not. *)
Definition router (rq : HttpRequest Body) (s : AppState R) : Response * AppState R :=
  match handle rq s with
  | (Ok response, s') | (Err response, s') => (response, s')
  end.

End handlers.
