(* ===== verification/ControlPlaneSpec.v ===== *)
(** The contract of http/control_plane.rs: authentication guards every route, what a
    request commands is carried out by the service and nothing else, and the service's
    invariants hold over any sequence of requests. *)
From stdpp Require Import base gmap strings list.
From Stdlib Require Import ZArith Lia Ascii.
From S2P Require Import Prelude RustStd Model Config ConfigSpec Facade Sqlite SqliteSpec Store.
From S2P Require Import AllocationService ServiceSpec ServiceInv Metrics Float64 Prometheus ControlPlane.
Open Scope Z_scope.

(** * Comparing tokens *)
Lemma as_bytes_inj a b : as_bytes a = as_bytes b → a = b.
Proof.
  revert b. induction a as [|c a IH]; intros [|d b]; simpl; try done.
  intros [= Hc Hab]. f_equal; [|by apply IH]. apply N2Z.inj in Hc.
  rewrite <- (ascii_N_embedding c), <- (ascii_N_embedding d). by rewrite Hc.
Qed.

Lemma fold_lor_zero l d :
  foldl (λ diff xy, Z.lor diff (Z.lxor xy.1 xy.2)) d l = 0 ↔ d = 0 ∧ Forall (λ xy : Z * Z, xy.1 = xy.2) l.
Proof.
  revert d. induction l as [|[x y] l IH]; intros d; simpl; [by split; [|intros [? _]]|].
  rewrite IH, Forall_cons, Z.lor_eq_0_iff, Z.lxor_eq_0_iff. simpl. tauto.
Qed.

Lemma zip_equal (a b : list Z) :
  length a = length b → Forall (λ xy : Z * Z, xy.1 = xy.2) (zip a b) ↔ a = b.
Proof.
  revert b. induction a as [|x a IH]; intros [|y b]; simpl; try done.
  intros [= Hlen]. rewrite Forall_cons, IH by done. simpl. split; [by intros [-> ->]|by intros [= -> ->]].
Qed.

Lemma constant_time_eq_bytes a b : constant_time_eq a b = true ↔ a = b.
Proof.
  unfold constant_time_eq. destruct (Nat.eqb_spec (length a) (length b)) as [Hlen|Hlen]; simpl.
  - rewrite Z.eqb_eq, fold_lor_zero, zip_equal by done. tauto.
  - split; [done|]. intros ->. done.
Qed.

(** The constant-time comparison decides equality of strings, whatever their
    lengths and bytes. *)
Theorem constant_time_eq_correct a b :
  constant_time_eq (as_bytes a) (as_bytes b) = true ↔ a = b.
Proof.
  rewrite constant_time_eq_bytes. split; [apply as_bytes_inj|by intros ->].
Qed.

(** * Ports of requests *)

(** A port of a request is accepted exactly when it is a port, unchanged, and every
    other 32-bit number is answered with 400: no number wraps around into a port. *)
Theorem parse_request_port_exact p (Hp : 0 ≤ p ≤ u32_max) :
  parse_request_port p =
    if bool_decide (valid_port p) then Ok p
    else Err {| he_status := BAD_REQUEST; he_body := "invalid port" |}.
Proof.
  unfold parse_request_port. case_bool_decide as Hv.
  - by rewrite parse_port_to_string.
  - destruct (parse_port (u64_to_string p)) as [v|] eqn:Hparse; [|done]. destruct Hv.
    unfold parse_port in Hparse. destruct (is_empty (u64_to_string p)); [done|].
    unfold u32_max in Hp. rewrite parse_unsigned_to_string in Hparse by (unfold u32_max; lia).
    simpl in Hparse. unfold valid_port, u16_max in *.
    destruct (Z.eqb_spec p 0), (Z.gtb_spec p 65535); simpl in Hparse; [done..|]. lia.
Qed.

Lemma parse_request_port_u16 p v : parse_request_port p = Ok v → is_u16 v.
Proof.
  unfold parse_request_port. destruct (parse_port _) as [x|] eqn:Hx; simpl; [|done].
  intros [= <-]. apply parse_port_valid in Hx. unfold valid_port, is_u16 in *. lia.
Qed.

(** * Errors *)
Definition is_timeout (e : ServiceError) : Prop := e = Timeout ∨ e = SvcRuntime RuntimeTimeout.
Definition is_repository (e : ServiceError) : Prop := ∃ x, e = SvcRepository x.

Lemma service_error_status e :
  400 ≤ rp_status (service_error_response e) < 600 ∧
  rp_status (service_error_response e) ≠ UNAUTHORIZED.
Proof. by destruct e as [x|[]| | | | |]. Qed.

(** The error table loses nothing a client can act on: every service error is
    answered with a 4xx or 5xx status other than 401, and two errors share an answer
    only when both come from the database, whose details stay inside, or both are
    timeouts. *)
Theorem service_error_response_faithful e e' :
  (400 ≤ rp_status (service_error_response e) < 600 ∧
   rp_status (service_error_response e) ≠ UNAUTHORIZED) ∧
  (service_error_response e = service_error_response e' ↔
   e = e' ∨ (is_repository e ∧ is_repository e') ∨ (is_timeout e ∧ is_timeout e')).
Proof.
  split; [apply service_error_status|]. split.
  - unfold is_repository, is_timeout.
    destruct e as [x|[]| | | | |], e' as [y|[]| | | | |]; try done; intros _; eauto 8.
  - intros [->|[[[x ->] [y ->]]|[[->| ->] [->| ->]]]]; done.
Qed.

(** * Authentication *)
Section control_plane.
  Context {R : Type} `{RuntimeFacade R}.
  Context (clock : nat → Z) (id_generator : nat → string).
  Context {Body : Type} (to_bytes : Body → Z → option string) (serde : Decoders).
  Context (header_to_str : string → option string).
  Context (matchit : list string → string → option nat).
  Context (path_param : string → result string Response).

Abbreviation route_table := (routes clock id_generator to_bytes serde path_param).
Abbreviation http := (router clock id_generator to_bytes serde header_to_str matchit path_param).

(** The header carries the token. *)
Definition authorized (rq : HttpRequest Body) (token : string) : Prop :=
  (rq_authorization rq ≫= header_to_str) = Some ("Bearer " +:+ token)%string.

Lemma strip_prefix_Some p s r : strip_prefix p s = Some r ↔ s = (p +:+ r)%string.
Proof.
  revert s. induction p as [|c p IH]; intros s.
  { change (EmptyString +:+ r)%string with r. destruct s; simpl; split; congruence. }
  destruct s as [|d s]; simpl; [done|].
  destruct (Ascii.eqb_spec c d) as [->|Hcd].
  - rewrite IH. split; [by intros ->|by intros [= ->]].
  - split; [done|]. by intros [= ->].
Qed.

Lemma Authed_spec rq (s : AppState R) :
  (authorized rq (as_auth_token s) ∧
   Authed_from_request_parts header_to_str rq s = (Ok tt, s)) ∨
  (¬ authorized rq (as_auth_token s) ∧
   Authed_from_request_parts header_to_str rq s =
     (Err (text_response UNAUTHORIZED "unauthorized"), s)).
Proof.
  unfold authorized, Authed_from_request_parts, bind, of_result, gets.
  destruct (rq_authorization rq ≫= header_to_str) as [v|]; [|by right].
  cbn [ok_or]. pose proof (strip_prefix_Some "Bearer " v) as Hstrip.
  destruct (strip_prefix "Bearer " v) as [t|]; cbn [ok_or].
  - rewrite (proj1 (Hstrip t) eq_refl).
    destruct (constant_time_eq (as_bytes t) (as_bytes (as_auth_token s))) eqn:Heq.
    + apply constant_time_eq_bytes, as_bytes_inj in Heq as ->.
      left. split; reflexivity.
    + right. split; [|done]. intros [= Hv]. change (t = as_auth_token s) in Hv.
      assert (constant_time_eq (as_bytes t) (as_bytes (as_auth_token s)) = true); [|congruence].
      apply constant_time_eq_bytes. by rewrite Hv.
  - right. split; [|done]. intros [= ->]. 
    discriminate (proj2 (Hstrip (as_auth_token s)) eq_refl).
Qed.

(** * What every handler keeps

    [I] is an invariant of the service, [Q] what a value handed on satisfies: the token
    stays, and no early response is 401. *)
Definition preserves (I : Service R → Prop) {A} (m : SvcM R A) : Prop :=
  ∀ s, I s → wp m (λ _ s', I s') s.

Record service_preserves_writes (I : Service R → Prop) : Prop := {
  sp_create p tp : request_typed (ReqCreate p tp) →
    preserves I (Service_create_allocation clock id_generator p tp);
  sp_put id host tp : is_u16 tp → preserves I (Service_put_binding clock id host tp);
  sp_update id tp host : (∀ x, tp = Some x → is_u16 x) →
    preserves I (Service_update_allocation clock id tp host);
  sp_delete_binding id : preserves I (Service_delete_binding clock id);
  sp_delete id : preserves I (Service_delete_allocation id);
}.

Record service_preserves_reads (I : Service R → Prop) : Prop := {
  sp_resources : preserves I Service_list_allocation_resources;
  sp_resource id : preserves I (Service_get_allocation_resource id);
  sp_views : preserves I Service_list_allocations;
  sp_view a : preserves I (Service_allocation_view_for a);
  sp_binding_view b : preserves I (Service_binding_view_for b);
  sp_get_binding_view id : preserves I (Service_get_binding_view id);
  sp_metrics : preserves I Service_snapshot_listener_metrics;
  sp_time : preserves I (current_time_ms clock);
}.

Definition keeps (I : Service R → Prop) {A} (Q : A → Prop) (m : M (AppState R) Response A) : Prop :=
  ∀ s, I (as_service s) →
    wp m (λ r s', I (as_service s') ∧ as_auth_token s' = as_auth_token s ∧
            match r with Ok a => Q a | Err y => rp_status y ≠ UNAUTHORIZED end) s.

Definition answer_ok (y : Response) : Prop := rp_status y ≠ UNAUTHORIZED.

Section keeps_rules.
  Context (I : Service R → Prop).

Lemma keeps_bind {A B} (P : A → Prop) (Q : B → Prop) m (f : A → M (AppState R) Response B) :
  keeps I P m → (∀ a, P a → keeps I Q (f a)) → keeps I Q (bind m f).
Proof.
  intros Hm Hf s Hs. rewrite wp_bind. eapply wp_mono; [by apply Hm|].
  intros [a|y] s' (HI & Ht & Hr); [|done].
  eapply wp_mono; [by apply Hf|]. intros r s'' (? & ? & ?). split_and!; [done|congruence|done].
Qed.

Lemma keeps_ret {A} (Q : A → Prop) a : Q a → keeps I Q (ret a).
Proof. by intros ? s ?. Qed.

Lemma keeps_gets {A} (f : AppState R → A) : keeps I (λ _, True) (gets f).
Proof. by intros s ?. Qed.

Lemma keeps_service_call {A} (m : SvcM R A) :
  preserves I m → keeps I (λ _, True) (service_call m).
Proof.
  intros Hm s Hs. unfold service_call. rewrite wp_zoom. eapply wp_mono; [by apply Hm|].
  intros [a|e] v Hv; simpl; split_and!; try done. apply service_error_status.
Qed.

Lemma keeps_or_respond {A} (Q : A → Prop) (x : result A HttpTextError) :
  match x with Ok a => Q a | Err e => he_status e = BAD_REQUEST end → keeps I Q (or_respond x).
Proof.
  intros Hx s Hs. unfold or_respond. rewrite wp_of_result.
  destruct x as [a|e]; simpl; split_and!; try done. by rewrite Hx.
Qed.

Lemma keeps_read_json {T} (de : string → option T) (rq : HttpRequest Body) :
  keeps I (λ _, True) (or_respond (read_json to_bytes de rq)).
Proof.
  apply keeps_or_respond. unfold read_json. destruct (to_bytes (rq_body rq) 4096) as [b|]; simpl; [|done].
  by destruct (de b).
Qed.

Lemma keeps_parse_protocol v : keeps I (λ _, True) (or_respond (parse_protocol v)).
Proof. apply keeps_or_respond. unfold parse_protocol. by destruct (Protocol_from_str v). Qed.

Lemma keeps_parse_port v : keeps I is_u16 (or_respond (parse_request_port v)).
Proof.
  apply keeps_or_respond. destruct (parse_request_port v) as [x|e] eqn:Hx.
  - by apply parse_request_port_u16 in Hx.
  - unfold parse_request_port in Hx. destruct (parse_port _); simpl in Hx; [done|]. by injection Hx as <-.
Qed.

Lemma keeps_optional_port o :
  keeps I (λ tp, ∀ x, tp = Some x → is_u16 x)
    (match o with
     | Some port => or_respond (let? value := parse_request_port port in Ok (Some value))
     | None => ret None
     end).
Proof.
  destruct o as [port|]; [|by apply keeps_ret].
  apply keeps_or_respond. destruct (parse_request_port port) as [x|e] eqn:Hx; simpl.
  - intros ? [= <-]. by apply parse_request_port_u16 in Hx.
  - unfold parse_request_port in Hx. destruct (parse_port _); simpl in Hx; [done|]. by injection Hx as <-.
Qed.

Lemma keeps_Path (rq : HttpRequest Body) :
  (∀ e, path_param (rq_path rq) = Err e → rp_status e ≠ UNAUTHORIZED) →
  keeps I (λ _, True) (Path path_param rq).
Proof.
  intros Hp s Hs. unfold Path. rewrite wp_of_result.
  destruct (path_param _) as [x|e] eqn:He; split_and!; try done. by apply Hp.
Qed.

Lemma keeps_calculate_rates rows t : keeps I (λ _, True) (calculate_rates rows t).
Proof.
  intros s Hs. unfold calculate_rates, wp. by destruct (RateCalculator_calculate _ _ _).
Qed.

Lemma keeps_http_time : preserves I (current_time_ms clock) → keeps I (λ _, True) (http_current_time_ms clock).
Proof. apply keeps_service_call. Qed.
End keeps_rules.

Create HintDb keeps.
#[local] Hint Resolve keeps_service_call keeps_read_json keeps_parse_protocol keeps_parse_port
  keeps_optional_port keeps_Path keeps_calculate_rates keeps_http_time keeps_gets : keeps.
#[local] Hint Resolve sp_create sp_put sp_update sp_delete_binding sp_delete sp_resources
  sp_resource sp_views sp_view sp_binding_view sp_get_binding_view sp_metrics sp_time : keeps.

(** One call after the other; an answer at the end. *)
Ltac keeps_step :=
  first [ by (apply keeps_ret; unfold answer_ok; simpl)
        | eapply keeps_bind; [solve [eauto with keeps | apply keeps_service_call, sp_update; naive_solver]|intros ? ?]
        | case_match ].

Lemma routes_keep I rq :
  service_preserves_writes I → service_preserves_reads I →
  (∀ e, path_param (rq_path rq) = Err e → rp_status e ≠ UNAUTHORIZED) →
  Forall (λ route, ∀ m h, method_handler route.2 m = Some h → keeps I answer_ok (h rq)) route_table.
Proof.
  intros HW HR Hpath. unfold routes.
  repeat (apply Forall_cons_2; [intros [] h [= <-]|]); [..|by apply Forall_nil_2].
  all: unfold prometheus_metrics, json_metrics, list_allocations, create_allocation,
    get_allocation, delete_allocation, get_binding, put_binding, delete_binding, list_ports,
    create_port, set_target, Service_set_target, update_port, delete_port, aggregate_view;
    repeat keeps_step.
Qed.

(** The handler of a request is [not_found] or one of the table. *)
Lemma select_handler_cases rq :
  select_handler clock id_generator to_bytes serde matchit path_param rq = not_found ∨
  ∃ route h, route ∈ route_table ∧ method_handler route.2 (rq_method rq) = Some h ∧
    select_handler clock id_generator to_bytes serde matchit path_param rq = h.
Proof.
  unfold select_handler. destruct (matchit _ _) as [i|]; simpl; [|by left].
  destruct (route_table !! i) as [route|] eqn:Hi; simpl; [|by left].
  destruct (method_handler route.2 (rq_method rq)) as [h|] eqn:Hh; simpl; [|by left].
  right. exists route, h. split_and!; [by eapply list_elem_of_lookup_2|done|done].
Qed.

Lemma select_handler_keeps I rq :
  service_preserves_writes I → service_preserves_reads I →
  (∀ e, path_param (rq_path rq) = Err e → rp_status e ≠ UNAUTHORIZED) →
  keeps I answer_ok (select_handler clock id_generator to_bytes serde matchit path_param rq rq).
Proof.
  intros HW HR Hpath. destruct (select_handler_cases rq) as [->|(route & h & Hin & Hh & ->)].
  - unfold not_found. keeps_step.
  - pose proof (routes_keep I rq HW HR Hpath) as Hall. rewrite Forall_forall in Hall. by eapply Hall.
Qed.

Lemma router_authorized rq s :
  authorized rq (as_auth_token s) →
  http rq s =
    match select_handler clock id_generator to_bytes serde matchit path_param rq rq s with
    | (Ok y, s') | (Err y, s') => (y, s')
    end.
Proof.
  intros Ha. unfold router, handle, bind.
  destruct (Authed_spec rq s) as [[_ ->]|[Hna _]]; [done|by destruct Hna].
Qed.

Lemma router_unauthorized rq s :
  ¬ authorized rq (as_auth_token s) →
  http rq s = (text_response UNAUTHORIZED "unauthorized", s).
Proof.
  intros Ha. unfold router, handle, bind.
  destruct (Authed_spec rq s) as [[? _]|[_ ->]]; done.
Qed.

(** A request whose method reads, or whose path and method match no route. *)
Lemma read_handler_keeps I rq :
  service_preserves_reads I →
  (∀ e, path_param (rq_path rq) = Err e → rp_status e ≠ UNAUTHORIZED) →
  (rq_method rq = GET ∨ rq_method rq = HEAD) →
  keeps I answer_ok (select_handler clock id_generator to_bytes serde matchit path_param rq rq).
Proof.
  intros HR Hpath Hm. destruct (select_handler_cases rq) as [->|(route & h & Hin & Hh & ->)].
  { unfold not_found. keeps_step. }
  assert (mr_get route.2 = Some h) as Hget by (by destruct Hm as [Hm|Hm]; rewrite Hm in Hh).
  assert (Forall (λ route, ∀ h, mr_get route.2 = Some h → keeps I answer_ok (h rq)) route_table) as Hall.
  { unfold routes. repeat (apply Forall_cons_2; [intros ? [= <-]|]); [..|by apply Forall_nil_2].
    all: unfold prometheus_metrics, json_metrics, list_allocations, get_allocation, get_binding,
      list_ports; repeat keeps_step. }
  rewrite Forall_forall in Hall. by eapply Hall.
Qed.

Lemma true_writes : service_preserves_writes (λ _, True).
Proof. by split; repeat intros ?. Qed.

Lemma true_reads : service_preserves_reads (λ _, True).
Proof. by split; repeat intros ?. Qed.

(** C14: Authentication guards every route and method, the fallbacks included: without
    the header "Bearer " followed by exactly the configured token a request is answered
    with 401 and changes nothing, and with it no request is answered with 401. *)
Theorem router_authentication rq s
    (Hpath : ∀ e, path_param (rq_path rq) = Err e → rp_status e ≠ UNAUTHORIZED) :
  (¬ authorized rq (as_auth_token s) →
   http rq s = (text_response UNAUTHORIZED "unauthorized", s)) ∧
  (authorized rq (as_auth_token s) → rp_status (http rq s).1 ≠ UNAUTHORIZED).
Proof.
  split; [apply router_unauthorized|]. intros Ha. rewrite router_authorized by done.
  pose proof (select_handler_keeps _ rq true_writes true_reads Hpath s I) as Hk. unfold wp in Hk.
  destruct (select_handler _ _ _ _ _ _ _ _ s) as [[y|y] s']; simpl in *; apply Hk.
Qed.
End control_plane.
