(* ===== verification/ControlPlaneInv.v ===== *)
(** What HTTP requests do to the service: reads leave the database alone, a mutation is
    exactly one operation of the service, and the service's invariant holds over any
    sequence of requests. *)
From stdpp Require Import base gmap strings list.
From Stdlib Require Import ZArith Lia Ascii.
From S2P Require Import Prelude RustStd Model Config ConfigSpec Facade Sqlite SqliteSpec Store.
From S2P Require Import AllocationService ServiceSpec ServiceInv.
From S2P Require Import Metrics Float64 Prometheus ControlPlane ControlPlaneSpec.
Open Scope Z_scope.

(** * Reads *)
Section reads.
  Context {R : Type} `{RuntimeFacade R}.
  Context (clock : nat → Z).

(** [I] looks at the tables and the range only. *)
Definition tables_property (I : Service R → Prop) : Prop :=
  ∀ s s', sv_tables s' = sv_tables s → sv_port_range s' = sv_port_range s → I s → I s'.

Lemma read_preserves (I : Service R → Prop) {B} (m : RepoM B) (q : Tables → result B RepositoryError) :
  tables_property I → implements m (λ t, let? x := q t in Ok (t, x)) →
  preserves I (repo_call (R := R) m).
Proof.
  intros HI Hm s Hs. eapply wp_mono; [by apply (repo_query_spec m q (λ x, x))|].
  intros r s' (repo' & -> & _ & Ht & _). by eapply HI.
Qed.

Lemma runtime_preserves (I : Service R → Prop) {A} (m : M R RuntimeError A) :
  tables_property I → preserves I (runtime_call m).
Proof.
  intros HI s Hs. apply wp_runtime_call. intros r rt _. by eapply (HI s).
Qed.

Lemma preserves_bind (I : Service R → Prop) {A B} (m : SvcM R A) (f : A → SvcM R B) :
  preserves I m → (∀ a, preserves I (f a)) → preserves I (bind m f).
Proof.
  intros Hm Hf s Hs. rewrite wp_bind. eapply wp_mono; [by apply Hm|].
  intros [a|e] s' HI; [by apply Hf|done].
Qed.

Lemma preserves_ret (I : Service R → Prop) {A} (a : A) : preserves I (ret a).
Proof. by intros s Hs. Qed.

Lemma preserves_mapM (I : Service R → Prop) {A B} (f : A → SvcM R B) l :
  (∀ a, preserves I (f a)) → preserves I (mapM f l).
Proof.
  intros Hf. induction l as [|a l IH]; [apply preserves_ret|]. cbn [mapM].
  apply preserves_bind; [apply Hf|]. intros b. apply preserves_bind; [done|]. intros bs.
  apply preserves_ret.
Qed.

(** An invariant that queries, snapshots and the clock keep is kept by every read. *)
Lemma reads_preserve I :
  (∀ B (m : RepoM B) q, implements m (λ t, let? x := q t in Ok (t, x)) → preserves I (repo_call (R := R) m)) →
  (∀ id, preserves I (runtime_call (rt_snapshot id))) →
  preserves I (runtime_call rt_snapshot_listener_metrics) →
  preserves I (current_time_ms clock) →
  service_preserves_reads (R := R) clock I.
Proof.
  intros Hrepo Hsnap Hmetrics Hclock.
  assert (∀ a, preserves I (Service_allocation_view_for a)) as Hview.
  { intros a. apply preserves_bind; [done|intros; apply preserves_ret]. }
  assert (∀ b, preserves I (Service_binding_view_for b)) as Hbview.
  { intros b. apply preserves_bind; [done|intros; apply preserves_ret]. }
  assert (preserves I (repo_call Repository_list_allocations)) as Hlist
    by (eapply Hrepo, list_allocations_implements; done).
  split; try done.
  - apply preserves_bind; [done|intros; apply preserves_ret].
  - intros id. apply preserves_bind; [eapply Hrepo, get_allocation_implements; done|intros; apply preserves_ret].
  - apply preserves_bind; [done|]. intros l. by apply preserves_mapM.
  - intros id. apply preserves_bind; [eapply Hrepo, get_binding_implements; done|].
    intros [b|]; [|apply preserves_ret]. apply preserves_bind; [done|intros; apply preserves_ret].
Qed.

Lemma tables_property_reads I : tables_property I → service_preserves_reads (R := R) clock I.
Proof.
  intros HI. apply reads_preserve; [|intros id; by apply runtime_preserves|by apply runtime_preserves|].
  - intros B m q Hm. by eapply read_preserves.
  - intros s Hs. by eapply (HI s).
Qed.
End reads.

(** * The service's invariant *)
Section writes.
  Context {R : Type} `{RuntimeFacade R}.
  Context (clock : nat → Z) (id_generator : nat → string).

Lemma service_inv_tables : tables_property (R := R) service_inv.
Proof.
  intros s s' Ht Hr (Hwf & Hrange & Hin). unfold service_inv, range_u16 in *. by rewrite Ht, Hr.
Qed.

Lemma request_preserves q :
  request_typed q → preserves service_inv (run_request clock id_generator q).
Proof.
  intros Hq s Hs. eapply (service_step_inv clock id_generator); [exact Hs|by constructor].
Qed.

Lemma preserves_unit (I : Service R → Prop) {A} (m : SvcM R A) :
  preserves I (let! _x := m in ret tt) → preserves I m.
Proof.
  intros Hm s Hs. specialize (Hm s Hs). rewrite wp_bind in Hm.
  eapply wp_mono; [exact Hm|]. by intros [a|e] s'.
Qed.

Lemma service_inv_writes : service_preserves_writes clock id_generator service_inv.
Proof.
  split.
  - intros p tp Htp. apply preserves_unit, (request_preserves (ReqCreate p tp) Htp).
  - intros id host tp Htp. apply preserves_unit, (request_preserves (ReqPutBinding id host tp) Htp).
  - intros id tp host Htp. apply preserves_unit, (request_preserves (ReqUpdate id tp host)).
    destruct tp; simpl; auto.
  - intros id. by apply (request_preserves (ReqDeleteBinding id)).
  - intros id. by apply (request_preserves (ReqDelete id)).
Qed.
End writes.

(** * Sequences of requests *)
Section http.
  Context {R : Type} `{RuntimeFacade R}.
  Context (clock : nat → Z) (id_generator : nat → string).
  Context {Body : Type} (to_bytes : Body → Z → option string) (serde : Decoders).
  Context (header_to_str : string → option string).
  Context (matchit : list string → string → option nat).
  Context (path_param : string → result string Response).

Abbreviation http := (router clock id_generator to_bytes serde header_to_str matchit path_param).

(** axum rejects a path parameter with 400, never with 401. *)
Definition path_rejects : Prop :=
  ∀ p e, path_param p = Err e → rp_status e ≠ UNAUTHORIZED.

(** A request, or the environment: the runtime's state, the engine's faults, the
    failpoints and the metrics change on their own. *)
Inductive http_step : AppState R → AppState R → Prop :=
| step_http rq s : http_step s (http rq s).2
| step_outside rt faults f m s :
    http_step s
      {| as_service := (Service_set_failpoints f
           (set_repo {| repo_tables := sv_tables (as_service s); repo_faults := faults |}
             (set_runtime rt (as_service s)))).2;
         as_metrics := m; as_auth_token := as_auth_token s;
         as_prometheus_rates := as_prometheus_rates s |}.

Lemma router_keeps (I : Service R → Prop) rq s :
  keeps I answer_ok (select_handler clock id_generator to_bytes serde matchit path_param rq rq) →
  I (as_service s) →
  I (as_service (http rq s).2) ∧ as_auth_token (http rq s).2 = as_auth_token s.
Proof.
  intros Hk Hs.
  destruct (Authed_spec header_to_str rq s) as [[Ha _]|[Ha _]].
  - rewrite router_authorized by done. specialize (Hk s Hs). unfold wp in Hk.
    destruct (select_handler _ _ _ _ _ _ _ _ s) as [[y|y] s']; simpl in *; naive_solver.
  - by rewrite router_unauthorized.
Qed.

(** GET and HEAD requests, to whatever path, never change the database. *)
Theorem reads_leave_tables rq s (Hpath : path_rejects)
    (Hm : rq_method rq = GET ∨ rq_method rq = HEAD) :
  sv_tables (as_service (http rq s).2) = sv_tables (as_service s).
Proof.
  apply (router_keeps (λ v, sv_tables v = sv_tables (as_service s))); [|done].
  apply read_handler_keeps; [|apply Hpath|done].
  apply tables_property_reads. intros v v' Ht _ Hv. congruence.
Qed.

Lemma http_step_inv s s' :
  path_rejects → service_inv (as_service s) → http_step s s' →
  service_inv (as_service s') ∧ as_auth_token s' = as_auth_token s.
Proof.
  intros Hpath Hinv Hstep. destruct Hstep as [rq s1|rt faults f m s1]; [|split; [exact Hinv|reflexivity]].
  apply router_keeps; [|done]. apply select_handler_keeps; [apply service_inv_writes| |apply Hpath].
  apply tables_property_reads, service_inv_tables.
Qed.

(** The safety property seen from the network: after any sequence of HTTP requests,
    well-formed or not, authorized or not, with any runtime behaviour, faults and
    failpoints in between, no two allocations with overlapping protocols share a port,
    every port is in the configured range, and the token is still the configured one. *)
Theorem http_reachable_ports_disjoint s0 s (Hpath : path_rejects)
    (Hinv : service_inv (as_service s0)) (Hr : rtc http_step s0 s) :
  as_auth_token s = as_auth_token s0 ∧
  ∀ i a oa, sv_store (as_service s) !! i = Some (a, oa) →
    pr_start (sv_port_range (as_service s)) ≤ al_port a
      ≤ pr_end (sv_port_range (as_service s)) ∧
    ∀ j b ob, sv_store (as_service s) !! j = Some (b, ob) → i ≠ j →
      overlaps (al_protocol a) (al_protocol b) = true → al_port a ≠ al_port b.
Proof.
  assert (service_inv (as_service s) ∧ as_auth_token s = as_auth_token s0) as [Hs Ht].
  { induction Hr as [|s1 s2 s3 Hstep Hr IH]; [split; [exact Hinv|reflexivity]|].
    destruct (http_step_inv s1 s2 Hpath Hinv Hstep) as [Hinv2 Ht2].
    destruct (IH Hinv2) as [? ?]. split; congruence. }
  split; [done|]. exact (service_inv_disjoint _ Hs).
Qed.

(** * What a request commands *)

(** The operation a mutating request stands for, or the answer to a malformed one;
    [None] for a route and method that command nothing. *)
Definition decoded {T} (de : string → option T) (rq : HttpRequest Body) : result T Response :=
  map_err HttpTextError_into_response (read_json to_bytes de rq).

Definition respond {A} (r : result A HttpTextError) : result A Response :=
  map_err HttpTextError_into_response r.

Definition http_command (pattern : string) (rq : HttpRequest Body)
    : option (result Request Response) :=
  match rq_method rq with
  | POST =>
      if decide (pattern = "/v1/allocations"%string) then Some (
        let? body := decoded (de_allocation_create serde) rq in
        let? p := respond (parse_protocol (ac_protocol body)) in Ok (ReqCreate p None))
      else if decide (pattern = "/v1/ports"%string) then Some (
        let? body := decoded (de_port_create serde) rq in
        let? p := respond (parse_protocol (pc_protocol body)) in
        let? tp := respond (parse_request_port (pc_target_port body)) in
        Ok (ReqCreate p (Some tp)))
      else if decide (pattern = "/v1/ports/target"%string) then Some (
        let? body := decoded (de_target serde) rq in
        Ok (ReqUpdate (tr_id body) None (Some (tr_host body))))
      else if decide (pattern = "/v1/ports/{id}"%string) then Some (
        let? id := path_param (rq_path rq) in
        let? body := decoded (de_update serde) rq in
        match ur_target_port body, ur_host body with
        | None, None => Err (text_response BAD_REQUEST "empty update")
        | None, host => Ok (ReqUpdate id None host)
        | Some port, host =>
            let? tp := respond (parse_request_port port) in Ok (ReqUpdate id (Some tp) host)
        end)
      else None
  | PUT =>
      if decide (pattern = "/v1/allocations/{id}/binding"%string) then Some (
        let? id := path_param (rq_path rq) in
        let? body := decoded (de_binding_put serde) rq in
        let? tp := respond (parse_request_port (bp_target_port body)) in
        Ok (ReqPutBinding id (bp_host body) tp))
      else None
  | DELETE =>
      if decide (pattern = "/v1/allocations/{id}"%string ∨ pattern = "/v1/ports/{id}"%string)
      then Some (let? id := path_param (rq_path rq) in Ok (ReqDelete id))
      else if decide (pattern = "/v1/allocations/{id}/binding"%string)
      then Some (let? id := path_param (rq_path rq) in Ok (ReqDeleteBinding id))
      else None
  | _ => None
  end.

(** What follows a command that was carried out and left the service [v]: the success, or
    the view of the result, which takes the runtime's snapshot and reports its error. *)
Definition carried_out (v : Service R) (out : Response * AppState R) : Prop :=
  as_service out.2 = v ∧ rp_status out.1 ∈ [OK; CREATED; NO_CONTENT] ∨
  ∃ id, let '(o, rt) := rt_snapshot id (sv_runtime v) in
    as_service out.2 = set_runtime rt v ∧
    match o with
    | Ok _ => rp_status out.1 ∈ [OK; CREATED; NO_CONTENT]
    | Err e => out.1 = service_error_response (SvcRuntime e)
    end.

(** The outcome of a command, given what the router did. *)
Definition performs (c : result Request Response) (s : AppState R) (out : Response * AppState R) : Prop :=
  match c with
  | Err y => out = (y, s)
  | Ok q =>
      match run_request clock id_generator q (as_service s) with
      | (Err e, v) => out = (service_error_response e, set_service v s)
      | (Ok _, v) => carried_out v out
      end
  end.

Definition finish_response (out : result Response Response * AppState R) : Response * AppState R :=
  match out with (Ok y, s') | (Err y, s') => (y, s') end.

(** A handler as the service's operation [q] followed by [k]. *)
Lemma service_call_performs {A} q (m : SvcM R A) (k : A → M (AppState R) Response Response) s :
  (∀ v, run_request clock id_generator q v = (let! _x := m in ret tt) v) →
  (∀ a s1, carried_out (as_service s1) (finish_response (k a s1))) →
  performs (Ok q) s (finish_response (bind (service_call m) k s)).
Proof.
  intros Hq Hk. unfold performs. rewrite Hq. unfold service_call, zoom, bind.
  destruct (m (as_service s)) as [[a|e] v]; simpl; [|done]. exact (Hk a (set_service v s)).
Qed.

(** A view reads the runtime's snapshot and nothing else. *)
Lemma view_carried_out {A} id (g : option ObservedState → A) (f : A → JsonValue) status s1 :
  status ∈ [OK; CREATED; NO_CONTENT] →
  carried_out (as_service s1) (finish_response
    ((let! x := service_call (let! o := runtime_call (rt_snapshot id) in ret (g o)) in
      ret (json_response status (f x))) s1)).
Proof.
  intros Hst. right. exists id. unfold service_call, runtime_call, zoom, bind. simpl.
  by destruct (rt_snapshot id (sv_runtime (as_service s1))) as [[x|e] rt].
Qed.

Lemma aggregate_view_carried_out a status s1 :
  status ∈ [OK; CREATED; NO_CONTENT] →
  carried_out (as_service s1) (finish_response (aggregate_view a status s1)).
Proof. apply view_carried_out. Qed.

Lemma unit_result {S E} (m : M S E unit) v : m v = (let! _x := m in ret tt) v.
Proof. unfold bind. by destruct (m v) as [[[]|e] v']. Qed.

(** Decoding steps of a handler and of the command go together. *)
Lemma performs_of_result {A} (r : result A Response) f (k : A → M (AppState R) Response Response) s :
  (∀ x, performs (f x) s (finish_response (k x s))) →
  performs (rbind r f) s (finish_response (bind (of_result r) k s)).
Proof. intros Hk. destruct r as [x|y]; [apply Hk|done]. Qed.

Ltac performs_step := apply performs_of_result; intros ?.

Lemma answer_carried_out y (s1 : AppState R) :
  rp_status y ∈ [OK; CREATED; NO_CONTENT] →
  carried_out (as_service s1) (finish_response (ret y s1)).
Proof. by left. Qed.

Lemma create_allocation_performs rq s :
  performs
    (let? body := decoded (de_allocation_create serde) rq in
     let? p := respond (parse_protocol (ac_protocol body)) in Ok (ReqCreate p None)) s
    (finish_response (create_allocation clock id_generator to_bytes serde rq s)).
Proof.
  unfold create_allocation, or_respond. do 2 performs_step.
  apply (service_call_performs (ReqCreate _ None)); [done|]. intros a s1.
  apply answer_carried_out. set_solver.
Qed.

Lemma create_port_performs rq s :
  performs
    (let? body := decoded (de_port_create serde) rq in
     let? p := respond (parse_protocol (pc_protocol body)) in
     let? tp := respond (parse_request_port (pc_target_port body)) in
     Ok (ReqCreate p (Some tp))) s
    (finish_response (create_port clock id_generator to_bytes serde rq s)).
Proof.
  unfold create_port, or_respond. do 3 performs_step.
  apply (service_call_performs (ReqCreate _ (Some _))); [done|]. intros a s1.
  apply aggregate_view_carried_out. set_solver.
Qed.

Lemma set_target_performs rq s :
  performs
    (let? body := decoded (de_target serde) rq in
     Ok (ReqUpdate (tr_id body) None (Some (tr_host body)))) s
    (finish_response (set_target clock to_bytes serde rq s)).
Proof.
  unfold set_target, or_respond. performs_step.
  apply (service_call_performs (ReqUpdate _ None (Some _))); [done|]. intros a s1.
  apply aggregate_view_carried_out. set_solver.
Qed.

Lemma update_port_performs rq s :
  performs
    (let? id := path_param (rq_path rq) in
     let? body := decoded (de_update serde) rq in
     match ur_target_port body, ur_host body with
     | None, None => Err (text_response BAD_REQUEST "empty update")
     | None, host => Ok (ReqUpdate id None host)
     | Some port, host =>
         let? tp := respond (parse_request_port port) in Ok (ReqUpdate id (Some tp) host)
     end) s
    (finish_response (update_port clock to_bytes serde path_param rq s)).
Proof.
  unfold update_port, or_respond, Path. do 2 performs_step.
  assert (∀ id tp host s1,
    performs (Ok (ReqUpdate id tp host)) s1 (finish_response
      ((let! al := service_call (Service_update_allocation clock id tp host) in
        aggregate_view al OK) s1))) as Hup.
  { intros id tp host s1. apply (service_call_performs (ReqUpdate id tp host)); [done|].
    intros. apply aggregate_view_carried_out. set_solver. }
  destruct (ur_target_port x0) as [port|].
  - destruct (parse_request_port port) as [tp|e]; [|done]. by apply Hup.
  - destruct (ur_host x0) as [h|]; [|done]. by apply Hup.
Qed.

Lemma put_binding_performs rq s :
  performs
    (let? id := path_param (rq_path rq) in
     let? body := decoded (de_binding_put serde) rq in
     let? tp := respond (parse_request_port (bp_target_port body)) in
     Ok (ReqPutBinding id (bp_host body) tp)) s
    (finish_response (put_binding clock to_bytes serde path_param rq s)).
Proof.
  unfold put_binding, or_respond, Path. do 3 performs_step.
  apply (service_call_performs (ReqPutBinding _ _ _)); [done|]. intros b s1.
  apply view_carried_out. set_solver.
Qed.

Lemma delete_binding_performs (rq : HttpRequest Body) s :
  performs (let? id := path_param (rq_path rq) in Ok (ReqDeleteBinding id)) s
    (finish_response (delete_binding clock path_param rq s)).
Proof.
  unfold delete_binding, Path. performs_step.
  apply (service_call_performs (ReqDeleteBinding _)); [by apply unit_result|].
  intros. apply answer_carried_out. set_solver.
Qed.

Lemma delete_allocation_performs (rq : HttpRequest Body) s :
  performs (let? id := path_param (rq_path rq) in Ok (ReqDelete id)) s
    (finish_response (delete_allocation path_param rq s)).
Proof.
  unfold delete_allocation, Path. performs_step.
  apply (service_call_performs (ReqDelete _)); [by apply unit_result|].
  intros. apply answer_carried_out. set_solver.
Qed.

Lemma http_performs rq s i pattern mr c
    (Hauth : authorized header_to_str rq (as_auth_token s))
    (Hi : matchit (routes clock id_generator to_bytes serde path_param).*1 (rq_path rq) = Some i)
    (Hroute : routes clock id_generator to_bytes serde path_param !! i = Some (pattern, mr))
    (Hc : http_command pattern rq = Some c) :
  performs c s (http rq s).
Proof.
  rewrite router_authorized by done. unfold select_handler. rewrite Hi. simpl.
  change (performs c s (finish_response
    (default not_found (route ← routes clock id_generator to_bytes serde path_param !! i;
                        method_handler route.2 (rq_method rq)) rq s))).
  rewrite Hroute. simpl. unfold http_command in Hc.
  apply list_elem_of_lookup_2 in Hroute. unfold routes in Hroute.
  repeat (apply elem_of_cons in Hroute as [[= -> ->]|Hroute]); [..|by apply elem_of_nil in Hroute].
  all: destruct (rq_method rq); simpl in Hc; simplify_eq.
  all: first [ apply create_allocation_performs | apply create_port_performs
             | apply set_target_performs | apply update_port_performs | apply put_binding_performs
             | apply delete_binding_performs | apply delete_allocation_performs ].
Qed.

(** C8: The control plane refines the service: an authorized mutating request whose body
    is malformed (unreadable, over the limit, an unknown protocol, a number that is no
    port, an update of nothing) is answered at once and changes nothing; any other
    performs exactly one operation of the service and reports its error, or leaves the
    service as the operation left it and answers 200, 201 or 204, but for the snapshot the
    view of the result takes of the runtime and whose error is reported instead. *)
Theorem http_refines_service rq s i pattern mr c
    (Hauth : authorized header_to_str rq (as_auth_token s))
    (Hi : matchit (routes clock id_generator to_bytes serde path_param).*1 (rq_path rq) = Some i)
    (Hroute : routes clock id_generator to_bytes serde path_param !! i = Some (pattern, mr))
    (Hc : http_command pattern rq = Some c) :
  performs c s (http rq s).
Proof. by eapply http_performs. Qed.
End http.
