(* ===== verification/HttpWitness.v ===== *)
(** The theorems of the control plane and of the metrics at concrete inputs: a control
    plane over the in-memory runtime, with toy decoders of bodies and exact matching of
    paths for the libraries. *)
From stdpp Require Import base gmap strings list relations.
From Stdlib Require Import ZArith Lia Ascii SpecFloat.
From S2P Require Import Prelude RustStd Model Config ConfigSpec Facade Sqlite SqliteSpec Store.
From S2P Require Import AllocationService ServiceSpec ServiceInv ServiceWitness.
From S2P Require Import Metrics Float64 Prometheus PrometheusSpec ControlPlane ControlPlaneSpec ControlPlaneInv.
Open Scope Z_scope.

(** * Rates *)
Definition ex_snapshot (port rx tx : Z) : ListenerMetricsSnapshot :=
  {| lm_port := port; lm_protocol := Tcp; lm_connections_current := 1;
     lm_rx_bytes_total := rx; lm_tx_bytes_total := tx |}.

Lemma listener_key_perfect_hash_witness :
  is_u16 7000 ∧ (7000 = 7000 ∧ Udp = Udp ∧ 0 ≤ listener_key 7000 Udp ≤ u32_max) ∧
  listener_key 7000 Udp = 28001.
Proof.
  assert (is_u16 7000) as Hp by (split; vm_compute; discriminate).
  split; [exact Hp|]. split; [|reflexivity].
  apply (listener_key_perfect_hash 7000 7000 Udp Udp 0 0 Hp Hp). reflexivity.
Defined.

(** 1000 bytes more after two seconds: 500 bytes per second. *)
Lemma rates_between_scrapes_witness :
  ∃ r, (RateCalculator_calculate [ex_snapshot 10000 1500 10] 3000
          (run_scrapes ([] ++ [([ex_snapshot 10000 500 10], 1000)]))).2 = [r] ∧
       f64_to_string (lr_rx_bytes_per_second r) = "500"%string ∧
       f64_to_string (lr_tx_bytes_per_second r) = "0"%string.
Proof.
  assert (Forall port_ok ([ex_snapshot 10000 500 10] ++ [ex_snapshot 10000 1500 10])) as Hp
    by (repeat constructor; vm_compute; discriminate).
  assert (NoDup (listener_of <$> [ex_snapshot 10000 500 10])) as H1 by apply NoDup_singleton.
  assert (NoDup (listener_of <$> [ex_snapshot 10000 1500 10])) as H2 by apply NoDup_singleton.
  eexists. split; [exact (rates_between_scrapes [] [ex_snapshot 10000 500 10] 1000
                            [ex_snapshot 10000 1500 10] 3000 Hp H1 H2)|].
  split; vm_compute; reflexivity.
Defined.

Lemma rate_between_finite_witness :
  is_u64 1500 ∧ is_u64 500 ∧ ∃ m e, rate_between 1500 500 3000 1000 = S754_finite false m e.
Proof.
  assert (is_u64 1500) as Hc by (split; vm_compute; discriminate).
  assert (is_u64 500) as Hp by (split; vm_compute; discriminate).
  split; [exact Hc|]. split; [exact Hp|].
  destruct (rate_between_finite 1500 500 3000 1000 Hc Hp) as [(_ & _ & H)|[H _]]; [exact H|].
  exfalso. apply H. split; reflexivity.
Defined.

(** * The control plane *)
Definition ex_to_bytes (b : string) (limit : Z) : option string :=
  if Z.of_nat (String.length b) <=? limit then Some b else None.

(** The body is the protocol, the host, or anything. *)
Definition ex_serde : Decoders := {|
  de_allocation_create b := Some {| ac_protocol := b |};
  de_binding_put b := Some {| bp_host := b; bp_target_port := 80 |};
  de_port_create b := Some {| pc_protocol := b; pc_target_port := 80 |};
  de_target b := Some {| tr_id := "i"; tr_host := b |};
  de_update b := Some {| ur_target_port := None; ur_host := None |};
|}.

Fixpoint ex_matchit (patterns : list string) (path : string) : option nat :=
  match patterns with
  | [] => None
  | p :: ps => if decide (p = path) then Some O else S <$> ex_matchit ps path
  end.

Definition ex_path_param (path : string) : result string Response := Ok "i"%string.

Lemma ex_path_rejects : path_rejects ex_path_param.
Proof. intros p e. discriminate. Qed.

Definition ex_request (m : Method) (path : string) (auth : option string) (body : string)
    : HttpRequest string :=
  {| rq_method := m; rq_path := path; rq_authorization := auth; rq_body := body |}.

Definition ex_app : AppState RuntimeState := AppState_new ex_service0 Metrics_default "secret".

Abbreviation ex_http :=
  (router ex_clock ex_id ex_to_bytes ex_serde Some ex_matchit ex_path_param).

Lemma parse_request_port_exact_witness :
  (0 ≤ 65536 ≤ u32_max) ∧ is_ok (parse_request_port 65536) = false.
Proof.
  assert (0 ≤ 65536 ≤ u32_max) as Hp by (split; vm_compute; discriminate).
  split; [exact Hp|]. rewrite (parse_request_port_exact 65536 Hp). vm_compute. reflexivity.
Defined.

Lemma router_authentication_witness :
  let rq := ex_request POST "/v1/allocations" (Some "Bearer wrong"%string) "tcp" in
  ex_http rq ex_app = (text_response UNAUTHORIZED "unauthorized", ex_app) ∧
  rp_status (ex_http (ex_request POST "/v1/allocations" (Some "Bearer secret"%string) "tcp") ex_app).1
    = CREATED.
Proof.
  cbv zeta. split; [|vm_compute; reflexivity].
  assert (∀ e, ex_path_param "/v1/allocations" = Err e → rp_status e ≠ UNAUTHORIZED) as Hp
    by (intros e; discriminate).
  destruct (router_authentication ex_clock ex_id ex_to_bytes ex_serde Some ex_matchit ex_path_param
              (ex_request POST "/v1/allocations" (Some "Bearer wrong"%string) "tcp") ex_app Hp) as [H _].
  apply H. intros Ha. vm_compute in Ha. discriminate.
Defined.

Lemma reads_leave_tables_witness :
  let rq := ex_request GET "/v1/ports" (Some "Bearer secret"%string) "" in
  sv_tables (as_service (ex_http rq ex_app).2) = ex_tables0 ∧ rp_status (ex_http rq ex_app).1 = OK.
Proof.
  cbv zeta. split; [|vm_compute; reflexivity].
  exact (reads_leave_tables ex_clock ex_id ex_to_bytes ex_serde Some ex_matchit ex_path_param
           (ex_request GET "/v1/ports" (Some "Bearer secret"%string) "") ex_app ex_path_rejects
           (or_introl eq_refl)).
Defined.

Definition ex_create : HttpRequest string :=
  ex_request POST "/v1/allocations" (Some "Bearer secret"%string) "tcp".

Definition ex_app1 : AppState RuntimeState := (ex_http ex_create ex_app).2.

Lemma http_reachable_ports_disjoint_witness :
  ∃ a oa, sv_store (as_service ex_app1) !! "i"%string = Some (a, oa) ∧ 10000 ≤ al_port a ≤ 10002.
Proof.
  eexists _, _. split; [vm_compute; reflexivity|].
  assert (rtc (http_step ex_clock ex_id ex_to_bytes ex_serde Some ex_matchit ex_path_param)
            ex_app ex_app1) as Hr by (eapply rtc_l; [apply step_http|apply rtc_refl]).
  destruct (http_reachable_ports_disjoint ex_clock ex_id ex_to_bytes ex_serde Some ex_matchit
              ex_path_param ex_app ex_app1 ex_path_rejects ex_service0_inv Hr) as [_ H].
  exact (proj1 (H "i"%string _ _ ltac:(vm_compute; reflexivity))).
Defined.

(** The second allocation through HTTP. *)
Lemma http_refines_service_witness :
  performs ex_clock ex_id (Ok (ReqCreate Tcp None)) ex_app1 (ex_http ex_create ex_app1) ∧
  performs ex_clock ex_id (Err (text_response BAD_REQUEST "invalid protocol")) ex_app1
    (ex_http (ex_request POST "/v1/allocations" (Some "Bearer secret"%string) "icmp") ex_app1).
Proof.
  assert (as_auth_token ex_app1 = "secret"%string) as Ht by (vm_compute; reflexivity).
  split.
  - eapply (http_refines_service ex_clock ex_id ex_to_bytes ex_serde Some ex_matchit ex_path_param
              ex_create ex_app1 2); [|reflexivity|reflexivity|reflexivity].
    unfold authorized. rewrite Ht. reflexivity.
  - eapply (http_refines_service ex_clock ex_id ex_to_bytes ex_serde Some ex_matchit ex_path_param
              (ex_request POST "/v1/allocations" (Some "Bearer secret"%string) "icmp") ex_app1 2);
      [|reflexivity|reflexivity|reflexivity].
    unfold authorized. rewrite Ht. reflexivity.
Defined.
