(* ===== verification/Account.v ===== *)
(** Session counts: a wrapping 64-bit gauge and a wrapping count per listener follow a map
    from sessions to the listeners that own them. *)
From stdpp Require Import base gmap.
From Stdlib Require Import ZArith Lia.
From S2P Require Import Prelude RustStd.
Open Scope Z_scope.

(** The sessions of one listener. *)
Definition owned (e : nat) (R : gmap nat nat) : gmap nat nat := filter (λ p, p.2 = e) R.

Definition wrap (n : Z) : Z := n mod (u64_max + 1).

Definition account (g : Z) (A : gmap nat Z) (R : gmap nat nat) : Prop :=
  g = wrap (Z.of_nat (size R)) ∧
  ∀ e n, A !! e = Some n → n = wrap (Z.of_nat (size (owned e R))).


(** * Counting *)
Lemma owned_insert e t e' R :
  R !! t = None →
  size (owned e (<[t := e']> R)) =
  ((if decide (e' = e) then 1 else 0) + size (owned e R))%nat.
Proof.
  intros Ht. unfold owned. case_decide as He.
  - rewrite map_filter_insert_True by done. rewrite map_size_insert_None; [done|].
    apply map_lookup_filter_None. by left.
  - rewrite map_filter_insert_False by done. by rewrite delete_id.
Qed.

Lemma wrap_add n k : u64_wrapping_add (wrap n) k = wrap (n + k).
Proof. unfold u64_wrapping_add, wrap. by rewrite Zplus_mod_idemp_l. Qed.

Lemma wrap_sub n k : u64_wrapping_sub (wrap n) k = wrap (n - k).
Proof. unfold u64_wrapping_sub, wrap. by rewrite Zminus_mod_idemp_l. Qed.

(** The guard of a session that starts to copy, and its drop. *)
Lemma account_begin g A R t e :
  account g A R → R !! t = None →
  account (u64_wrapping_add g 1) (alter (λ n, u64_wrapping_add n 1) e A) (<[t := e]> R).
Proof.
  intros [-> HA] Ht. split.
  - rewrite wrap_add, map_size_insert_None by done. f_equal. lia.
  - intros e' n. rewrite owned_insert by done. destruct (decide (e' = e)) as [->|].
    + rewrite lookup_alter_eq. intros (m & Hm & ->)%fmap_Some. rewrite (HA _ _ Hm), wrap_add.
      rewrite decide_True by done. f_equal. lia.
    + rewrite lookup_alter_ne by done. intros Hn%HA. by rewrite decide_False.
Qed.

Lemma account_end g A R t e :
  account g A R → R !! t = Some e →
  account (u64_wrapping_sub g 1) (alter (λ n, u64_wrapping_sub n 1) e A) (delete t R).
Proof.
  intros [-> HA] Ht. set (R' := delete t R). assert (R = <[t := e]> R') as HR.
  { unfold R'. by rewrite insert_delete_eq, insert_id. }
  assert (R' !! t = None) as Ht' by apply lookup_delete_eq. split.
  - rewrite wrap_sub, HR, map_size_insert_None by done. f_equal. lia.
  - intros e' n. destruct (decide (e' = e)) as [->|].
    + rewrite lookup_alter_eq. intros (m & Hm & ->)%fmap_Some. rewrite (HA _ _ Hm), wrap_sub, HR.
      rewrite owned_insert, decide_True by done. f_equal. lia.
    + rewrite lookup_alter_ne by done. intros Hn%HA. rewrite Hn, HR.
      by rewrite owned_insert, decide_False.
Qed.

Lemma account_new_entry g A R e :
  account g A R → (∀ t, R !! t ≠ Some e) → account g (<[e := 0]> A) R.
Proof.
  intros [Hg HA] Hno. split; [done|]. intros e' n [[<- <-]|[_ Hn]]%lookup_insert_Some; [|by apply HA].
  assert (owned e R = ∅) as ->; [|done].
  apply map_empty. intros t. apply map_lookup_filter_None. right. intros e' Ht Hee. simpl in Hee. subst. by apply (Hno t).
Qed.
