(* ===== verification/Tcp.v ===== *)
(** runtime/tcp.rs: the TCP relay. Listeners are shared: the map of the runtime, the
    accept task and every session task hold the same [Arc<ListenerEntry>], so entries
    live in a heap and are named by references; session tasks likewise.

    A task advances by events between two of its suspension points: each event is one
    step, and events of different tasks and the operations of the facade interleave
    freely. What the operating system and the peers do (a bind, an accepted client, the
    outcome of connecting and of copying) is part of the event or, for binds, an oracle
    in the state. Capacities of hash tables are not modelled. *)
From stdpp Require Import base gmap strings list.
From Stdlib Require Import ZArith Lia.
From S2P Require Import Prelude RustStd Model Facade Metrics.
Open Scope Z_scope.

(** * Data *)
Record TcpRuntimeConfig : Type := {
  tc_bind_host : string;
  tc_tcp_splice_enabled : bool;
  tc_force_tcp_copy_fallback : bool;
}.

Definition TcpRuntimeConfig_with_bind_host (bind_host : string) : TcpRuntimeConfig :=
  {| tc_bind_host := bind_host; tc_tcp_splice_enabled := false;
     tc_force_tcp_copy_fallback := false |}.

Definition TcpRuntimeConfig_loopback : TcpRuntimeConfig :=
  TcpRuntimeConfig_with_bind_host "127.0.0.1".

Definition TcpRuntimeConfig_with_tcp_splice_enabled (enabled : bool) (c : TcpRuntimeConfig)
    : TcpRuntimeConfig :=
  {| tc_bind_host := tc_bind_host c; tc_tcp_splice_enabled := enabled;
     tc_force_tcp_copy_fallback := tc_force_tcp_copy_fallback c |}.

Definition TcpRuntimeConfig_with_force_tcp_copy_fallback (force : bool) (c : TcpRuntimeConfig)
    : TcpRuntimeConfig :=
  {| tc_bind_host := tc_bind_host c; tc_tcp_splice_enabled := tc_tcp_splice_enabled c;
     tc_force_tcp_copy_fallback := force |}.

Record TcpEntryState : Type := {
  ts_effective_host : option string;
  ts_effective_target_port : option Z;
  ts_runtime_status : RuntimeStatus;
  ts_error_kind : option ErrorKind;
  ts_last_error : option string;
}.

Record TcpListenerMetrics : Type := { tm_active : Z; tm_rx : Z; tm_tx : Z }.

Definition TcpListenerMetrics_default : TcpListenerMetrics :=
  {| tm_active := 0; tm_rx := 0; tm_tx := 0 |}.

(** Where the accept task is: in its [select!], about to read the entry's state for a
    client, giving a client its 50 ms before closing it, or about to lock the session
    table. *)
Inductive AcceptPhase : Type :=
| AcceptIdle
| AcceptRead
| AcceptReject
| AcceptInsert (session_id : Z) (host : string) (target_port : Z).

Record TcpListenerEntry : Type := {
  te_port : Z;
  te_state : TcpEntryState;
  te_metrics : TcpListenerMetrics;
  te_shutdown : bool;
  te_accept : option AcceptPhase;      (* [None]: the task ended or was aborted *)
  te_accept_task : bool;               (* the handle is still stored *)
  te_sessions : gmap Z nat;            (* senders, by session id: the task they signal *)
  te_next_session_id : Z;
  te_splice_enabled : bool;
  te_force_copy_fallback : bool;
}.

(** Where a session task is: connecting, copying with splice(2) or through buffers, or
    about to remove its handle. *)
Inductive SessionPhase : Type := Connecting | Splicing | Copying | Removing.

Record TcpSession : Type := {
  ss_entry : nat;
  ss_id : Z;
  ss_host : string;
  ss_target_port : Z;
  ss_phase : SessionPhase;
  ss_signalled : bool;                 (* the shutdown receiver is ready *)
}.

Record TcpRuntime : Type := {
  tr_config : TcpRuntimeConfig;
  tr_metrics : Metrics;
  tr_entries : gmap string nat;
  tr_heap : gmap nat TcpListenerEntry;
  tr_tasks : gmap nat TcpSession;
  tr_next : nat;                       (* the next unused reference *)
  tr_binds : nat → Z → bool;           (* whether the nth bind succeeds, on a port *)
  tr_bind_calls : nat;
}.

Definition TcpRuntime_new (config : TcpRuntimeConfig) (metrics : Metrics) (binds : nat → Z → bool)
    : TcpRuntime :=
  {| tr_config := config; tr_metrics := metrics; tr_entries := ∅; tr_heap := ∅;
     tr_tasks := ∅; tr_next := 0; tr_binds := binds; tr_bind_calls := 0 |}.

(** * Assignments to single fields *)
Definition te_set_state (x : TcpEntryState) (e : TcpListenerEntry) : TcpListenerEntry :=
  {| te_port := te_port e; te_state := x; te_metrics := te_metrics e;
     te_shutdown := te_shutdown e; te_accept := te_accept e; te_accept_task := te_accept_task e;
     te_sessions := te_sessions e; te_next_session_id := te_next_session_id e;
     te_splice_enabled := te_splice_enabled e; te_force_copy_fallback := te_force_copy_fallback e |}.

Definition te_set_metrics (x : TcpListenerMetrics) (e : TcpListenerEntry) : TcpListenerEntry :=
  {| te_port := te_port e; te_state := te_state e; te_metrics := x;
     te_shutdown := te_shutdown e; te_accept := te_accept e; te_accept_task := te_accept_task e;
     te_sessions := te_sessions e; te_next_session_id := te_next_session_id e;
     te_splice_enabled := te_splice_enabled e; te_force_copy_fallback := te_force_copy_fallback e |}.

Definition te_set_accept (x : option AcceptPhase) (e : TcpListenerEntry) : TcpListenerEntry :=
  {| te_port := te_port e; te_state := te_state e; te_metrics := te_metrics e;
     te_shutdown := te_shutdown e; te_accept := x; te_accept_task := te_accept_task e;
     te_sessions := te_sessions e; te_next_session_id := te_next_session_id e;
     te_splice_enabled := te_splice_enabled e; te_force_copy_fallback := te_force_copy_fallback e |}.

Definition te_set_sessions (x : gmap Z nat) (e : TcpListenerEntry) : TcpListenerEntry :=
  {| te_port := te_port e; te_state := te_state e; te_metrics := te_metrics e;
     te_shutdown := te_shutdown e; te_accept := te_accept e; te_accept_task := te_accept_task e;
     te_sessions := x; te_next_session_id := te_next_session_id e;
     te_splice_enabled := te_splice_enabled e; te_force_copy_fallback := te_force_copy_fallback e |}.

Definition te_set_next_session_id (x : Z) (e : TcpListenerEntry) : TcpListenerEntry :=
  {| te_port := te_port e; te_state := te_state e; te_metrics := te_metrics e;
     te_shutdown := te_shutdown e; te_accept := te_accept e; te_accept_task := te_accept_task e;
     te_sessions := te_sessions e; te_next_session_id := x;
     te_splice_enabled := te_splice_enabled e; te_force_copy_fallback := te_force_copy_fallback e |}.

(** [shutdown.send(true)], the handle taken, the task aborted and awaited. *)
Definition te_stop_accept (e : TcpListenerEntry) : TcpListenerEntry :=
  {| te_port := te_port e; te_state := te_state e; te_metrics := te_metrics e;
     te_shutdown := true; te_accept := if te_accept_task e then None else te_accept e;
     te_accept_task := false;
     te_sessions := te_sessions e; te_next_session_id := te_next_session_id e;
     te_splice_enabled := te_splice_enabled e; te_force_copy_fallback := te_force_copy_fallback e |}.

Definition ss_set_phase (x : SessionPhase) (t : TcpSession) : TcpSession :=
  {| ss_entry := ss_entry t; ss_id := ss_id t; ss_host := ss_host t;
     ss_target_port := ss_target_port t; ss_phase := x; ss_signalled := ss_signalled t |}.

Definition ss_signal (t : TcpSession) : TcpSession :=
  {| ss_entry := ss_entry t; ss_id := ss_id t; ss_host := ss_host t;
     ss_target_port := ss_target_port t; ss_phase := ss_phase t; ss_signalled := true |}.

Definition tr_set_metrics (x : Metrics) (s : TcpRuntime) : TcpRuntime :=
  {| tr_config := tr_config s; tr_metrics := x; tr_entries := tr_entries s;
     tr_heap := tr_heap s; tr_tasks := tr_tasks s; tr_next := tr_next s;
     tr_binds := tr_binds s; tr_bind_calls := tr_bind_calls s |}.

Definition tr_set_entries (x : gmap string nat) (s : TcpRuntime) : TcpRuntime :=
  {| tr_config := tr_config s; tr_metrics := tr_metrics s; tr_entries := x;
     tr_heap := tr_heap s; tr_tasks := tr_tasks s; tr_next := tr_next s;
     tr_binds := tr_binds s; tr_bind_calls := tr_bind_calls s |}.

Definition tr_set_heap (x : gmap nat TcpListenerEntry) (s : TcpRuntime) : TcpRuntime :=
  {| tr_config := tr_config s; tr_metrics := tr_metrics s; tr_entries := tr_entries s;
     tr_heap := x; tr_tasks := tr_tasks s; tr_next := tr_next s;
     tr_binds := tr_binds s; tr_bind_calls := tr_bind_calls s |}.

Definition tr_set_tasks (x : gmap nat TcpSession) (s : TcpRuntime) : TcpRuntime :=
  {| tr_config := tr_config s; tr_metrics := tr_metrics s; tr_entries := tr_entries s;
     tr_heap := tr_heap s; tr_tasks := x; tr_next := tr_next s;
     tr_binds := tr_binds s; tr_bind_calls := tr_bind_calls s |}.

Definition tr_count_bind (s : TcpRuntime) : TcpRuntime :=
  {| tr_config := tr_config s; tr_metrics := tr_metrics s; tr_entries := tr_entries s;
     tr_heap := tr_heap s; tr_tasks := tr_tasks s; tr_next := tr_next s;
     tr_binds := tr_binds s; tr_bind_calls := S (tr_bind_calls s) |}.

Definition tr_count_ref (s : TcpRuntime) : TcpRuntime :=
  {| tr_config := tr_config s; tr_metrics := tr_metrics s; tr_entries := tr_entries s;
     tr_heap := tr_heap s; tr_tasks := tr_tasks s; tr_next := S (tr_next s);
     tr_binds := tr_binds s; tr_bind_calls := tr_bind_calls s |}.

Definition tr_metric (f : Metrics → Metrics) (s : TcpRuntime) : TcpRuntime :=
  tr_set_metrics (f (tr_metrics s)) s.

Definition tr_inc (c : MetricName) (s : TcpRuntime) : TcpRuntime := tr_metric (Counter_inc c) s.

Definition tr_alter_entry (f : TcpListenerEntry → TcpListenerEntry) (e : nat) (s : TcpRuntime)
    : TcpRuntime :=
  tr_set_heap (alter f e (tr_heap s)) s.

Definition tr_alter_task (f : TcpSession → TcpSession) (t : nat) (s : TcpRuntime) : TcpRuntime :=
  tr_set_tasks (alter f t (tr_tasks s)) s.

(** * The listener *)
Definition TcpRuntime_entry_state_for (a : Allocation) : TcpEntryState :=
  match al_host a, al_target_port a with
  | Some host, Some target_port =>
      {| ts_effective_host := Some host; ts_effective_target_port := Some target_port;
         ts_runtime_status := Active; ts_error_kind := None; ts_last_error := None |}
  | _, _ =>
      {| ts_effective_host := None; ts_effective_target_port := None;
         ts_runtime_status := RejectingNoHost; ts_error_kind := None; ts_last_error := None |}
  end.

(** A socket address: the host and the port. *)
Definition TcpRuntime_bind_addr (c : TcpRuntimeConfig) (port : Z)
    : result (IpAddr * Z) RuntimeError :=
  let? host := ok_or RuntimeCreateFailed (IpAddr_from_str (tc_bind_host c)) in
  Ok (host, port).

(** [state.error_kind = Some(ApplyFailed); state.last_error = Some(..)]. *)
Definition record_apply_error (message : string) (x : TcpEntryState) : TcpEntryState :=
  {| ts_effective_host := ts_effective_host x;
     ts_effective_target_port := ts_effective_target_port x;
     ts_runtime_status := ts_runtime_status x;
     ts_error_kind := Some ApplyFailed; ts_last_error := Some message |}.

Definition new_entry (c : TcpRuntimeConfig) (a : Allocation) : TcpListenerEntry :=
  {| te_port := al_port a; te_state := TcpRuntime_entry_state_for a;
     te_metrics := TcpListenerMetrics_default; te_shutdown := false;
     te_accept := Some AcceptIdle; te_accept_task := true;     (* [spawn_accept_loop] *)
     te_sessions := ∅; te_next_session_id := 0;
     te_splice_enabled := tc_tcp_splice_enabled c;
     te_force_copy_fallback := tc_force_tcp_copy_fallback c |}.

(** A sender sent or dropped makes the task's receiver ready. *)
Definition signal_sender (t : option nat) (s : TcpRuntime) : TcpRuntime :=
  match t with Some t => tr_alter_task ss_signal t s | None => s end.

(** The senders of the tasks [ts] sent. *)
Definition signal_all (ts : list nat) (s : TcpRuntime) : TcpRuntime :=
  tr_set_tasks (map_imap (λ t task, Some (if decide (t ∈ ts) then ss_signal task else task)) (tr_tasks s)) s.

(** Drains the table, then signals every session. *)
Definition TcpRuntime_close_sessions (e : nat) (s : TcpRuntime) : TcpRuntime :=
  match tr_heap s !! e with
  | Some entry =>
      signal_all (map_to_list (te_sessions entry)).*2 (tr_alter_entry (te_set_sessions ∅) e s)
  | None => s
  end.

Definition TcpRuntime_remove_session_handle (e : nat) (session_id : Z) (s : TcpRuntime)
    : TcpRuntime :=
  match tr_heap s !! e with
  | Some entry =>
      signal_sender (te_sessions entry !! session_id)
        (tr_alter_entry (te_set_sessions (delete session_id (te_sessions entry))) e s)
  | None => s
  end.

Definition TcpRuntime_stop_entry (e : nat) (s : TcpRuntime) : TcpRuntime :=
  TcpRuntime_close_sessions e (tr_alter_entry te_stop_accept e s).

Definition TcpRuntime_shutdown_all (s : TcpRuntime) : TcpRuntime :=
  foldl (λ s e, TcpRuntime_stop_entry e s) (tr_set_entries ∅ s) (map_to_list (tr_entries s)).*2.

(** * The facade *)
Abbreviation TcpM := (M TcpRuntime RuntimeError).

(** A bind and, when it succeeds, the new entry's reference. [metrics] are the counters
    a failing bind increments, [error] what it returns. *)
Definition bind_listener (a : Allocation) (failed : list MetricName) (error : RuntimeError)
    : TcpM nat := λ s,
  let s1 := tr_count_bind s in
  if tr_binds s (tr_bind_calls s) (al_port a) then
    let e := tr_next s in
    (Ok e, tr_count_ref (tr_set_heap (<[e := new_entry (tr_config s) a]> (tr_heap s1)) s1))
  else (Err error, foldr tr_inc s1 failed).

Definition TcpRuntime_bind_entry (a : Allocation) : TcpM nat :=
  let! config := gets tr_config in
  let! _addr := of_result (TcpRuntime_bind_addr config (al_port a)) in
  bind_listener a [bind_fail_total] RuntimeCreateFailed.

(** [entries.lock().insert(id, entry)]. *)
Definition insert_entry (id : string) (e : nat) : TcpM unit :=
  modify (λ s, tr_set_entries (<[id := e]> (tr_entries s)) s).

Definition TcpRuntime_initialize (_timeout_ms : Z) : TcpM unit := ret tt.

Definition TcpRuntime_create (a : Allocation) (_timeout_ms : Z) : TcpM unit :=
  if negb (bool_decide (al_protocol a = Tcp)) then ret tt
  else
    let! entry := TcpRuntime_bind_entry a in
    insert_entry (al_id a) entry;;
    modify (tr_inc runtime_apply_total).

Definition TcpRuntime_update (a : Allocation) (_timeout_ms : Z) : TcpM unit :=
  let! found := gets (λ s, tr_entries s !! al_id a) in
  let! entry := of_result (ok_or RuntimeUpdateFailed found) in
  let new_state := TcpRuntime_entry_state_for a in
  (if bool_decide (ts_runtime_status new_state = RejectingNoHost)
   then modify (tr_inc rejected_no_host_total) else ret tt);;
  modify (tr_alter_entry (te_set_state new_state) entry);;
  modify (TcpRuntime_close_sessions entry);;
  modify (tr_inc runtime_apply_total).

Definition TcpRuntime_delete (id : string) (_timeout_ms : Z) : TcpM unit :=
  let! found := gets (λ s, tr_entries s !! id) in
  match found with
  | None => ret tt
  | Some entry =>
      modify (λ s, tr_set_entries (delete id (tr_entries s)) s);;
      modify (TcpRuntime_stop_entry entry)
  end.

Definition TcpRuntime_restore (a : Allocation) (_timeout_ms : Z) : TcpM unit :=
  if negb (bool_decide (al_protocol a = Tcp)) then ret tt
  else
    let! config := gets tr_config in
    let! _addr := of_result (map_err (λ _, RuntimeRestoreFailed)
                               (TcpRuntime_bind_addr config (al_port a))) in
    let! entry := bind_listener a [restore_failures_total; bind_fail_total] RuntimeRestoreFailed in
    insert_entry (al_id a) entry;;
    modify (tr_inc runtime_apply_total).

Definition tcp_observed (x : TcpEntryState) : ObservedState :=
  {| os_effective_target_port := ts_effective_target_port x;
     os_effective_host := ts_effective_host x; os_runtime_status := ts_runtime_status x;
     os_error_kind := ts_error_kind x; os_last_error := ts_last_error x |}.

Definition TcpRuntime_snapshot (id : string) : TcpM (option ObservedState) :=
  gets (λ s, e ← tr_entries s !! id; entry ← tr_heap s !! e; Some (tcp_observed (te_state entry))).

Definition tcp_listener_row (entry : TcpListenerEntry) : ListenerMetricsSnapshot :=
  {| lm_port := te_port entry; lm_protocol := Tcp;
     lm_connections_current := tm_active (te_metrics entry);
     lm_rx_bytes_total := tm_rx (te_metrics entry);
     lm_tx_bytes_total := tm_tx (te_metrics entry) |}.

(** The rows in the order of the map's iteration. *)
Definition TcpRuntime_snapshot_listener_metrics : TcpM (list ListenerMetricsSnapshot) :=
  gets (λ s, tcp_listener_row <$>
             omap (λ e, tr_heap s !! e) (map_to_list (tr_entries s)).*2).

#[export] Instance TcpRuntime_facade : RuntimeFacade TcpRuntime := {|
  rt_initialize := TcpRuntime_initialize;
  rt_create := TcpRuntime_create;
  rt_update := TcpRuntime_update;
  rt_delete := TcpRuntime_delete;
  rt_restore := TcpRuntime_restore;
  rt_snapshot := TcpRuntime_snapshot;
  rt_snapshot_listener_metrics := TcpRuntime_snapshot_listener_metrics;
|}.

(** * Sessions *)
Definition ActiveSessionGuard_new (e : nat) (s : TcpRuntime) : TcpRuntime :=
  tr_alter_entry (λ x, te_set_metrics
      {| tm_active := u64_wrapping_add (tm_active (te_metrics x)) 1;
         tm_rx := tm_rx (te_metrics x); tm_tx := tm_tx (te_metrics x) |} x) e
    (tr_metric (Gauge_inc tcp_active_sessions) (tr_inc tcp_session_create_total s)).

Definition ActiveSessionGuard_drop (e : nat) (s : TcpRuntime) : TcpRuntime :=
  tr_inc tcp_session_close_total
    (tr_metric (Gauge_dec tcp_active_sessions)
      (tr_alter_entry (λ x, te_set_metrics
         {| tm_active := u64_wrapping_sub (tm_active (te_metrics x)) 1;
            tm_rx := tm_rx (te_metrics x); tm_tx := tm_tx (te_metrics x) |} x) e s)).

(** The bytes of a finished session. *)
Definition count_bytes (e : nat) (from_client from_upstream : Z) (s : TcpRuntime) : TcpRuntime :=
  tr_alter_entry (λ x, te_set_metrics
      {| tm_active := tm_active (te_metrics x);
         tm_rx := u64_wrapping_add (tm_rx (te_metrics x)) from_upstream;
         tm_tx := u64_wrapping_add (tm_tx (te_metrics x)) from_client |} x) e s.

Inductive TcpErrorKind : Type :=
| BrokenPipe | ConnectionReset | NotConnected | WriteZero | OtherTcpError.

Record TcpIoError : Type := { tie_kind : TcpErrorKind; tie_message : string }.

Definition splice_error_is_clean_close (error : TcpIoError) : bool :=
  match tie_kind error with
  | BrokenPipe | ConnectionReset | NotConnected | WriteZero => true
  | OtherTcpError => false
  end.

Definition record_copy_fallback (forced : bool) (s : TcpRuntime) : TcpRuntime :=
  tr_inc (if forced then tcp_splice_fallback_forced_total
          else tcp_splice_fallback_unsupported_total)
    (tr_inc tcp_splice_fallback_total (tr_inc tcp_copy_fallback_total s)).

(** [copy_streams] up to its first suspension: which copy it starts. *)
Definition copy_streams_begin (entry : TcpListenerEntry) (s : TcpRuntime)
    : SessionPhase * TcpRuntime :=
  if te_force_copy_fallback entry then (Copying, record_copy_fallback true s)
  else if negb (te_splice_enabled entry) then (Copying, tr_inc tcp_copy_fallback_total s)
  else (Splicing, tr_inc tcp_splice_attempt_total s).

(** What splice(2) ended with: it cannot be set up, or the bytes of both directions and
    their errors. *)
Inductive SpliceOutcome : Type :=
| SpliceUnsupported
| SpliceResult (from_client from_upstream : Z) (client_error upstream_error : option TcpIoError).

(** [copy_streams] after splice(2): go on with buffers, fail, or the bytes copied. *)
Definition copy_streams_spliced (o : SpliceOutcome) (s : TcpRuntime)
    : option (result (Z * Z) TcpIoError) * TcpRuntime :=
  match o with
  | SpliceUnsupported => (None, record_copy_fallback false s)
  | SpliceResult from_client from_upstream client_error upstream_error =>
      match head (filter (λ x, splice_error_is_clean_close x = false)
                    (omap id [client_error; upstream_error])) with
      | Some error => (Some (Err error), tr_inc tcp_splice_hard_failure_total s)
      | None =>
          (Some (Ok (from_client, from_upstream)),
           tr_inc tcp_splice_fast_path_total (tr_inc tcp_splice_success_total s))
      end
  end.

(** The end of a copy: bytes are counted or the error recorded, and the guard drops. *)
Definition copied (e : nat) (r : result (Z * Z) TcpIoError) (s : TcpRuntime) : TcpRuntime :=
  ActiveSessionGuard_drop e
    (match r with
     | Ok (from_client, from_upstream) => count_bytes e from_client from_upstream s
     | Err error =>
         tr_alter_entry (λ x, te_set_state (record_apply_error (tie_message error) (te_state x)) x) e s
     end).

(** * Events *)
Inductive TcpEvent : Type :=
| EvAccept (e : nat)                 (* a client is accepted *)
| EvAcceptError (e : nat)
| EvSeeShutdown (e : nat)            (* the accept task sees the shutdown *)
| EvReadState (e : nat)
| EvRejected (e : nat)
| EvInsert (e : nat)
| EvConnected (t : nat)
| EvConnectFailed (t : nat) (error : TcpIoError)
| EvSpliced (t : nat) (o : SpliceOutcome)
| EvCopied (t : nat) (r : result (Z * Z) TcpIoError)
| EvCancelled (t : nat)              (* [select!] takes the shutdown *)
| EvRemoved (t : nat).

(** The accept task of [e] is in phase [p]. *)
Definition accepting (e : nat) (s : TcpRuntime) : option (AcceptPhase * TcpListenerEntry) :=
  entry ← tr_heap s !! e; p ← te_accept entry; Some (p, entry).

Definition set_phase (t : nat) (p : SessionPhase) (s : TcpRuntime) : TcpRuntime :=
  tr_alter_task (ss_set_phase p) t s.

(** [handle_client] up to the lock of the session table. *)
Definition handle_client_read (e : nat) (entry : TcpListenerEntry) (s : TcpRuntime) : TcpRuntime :=
  match ts_effective_host (te_state entry), ts_effective_target_port (te_state entry) with
  | Some host, Some target_port =>
      tr_alter_entry
        (λ x, te_set_accept (Some (AcceptInsert (te_next_session_id x) host target_port))
                (te_set_next_session_id (u64_wrapping_add (te_next_session_id x) 1) x)) e s
  | _, _ =>
      tr_inc rejected_no_host_total (tr_alter_entry (te_set_accept (Some AcceptReject)) e s)
  end.

(** The rest of [handle_client]: the handle is stored and the session task spawned; a
    handle under the same number is dropped. *)
Definition handle_client_insert (e : nat) (entry : TcpListenerEntry) (session_id : Z)
    (host : string) (target_port : Z) (s : TcpRuntime) : TcpRuntime :=
  let t := tr_next s in
  let s1 := signal_sender (te_sessions entry !! session_id) s in
  let s2 := tr_alter_entry
              (λ x, te_set_accept (Some AcceptIdle)
                      (te_set_sessions (<[session_id := t]> (te_sessions x)) x)) e s1 in
  tr_count_ref (tr_set_tasks
    (<[t := {| ss_entry := e; ss_id := session_id; ss_host := host;
               ss_target_port := target_port; ss_phase := Connecting;
               ss_signalled := false |}]> (tr_tasks s2)) s2).

(** One event; [None] when the task is not there. *)
Definition tcp_event (ev : TcpEvent) (s : TcpRuntime) : option TcpRuntime :=
  match ev with
  | EvAccept e =>
      match accepting e s with
      | Some (AcceptIdle, _) =>
          Some (tr_inc tcp_listener_accept_total
                  (tr_alter_entry (te_set_accept (Some AcceptRead)) e s))
      | _ => None
      end
  | EvAcceptError e =>
      match accepting e s with
      | Some (AcceptIdle, _) => Some (tr_alter_entry (te_set_accept None) e s)
      | _ => None
      end
  | EvSeeShutdown e =>
      match accepting e s with
      | Some (AcceptIdle, entry) =>
          if te_shutdown entry then Some (tr_alter_entry (te_set_accept None) e s) else None
      | _ => None
      end
  | EvReadState e =>
      match accepting e s with
      | Some (AcceptRead, entry) => Some (handle_client_read e entry s)
      | _ => None
      end
  | EvRejected e =>
      match accepting e s with
      | Some (AcceptReject, _) => Some (tr_alter_entry (te_set_accept (Some AcceptIdle)) e s)
      | _ => None
      end
  | EvInsert e =>
      match accepting e s with
      | Some (AcceptInsert session_id host target_port, entry) =>
          Some (handle_client_insert e entry session_id host target_port s)
      | _ => None
      end
  | EvConnected t =>
      task ← tr_tasks s !! t; entry ← tr_heap s !! ss_entry task;
      match ss_phase task with
      | Connecting =>
          let '(p, s1) := copy_streams_begin entry
            (ActiveSessionGuard_new (ss_entry task) (tr_inc tcp_upstream_connect_total s)) in
          Some (set_phase t p s1)
      | _ => None
      end
  | EvConnectFailed t error =>
      task ← tr_tasks s !! t;
      match ss_phase task with
      | Connecting =>
          Some (set_phase t Removing
            (tr_alter_entry (λ x, te_set_state (record_apply_error (tie_message error) (te_state x)) x)
               (ss_entry task) (tr_inc tcp_upstream_connect_fail_total s)))
      | _ => None
      end
  | EvSpliced t o =>
      task ← tr_tasks s !! t;
      match ss_phase task with
      | Splicing =>
          match copy_streams_spliced o s with
          | (None, s1) => Some (set_phase t Copying s1)
          | (Some r, s1) => Some (set_phase t Removing (copied (ss_entry task) r s1))
          end
      | _ => None
      end
  | EvCopied t r =>
      task ← tr_tasks s !! t;
      match ss_phase task with
      | Copying => Some (set_phase t Removing (copied (ss_entry task) r s))
      | _ => None
      end
  | EvCancelled t =>
      task ← tr_tasks s !! t;
      if ss_signalled task then
        match ss_phase task with
        | Connecting => Some (set_phase t Removing s)
        | Splicing | Copying =>
            Some (set_phase t Removing (ActiveSessionGuard_drop (ss_entry task) s))
        | Removing => None
        end
      else None
  | EvRemoved t =>
      task ← tr_tasks s !! t;
      match ss_phase task with
      | Removing =>
          let s1 := TcpRuntime_remove_session_handle (ss_entry task) (ss_id task) s in
          Some (tr_set_tasks (delete t (tr_tasks s1)) s1)
      | _ => None
      end
  end.
