(* ===== verification/TcpSpec.v ===== *)
(** The structure of the TCP relay (runtime/tcp.rs): under any interleaving of facade
    operations and task events every session that was not told to stop is registered
    with its listener, so stopping a listener reaches all of its sessions. *)
From stdpp Require Import base gmap strings list relations fin_maps.
From Stdlib Require Import ZArith Lia.
From S2P Require Import Prelude RustStd Model Facade Metrics Tcp.
Open Scope Z_scope.

(** * Steps *)

(** The operations of the facade and [shutdown_all]. *)
Inductive TcpRequest : Type :=
| TcpCreate (a : Allocation)
| TcpUpdate (a : Allocation)
| TcpDelete (id : string)
| TcpRestore (a : Allocation)
| TcpShutdown.

Definition run_tcp (q : TcpRequest) (s : TcpRuntime) : TcpRuntime :=
  match q with
  | TcpCreate a => (TcpRuntime_create a 0 s).2
  | TcpUpdate a => (TcpRuntime_update a 0 s).2
  | TcpDelete id => (TcpRuntime_delete id 0 s).2
  | TcpRestore a => (TcpRuntime_restore a 0 s).2
  | TcpShutdown => TcpRuntime_shutdown_all s
  end.

Inductive tcp_step : TcpRuntime → TcpRuntime → Prop :=
| tcp_step_request q s : tcp_step s (run_tcp q s)
| tcp_step_event ev s s' : tcp_event ev s = Some s' → tcp_step s s'.

Definition tcp_initial (s : TcpRuntime) : Prop :=
  ∃ config metrics binds, s = TcpRuntime_new config metrics binds.

(** * What the structure consists of *)

(** The session tables by entry, and of a task its entry, its number and whether it was
    told to stop. *)
Definition tables (s : TcpRuntime) : gmap nat (gmap Z nat) := te_sessions <$> tr_heap s.
Definition links (s : TcpRuntime) : gmap nat (nat * Z * bool) :=
  (λ t, (ss_entry t, ss_id t, ss_signalled t)) <$> tr_tasks s.

Record structure (E : gmap string nat) (H : gmap nat (gmap Z nat)) (T : gmap nat (nat * Z * bool))
    (n : nat) : Prop := {
  st_entries id e : E !! id = Some e → is_Some (H !! e);
  st_entry_ref e : is_Some (H !! e) → (e < n)%nat;
  st_task_ref t : is_Some (T !! t) → (t < n)%nat;
  st_task t e i b : T !! t = Some (e, i, b) →
    ∃ tbl, H !! e = Some tbl ∧ (b = false → tbl !! i = Some t);
  st_table e tbl i t : H !! e = Some tbl → tbl !! i = Some t →
    (t < n)%nat ∧ ∀ e' i' b, T !! t = Some (e', i', b) → e' = e ∧ i' = i;
}.

Definition tcp_structure (s : TcpRuntime) : Prop :=
  structure (tr_entries s) (tables s) (links s) (tr_next s).

(** Most events leave the structure alone. *)
Definition same_structure (s s' : TcpRuntime) : Prop :=
  tr_entries s' = tr_entries s ∧ tables s' = tables s ∧ links s' = links s ∧
  tr_next s' = tr_next s.

#[export] Instance same_structure_po : PreOrder same_structure.
Proof. split; [by intros s|]. intros s1 s2 s3 (?&?&?&?) (?&?&?&?). split_and!; congruence. Qed.

Lemma same_structure_inv s s' : same_structure s s' → tcp_structure s → tcp_structure s'.
Proof. unfold tcp_structure. by intros (-> & -> & -> & ->). Qed.

Lemma same_inc c s : same_structure s (tr_inc c s).
Proof. done. Qed.

Lemma same_metric f s : same_structure s (tr_metric f s).
Proof. done. Qed.


Lemma fmap_alter_same {A B} (g : A → B) (f : A → A) (m : gmap nat A) k :
  (∀ x, g (f x) = g x) → g <$> alter f k m = g <$> m.
Proof.
  intros Hf. apply map_eq. intros i. rewrite !lookup_fmap.
  destruct (decide (i = k)) as [->|]; [|by rewrite lookup_alter_ne].
  rewrite lookup_alter_eq. destruct (m !! k); simpl; [by rewrite Hf|done].
Qed.

Lemma same_alter_entry f e s :
  (∀ x, te_sessions (f x) = te_sessions x) → same_structure s (tr_alter_entry f e s).
Proof. intros Hf. split_and!; try done. unfold tables. simpl. by apply fmap_alter_same. Qed.

Lemma same_alter_task f t s :
  (∀ x, (ss_entry (f x), ss_id (f x), ss_signalled (f x)) = (ss_entry x, ss_id x, ss_signalled x)) →
  same_structure s (tr_alter_task f t s).
Proof. intros Hf. split_and!; try done. unfold links. simpl. by apply fmap_alter_same. Qed.

(** * Changes of the structure *)
Abbreviation signal_link := (λ x : nat * Z * bool, (x.1, true)).

Section changes.
  Context (E : gmap string nat) (H : gmap nat (gmap Z nat)) (T : gmap nat (nat * Z * bool)).
  Context (n : nat) (Hst : structure E H T n).

Lemma structure_entries E' :
  (∀ id e, E' !! id = Some e → is_Some (H !! e)) → structure E' H T n.
Proof. intros HE. split; [done|apply Hst..]. Qed.

(** Signalling tasks; [f] may depend on the task. *)
Lemma structure_signal T' :
  (∀ t x', T' !! t = Some x' → ∃ x, T !! t = Some x ∧ (x' = x ∨ x' = signal_link x)) →
  structure E H T' n.
Proof.
  intros HT. split; [apply Hst|apply Hst| | |].
  - intros t [x' (x & Hx & _)%HT]. apply (st_task_ref _ _ _ _ Hst). by eexists.
  - intros t e i b (x & Hx & Hor)%HT. destruct x as [[e0 i0] b0].
    destruct (st_task _ _ _ _ Hst _ _ _ _ Hx) as (tbl & Htbl & Hreg).
    destruct Hor as [[= -> -> ->]|[= -> -> ->]]; eauto. exists tbl. by split.
  - intros e tbl i t He Hi. destruct (st_table _ _ _ _ Hst _ _ _ _ He Hi) as [Hlt Ht].
    split; [done|]. intros e' i' b (x & Hx & Hor)%HT. destruct x as [[e0 i0] b0].
    destruct Hor as [[= -> -> ->]|[= -> -> ->]]; eauto.
Qed.

Lemma structure_new_entry : structure E (<[n := ∅]> H) T (S n).
Proof.
  assert (H !! n = None) as Hn.
  { destruct (H !! n) eqn:Hx; [|done]. assert (n < n)%nat; [|lia]. apply (st_entry_ref _ _ _ _ Hst). by eexists. }
  split.
  - intros id e He. apply lookup_insert_is_Some.
    destruct (decide (n = e)); [by left|right]. split; [done|]. by eapply (st_entries _ _ _ _ Hst).
  - intros e [->|[_ He]]%lookup_insert_is_Some; [lia|]. apply (st_entry_ref _ _ _ _ Hst) in He. lia.
  - intros t Ht. apply (st_task_ref _ _ _ _ Hst) in Ht. lia.
  - intros t e i b Ht. destruct (st_task _ _ _ _ Hst _ _ _ _ Ht) as (tbl & Htbl & Hreg).
    exists tbl. split; [|done]. rewrite lookup_insert_ne; [done|]. intros ->. congruence.
  - intros e tbl i t He Hi. apply lookup_insert_Some in He as [[-> <-]|[_ He]]; [by rewrite lookup_empty in Hi|].
    destruct (st_table _ _ _ _ Hst _ _ _ _ He Hi) as [? ?]. split; [lia|done].
Qed.

(** A new task [n] registered under [i]; whoever was registered there is signalled. *)
Lemma structure_register e tbl i :
  H !! e = Some tbl →
  (∀ t e' i' b, tbl !! i = Some t → T !! t = Some (e', i', b) → b = true) →
  structure E (<[e := <[i := n]> tbl]> H) (<[n := (e, i, false)]> T) (S n).
Proof.
  intros He Hi.
  assert (T !! n = None) as Hn.
  { destruct (T !! n) eqn:Hx; [|done]. assert (n < n)%nat; [|lia]. apply (st_task_ref _ _ _ _ Hst). by eexists. }
  split.
  - intros id e0 He0. apply lookup_insert_is_Some.
    destruct (decide (e = e0)); [by left|right]. split; [done|]. by eapply (st_entries _ _ _ _ Hst).
  - intros e0 [<-|[_ He0]]%lookup_insert_is_Some.
    + enough (e < n)%nat by lia. apply (st_entry_ref _ _ _ _ Hst). by eexists.
    + apply (st_entry_ref _ _ _ _ Hst) in He0. lia.
  - intros t [->|[_ Ht]]%lookup_insert_is_Some; [lia|]. apply (st_task_ref _ _ _ _ Hst) in Ht. lia.
  - intros t e0 i0 b [[<- [= <- <- <-]]|[Hne Ht]]%lookup_insert_Some.
    + exists (<[i := n]> tbl). rewrite lookup_insert_eq. split; [done|]. intros _. by rewrite lookup_insert_eq.
    + destruct (st_task _ _ _ _ Hst _ _ _ _ Ht) as (tbl0 & Htbl0 & Hreg).
      destruct (decide (e0 = e)) as [->|].
      * rewrite lookup_insert_eq. eexists. split; [done|]. intros Hb. specialize (Hreg Hb).
        assert (tbl0 = tbl) as -> by congruence. rewrite lookup_insert_ne; [done|].
        intros ->. rewrite (Hi _ _ _ _ Hreg Ht) in Hb. done.
      * rewrite lookup_insert_ne by done. eauto.
  - intros e0 tbl0 i0 t [[<- <-]|[Hne He0]]%lookup_insert_Some Hi0.
    + apply lookup_insert_Some in Hi0 as [[<- <-]|[_ Hi0]].
      * split; [lia|]. rewrite lookup_insert_eq. by intros ??? [= <- <- _].
      * destruct (st_table _ _ _ _ Hst _ _ _ _ He Hi0) as [Hlt Ht]. split; [lia|].
        intros e' i' b. rewrite lookup_insert_ne by lia. apply Ht.
    + destruct (st_table _ _ _ _ Hst _ _ _ _ He0 Hi0) as [Hlt Ht]. split; [lia|].
      intros e' i' b. rewrite lookup_insert_ne by lia. apply Ht.
Qed.

(** Handle [i] dropped; whoever was registered there is signalled. *)
Lemma structure_unregister e tbl i :
  H !! e = Some tbl →
  (∀ t e' i' b, tbl !! i = Some t → T !! t = Some (e', i', b) → b = true) →
  structure E (<[e := delete i tbl]> H) T n.
Proof.
  intros He Hi. split.
  - intros id e0 He0. apply lookup_insert_is_Some.
    destruct (decide (e = e0)); [by left|right]. split; [done|]. by eapply (st_entries _ _ _ _ Hst).
  - intros e0 [<-|[_ He0]]%lookup_insert_is_Some; apply (st_entry_ref _ _ _ _ Hst); [by eexists|done].
  - apply Hst.
  - intros t e0 i0 b Ht. destruct (st_task _ _ _ _ Hst _ _ _ _ Ht) as (tbl0 & Htbl0 & Hreg).
    destruct (decide (e0 = e)) as [->|].
    + rewrite lookup_insert_eq. eexists. split; [done|]. intros Hb. specialize (Hreg Hb).
      assert (tbl0 = tbl) as -> by congruence. rewrite lookup_delete_ne; [done|].
      intros ->. rewrite (Hi _ _ _ _ Hreg Ht) in Hb. done.
    + rewrite lookup_insert_ne by done. eauto.
  - intros e0 tbl0 i0 t [[<- <-]|[Hne He0]]%lookup_insert_Some Hi0.
    + apply lookup_delete_Some in Hi0 as [_ Hi0]. by apply (st_table _ _ _ _ Hst _ _ _ _ He).
    + by apply (st_table _ _ _ _ Hst _ _ _ _ He0).
Qed.

Lemma structure_end t : structure E H (delete t T) n.
Proof.
  split; [apply Hst|apply Hst| | |].
  - intros t0 [x [_ Hx]%lookup_delete_Some]. apply (st_task_ref _ _ _ _ Hst). by eexists.
  - intros t0 e i b [_ Ht]%lookup_delete_Some. by apply (st_task _ _ _ _ Hst _ _ _ _ Ht).
  - intros e tbl i t0 He Hi. destruct (st_table _ _ _ _ Hst _ _ _ _ He Hi) as [Hlt Ht].
    split; [done|]. intros e' i' b [_ Hx]%lookup_delete_Some. by apply (Ht _ _ _ Hx).
Qed.

(** The table emptied, all of its tasks signalled. *)
Lemma structure_drain e tbl :
  H !! e = Some tbl →
  (∀ i t e' i' b, tbl !! i = Some t → T !! t = Some (e', i', b) → b = true) →
  structure E (<[e := ∅]> H) T n.
Proof.
  intros He Hi. split.
  - intros id e0 He0. apply lookup_insert_is_Some.
    destruct (decide (e = e0)); [by left|right]. split; [done|]. by eapply (st_entries _ _ _ _ Hst).
  - intros e0 [<-|[_ He0]]%lookup_insert_is_Some; apply (st_entry_ref _ _ _ _ Hst); [by eexists|done].
  - apply Hst.
  - intros t e0 i0 b Ht. destruct (st_task _ _ _ _ Hst _ _ _ _ Ht) as (tbl0 & Htbl0 & Hreg).
    destruct (decide (e0 = e)) as [->|].
    + rewrite lookup_insert_eq. eexists. split; [done|]. intros Hb. specialize (Hreg Hb).
      assert (tbl0 = tbl) as -> by congruence. by rewrite (Hi _ _ _ _ _ Hreg Ht) in Hb.
    + rewrite lookup_insert_ne by done. eauto.
  - intros e0 tbl0 i0 t [[<- <-]|[Hne He0]]%lookup_insert_Some Hi0; [by rewrite lookup_empty in Hi0|].
    by apply (st_table _ _ _ _ Hst _ _ _ _ He0).
Qed.
End changes.

(** * The operations *)
Lemma tables_lookup s e : tables s !! e = te_sessions <$> tr_heap s !! e.
Proof. apply lookup_fmap. Qed.

Lemma links_signal t s :
  links (tr_alter_task ss_signal t s) = alter signal_link t (links s).
Proof.
  unfold links. simpl. apply map_eq. intros t'. rewrite lookup_fmap.
  destruct (decide (t' = t)) as [->|]; [rewrite !lookup_alter_eq|rewrite !lookup_alter_ne by done];
    rewrite lookup_fmap; [|done]. by destruct (tr_tasks s !! t).
Qed.

Lemma signalled_alter (T : gmap nat (nat * Z * bool)) t t' x' :
  alter signal_link t T !! t' = Some x' →
  ∃ x : nat * Z * bool, T !! t' = Some x ∧ (x' = x ∨ x' = signal_link x) ∧ (t' = t → x' = signal_link x).
Proof.
  destruct (decide (t' = t)) as [->|]; [rewrite lookup_alter_eq|rewrite lookup_alter_ne by done].
  - intros (x & -> & Hx)%fmap_Some. exists x. subst. naive_solver.
  - intros Hx. exists x'. naive_solver.
Qed.

Lemma signal_sender_spec o s :
  tcp_structure s →
  tcp_structure (signal_sender o s) ∧
  tr_entries (signal_sender o s) = tr_entries s ∧ tables (signal_sender o s) = tables s ∧
  tr_next (signal_sender o s) = tr_next s ∧
  (∀ t x', links (signal_sender o s) !! t = Some x' →
     ∃ x, links s !! t = Some x ∧ (x' = x ∨ x' = signal_link x) ∧ (o = Some t → x'.2 = true)).
Proof.
  intros Hst. destruct o as [t|]; [|split_and!; try done; naive_solver].
  unfold signal_sender. split_and!; try done.
  - unfold tcp_structure. rewrite links_signal. eapply structure_signal; [exact Hst|].
    intros t' x' (x & ? & ? & _)%signalled_alter. eauto.
  - intros t' x'. rewrite links_signal. intros (x & Hx & Hor & Hsig)%signalled_alter.
    exists x. split_and!; [done|done|]. intros [= ->]. by rewrite Hsig.
Qed.


(** Replacing the table of an entry. *)
Lemma tables_alter_entry g e s entry tbl :
  tr_heap s !! e = Some entry → te_sessions (g entry) = tbl →
  tables (tr_alter_entry g e s) = <[e := tbl]> (tables s).
Proof.
  intros He <-. unfold tables. simpl. apply map_eq. intros e'. rewrite lookup_fmap.
  destruct (decide (e' = e)) as [->|].
  - by rewrite lookup_alter_eq, lookup_insert_eq, He.
  - by rewrite lookup_alter_ne, lookup_insert_ne, lookup_fmap.
Qed.

Lemma links_close e s entry t :
  tr_heap s !! e = Some entry →
  links (TcpRuntime_close_sessions e s) !! t =
  (λ x, if decide (t ∈ (map_to_list (te_sessions entry)).*2) then signal_link x else x) <$> links s !! t.
Proof.
  intros He. unfold TcpRuntime_close_sessions. rewrite He. unfold links. simpl.
  rewrite !lookup_fmap, map_lookup_imap. destruct (tr_tasks s !! t) as [x|]; simpl; [|done].
  by case_decide.
Qed.

Lemma table_values (tbl : gmap Z nat) i t : tbl !! i = Some t → t ∈ (map_to_list tbl).*2.
Proof. intros Hi. apply list_elem_of_fmap. exists (i, t). split; [done|]. by apply elem_of_map_to_list. Qed.

(** Closing a listener's sessions tells every one of its tasks to stop. *)
Lemma close_sessions_spec e s :
  tcp_structure s →
  let s' := TcpRuntime_close_sessions e s in
  tcp_structure s' ∧ tr_entries s' = tr_entries s ∧ tr_next s' = tr_next s ∧
  (∀ t x', links s' !! t = Some x' → ∃ x, links s !! t = Some x ∧ x'.1 = x.1 ∧ (x.2 = true → x'.2 = true)) ∧
  (∀ t i b, links s' !! t = Some (e, i, b) → b = true).
Proof.
  intros Hst. simpl. destruct (tr_heap s !! e) as [entry|] eqn:He.
  - set (s' := TcpRuntime_close_sessions e s).
    assert (∀ t x', links s' !! t = Some x' → ∃ x, links s !! t = Some x ∧
      (x' = x ∨ x' = signal_link x) ∧ (t ∈ (map_to_list (te_sessions entry)).*2 → x' = signal_link x)) as Hl.
    { intros t x'. unfold s'. rewrite (links_close e s entry t He). intros (x & Hx & ->)%fmap_Some.
      exists x. case_decide; naive_solver. }
    assert (tables s !! e = Some (te_sessions entry)) as Htbl by (by rewrite tables_lookup, He).
    assert (structure (tr_entries s) (tables s) (links s') (tr_next s)) as Hsig.
    { eapply structure_signal; [exact Hst|]. intros t x' (x & ? & ? & _)%Hl. eauto. }
    assert (tr_entries s' = tr_entries s) as HE by (unfold s', TcpRuntime_close_sessions; by rewrite He).
    assert (tr_next s' = tr_next s) as Hn by (unfold s', TcpRuntime_close_sessions; by rewrite He).
    assert (tables s' = <[e := ∅]> (tables s)) as HT.
    { unfold s', TcpRuntime_close_sessions. rewrite He. by eapply tables_alter_entry. }
    split_and!; [|done|done| |].
    + unfold tcp_structure. rewrite HE, HT, Hn. eapply structure_drain; [exact Hsig|done|].
      intros i t e' i' b Hi (x & Hx & _ & Hsx)%Hl.
      specialize (Hsx (table_values _ _ _ Hi)). by injection Hsx.
    + intros t x' (x & Hx & Hor & _)%Hl. exists x. naive_solver.
    + intros t i b (x & Hx & Hor & Hsx)%Hl. destruct x as [[e0 i0] b0].
      destruct b; [done|]. destruct Hor as [[= <- <- <-]|]; [|done].
      destruct (st_task _ _ _ _ Hst _ _ _ _ Hx) as (tbl & Htbl' & Hreg).
      assert (tbl = te_sessions entry) as -> by congruence.
      specialize (Hsx (table_values _ _ _ (Hreg eq_refl))). done.
  - unfold TcpRuntime_close_sessions. rewrite He. split_and!; [done|done|done|naive_solver|].
    intros t i b Ht. destruct (st_task _ _ _ _ Hst _ _ _ _ Ht) as (tbl & Htbl & _).
    by rewrite tables_lookup, He in Htbl.
Qed.

(** [same_tac]: nothing of the structure is assigned. *)
Ltac same_tac :=
  split_and!; unfold tables, links; simpl;
  rewrite ?fmap_alter_same by (intros; reflexivity); reflexivity.

Lemma same_foldr_inc l s : same_structure s (foldr tr_inc s l).
Proof. induction l as [|c l IH]; [done|]. simpl. by etrans; [exact IH|]. Qed.

Lemma same_stop_accept e s : same_structure s (tr_alter_entry te_stop_accept e s).
Proof. same_tac. Qed.

Lemma same_set_state x e s : same_structure s (tr_alter_entry (te_set_state x) e s).
Proof. same_tac. Qed.

Lemma same_guard_new e s : same_structure s (ActiveSessionGuard_new e s).
Proof. same_tac. Qed.

Lemma same_guard_drop e s : same_structure s (ActiveSessionGuard_drop e s).
Proof. same_tac. Qed.

Lemma same_copied e r s : same_structure s (copied e r s).
Proof. unfold copied. etrans; [|apply same_guard_drop]. destruct r as [[]|]; same_tac. Qed.

Lemma same_set_phase t p s : same_structure s (set_phase t p s).
Proof. same_tac. Qed.

Lemma same_copy_begin entry s : same_structure s (copy_streams_begin entry s).2.
Proof. unfold copy_streams_begin. by destruct (te_force_copy_fallback entry), (te_splice_enabled entry). Qed.

Lemma same_spliced o s : same_structure s (copy_streams_spliced o s).2.
Proof. unfold copy_streams_spliced. destruct o; [done|]. by destruct (head _). Qed.

Lemma bind_listener_spec a failed err s :
  tcp_structure s →
  wp (bind_listener a failed err)
    (λ r s', tcp_structure s' ∧ tr_entries s' = tr_entries s ∧
       match r with Ok e => is_Some (tables s' !! e) | Err e => e = err end) s.
Proof.
  intros Hst. unfold bind_listener, wp. simpl. destruct (tr_binds _ _ _); simpl.
  - assert (tables (tr_count_ref (tr_set_heap (<[tr_next s:=new_entry (tr_config s) a]> (tr_heap s))
              (tr_count_bind s))) = <[tr_next s := ∅]> (tables s)) as Ht.
    { unfold tables. simpl. by rewrite fmap_insert. }
    unfold tcp_structure. rewrite Ht. split_and!; [|done|].
    + by apply structure_new_entry.
    + rewrite lookup_insert_eq. by eexists.
  - assert (same_structure s (foldr tr_inc (tr_count_bind s) failed)) as Hs
      by (etrans; [|apply same_foldr_inc]; done).
    split_and!; [by eapply same_structure_inv|apply Hs|done].
Qed.

Lemma insert_entry_structure id e s :
  tcp_structure s → is_Some (tables s !! e) →
  tcp_structure (tr_set_entries (<[id := e]> (tr_entries s)) s).
Proof.
  intros Hst He. eapply structure_entries; [exact Hst|]. simpl.
  intros id' e' [[_ <-]|[_ ?]]%lookup_insert_Some; [done|]. by eapply (st_entries _ _ _ _ Hst).
Qed.

Lemma delete_entries_structure E s :
  tcp_structure s → E ⊆ tr_entries s → tcp_structure (tr_set_entries E s).
Proof.
  intros Hst HE. eapply structure_entries; [exact Hst|]. intros id e He.
  eapply (st_entries _ _ _ _ Hst), lookup_weaken; done.
Qed.

Lemma stop_entry_structure e s : tcp_structure s → tcp_structure (TcpRuntime_stop_entry e s).
Proof.
  intros Hst. apply close_sessions_spec. eapply same_structure_inv; [apply same_stop_accept|done].
Qed.

Lemma create_structure a t s : tcp_structure s → wp (TcpRuntime_create a t) (λ _ s', tcp_structure s') s.
Proof.
  intros Hst. unfold TcpRuntime_create. destruct (negb _); [done|].
  unfold TcpRuntime_bind_entry. wp_simpl. destruct (TcpRuntime_bind_addr _ _); [|done].
  eapply wp_mono; [by apply bind_listener_spec|]. intros [e|err] s1 (Hs1 & _ & He); [|done].
  unfold insert_entry. wp_simpl. by apply insert_entry_structure.
Qed.

Lemma restore_structure a t s : tcp_structure s → wp (TcpRuntime_restore a t) (λ _ s', tcp_structure s') s.
Proof.
  intros Hst. unfold TcpRuntime_restore. destruct (negb _); [done|].
  wp_simpl. destruct (TcpRuntime_bind_addr _ _); [|done]. simpl. wp_simpl.
  eapply wp_mono; [by apply bind_listener_spec|]. intros [e|err] s1 (Hs1 & _ & He); [|done].
  unfold insert_entry. wp_simpl. by apply insert_entry_structure.
Qed.

Lemma update_structure a t s : tcp_structure s → wp (TcpRuntime_update a t) (λ _ s', tcp_structure s') s.
Proof.
  intros Hst. unfold TcpRuntime_update. wp_simpl. destruct (tr_entries s !! al_id a) as [e|]; [|done].
  simpl. case_bool_decide; wp_simpl;
    (eapply same_structure_inv; [apply same_inc|]; apply close_sessions_spec;
     eapply same_structure_inv; [apply same_set_state|done]).
Qed.

Lemma delete_structure id t s : tcp_structure s → wp (TcpRuntime_delete id t) (λ _ s', tcp_structure s') s.
Proof.
  intros Hst. unfold TcpRuntime_delete. wp_simpl. destruct (tr_entries s !! id); [|done].
  wp_simpl. apply stop_entry_structure, delete_entries_structure; [done|apply delete_subseteq].
Qed.

Lemma shutdown_structure s : tcp_structure s → tcp_structure (TcpRuntime_shutdown_all s).
Proof.
  intros Hst. unfold TcpRuntime_shutdown_all. generalize (map_to_list (tr_entries s)).*2. intros l.
  assert (tcp_structure (tr_set_entries ∅ s)) as H0
    by (by apply delete_entries_structure; [|apply map_empty_subseteq]).
  revert H0. generalize (tr_set_entries ∅ s). clear. induction l as [|e l IH]; simpl; [done|].
  intros s Hs. by apply IH, stop_entry_structure.
Qed.

Lemma run_tcp_structure q s : tcp_structure s → tcp_structure (run_tcp q s).
Proof.
  intros Hst. destruct q; simpl.
  - by apply create_structure.
  - by apply update_structure.
  - by apply delete_structure.
  - by apply restore_structure.
  - by apply shutdown_structure.
Qed.

(** * The events *)
Lemma accepting_Some e s p entry :
  accepting e s = Some (p, entry) → tr_heap s !! e = Some entry ∧ te_accept entry = Some p.
Proof.
  unfold accepting. destruct (tr_heap s !! e) as [x|]; simpl; [|done].
  destruct (te_accept x) as [q|] eqn:Hq; simpl; [|done]. by intros [= -> ->].
Qed.

Lemma insert_structure e entry i host port s :
  tcp_structure s → tr_heap s !! e = Some entry →
  tcp_structure (handle_client_insert e entry i host port s).
Proof.
  intros Hst He. unfold handle_client_insert.
  destruct (signal_sender_spec (te_sessions entry !! i) s Hst) as (Hst1 & HE1 & HT1 & Hn1 & Hl1).
  set (s1 := signal_sender (te_sessions entry !! i) s) in *.
  assert (tr_heap s1 !! e = Some entry) as He1 by (unfold s1, signal_sender; by destruct (te_sessions entry !! i)).
  set (g := λ x, te_set_accept (Some AcceptIdle)
              (te_set_sessions (<[i:=tr_next s]> (te_sessions x)) x)).
  pose proof (tables_alter_entry g e s1 entry _ He1 eq_refl) as Ht. simpl in Ht.
  unfold tcp_structure. simpl.
  match goal with |- structure ?E ?H ?T ?n =>
    change H with (tables (tr_alter_entry g e s1));
    assert (T = <[tr_next s := (e, i, false)]> (links s1)) as -> by (unfold links; simpl; by rewrite fmap_insert)
  end.
  rewrite Ht, <- Hn1. apply structure_register; [exact Hst1| |].
  - by rewrite tables_lookup, He1.
  - intros t e' i' b Hi (x & _ & _ & Hb)%Hl1. by apply Hb.
Qed.

Lemma removed_structure t task s :
  tcp_structure s → tr_tasks s !! t = Some task →
  let s1 := TcpRuntime_remove_session_handle (ss_entry task) (ss_id task) s in
  tcp_structure (tr_set_tasks (delete t (tr_tasks s1)) s1).
Proof.
  intros Hst Ht. simpl. set (s1 := TcpRuntime_remove_session_handle (ss_entry task) (ss_id task) s).
  enough (tcp_structure s1) as Hs1.
  { unfold tcp_structure. replace (links _) with (delete t (links s1)).
    - by apply structure_end.
    - unfold links. simpl. by rewrite fmap_delete. }
  unfold s1, TcpRuntime_remove_session_handle.
  destruct (tr_heap s !! ss_entry task) as [entry|] eqn:He; [|done].
  set (g := te_set_sessions (delete (ss_id task) (te_sessions entry))).
  destruct (signal_sender_spec (te_sessions entry !! ss_id task) s Hst) as (Hst1 & HE1 & HT1 & Hn1 & Hl1).
  assert (∀ o, signal_sender o (tr_alter_entry g (ss_entry task) s) =
               tr_alter_entry g (ss_entry task) (signal_sender o s)) as -> by (by intros []).
  set (s2 := signal_sender _ s) in *.
  assert (tr_heap s2 !! ss_entry task = Some entry) as He2
    by (unfold s2, signal_sender; by destruct (te_sessions entry !! ss_id task)).
  pose proof (tables_alter_entry g (ss_entry task) s2 entry _ He2 eq_refl) as HTg. simpl in HTg.
  unfold tcp_structure. rewrite HTg. apply structure_unregister; [exact Hst1| |].
  - by rewrite tables_lookup, He2.
  - intros t' e' i' b Hi (x & _ & _ & Hb)%Hl1. by apply Hb.
Qed.

Lemma handle_read_same e entry s : same_structure s (handle_client_read e entry s).
Proof.
  unfold handle_client_read.
  destruct (ts_effective_host (te_state entry)), (ts_effective_target_port (te_state entry)); same_tac.
Qed.

Lemma event_structure ev s s' : tcp_structure s → tcp_event ev s = Some s' → tcp_structure s'.
Proof.
  intros Hst. destruct ev as [e|e|e|e|e|e|t|t err|t o|t r|t|t]; simpl.
  1-6: destruct (accepting e s) as [[[| | |i h p] entry]|] eqn:Ha; try done.
  1-2, 5: intros [= <-]; eapply same_structure_inv; [same_tac|done].
  - destruct (te_shutdown entry); [|done]. intros [= <-]. eapply same_structure_inv; [same_tac|done].
  - intros [= <-]. eapply same_structure_inv; [apply handle_read_same|done].
  - intros [= <-]. apply accepting_Some in Ha as [He _]. by apply insert_structure.
  - intros (task & Ht & H')%bind_Some. apply bind_Some in H' as (entry & He & H').
    destruct (ss_phase task); try done.
    destruct (copy_streams_begin entry _) as [p s1] eqn:Hb. injection H' as <-.
    eapply same_structure_inv; [|exact Hst]. etrans; [|apply same_set_phase].
    change s1 with (p, s1).2. rewrite <- Hb. etrans; [|apply same_copy_begin].
    etrans; [|apply same_guard_new]. done.
  - intros (task & Ht & H')%bind_Some. destruct (ss_phase task); try done. injection H' as <-.
    eapply same_structure_inv; [same_tac|done].
  - intros (task & Ht & H')%bind_Some. destruct (ss_phase task); try done.
    destruct (copy_streams_spliced o s) as [[r|] s1] eqn:Hb; injection H' as <-;
      (eapply same_structure_inv; [|exact Hst]); (etrans; [|apply same_set_phase]);
      pose proof (same_spliced o s) as Hs; rewrite Hb in Hs; [|exact Hs].
    etrans; [exact Hs|apply same_copied].
  - intros (task & Ht & H')%bind_Some. destruct (ss_phase task); try done. injection H' as <-.
    eapply same_structure_inv; [|exact Hst]. etrans; [apply same_copied|apply same_set_phase].
  - intros (task & Ht & H')%bind_Some. destruct (ss_signalled task); [|done].
    destruct (ss_phase task); try done; injection H' as <-;
      (eapply same_structure_inv; [same_tac|done]).
  - intros (task & Ht & H')%bind_Some. destruct (ss_phase task); try done. injection H' as <-.
    by apply removed_structure.
Qed.

Lemma initial_structure s : tcp_initial s → tcp_structure s.
Proof.
  intros (c & m & b & ->). unfold tcp_structure, tables, links. simpl. rewrite !fmap_empty.
  split; intros *; rewrite ?lookup_empty; try done; by intros [? ?].
Qed.

Lemma step_structure s s' : tcp_structure s → tcp_step s s' → tcp_structure s'.
Proof. intros Hst Hstep. destruct Hstep; [by apply run_tcp_structure|by eapply event_structure]. Qed.

Lemma reachable_structure s0 s : tcp_initial s0 → rtc tcp_step s0 s → tcp_structure s.
Proof.
  intros H0 Hr. apply initial_structure in H0. induction Hr; eauto using step_structure.
Qed.

