(* ===== verification/TcpQuiet.v ===== *)
(** Stopping a TCP listener (runtime/tcp.rs): once deleted it never serves a client
    again and its sessions are told to stop; how these end is in TcpFineEnd.v. *)
From stdpp Require Import base gmap strings list relations fin_maps.
From Stdlib Require Import ZArith Lia.
From S2P Require Import Prelude RustStd Model Facade Metrics Tcp TcpSpec.
Open Scope Z_scope.

(** * What stays quiet *)

(** The work a session task has left. *)
Definition weight (p : SessionPhase) : nat :=
  match p with Connecting => 4 | Splicing => 3 | Copying => 2 | Removing => 1 end.

(** A running accept task can still be aborted: its handle is stored. *)
Definition accept_kept (x : TcpListenerEntry) : Prop := te_accept_task x = false → te_accept x = None.

(** A step neither restarts an ended accept task nor adds sessions to its listener; a
    task told to stop stays so, and has no more work left than before. *)
Definition quiet (s s' : TcpRuntime) : Prop :=
  (tr_next s ≤ tr_next s')%nat ∧
  (∀ e entry, tr_heap s !! e = Some entry →
    ∃ entry', tr_heap s' !! e = Some entry' ∧ (te_accept entry = None → te_accept entry' = None) ∧
      (accept_kept entry → accept_kept entry')) ∧
  (∀ e entry', tr_heap s' !! e = Some entry' → tr_heap s !! e = None → accept_kept entry') ∧
  (∀ t task', tr_tasks s' !! t = Some task' →
    (∃ task, tr_tasks s !! t = Some task ∧ ss_entry task' = ss_entry task ∧
       (ss_signalled task = true → ss_signalled task' = true) ∧
       (weight (ss_phase task') ≤ weight (ss_phase task))%nat) ∨
    ((tr_next s ≤ t)%nat ∧
     ∀ entry, tr_heap s !! ss_entry task' = Some entry → te_accept entry ≠ None)).

#[export] Instance quiet_po : PreOrder quiet.
Proof.
  split.
  - intros s. split_and!; [lia|eauto|congruence|]. intros t task Ht. left. exists task. eauto.
  - intros s1 s2 s3 (Hn & He & Hk & Ht) (Hn' & He' & Hk' & Ht'). split_and!; [lia| | |].
    + intros e entry (entry' & (entry'' & ? & ? & ?)%He' & ? & ?)%He. eauto 10.
    + intros e entry3 H3 Hnone. destruct (tr_heap s2 !! e) as [entry2|] eqn:H2; [|by eapply Hk'].
      destruct (He' _ _ H2) as (entry3' & H3' & _ & Hkeep). assert (entry3' = entry3) as -> by congruence.
      by apply Hkeep, (Hk _ _ H2).
    + intros t task3 [(task2 & H2 & Hent2 & Hsig2 & Hw2)|[Hlt Hacc]]%Ht'.
      * apply Ht in H2 as [(task1 & H1 & Hent1 & Hsig1 & Hw1)|[Hlt Hacc]].
        -- left. exists task1. split_and!; [done|congruence|auto|lia].
        -- right. rewrite Hent2. by split.
      * right. split; [lia|]. intros entry (entry' & Hentry' & Hnone & _)%He Hacc0.
        by apply (Hacc entry'), Hnone.
Qed.

Lemma quiet_refl s : quiet s s.
Proof. reflexivity. Qed.

(** Changing one entry: [f] where the entry is. *)
Lemma quiet_alter f e s :
  (∀ x, tr_heap s !! e = Some x →
     (te_accept x = None → te_accept (f x) = None) ∧ (accept_kept x → accept_kept (f x))) →
  quiet s (tr_alter_entry f e s).
Proof.
  intros Hf. split_and!; [done| | |intros t task Ht; left; exists task; eauto]; simpl.
  - intros e' entry He'. destruct (decide (e' = e)) as [->|].
    + rewrite lookup_alter_eq, He'. simpl. eexists. split; [done|]. by apply Hf.
    + rewrite lookup_alter_ne by done. eauto.
  - intros e' entry He' Hnone. exfalso.
    destruct (decide (e' = e)) as [->|];
      [rewrite lookup_alter_eq in He'|rewrite lookup_alter_ne in He' by done];
      rewrite Hnone in He'; done.
Qed.

Lemma quiet_alter_entry f e s :
  (∀ x, (te_accept x = None → te_accept (f x) = None) ∧ (accept_kept x → accept_kept (f x))) →
  quiet s (tr_alter_entry f e s).
Proof. intros Hf. apply quiet_alter. intros x _. apply Hf. Qed.

(** A live accept task may change its entry at will, its handle apart. *)
Lemma quiet_live f e entry p s :
  tr_heap s !! e = Some entry → te_accept entry = Some p →
  (∀ x, te_accept_task (f x) = te_accept_task x) →
  quiet s (tr_alter_entry f e s).
Proof.
  intros He Hp Hf. apply quiet_alter. intros x Hx. assert (x = entry) as -> by congruence.
  split; [congruence|]. intros Hk Htask. rewrite Hf in Htask. apply Hk in Htask. congruence.
Qed.

(** [s'] differs from [s] in nothing but counters and tables. *)
Lemma quiet_assign s s' :
  tr_heap s' = tr_heap s → tr_tasks s' = tr_tasks s → tr_next s' = tr_next s → quiet s s'.
Proof. intros Hh Ht Hn. unfold quiet. rewrite Hh, Ht, Hn. apply quiet_refl. Qed.

Lemma quiet_alter_task f t s :
  (∀ x, tr_tasks s !! t = Some x → ss_entry (f x) = ss_entry x ∧ (ss_signalled x = true → ss_signalled (f x) = true) ∧
        (weight (ss_phase (f x)) ≤ weight (ss_phase x))%nat) →
  quiet s (tr_alter_task f t s).
Proof.
  intros Hf. split_and!; [done|simpl; eauto|simpl; congruence|]. intros t' task'. simpl. left.
  revert H. destruct (decide (t' = t)) as [->|].
  - rewrite lookup_alter_eq. intros (x & Hx & ->)%fmap_Some. exists x. split; [done|by apply Hf].
  - rewrite lookup_alter_ne by done. intros Hx. exists task'. eauto.
Qed.

Lemma quiet_close e s : quiet s (TcpRuntime_close_sessions e s).
Proof.
  unfold TcpRuntime_close_sessions. destruct (tr_heap s !! e) as [entry|]; [|done].
  etrans; [by apply (quiet_alter_entry (te_set_sessions ∅) e)|].
  split_and!; [done|simpl; eauto|simpl; congruence|]. intros t task'. simpl. rewrite map_lookup_imap.
  intros (task & Htask & [= <-])%bind_Some. left. exists task. split; [done|].
  case_decide; split_and!; done.
Qed.

Lemma quiet_signal o s : quiet s (signal_sender o s).
Proof. destruct o; [|done]. by apply quiet_alter_task. Qed.

Lemma quiet_stop e s : quiet s (TcpRuntime_stop_entry e s).
Proof.
  etrans; [|apply quiet_close]. apply quiet_alter_entry. intros x. unfold accept_kept. simpl.
  destruct (te_accept_task x); split; auto.
Qed.

Lemma quiet_foldr_inc l s : quiet s (foldr tr_inc s l).
Proof. induction l as [|c l IH]; [done|]. etrans; [exact IH|]. by apply quiet_assign. Qed.

Lemma fresh_entry s : tcp_structure s → tr_heap s !! tr_next s = None.
Proof.
  intros Hst. destruct (tr_heap s !! tr_next s) as [x|] eqn:Hx; [|done].
  assert (tr_next s < tr_next s)%nat; [|lia]. apply (st_entry_ref _ _ _ _ Hst).
  rewrite tables_lookup, Hx. by eexists.
Qed.

Lemma quiet_bind a failed err s :
  tcp_structure s → wp (bind_listener a failed err) (λ _ s', quiet s s') s.
Proof.
  intros Hst%fresh_entry. unfold bind_listener, wp. simpl. destruct (tr_binds _ _ _); simpl.
  - split_and!; simpl; [lia| | |intros t task Ht; left; exists task; eauto].
    + intros e entry He. rewrite lookup_insert_ne by congruence. eauto.
    + intros e entry [[_ <-]|[_ He]]%lookup_insert_Some; [done|congruence].
  - etrans; [|apply quiet_foldr_inc]. by apply quiet_assign.
Qed.

Lemma quiet_request q s : tcp_structure s → quiet s (run_tcp q s).
Proof.
  intros Hst. destruct q as [a|a|id|a|]; simpl.
  - enough (wp (TcpRuntime_create a 0) (λ _ s', quiet s s') s) by done.
    unfold TcpRuntime_create, TcpRuntime_bind_entry. destruct (negb _); [exact (quiet_refl s)|].
    wp_simpl. destruct (TcpRuntime_bind_addr _ _); [|exact (quiet_refl s)].
    eapply wp_mono; [by apply quiet_bind|]. intros [e|err] s1 Hs1; [|exact Hs1].
    unfold insert_entry. wp_simpl. etrans; [exact Hs1|]. by apply quiet_assign.
  - enough (wp (TcpRuntime_update a 0) (λ _ s', quiet s s') s) by done.
    unfold TcpRuntime_update. wp_simpl. destruct (tr_entries s !! al_id a) as [e|]; [|exact (quiet_refl s)].
    simpl. case_bool_decide; wp_simpl;
      (etrans; [|by apply quiet_assign]); (etrans; [|apply quiet_close]);
      [etrans; [by apply (quiet_assign s (tr_inc rejected_no_host_total s))|]|];
      by apply quiet_alter_entry.
  - enough (wp (TcpRuntime_delete id 0) (λ _ s', quiet s s') s) by done.
    unfold TcpRuntime_delete. wp_simpl. destruct (tr_entries s !! id); [|exact (quiet_refl s)].
    wp_simpl. etrans; [|apply quiet_stop]. by apply quiet_assign.
  - enough (wp (TcpRuntime_restore a 0) (λ _ s', quiet s s') s) by done.
    unfold TcpRuntime_restore. destruct (negb _); [exact (quiet_refl s)|].
    wp_simpl. destruct (TcpRuntime_bind_addr _ _); [|exact (quiet_refl s)]. simpl. wp_simpl.
    eapply wp_mono; [by apply quiet_bind|]. intros [e|err] s1 Hs1; [|exact Hs1].
    unfold insert_entry. wp_simpl. etrans; [exact Hs1|]. by apply quiet_assign.
  - unfold TcpRuntime_shutdown_all. generalize (map_to_list (tr_entries s)).*2. intros l.
    assert (quiet s (tr_set_entries ∅ s)) as H0 by (by apply quiet_assign).
    revert H0. generalize (tr_set_entries ∅ s). induction l as [|e l IH]; simpl; [done|].
    intros s1 Hs1. apply IH. etrans; [exact Hs1|apply quiet_stop].
Qed.

(** * Events *)
Lemma quiet_set_phase t p s :
  (∀ x, tr_tasks s !! t = Some x → weight p ≤ weight (ss_phase x))%nat → quiet s (set_phase t p s).
Proof. intros Hp. apply quiet_alter_task. intros x Hx. split_and!; [done|done|by apply Hp]. Qed.

Lemma quiet_guard_new e s : quiet s (ActiveSessionGuard_new e s).
Proof.
  unfold ActiveSessionGuard_new. etrans; [|by apply quiet_alter_entry]. by apply quiet_assign.
Qed.

Lemma quiet_guard_drop e s : quiet s (ActiveSessionGuard_drop e s).
Proof.
  unfold ActiveSessionGuard_drop. etrans; [|by apply quiet_assign]. etrans; [|by apply quiet_assign].
  by apply quiet_alter_entry.
Qed.

Lemma quiet_copied e r s : quiet s (copied e r s).
Proof.
  unfold copied. etrans; [|apply quiet_guard_drop].
  destruct r as [[]|]; by apply quiet_alter_entry.
Qed.

Lemma quiet_spliced o s : quiet s (copy_streams_spliced o s).2.
Proof.
  unfold copy_streams_spliced. destruct o; [by apply quiet_assign|].
  destruct (head _); by apply quiet_assign.
Qed.

Lemma copied_tasks e r s : tr_tasks (copied e r s) = tr_tasks s.
Proof. unfold copied, ActiveSessionGuard_drop, count_bytes. by destruct r as [[]|]. Qed.

Lemma spliced_tasks o s : tr_tasks (copy_streams_spliced o s).2 = tr_tasks s.
Proof. unfold copy_streams_spliced. destruct o; [done|]. by destruct (head _). Qed.

Lemma copy_begin_tasks entry s :
  tr_tasks (copy_streams_begin entry s).2 = tr_tasks s ∧
  (weight (copy_streams_begin entry s).1 < 4)%nat.
Proof.
  unfold copy_streams_begin.
  destruct (te_force_copy_fallback entry), (te_splice_enabled entry); simpl; (split; [done|lia]).
Qed.

Lemma quiet_copy_begin entry s : quiet s (copy_streams_begin entry s).2.
Proof.
  unfold copy_streams_begin.
  destruct (te_force_copy_fallback entry), (te_splice_enabled entry); by apply quiet_assign.
Qed.

(** The session task an event belongs to. *)
Definition event_task (ev : TcpEvent) : option nat :=
  match ev with
  | EvConnected t | EvConnectFailed t _ | EvSpliced t _ | EvCopied t _ | EvCancelled t
  | EvRemoved t => Some t
  | _ => None
  end.

(** An event is quiet, and its task has less work left or is gone. *)
Definition spends (ev : TcpEvent) (s s' : TcpRuntime) : Prop :=
  match event_task ev with
  | None => True
  | Some t => ∃ task, tr_tasks s !! t = Some task ∧
      match tr_tasks s' !! t with
      | Some task' => (weight (ss_phase task') < weight (ss_phase task))%nat
      | None => True
      end
  end.

Lemma set_phase_spends t p (s s1 : TcpRuntime) task :
  tr_tasks s !! t = Some task → tr_tasks s1 = tr_tasks s → (weight p < weight (ss_phase task))%nat →
  quiet s s1 →
  quiet s (set_phase t p s1) ∧
  ∃ task0, tr_tasks s !! t = Some task0 ∧
    match tr_tasks (set_phase t p s1) !! t with
    | Some task' => (weight (ss_phase task') < weight (ss_phase task0))%nat
    | None => True
    end.
Proof.
  intros Ht Hs1 Hw Hq. split.
  - etrans; [exact Hq|]. apply quiet_set_phase. intros x. rewrite Hs1, Ht. intros [= <-]. lia.
  - exists task. split; [done|]. simpl. by rewrite lookup_alter_eq, Hs1, Ht.
Qed.

Lemma quiet_removed e i s : quiet s (TcpRuntime_remove_session_handle e i s).
Proof.
  unfold TcpRuntime_remove_session_handle. destruct (tr_heap s !! e); [|done].
  etrans; [|apply quiet_signal]. by apply quiet_alter_entry.
Qed.

Lemma quiet_delete_task t s : quiet s (tr_set_tasks (delete t (tr_tasks s)) s).
Proof.
  split_and!; [done|simpl; eauto|simpl; congruence|]. intros t' task'. simpl. intros [_ Ht]%lookup_delete_Some. left.
  exists task'. eauto.
Qed.

Lemma quiet_insert e entry p i host port s :
  tr_heap s !! e = Some entry → te_accept entry = Some p →
  quiet s (handle_client_insert e entry i host port s).
Proof.
  intros He Hp. unfold handle_client_insert. set (o := te_sessions entry !! i).
  etrans; [apply (quiet_signal o)|].
  assert (tr_heap (signal_sender o s) = tr_heap s) as Hh by (by destruct o).
  assert (tr_next (signal_sender o s) = tr_next s) as Hn by (by destruct o).
  set (s1 := signal_sender o s) in *. rewrite <- Hh in He. rewrite <- Hn.
  match goal with |- context [tr_alter_entry ?g e s1] => set (f := g) end.
  destruct (quiet_live f e entry p s1 He Hp ltac:(done)) as (_ & Hent & Hnew & _).
  split_and!; [simpl; lia|exact Hent|exact Hnew|].
  intros t task'. simpl. intros [[<- <-]|[_ Ht]]%lookup_insert_Some; simpl.
  - right. split; [done|]. intros entry'. congruence.
  - left. exists task'. eauto.
Qed.

Lemma quiet_read e entry p s :
  tr_heap s !! e = Some entry → te_accept entry = Some p →
  quiet s (handle_client_read e entry s).
Proof.
  intros He Hp. unfold handle_client_read.
  destruct (ts_effective_host (te_state entry)), (ts_effective_target_port (te_state entry));
    [by eapply quiet_live|
     (etrans; [by apply (quiet_live (te_set_accept (Some AcceptReject)) e entry p)|
               by apply quiet_assign])..].
Qed.

Lemma event_quiet ev s s' : tcp_event ev s = Some s' → quiet s s' ∧ spends ev s s'.
Proof.
  unfold spends. destruct ev as [e|e|e|e|e|e|t|t err|t o|t r|t|t]; simpl.
  1-6: destruct (accepting e s) as [[[| | |i h p] entry]|] eqn:Ha; try done;
    apply accepting_Some in Ha as [He Hp].
  - intros [= <-]. split; [|done]. etrans; [|by apply quiet_assign].
    by apply (quiet_live (te_set_accept (Some AcceptRead)) e entry AcceptIdle).
  - intros [= <-]. split; [|done]. by eapply quiet_live.
  - destruct (te_shutdown entry); [|done]. intros [= <-]. split; [|done]. by eapply quiet_live.
  - intros [= <-]. split; [|done]. by eapply quiet_read.
  - intros [= <-]. split; [|done]. by eapply quiet_live.
  - intros [= <-]. split; [|done]. by eapply quiet_insert.
  - intros (task & Ht & H')%bind_Some. apply bind_Some in H' as (entry & He & H').
    destruct (ss_phase task) eqn:Hph; try done.
    destruct (copy_streams_begin entry _) as [p s1] eqn:Hb. injection H' as <-.
    match type of Hb with copy_streams_begin _ ?x = _ =>
      pose proof (copy_begin_tasks entry x) as [Hs Hw]; pose proof (quiet_copy_begin entry x) as Hq end.
    rewrite Hb in Hs, Hw, Hq. apply set_phase_spends with task; [done|exact Hs|by rewrite Hph|].
    etrans; [|exact Hq]. etrans; [|apply quiet_guard_new]. by apply quiet_assign.
  - intros (task & Ht & H')%bind_Some. destruct (ss_phase task) eqn:Hph; try done. injection H' as <-.
    apply set_phase_spends with task; [done|done|rewrite Hph; simpl; lia|].
    etrans; [|by apply quiet_alter_entry]. by apply quiet_assign.
  - intros (task & Ht & H')%bind_Some. destruct (ss_phase task) eqn:Hph; try done.
    destruct (copy_streams_spliced o s) as [[r|] s1] eqn:Hb; injection H' as <-;
      pose proof (quiet_spliced o s) as Hq; pose proof (spliced_tasks o s) as Hs; rewrite Hb in Hq, Hs;
      (apply set_phase_spends with task; [done| |rewrite Hph; simpl; lia|]).
    + rewrite copied_tasks. exact Hs.
    + etrans; [exact Hq|apply quiet_copied].
    + exact Hs.
    + exact Hq.
  - intros (task & Ht & H')%bind_Some. destruct (ss_phase task) eqn:Hph; try done. injection H' as <-.
    apply set_phase_spends with task; [done|apply copied_tasks|rewrite Hph; simpl; lia|apply quiet_copied].
  - intros (task & Ht & H')%bind_Some. destruct (ss_signalled task); [|done].
    destruct (ss_phase task) eqn:Hph; try done; injection H' as <-;
      (apply set_phase_spends with task; [done|done|rewrite Hph; simpl; lia|]);
      [done|apply quiet_guard_drop..].
  - intros (task & Ht & H')%bind_Some. destruct (ss_phase task) eqn:Hph; try done. injection H' as <-.
    split.
    + etrans; [|apply quiet_delete_task]. apply quiet_removed.
    + exists task. split; [done|]. simpl. by rewrite lookup_delete_eq.
Qed.

(** * Runs *)
Inductive TcpAction : Type :=
| ActRequest (q : TcpRequest)
| ActEvent (ev : TcpEvent).

Definition tcp_do (a : TcpAction) (s : TcpRuntime) : option TcpRuntime :=
  match a with
  | ActRequest q => Some (run_tcp q s)
  | ActEvent ev => tcp_event ev s
  end.

Fixpoint tcp_exec (l : list TcpAction) (s : TcpRuntime) : option TcpRuntime :=
  match l with
  | [] => Some s
  | a :: l' => s' ← tcp_do a s; tcp_exec l' s'
  end.

Lemma do_step a s s' : tcp_do a s = Some s' → tcp_step s s'.
Proof. destruct a; simpl; [intros [= <-]; constructor|by econstructor]. Qed.

Lemma exec_rtc l s s' : tcp_exec l s = Some s' → rtc tcp_step s s'.
Proof.
  revert s. induction l as [|a l IH]; intros s; simpl; [intros [= <-]; constructor|].
  intros (s1 & H1 & H2)%bind_Some. econstructor; [by eapply do_step|by apply IH].
Qed.

Lemma step_quiet s s' : tcp_structure s → tcp_step s s' → quiet s s'.
Proof.
  intros Hst Hstep. destruct Hstep as [q s|ev s s' Hev]; [by apply quiet_request|].
  by apply event_quiet in Hev as [? _].
Qed.

Lemma rtc_quiet s s' : tcp_structure s → rtc tcp_step s s' → quiet s s'.
Proof.
  intros Hst Hr. induction Hr as [|s1 s2 s3 H12 _ IH]; [reflexivity|].
  etrans; [by apply step_quiet|]. apply IH. by eapply step_structure.
Qed.

Lemma reachable_kept s0 s e entry :
  tcp_initial s0 → rtc tcp_step s0 s → tr_heap s !! e = Some entry → accept_kept entry.
Proof.
  intros H0 Hr He. pose proof (initial_structure _ H0) as Hst.
  destruct (rtc_quiet _ _ Hst Hr) as (_ & _ & Hk & _). apply (Hk e); [done|].
  destruct H0 as (c & m & b & ->). apply lookup_empty.
Qed.

(** What deleting a tracked listener leaves. *)
Lemma delete_stops id t s e :
  tcp_structure s → (∀ entry, tr_heap s !! e = Some entry → accept_kept entry) →
  tr_entries s !! id = Some e →
  let s' := (TcpRuntime_delete id t s).2 in
  (∃ entry, tr_heap s' !! e = Some entry ∧ te_accept entry = None) ∧
  (∀ task tk, tr_tasks s' !! tk = Some task → ss_entry task = e → ss_signalled task = true).
Proof.
  intros Hst Hkept Hid. simpl.
  enough (wp (TcpRuntime_delete id t) (λ _ s',
    (∃ entry, tr_heap s' !! e = Some entry ∧ te_accept entry = None) ∧
    (∀ task tk, tr_tasks s' !! tk = Some task → ss_entry task = e → ss_signalled task = true)) s) by done.
  unfold TcpRuntime_delete. wp_simpl. rewrite Hid. wp_simpl. unfold TcpRuntime_stop_entry.
  set (s1 := tr_alter_entry te_stop_accept e (tr_set_entries (delete id (tr_entries s)) s)).
  destruct (st_entries _ _ _ _ Hst _ _ Hid) as [tbl Htbl]. rewrite tables_lookup in Htbl.
  destruct (tr_heap s !! e) as [entry|] eqn:He; [|done].
  assert (tr_heap s1 !! e = Some (te_stop_accept entry)) as He1.
  { unfold s1. simpl. by rewrite lookup_alter_eq, He. }
  assert (tcp_structure s1) as Hst1.
  { eapply same_structure_inv; [apply same_stop_accept|].
    by apply delete_entries_structure; [|apply delete_subseteq]. }
  split.
  - destruct (quiet_close e s1) as (_ & Hent & _). destruct (Hent _ _ He1) as (entry' & Hentry' & Hnone & _).
    exists entry'. split; [done|]. apply Hnone. simpl. specialize (Hkept entry eq_refl). unfold accept_kept in Hkept.
    destruct (te_accept_task entry); auto.
  - intros task tk Htask <-. destruct (close_sessions_spec (ss_entry task) s1 Hst1) as (_ & _ & _ & _ & Hall).
    apply (Hall tk (ss_id task)). unfold links. by rewrite lookup_fmap, Htask.
Qed.

(** Once a TCP allocation is deleted its listener never serves a client again: in
    every state that any interleaving of later operations and task events reaches, its
    accept task stays ended and each of its sessions, also one that the accept task had
    started while the deletion ran, has been told to stop. *)
Theorem deleted_listener_stays_stopped s0 s id e t s' :
  tcp_initial s0 → rtc tcp_step s0 s → tr_entries s !! id = Some e →
  rtc tcp_step (TcpRuntime_delete id t s).2 s' →
  (∃ entry, tr_heap s' !! e = Some entry ∧ te_accept entry = None) ∧
  (∀ task tk, tr_tasks s' !! tk = Some task → ss_entry task = e → ss_signalled task = true).
Proof.
  intros H0 Hr Hid Hr'. pose proof (reachable_structure _ _ H0 Hr) as Hst.
  assert (tcp_structure (TcpRuntime_delete id t s).2) as Hst1 by (by apply delete_structure).
  destruct (rtc_quiet _ _ Hst1 Hr') as (_ & Hent & _ & Htask).
  destruct (delete_stops id t s e Hst (λ entry He, reachable_kept _ _ _ _ H0 Hr He) Hid)
    as [(entry & He & Hnone) Hsig].
  destruct (Hent _ _ He) as (entry' & He' & Hnone' & _). split; [exists entry'; auto|].
  intros task tk [(task1 & H1 & Hsame & Hsig1 & _)|[_ Hacc]]%Htask Hee.
  - apply Hsig1, (Hsig task1 tk); [done|congruence].
  - exfalso. apply (Hacc entry); [by rewrite Hee|done].
Qed.

(** C38: when accepting fails once, the listener is dead for good: in every later state of
    any interleaving its accept task is gone, while the allocation is reported as before
    and without an error. *)
Theorem accept_error_is_final s0 s id e entry s1 s2 :
  tcp_initial s0 → rtc tcp_step s0 s → tr_entries s !! id = Some e →
  accepting e s = Some (AcceptIdle, entry) →
  tcp_event (EvAcceptError e) s = Some s1 → rtc tcp_step s1 s2 →
  (TcpRuntime_snapshot id s1).1 = (TcpRuntime_snapshot id s).1 ∧
  ∃ entry2, tr_heap s2 !! e = Some entry2 ∧ te_accept entry2 = None.
Proof.
  intros H0 Hr Hid Ha Hev Hr2. pose proof (reachable_structure _ _ H0 Hr) as Hst.
  assert (tcp_structure s1) as Hst1 by (by eapply event_structure).
  destruct (rtc_quiet _ _ Hst1 Hr2) as (_ & Hent & _).
  simpl in Hev. rewrite Ha in Hev. injection Hev as <-. apply accepting_Some in Ha as [He Hp]. split.
  - unfold TcpRuntime_snapshot, gets. simpl. rewrite Hid. simpl. by rewrite lookup_alter_eq, He.
  - destruct (Hent e (te_set_accept None entry)) as (entry2 & H2 & Hnone & _).
    { simpl. by rewrite lookup_alter_eq, He. }
    exists entry2. auto.
Qed.

Lemma update_outcome a t s e :
  tr_entries s !! al_id a = Some e →
  ∃ s1, TcpRuntime_update a t s = (Ok tt, tr_inc runtime_apply_total (TcpRuntime_close_sessions e
    (tr_alter_entry (te_set_state (TcpRuntime_entry_state_for a)) e s1))) ∧
    tr_heap s1 = tr_heap s ∧ tr_next s1 = tr_next s ∧ tr_tasks s1 = tr_tasks s.
Proof.
  intros He. unfold TcpRuntime_update, bind, gets, of_result, modify. rewrite He. simpl.
  case_bool_decide; simpl; (eexists; split; [reflexivity|done]).
Qed.

(** C39: an update does not reach a client whose accept task has read the listener's
    state already: the update returns Ok, and then that client is connected to the host
    and port read before it, by a session that nothing tells to stop. *)
Theorem update_misses_client a t s e entry i host port :
  tr_entries s !! al_id a = Some e → accepting e s = Some (AcceptInsert i host port, entry) →
  ∃ s1 s2 task, TcpRuntime_update a t s = (Ok tt, s1) ∧ tcp_event (EvInsert e) s1 = Some s2 ∧
    tr_tasks s2 !! tr_next s = Some task ∧ ss_entry task = e ∧
    ss_host task = host ∧ ss_target_port task = port ∧ ss_signalled task = false.
Proof.
  intros Hid Ha. apply accepting_Some in Ha as [He Hp].
  destruct (update_outcome a t s e Hid) as (s0 & -> & Hh & Hn & Ht).
  set (st := TcpRuntime_entry_state_for a).
  set (s1 := tr_inc _ _).
  assert (tr_heap s1 !! e = Some (te_set_sessions ∅ (te_set_state st entry))) as He1.
  { unfold s1, TcpRuntime_close_sessions. simpl. rewrite Hh, lookup_alter_eq, He. simpl.
    by rewrite !lookup_alter_eq, Hh, He. }
  assert (tr_next s1 = tr_next s) as Hn1.
  { unfold s1, TcpRuntime_close_sessions. simpl. by rewrite Hh, lookup_alter_eq, He. }
  eexists s1, _, _. split; [reflexivity|]. split.
  - simpl. unfold accepting. rewrite He1. simpl. rewrite Hp. simpl. reflexivity.
  - rewrite <- Hn1. unfold handle_client_insert. simpl tr_tasks. rewrite lookup_insert_eq.
    split; [reflexivity|done].
Qed.
