(* ===== verification/TcpAccount.v ===== *)
(** The session counts of the TCP relay (runtime/tcp.rs): the gauge and the per-listener
    counts follow the sessions that copy, also when copies are cancelled. *)
From stdpp Require Import base gmap strings list relations fin_maps.
From Stdlib Require Import ZArith Lia.
From S2P Require Import Prelude RustStd Model Facade Metrics Account Tcp TcpSpec.
Open Scope Z_scope.

(** The copying sessions and their listeners. *)
Definition copying_entry (t : TcpSession) : option nat :=
  match ss_phase t with Splicing | Copying => Some (ss_entry t) | _ => None end.
Definition copying (s : TcpRuntime) : gmap nat nat := omap copying_entry (tr_tasks s).

Definition gauge (s : TcpRuntime) : Z := tr_metrics s tcp_active_sessions.
Definition actives (s : TcpRuntime) : gmap nat Z := (λ x, tm_active (te_metrics x)) <$> tr_heap s.

Definition tcp_account (s : TcpRuntime) : Prop := account (gauge s) (actives s) (copying s).

Definition same_account (s s' : TcpRuntime) : Prop :=
  gauge s' = gauge s ∧ actives s' = actives s ∧ copying s' = copying s.

#[export] Instance same_account_po : PreOrder same_account.
Proof. split; [by intros s|]. intros s1 s2 s3 (?&?&?) (?&?&?). split_and!; congruence. Qed.

Lemma same_account_inv s s' : same_account s s' → tcp_account s → tcp_account s'.
Proof. unfold tcp_account. by intros (-> & -> & ->). Qed.

(** * What leaves the counts alone *)
Ltac account_tac :=
  split_and!; unfold gauge, actives, copying; simpl;
  rewrite ?fmap_alter_same by (intros; reflexivity); reflexivity.

Lemma copying_alter f t s :
  (∀ x, tr_tasks s !! t = Some x → copying_entry (f x) = copying_entry x) →
  copying (tr_alter_task f t s) = copying s.
Proof.
  intros Hf. unfold copying. simpl. apply map_eq. intros t'. rewrite !lookup_omap.
  destruct (decide (t' = t)) as [->|]; [|by rewrite lookup_alter_ne].
  rewrite lookup_alter_eq. destruct (tr_tasks s !! t) eqn:Ht; simpl; [by apply Hf|done].
Qed.

Lemma account_signal o s : same_account s (signal_sender o s).
Proof. destruct o as [t|]; [|done]. split_and!; [done|done|]. by apply copying_alter. Qed.

Lemma account_close e s : same_account s (TcpRuntime_close_sessions e s).
Proof.
  unfold TcpRuntime_close_sessions. destruct (tr_heap s !! e) as [entry|]; [|done].
  split_and!; [done| |].
  - unfold actives. simpl. by rewrite fmap_alter_same.
  - unfold copying. simpl. apply map_eq. intros t. rewrite !lookup_omap, map_lookup_imap.
    destruct (tr_tasks s !! t) as [task|]; simpl; [|done]. by case_decide.
Qed.

Lemma account_stop e s : same_account s (TcpRuntime_stop_entry e s).
Proof. etrans; [|apply account_close]. account_tac. Qed.

Lemma bind_account a failed err s :
  tcp_structure s → tcp_account s → Forall (λ c, c ≠ tcp_active_sessions) failed →
  wp (bind_listener a failed err) (λ _ s', tcp_account s') s.
Proof.
  intros Hst Hacc Hf. unfold bind_listener, wp. simpl. destruct (tr_binds _ _ _); simpl.
  - unfold tcp_account.
    assert (∀ x, actives (tr_count_ref (tr_set_heap (<[tr_next s := new_entry (tr_config s) a]> (tr_heap s))
      (tr_count_bind x))) = <[tr_next s := 0]> (actives s)) as ->.
    { intros x. unfold actives. simpl. by rewrite fmap_insert. }
    apply account_new_entry; [exact Hacc|]. intros t. unfold copying. simpl. rewrite lookup_omap.
    intros (task & Ht & Hc)%bind_Some.
    assert (ss_entry task = tr_next s) as He by (unfold copying_entry in Hc; destruct (ss_phase task); congruence).
    destruct (st_task _ _ _ _ Hst t (ss_entry task) (ss_id task) (ss_signalled task)) as (tbl & Htbl & _).
    { unfold links. by rewrite lookup_fmap, Ht. }
    assert (tr_next s < tr_next s)%nat; [|lia]. apply (st_entry_ref _ _ _ _ Hst). rewrite <- He. by eexists.
  - eapply same_account_inv; [|exact Hacc]. change (same_account (tr_count_bind s) (foldr tr_inc (tr_count_bind s) failed)).
    induction Hf as [|c l Hc Hl IH]; [done|]. etrans; [exact IH|]. split_and!; [|done|done].
    unfold gauge. simpl. unfold Counter_inc, Counter_add, fetch_add. by rewrite decide_False.
Qed.

Lemma request_account q s : tcp_structure s → tcp_account s → tcp_account (run_tcp q s).
Proof.
  intros Hst Hacc. destruct q as [a|a|id|a|]; simpl.
  - enough (wp (TcpRuntime_create a 0) (λ _ s', tcp_account s') s) by done.
    unfold TcpRuntime_create, TcpRuntime_bind_entry. destruct (negb _); [exact Hacc|].
    wp_simpl. destruct (TcpRuntime_bind_addr _ _); [|exact Hacc].
    eapply wp_mono; [apply bind_account; [done|done|by repeat constructor]|].
    intros [e|err] s1 Hs1; [|exact Hs1].
    unfold insert_entry. wp_simpl. eapply same_account_inv; [|exact Hs1]. account_tac.
  - enough (wp (TcpRuntime_update a 0) (λ _ s', tcp_account s') s) by done.
    unfold TcpRuntime_update. wp_simpl. destruct (tr_entries s !! al_id a) as [e|]; [|exact Hacc].
    simpl. case_bool_decide; wp_simpl;
      (eapply same_account_inv; [|exact Hacc]);
      match goal with |- same_account _ (tr_inc _ ?x) => transitivity x; [|account_tac] end;
      (etrans; [|apply account_close]); account_tac.
  - enough (wp (TcpRuntime_delete id 0) (λ _ s', tcp_account s') s) by done.
    unfold TcpRuntime_delete. wp_simpl. destruct (tr_entries s !! id); [|exact Hacc].
    wp_simpl. eapply same_account_inv; [apply account_stop|]. exact Hacc.
  - enough (wp (TcpRuntime_restore a 0) (λ _ s', tcp_account s') s) by done.
    unfold TcpRuntime_restore. destruct (negb _); [exact Hacc|].
    wp_simpl. destruct (TcpRuntime_bind_addr _ _); [|exact Hacc]. simpl. wp_simpl.
    eapply wp_mono; [apply bind_account; [done|done|by repeat constructor]|].
    intros [e|err] s1 Hs1; [|exact Hs1].
    unfold insert_entry. wp_simpl. eapply same_account_inv; [|exact Hs1]. account_tac.
  - unfold TcpRuntime_shutdown_all. generalize (map_to_list (tr_entries s)).*2. intros l.
    assert (tcp_account (tr_set_entries ∅ s)) as H0 by exact Hacc.
    revert H0. generalize (tr_set_entries ∅ s). clear. induction l as [|e l IH]; simpl; [done|].
    intros s Hs. apply IH. eapply same_account_inv; [apply account_stop|done].
Qed.

(** * Events *)
Lemma copying_set_phase t p task s :
  tr_tasks s !! t = Some task →
  copying (set_phase t p s) =
  match copying_entry (ss_set_phase p task) with
  | Some e => <[t := e]> (copying s)
  | None => delete t (copying s)
  end.
Proof.
  intros Ht. unfold copying. simpl. apply map_eq. intros t'. rewrite lookup_omap.
  destruct (decide (t' = t)) as [->|].
  - rewrite lookup_alter_eq, Ht. simpl. destruct (copying_entry _);
      [by rewrite lookup_insert_eq|by rewrite lookup_delete_eq].
  - rewrite lookup_alter_ne by done. destruct (copying_entry (ss_set_phase p task));
      [rewrite lookup_insert_ne by done|rewrite lookup_delete_ne by done]; by rewrite lookup_omap.
Qed.

Lemma copying_lookup t task s :
  tr_tasks s !! t = Some task → copying s !! t = copying_entry task.
Proof. intros Ht. unfold copying. by rewrite lookup_omap, Ht. Qed.

Lemma actives_alter f g e s :
  (∀ x, tm_active (te_metrics (f x)) = g (tm_active (te_metrics x))) →
  actives (tr_alter_entry f e s) = alter g e (actives s).
Proof.
  intros Hf. unfold actives. simpl. apply map_eq. intros e'. rewrite lookup_fmap.
  destruct (decide (e' = e)) as [->|]; [rewrite !lookup_alter_eq|rewrite !lookup_alter_ne by done];
    rewrite lookup_fmap; [|done]. destruct (tr_heap s !! e); simpl; [by rewrite Hf|done].
Qed.

(** A session takes its guard, or drops it. *)
Lemma guard_account t p task s s1 :
  tr_tasks s !! t = Some task → ss_phase task = Connecting →
  copying_entry (ss_set_phase p task) = Some (ss_entry task) →
  same_account (ActiveSessionGuard_new (ss_entry task) s) s1 → tr_tasks s1 = tr_tasks s →
  tcp_account s → tcp_account (set_phase t p s1).
Proof.
  intros Ht Hph Hp (Hg & Ha & Hc) Htasks Hacc. unfold tcp_account.
  rewrite (copying_set_phase t p task) by (by rewrite Htasks). rewrite Hp, Hc.
  change (gauge (set_phase t p s1)) with (gauge s1). change (actives (set_phase t p s1)) with (actives s1).
  rewrite Hg, Ha. unfold ActiveSessionGuard_new.
  match goal with |- account ?g ?A ?R =>
    change g with (u64_wrapping_add (gauge s) 1);
    change R with (<[t := ss_entry task]> (copying s));
    assert (A = alter (λ n, u64_wrapping_add n 1) (ss_entry task) (actives s)) as ->
      by (by apply (actives_alter _ (λ n, u64_wrapping_add n 1) _
                (tr_metric (Gauge_inc tcp_active_sessions) (tr_inc tcp_session_create_total s))))
  end.
  apply account_begin; [exact Hacc|]. rewrite (copying_lookup t task s Ht).
  unfold copying_entry. by rewrite Hph.
Qed.

Lemma drop_account t task s s1 s2 :
  tr_tasks s !! t = Some task → copying_entry task = Some (ss_entry task) →
  same_account s s1 → tr_tasks s1 = tr_tasks s → s2 = ActiveSessionGuard_drop (ss_entry task) s1 →
  tcp_account s → tcp_account (set_phase t Removing s2).
Proof.
  intros Ht Hph (Hg & Ha & Hc) Htasks -> Hacc. unfold tcp_account.
  rewrite (copying_set_phase t Removing task) by (simpl; by rewrite Htasks). simpl.
  unfold ActiveSessionGuard_drop.
  match goal with |- account ?g ?A ?R =>
    change g with (u64_wrapping_sub (gauge s1) 1);
    change R with (delete t (copying s1));
    assert (A = alter (λ n, u64_wrapping_sub n 1) (ss_entry task) (actives s1)) as ->
      by (by apply (actives_alter _ (λ n, u64_wrapping_sub n 1)))
  end.
  rewrite Hg, Ha, Hc. apply account_end; [exact Hacc|]. by rewrite (copying_lookup t task s Ht).
Qed.

Lemma idle_phase t p task s s1 :
  tr_tasks s !! t = Some task → copying_entry (ss_set_phase p task) = copying_entry task →
  same_account s s1 → tr_tasks s1 = tr_tasks s → tcp_account s → tcp_account (set_phase t p s1).
Proof.
  intros Ht Hp Hs Htasks. apply same_account_inv. etrans; [exact Hs|].
  split_and!; [done|done|]. apply copying_alter. intros x. rewrite Htasks, Ht. by intros [= <-].
Qed.

Lemma copied_account e r s :
  ∃ s1, copied e r s = ActiveSessionGuard_drop e s1 ∧ same_account s s1 ∧ tr_tasks s1 = tr_tasks s.
Proof.
  unfold copied. eexists. split; [reflexivity|]. destruct r as [[]|]; (split; [account_tac|done]).
Qed.

Lemma begin_account entry s :
  same_account s (copy_streams_begin entry s).2 ∧ tr_tasks (copy_streams_begin entry s).2 = tr_tasks s ∧
  ((copy_streams_begin entry s).1 = Splicing ∨ (copy_streams_begin entry s).1 = Copying).
Proof.
  unfold copy_streams_begin.
  destruct (te_force_copy_fallback entry), (te_splice_enabled entry); (split_and!; auto; account_tac).
Qed.

Lemma spliced_account o s :
  same_account s (copy_streams_spliced o s).2 ∧ tr_tasks (copy_streams_spliced o s).2 = tr_tasks s.
Proof.
  unfold copy_streams_spliced. destruct o; [split; [account_tac|done]|].
  destruct (head _); (split; [account_tac|done]).
Qed.

Lemma insert_account e entry i host port s :
  tcp_structure s → tcp_account s → tcp_account (handle_client_insert e entry i host port s).
Proof.
  intros Hst. apply same_account_inv. unfold handle_client_insert.
  pose proof (account_signal (te_sessions entry !! i) s) as Hs.
  assert (tr_tasks s !! tr_next s = None) as Hnone.
  { destruct (tr_tasks s !! tr_next s) as [x|] eqn:Hx; [|done]. assert (tr_next s < tr_next s)%nat; [|lia].
    apply (st_task_ref _ _ _ _ Hst). unfold links. rewrite lookup_fmap, Hx. by eexists. }
  assert (tr_tasks (signal_sender (te_sessions entry !! i) s) !! tr_next s = None) as Hnone1.
  { destruct (te_sessions entry !! i) as [t|]; [|done]. simpl. apply lookup_alter_None. done. }
  set (s1 := signal_sender _ s) in *. destruct Hs as (Hg & Ha & Hc). split_and!.
  - rewrite <- Hg. done.
  - rewrite <- Ha. unfold actives. simpl. by apply fmap_alter_same.
  - rewrite <- Hc. unfold copying. simpl. rewrite omap_insert. simpl. apply delete_id.
    by rewrite lookup_omap, Hnone1.
Qed.

Lemma removed_account t task s :
  tr_tasks s !! t = Some task → ss_phase task = Removing → tcp_account s →
  let s1 := TcpRuntime_remove_session_handle (ss_entry task) (ss_id task) s in
  tcp_account (tr_set_tasks (delete t (tr_tasks s1)) s1).
Proof.
  intros Ht Hph Hacc. simpl. set (s1 := TcpRuntime_remove_session_handle _ _ s).
  assert (same_account s s1) as Hs.
  { unfold s1, TcpRuntime_remove_session_handle. destruct (tr_heap s !! ss_entry task); [|done].
    etrans; [|apply account_signal]. account_tac. }
  assert (copying s !! t = None) as Hno by (rewrite (copying_lookup _ _ _ Ht); unfold copying_entry; by rewrite Hph).
  eapply same_account_inv; [|exact Hacc]. destruct Hs as (Hg & Ha & Hc). split_and!; [exact Hg|exact Ha|].
  change (omap copying_entry (delete t (tr_tasks s1)) = copying s).
  rewrite omap_delete. change (omap copying_entry (tr_tasks s1)) with (copying s1). rewrite Hc. by apply delete_id.
Qed.

Lemma event_account ev s s' :
  tcp_structure s → tcp_account s → tcp_event ev s = Some s' → tcp_account s'.
Proof.
  intros Hst Hacc. destruct ev as [e|e|e|e|e|e|t|t err|t o|t r|t|t]; simpl.
  1-6: destruct (accepting e s) as [[[| | |i h p] entry]|] eqn:Ha; try done.
  1-2, 5: intros [= <-]; eapply same_account_inv; [account_tac|done].
  - destruct (te_shutdown entry); [|done]. intros [= <-]. eapply same_account_inv; [account_tac|done].
  - intros [= <-]. eapply same_account_inv; [|done]. unfold handle_client_read.
    destruct (ts_effective_host (te_state entry)), (ts_effective_target_port (te_state entry)); account_tac.
  - intros [= <-]. by apply insert_account.
  - intros (task & Ht & H')%bind_Some. apply bind_Some in H' as (entry & He & H').
    destruct (ss_phase task) eqn:Hph; try done.
    destruct (copy_streams_begin entry _) as [p s1] eqn:Hb. injection H' as <-.
    match type of Hb with copy_streams_begin _ ?x = _ => destruct (begin_account entry x) as (Hs & Htasks & Hp) end.
    rewrite Hb in Hs, Htasks, Hp. simpl in Hp.
    eapply (guard_account t p task); [exact Ht|exact Hph|by destruct Hp as [->| ->]| |exact Htasks|exact Hacc].
    etrans; [|exact Hs]. account_tac.
  - intros (task & Ht & H')%bind_Some. destruct (ss_phase task) eqn:Hph; try done. injection H' as <-.
    eapply (idle_phase t Removing task); [exact Ht|unfold copying_entry; by rewrite Hph|account_tac|done|done].
  - intros (task & Ht & H')%bind_Some. destruct (ss_phase task) eqn:Hph; try done.
    destruct (spliced_account o s) as [Hs Htasks].
    destruct (copy_streams_spliced o s) as [[r|] s1] eqn:Hb; injection H' as <-; simpl in Hs, Htasks.
    + destruct (copied_account (ss_entry task) r s1) as (s2 & -> & Hs2 & Htasks2).
      eapply (drop_account t task s s2); [exact Ht|unfold copying_entry; by rewrite Hph| | |done|done].
      * by etrans.
      * congruence.
    + eapply (idle_phase t Copying task); [exact Ht|unfold copying_entry; by rewrite Hph|done|done|done].
  - intros (task & Ht & H')%bind_Some. destruct (ss_phase task) eqn:Hph; try done. injection H' as <-.
    destruct (copied_account (ss_entry task) r s) as (s2 & -> & Hs2 & Htasks2).
    by eapply (drop_account t task s s2); [exact Ht|unfold copying_entry; by rewrite Hph|..].
  - intros (task & Ht & H')%bind_Some. destruct (ss_signalled task); [|done].
    destruct (ss_phase task) eqn:Hph; try done; injection H' as <-.
    + eapply (idle_phase t Removing task); [exact Ht|unfold copying_entry; by rewrite Hph|done|done|done].
    + by eapply (drop_account t task s s); [exact Ht|unfold copying_entry; by rewrite Hph|..].
    + by eapply (drop_account t task s s); [exact Ht|unfold copying_entry; by rewrite Hph|..].
  - intros (task & Ht & H')%bind_Some. destruct (ss_phase task) eqn:Hph; try done. injection H' as <-.
    by apply removed_account.
Qed.

(** The TCP session counts are exact. In every reachable state the gauge of active
    sessions is the number of sessions that copy bytes, and the current-connections count
    of each listener, deleted ones included, is the number of its own, both modulo 2^64;
    cancelled, failed and completed copies all give their count back. *)
Theorem session_counts_exact config binds s :
  rtc tcp_step (TcpRuntime_new config Metrics_default binds) s →
  Gauge_load tcp_active_sessions (tr_metrics s) = wrap (Z.of_nat (size (copying s))) ∧
  ∀ e entry, tr_heap s !! e = Some entry →
    tm_active (te_metrics entry) = wrap (Z.of_nat (size (owned e (copying s)))).
Proof.
  intros Hr. enough (tcp_account s) as [Hg HA].
  { split; [exact Hg|]. intros e entry He. apply HA. unfold actives. by rewrite lookup_fmap, He. }
  assert (tcp_account (TcpRuntime_new config Metrics_default binds)) as H0.
  { split; [done|]. intros e n. unfold actives. simpl. by rewrite fmap_empty, lookup_empty. }
  assert (tcp_structure (TcpRuntime_new config Metrics_default binds)) as Hst
    by (apply initial_structure; by repeat eexists).
  induction Hr as [|s1 s2 s3 H12 _ IH]; [exact H0|].
  apply IH; [|by eapply step_structure]. destruct H12; [by apply request_account|by eapply event_account].
Qed.

(** A completed copy adds the bytes received from the client to the listener's [tx] and the
    bytes received from the target to its [rx]; the UDP relay counts them the other way. *)
Lemma copied_directions t task entry from_client from_upstream s s' :
  tr_tasks s !! t = Some task → tr_heap s !! ss_entry task = Some entry →
  tcp_event (EvCopied t (Ok (from_client, from_upstream))) s = Some s' →
  ∃ entry', tr_heap s' !! ss_entry task = Some entry' ∧
    tm_tx (te_metrics entry') = u64_wrapping_add (tm_tx (te_metrics entry)) from_client ∧
    tm_rx (te_metrics entry') = u64_wrapping_add (tm_rx (te_metrics entry)) from_upstream.
Proof.
  intros Ht He. simpl. rewrite Ht. simpl. destruct (ss_phase task); try done. intros [= <-].
  simpl. rewrite !lookup_alter_eq, He. by eexists.
Qed.
