(* ===== verification/TcpWitness.v ===== *)
(** Concrete runs of the TCP relay, where the theorems' hypotheses hold. *)
From stdpp Require Import base gmap strings list relations.
From Stdlib Require Import ZArith Lia.
From S2P Require Import Prelude RustStd Model Facade Metrics Account Tcp TcpSpec TcpQuiet TcpAccount.
Open Scope Z_scope.

Definition tcp_allocation (host : option string) : Allocation :=
  {| al_id := "a"; al_protocol := Tcp; al_port := 5001; al_target_port := Some 80;
     al_host := host; al_created_at_ms := 0; al_updated_at_ms := 0 |}.

Definition tcp_state0 : TcpRuntime :=
  TcpRuntime_new (TcpRuntimeConfig_with_tcp_splice_enabled true TcpRuntimeConfig_loopback)
    Metrics_default (λ _ _, true).

(** A listener (reference 0) whose client is served by the session task 1. *)
Definition tcp_serving : list TcpAction :=
  [ActRequest (TcpCreate (tcp_allocation (Some "10.0.0.1"))); ActEvent (EvAccept 0);
   ActEvent (EvReadState 0); ActEvent (EvInsert 0); ActEvent (EvConnected 1)].

Definition tcp_after (l : list TcpAction) : TcpRuntime := default tcp_state0 (tcp_exec l tcp_state0).

(** A run that succeeds; its final state is not printed. *)
Lemma default_ran {A} (o : option A) d :
  match o with Some _ => true | None => false end = true → o = Some (default d o).
Proof. by destruct o. Qed.

Lemma tcp_initial0 : tcp_initial tcp_state0.
Proof. repeat eexists. Qed.

Lemma tcp_after_reachable l : rtc tcp_step tcp_state0 (tcp_after l).
Proof.
  unfold tcp_after. destruct (tcp_exec l tcp_state0) eqn:Hl; simpl; [by eapply exec_rtc|constructor].
Qed.

Lemma deleted_listener_stays_stopped_witness :
  let s := tcp_after tcp_serving in
  let s' := (TcpRuntime_delete "a" 0 s).2 in
  size (tr_tasks s') = 1%nat ∧
  (∃ entry, tr_heap s' !! 0%nat = Some entry ∧ te_accept entry = None) ∧
  (∀ task tk, tr_tasks s' !! tk = Some task → ss_entry task = 0%nat → ss_signalled task = true).
Proof.
  split; [by vm_compute|].
  apply (deleted_listener_stays_stopped tcp_state0 (tcp_after tcp_serving) "a" 0 0);
    [apply tcp_initial0|apply tcp_after_reachable|by vm_compute|constructor].
Defined.

Lemma session_counts_exact_witness :
  let s := tcp_after tcp_serving in
  size (copying s) = 1%nat ∧
  Gauge_load tcp_active_sessions (tr_metrics s) = wrap (Z.of_nat (size (copying s))) ∧
  ∀ e entry, tr_heap s !! e = Some entry →
    tm_active (te_metrics entry) = wrap (Z.of_nat (size (owned e (copying s)))).
Proof.
  split; [by vm_compute|].
  eapply session_counts_exact. apply tcp_after_reachable.
Defined.

Lemma accept_error_is_final_witness :
  let s := tcp_after tcp_serving in
  let s1 := default s (tcp_event (EvAcceptError 0) s) in
  (os_runtime_status <$> default None (result_ok (TcpRuntime_snapshot "a" s1).1)) = Some Active ∧
  (TcpRuntime_snapshot "a" s1).1 = (TcpRuntime_snapshot "a" s).1 ∧
  ∃ entry2, tr_heap s1 !! 0%nat = Some entry2 ∧ te_accept entry2 = None.
Proof.
  split; [by vm_compute|].
  eapply (accept_error_is_final tcp_state0 (tcp_after tcp_serving) "a" 0);
    [apply tcp_initial0|apply tcp_after_reachable|by vm_compute|exact eq_refl|apply default_ran; by vm_compute|constructor].
Defined.

Lemma update_misses_client_witness :
  let s := tcp_after [ActRequest (TcpCreate (tcp_allocation (Some "10.0.0.1"))); ActEvent (EvAccept 0);
                      ActEvent (EvReadState 0)] in
  ∃ s1 s2 task, TcpRuntime_update (tcp_allocation (Some "10.0.0.2")) 0 s = (Ok tt, s1) ∧
    tcp_event (EvInsert 0) s1 = Some s2 ∧ tr_tasks s2 !! tr_next s = Some task ∧ ss_entry task = 0%nat ∧
    ss_host task = "10.0.0.1" ∧ ss_target_port task = 80 ∧ ss_signalled task = false.
Proof.
  eapply (update_misses_client (tcp_allocation (Some "10.0.0.2")) 0 _ 0 _ 0); by vm_compute.
Defined.
