(* ===== verification/UdpModel.v ===== *)
(** runtime/udp.rs, the data: socket addresses and their decoding, receive batches,
    listeners, sessions, and the state of the UDP runtime with the assignments to its
    fields.

    As in Tcp.v entries and sessions are shared ([Arc]) and live in heaps. *)
From stdpp Require Import base gmap strings list countable.
From Stdlib Require Import ZArith Lia.
From S2P Require Import Prelude RustStd Model Facade Metrics.
Open Scope Z_scope.

(** * Socket addresses *)

(** [SocketAddr]: an IPv4 address has neither flow information nor a scope. *)
Record SocketAddr : Type := {
  sa_ip : IpAddr;
  sa_port : Z;
  sa_flowinfo : Z;
  sa_scope_id : Z;
}.

#[export] Instance SocketAddr_eq_dec : EqDecision SocketAddr.
Proof. solve_decision. Defined.

#[export] Instance IpAddr_countable : Countable IpAddr.
Proof.
  apply (inj_countable'
    (λ ip, match ip with V4 a b c d => inl (a, b, c, d) | V6 l => inr l end)
    (λ x, match x with inl (a, b, c, d) => V4 a b c d | inr l => V6 l end)).
  by intros [].
Defined.

#[export] Instance SocketAddr_countable : Countable SocketAddr.
Proof.
  apply (inj_countable'
    (λ a, (sa_ip a, sa_port a, sa_flowinfo a, sa_scope_id a))
    (λ x, match x with (i, p, f, s) =>
            {| sa_ip := i; sa_port := p; sa_flowinfo := f; sa_scope_id := s |} end)).
  by intros [].
Defined.

(** What recvmmsg(2) writes for a peer, by [ss_family]: bytes in network order, apart
    from the scope. *)
Inductive sockaddr_storage : Type :=
| sockaddr_in (sin_port : list Z) (a b c d : Z)                    (* AF_INET *)
| sockaddr_in6 (sin6_port sin6_flowinfo : list Z) (sin6_addr : list Z) (sin6_scope_id : Z)
| sockaddr_other (family : Z).

(** [from_be]. *)
Definition from_be_bytes (l : list Z) : Z := foldl (λ n b, n * 256 + b) 0 l.

(** The segments of the octets of an IPv6 address. *)
Fixpoint segments_of (l : list Z) : list Z :=
  match l with hi :: lo :: l' => from_be_bytes [hi; lo] :: segments_of l' | _ => [] end.

(** The error is the unsupported family. *)
Definition socket_addr_from_storage (storage : sockaddr_storage) : result SocketAddr Z :=
  match storage with
  | sockaddr_in sin_port a b c d =>
      Ok {| sa_ip := V4 a b c d; sa_port := from_be_bytes sin_port;
            sa_flowinfo := 0; sa_scope_id := 0 |}
  | sockaddr_in6 sin6_port sin6_flowinfo sin6_addr sin6_scope_id =>
      Ok {| sa_ip := V6 (segments_of sin6_addr); sa_port := from_be_bytes sin6_port;
            sa_flowinfo := from_be_bytes sin6_flowinfo; sa_scope_id := sin6_scope_id |}
  | sockaddr_other family => Err family
  end.

(** * Receive batches *)
Definition UDP_DATAGRAM_BUFFER_BYTES : Z := 2048.
Definition UDP_INITIAL_RECEIVE_BATCH_SIZE : nat := 16.
Definition UDP_MAX_RECEIVE_BATCH_SIZE : nat := 64.

(** A received datagram; its payload is not looked at. *)
Record UdpDatagram : Type := { dg_peer : SocketAddr; dg_length : Z }.

(** [UdpReceiveBatch] between two receptions is its number of buffers. *)
Definition UdpReceiveBatch_new : nat := UDP_INITIAL_RECEIVE_BATCH_SIZE.

Definition grow_if_saturated (capacity received : nat) : nat :=
  if bool_decide (received < capacity)%nat || bool_decide (UDP_MAX_RECEIVE_BATCH_SIZE <= capacity)%nat
  then capacity
  else Nat.min (capacity * 2) UDP_MAX_RECEIVE_BATCH_SIZE.

(** What recvmmsg(2) answers, asked for at most [remaining] further datagrams. *)
Inductive MoreDatagrams : Type :=
| MoreReceived (l : list (sockaddr_storage * Z))
| MoreWouldBlock
| MoreFailed.

Fixpoint storages (l : list (sockaddr_storage * Z)) : result (list UdpDatagram) Z :=
  match l with
  | [] => Ok []
  | (storage, length) :: l' =>
      let? peer := socket_addr_from_storage storage in
      let? rest := storages l' in
      Ok ({| dg_peer := peer; dg_length := length |} :: rest)
  end.

(** One datagram is awaited; then, in batch mode, what is there already is read as long
    as there are buffers. [None] is an error of the socket. *)
Definition recv_one (first : option UdpDatagram) : option (list UdpDatagram) :=
  (λ d, [d]) <$> first.

Definition recv_batch (capacity : nat) (first : option UdpDatagram)
    (more : nat → MoreDatagrams) : option (list UdpDatagram) :=
  batch ← recv_one first;
  match more (capacity - 1)%nat with
  | MoreReceived l => rest ← result_ok (storages l); Some (batch ++ rest)
  | MoreWouldBlock => Some batch
  | MoreFailed => None
  end.

(** Sending a group: [Err sent] when the message after the first [sent] ones fails.
    [send i] is the answer for the [i]th of the group. *)
Fixpoint send_individually (send : nat → bool) (sent count : nat) : result unit nat :=
  match count with
  | O => Ok tt
  | S count' => if send sent then send_individually send (S sent) count' else Err sent
  end.

(** [kernel sent n] answers sendmmsg(2) for the [n] messages that remain: how many of
    them it took, where none is an error. The fuel bounds the calls. *)
Fixpoint send_batch (kernel : nat → nat → option nat) (fuel sent count : nat)
    : option (result unit nat) :=
  if bool_decide (count <= sent)%nat then Some (Ok tt)
  else match fuel with
       | O => None
       | S fuel' =>
           match kernel sent (count - sent)%nat with
           | None | Some O => Some (Err sent)
           | Some n => send_batch kernel fuel' (sent + n)%nat count
           end
       end.

(** * Configuration *)
Record UdpRuntimeConfig : Type := {
  uc_bind_host : string;
  uc_session_ttl : Z;                   (* durations in nanoseconds *)
  uc_max_sessions : Z;
  uc_udp_batch_enabled : bool;
}.

Definition ns_per_ms : Z := 1000000.

Definition UdpRuntimeConfig_with_bind_host (bind_host : string) : UdpRuntimeConfig :=
  {| uc_bind_host := bind_host; uc_session_ttl := 60000 * ns_per_ms; uc_max_sessions := 65536;
     uc_udp_batch_enabled := true |}.     (* on Linux *)

Definition UdpRuntimeConfig_loopback : UdpRuntimeConfig :=
  UdpRuntimeConfig_with_bind_host "127.0.0.1".

Definition UdpRuntimeConfig_with_session_ttl (ttl : Z) (c : UdpRuntimeConfig) : UdpRuntimeConfig :=
  {| uc_bind_host := uc_bind_host c; uc_session_ttl := ttl; uc_max_sessions := uc_max_sessions c;
     uc_udp_batch_enabled := uc_udp_batch_enabled c |}.

Definition UdpRuntimeConfig_with_udp_max_sessions (max_sessions : Z) (c : UdpRuntimeConfig)
    : UdpRuntimeConfig :=
  {| uc_bind_host := uc_bind_host c; uc_session_ttl := uc_session_ttl c;
     uc_max_sessions := max_sessions; uc_udp_batch_enabled := uc_udp_batch_enabled c |}.

Definition UdpRuntimeConfig_with_udp_batch_enabled (enabled : bool) (c : UdpRuntimeConfig)
    : UdpRuntimeConfig :=
  {| uc_bind_host := uc_bind_host c; uc_session_ttl := uc_session_ttl c;
     uc_max_sessions := uc_max_sessions c; uc_udp_batch_enabled := enabled |}.

Definition MAX_SESSION_CLEANUP_INTERVAL : Z := 1000 * ns_per_ms.

Definition session_cleanup_interval (session_ttl : Z) : Z :=
  Z.min session_ttl MAX_SESSION_CLEANUP_INTERVAL.

(** * Listeners and sessions *)
Record UdpEntryState : Type := {
  us_effective_host : option string;
  us_effective_target_port : option Z;
  us_runtime_status : RuntimeStatus;
  us_error_kind : option ErrorKind;
  us_last_error : option string;
  us_generation : Z;
}.

Record UdpListenerMetrics : Type := { um_active : Z; um_rx : Z; um_tx : Z }.

Definition UdpListenerMetrics_default : UdpListenerMetrics :=
  {| um_active := 0; um_rx := 0; um_tx := 0 |}.

(** A batch under preparation: the target and the generation read for it, and the
    sessions of its first datagrams. *)
Record Preparation : Type := {
  pr_batch : list UdpDatagram;
  pr_host : string;
  pr_target_port : Z;
  pr_generation : Z;
  pr_sessions : list (option nat);
}.

(** Where the receive task is: in its [select!]; about to read the entry's state; about
    to look for the next datagram's session; connecting a new session; about to store
    it; about to start its reply task; about to store that task's handle; about to send
    the groups that are left. *)
Inductive ReceivePhase : Type :=
| RxIdle
| RxRead (batch : list UdpDatagram)
| RxLookup (p : Preparation)
| RxCreate (p : Preparation)
| RxInsert (p : Preparation) (session : nat)
| RxSpawn (p : Preparation) (session : nat)
| RxStore (p : Preparation) (session : nat)
| RxSend (batch : list UdpDatagram) (sessions : list (option nat)) (groups : list (nat * list nat)).

Record UdpListenerEntry : Type := {
  ue_port : Z;
  ue_bind_host : string;
  ue_state : UdpEntryState;
  ue_metrics : UdpListenerMetrics;
  ue_shutdown : bool;
  ue_receive : option ReceivePhase;     (* [None]: the task ended or was aborted *)
  ue_receive_task : bool;               (* the handle is still stored *)
  ue_cleanup : bool;                    (* the cleanup task runs *)
  ue_cleanup_task : bool;
  ue_buffers : nat;                     (* of the receive task's batch *)
  ue_sessions : gmap SocketAddr nat;
  ue_empty_since : option Z;
  ue_generation : Z;
  ue_max_sessions : Z;
  ue_session_ttl : Z;                   (* of the cleanup task *)
  ue_udp_batch_enabled : bool;
}.

(** Where a reply task is: at the top of its loop, receiving, or sending to the client. *)
Inductive ReplyPhase : Type := ReplyTop | ReplyReceive | ReplySend (n : Z).

(** A session is in its heap as long as something holds its [Arc], and so is its guard. *)
Record UdpSession : Type := {
  ux_entry : nat;
  ux_generation : Z;
  ux_client_addr : SocketAddr;
  ux_upstream : string * Z;             (* what the upstream socket is connected to *)
  ux_closed : bool;
  ux_last_seen : Z;
  ux_reply : option ReplyPhase;         (* the task; [None]: it never ran, ended or was aborted *)
  ux_handle : bool;                     (* its handle is in [reply_task] *)
}.

Record UdpRuntime : Type := {
  ur_config : UdpRuntimeConfig;
  ur_metrics : Metrics;
  ur_entries : gmap string nat;
  ur_heap : gmap nat UdpListenerEntry;
  ur_sessions : gmap nat UdpSession;
  ur_next : nat;                        (* the next unused reference *)
  ur_now : Z;                           (* the monotonic clock *)
  ur_binds : nat → Z → bool;            (* whether the nth bind succeeds, on a port *)
  ur_bind_calls : nat;
}.

Definition UdpRuntime_new (config : UdpRuntimeConfig) (metrics : Metrics) (now : Z)
    (binds : nat → Z → bool) : UdpRuntime :=
  {| ur_config := config; ur_metrics := metrics; ur_entries := ∅; ur_heap := ∅;
     ur_sessions := ∅; ur_next := 0; ur_now := now; ur_binds := binds; ur_bind_calls := 0 |}.

(** * Assignments to single fields *)
Definition ue_set_metrics (x : UdpListenerMetrics) (e : UdpListenerEntry) : UdpListenerEntry :=
  {| ue_port := ue_port e; ue_bind_host := ue_bind_host e; ue_state := ue_state e;
     ue_metrics := x; ue_shutdown := ue_shutdown e; ue_receive := ue_receive e;
     ue_receive_task := ue_receive_task e; ue_cleanup := ue_cleanup e;
     ue_cleanup_task := ue_cleanup_task e; ue_buffers := ue_buffers e;
     ue_sessions := ue_sessions e; ue_empty_since := ue_empty_since e;
     ue_generation := ue_generation e; ue_max_sessions := ue_max_sessions e;
     ue_session_ttl := ue_session_ttl e; ue_udp_batch_enabled := ue_udp_batch_enabled e |}.

Definition ue_set_receive (x : option ReceivePhase) (e : UdpListenerEntry) : UdpListenerEntry :=
  {| ue_port := ue_port e; ue_bind_host := ue_bind_host e; ue_state := ue_state e;
     ue_metrics := ue_metrics e; ue_shutdown := ue_shutdown e; ue_receive := x;
     ue_receive_task := ue_receive_task e; ue_cleanup := ue_cleanup e;
     ue_cleanup_task := ue_cleanup_task e; ue_buffers := ue_buffers e;
     ue_sessions := ue_sessions e; ue_empty_since := ue_empty_since e;
     ue_generation := ue_generation e; ue_max_sessions := ue_max_sessions e;
     ue_session_ttl := ue_session_ttl e; ue_udp_batch_enabled := ue_udp_batch_enabled e |}.

Definition ue_set_buffers (x : nat) (e : UdpListenerEntry) : UdpListenerEntry :=
  {| ue_port := ue_port e; ue_bind_host := ue_bind_host e; ue_state := ue_state e;
     ue_metrics := ue_metrics e; ue_shutdown := ue_shutdown e; ue_receive := ue_receive e;
     ue_receive_task := ue_receive_task e; ue_cleanup := ue_cleanup e;
     ue_cleanup_task := ue_cleanup_task e; ue_buffers := x; ue_sessions := ue_sessions e;
     ue_empty_since := ue_empty_since e; ue_generation := ue_generation e;
     ue_max_sessions := ue_max_sessions e; ue_session_ttl := ue_session_ttl e;
     ue_udp_batch_enabled := ue_udp_batch_enabled e |}.

Definition ue_set_sessions (x : gmap SocketAddr nat) (e : UdpListenerEntry) : UdpListenerEntry :=
  {| ue_port := ue_port e; ue_bind_host := ue_bind_host e; ue_state := ue_state e;
     ue_metrics := ue_metrics e; ue_shutdown := ue_shutdown e; ue_receive := ue_receive e;
     ue_receive_task := ue_receive_task e; ue_cleanup := ue_cleanup e;
     ue_cleanup_task := ue_cleanup_task e; ue_buffers := ue_buffers e; ue_sessions := x;
     ue_empty_since := ue_empty_since e; ue_generation := ue_generation e;
     ue_max_sessions := ue_max_sessions e; ue_session_ttl := ue_session_ttl e;
     ue_udp_batch_enabled := ue_udp_batch_enabled e |}.

Definition ue_set_empty_since (x : option Z) (e : UdpListenerEntry) : UdpListenerEntry :=
  {| ue_port := ue_port e; ue_bind_host := ue_bind_host e; ue_state := ue_state e;
     ue_metrics := ue_metrics e; ue_shutdown := ue_shutdown e; ue_receive := ue_receive e;
     ue_receive_task := ue_receive_task e; ue_cleanup := ue_cleanup e;
     ue_cleanup_task := ue_cleanup_task e; ue_buffers := ue_buffers e;
     ue_sessions := ue_sessions e; ue_empty_since := x; ue_generation := ue_generation e;
     ue_max_sessions := ue_max_sessions e; ue_session_ttl := ue_session_ttl e;
     ue_udp_batch_enabled := ue_udp_batch_enabled e |}.

(** The state and, with it, the generation. *)
Definition ue_set_state (x : UdpEntryState) (e : UdpListenerEntry) : UdpListenerEntry :=
  {| ue_port := ue_port e; ue_bind_host := ue_bind_host e; ue_state := x;
     ue_metrics := ue_metrics e; ue_shutdown := ue_shutdown e; ue_receive := ue_receive e;
     ue_receive_task := ue_receive_task e; ue_cleanup := ue_cleanup e;
     ue_cleanup_task := ue_cleanup_task e; ue_buffers := ue_buffers e;
     ue_sessions := ue_sessions e; ue_empty_since := ue_empty_since e;
     ue_generation := us_generation x; ue_max_sessions := ue_max_sessions e;
     ue_session_ttl := ue_session_ttl e; ue_udp_batch_enabled := ue_udp_batch_enabled e |}.

(** [shutdown.send(true)]. *)
Definition ue_send_shutdown (e : UdpListenerEntry) : UdpListenerEntry :=
  {| ue_port := ue_port e; ue_bind_host := ue_bind_host e; ue_state := ue_state e;
     ue_metrics := ue_metrics e; ue_shutdown := true; ue_receive := ue_receive e;
     ue_receive_task := ue_receive_task e; ue_cleanup := ue_cleanup e;
     ue_cleanup_task := ue_cleanup_task e; ue_buffers := ue_buffers e;
     ue_sessions := ue_sessions e; ue_empty_since := ue_empty_since e;
     ue_generation := ue_generation e; ue_max_sessions := ue_max_sessions e;
     ue_session_ttl := ue_session_ttl e; ue_udp_batch_enabled := ue_udp_batch_enabled e |}.

(** A handle taken and its task aborted. *)
Definition ue_stop_receive (e : UdpListenerEntry) : UdpListenerEntry :=
  {| ue_port := ue_port e; ue_bind_host := ue_bind_host e; ue_state := ue_state e;
     ue_metrics := ue_metrics e; ue_shutdown := ue_shutdown e;
     ue_receive := if ue_receive_task e then None else ue_receive e; ue_receive_task := false;
     ue_cleanup := ue_cleanup e; ue_cleanup_task := ue_cleanup_task e;
     ue_buffers := ue_buffers e; ue_sessions := ue_sessions e;
     ue_empty_since := ue_empty_since e; ue_generation := ue_generation e;
     ue_max_sessions := ue_max_sessions e; ue_session_ttl := ue_session_ttl e;
     ue_udp_batch_enabled := ue_udp_batch_enabled e |}.

Definition ue_stop_cleanup (e : UdpListenerEntry) : UdpListenerEntry :=
  {| ue_port := ue_port e; ue_bind_host := ue_bind_host e; ue_state := ue_state e;
     ue_metrics := ue_metrics e; ue_shutdown := ue_shutdown e; ue_receive := ue_receive e;
     ue_receive_task := ue_receive_task e;
     ue_cleanup := if ue_cleanup_task e then false else ue_cleanup e;
     ue_cleanup_task := false; ue_buffers := ue_buffers e; ue_sessions := ue_sessions e;
     ue_empty_since := ue_empty_since e; ue_generation := ue_generation e;
     ue_max_sessions := ue_max_sessions e; ue_session_ttl := ue_session_ttl e;
     ue_udp_batch_enabled := ue_udp_batch_enabled e |}.

(** The cleanup task ends. *)
Definition ue_end_cleanup (e : UdpListenerEntry) : UdpListenerEntry :=
  {| ue_port := ue_port e; ue_bind_host := ue_bind_host e; ue_state := ue_state e;
     ue_metrics := ue_metrics e; ue_shutdown := ue_shutdown e; ue_receive := ue_receive e;
     ue_receive_task := ue_receive_task e; ue_cleanup := false;
     ue_cleanup_task := ue_cleanup_task e; ue_buffers := ue_buffers e;
     ue_sessions := ue_sessions e; ue_empty_since := ue_empty_since e;
     ue_generation := ue_generation e; ue_max_sessions := ue_max_sessions e;
     ue_session_ttl := ue_session_ttl e; ue_udp_batch_enabled := ue_udp_batch_enabled e |}.

Definition ux_set_closed (x : bool) (e : UdpSession) : UdpSession :=
  {| ux_entry := ux_entry e; ux_generation := ux_generation e;
     ux_client_addr := ux_client_addr e; ux_upstream := ux_upstream e; ux_closed := x;
     ux_last_seen := ux_last_seen e; ux_reply := ux_reply e; ux_handle := ux_handle e |}.

Definition ux_set_last_seen (x : Z) (e : UdpSession) : UdpSession :=
  {| ux_entry := ux_entry e; ux_generation := ux_generation e;
     ux_client_addr := ux_client_addr e; ux_upstream := ux_upstream e;
     ux_closed := ux_closed e; ux_last_seen := x; ux_reply := ux_reply e; ux_handle := ux_handle e |}.

Definition ux_set_reply (x : option ReplyPhase) (e : UdpSession) : UdpSession :=
  {| ux_entry := ux_entry e; ux_generation := ux_generation e;
     ux_client_addr := ux_client_addr e; ux_upstream := ux_upstream e;
     ux_closed := ux_closed e; ux_last_seen := ux_last_seen e; ux_reply := x; ux_handle := ux_handle e |}.

Definition ux_set_handle (x : bool) (e : UdpSession) : UdpSession :=
  {| ux_entry := ux_entry e; ux_generation := ux_generation e;
     ux_client_addr := ux_client_addr e; ux_upstream := ux_upstream e;
     ux_closed := ux_closed e; ux_last_seen := ux_last_seen e; ux_reply := ux_reply e;
     ux_handle := x |}.

Definition ur_set_metrics (x : Metrics) (e : UdpRuntime) : UdpRuntime :=
  {| ur_config := ur_config e; ur_metrics := x; ur_entries := ur_entries e;
     ur_heap := ur_heap e; ur_sessions := ur_sessions e; ur_next := ur_next e;
     ur_now := ur_now e; ur_binds := ur_binds e; ur_bind_calls := ur_bind_calls e |}.

Definition ur_set_entries (x : gmap string nat) (e : UdpRuntime) : UdpRuntime :=
  {| ur_config := ur_config e; ur_metrics := ur_metrics e; ur_entries := x;
     ur_heap := ur_heap e; ur_sessions := ur_sessions e; ur_next := ur_next e;
     ur_now := ur_now e; ur_binds := ur_binds e; ur_bind_calls := ur_bind_calls e |}.

Definition ur_set_heap (x : gmap nat UdpListenerEntry) (e : UdpRuntime) : UdpRuntime :=
  {| ur_config := ur_config e; ur_metrics := ur_metrics e; ur_entries := ur_entries e;
     ur_heap := x; ur_sessions := ur_sessions e; ur_next := ur_next e; ur_now := ur_now e;
     ur_binds := ur_binds e; ur_bind_calls := ur_bind_calls e |}.

Definition ur_set_sessions (x : gmap nat UdpSession) (e : UdpRuntime) : UdpRuntime :=
  {| ur_config := ur_config e; ur_metrics := ur_metrics e; ur_entries := ur_entries e;
     ur_heap := ur_heap e; ur_sessions := x; ur_next := ur_next e; ur_now := ur_now e;
     ur_binds := ur_binds e; ur_bind_calls := ur_bind_calls e |}.

Definition ur_set_now (x : Z) (e : UdpRuntime) : UdpRuntime :=
  {| ur_config := ur_config e; ur_metrics := ur_metrics e; ur_entries := ur_entries e;
     ur_heap := ur_heap e; ur_sessions := ur_sessions e; ur_next := ur_next e; ur_now := x;
     ur_binds := ur_binds e; ur_bind_calls := ur_bind_calls e |}.

Definition ur_count_bind (e : UdpRuntime) : UdpRuntime :=
  {| ur_config := ur_config e; ur_metrics := ur_metrics e; ur_entries := ur_entries e;
     ur_heap := ur_heap e; ur_sessions := ur_sessions e; ur_next := ur_next e;
     ur_now := ur_now e; ur_binds := ur_binds e; ur_bind_calls := S (ur_bind_calls e) |}.

Definition ur_count_ref (e : UdpRuntime) : UdpRuntime :=
  {| ur_config := ur_config e; ur_metrics := ur_metrics e; ur_entries := ur_entries e;
     ur_heap := ur_heap e; ur_sessions := ur_sessions e; ur_next := S (ur_next e);
     ur_now := ur_now e; ur_binds := ur_binds e; ur_bind_calls := ur_bind_calls e |}.

Definition ur_metric (f : Metrics → Metrics) (s : UdpRuntime) : UdpRuntime :=
  ur_set_metrics (f (ur_metrics s)) s.

Definition ur_add (c : MetricName) (n : Z) : UdpRuntime → UdpRuntime := ur_metric (Counter_add c n).
Definition ur_inc (c : MetricName) : UdpRuntime → UdpRuntime := ur_metric (Counter_inc c).

Definition ur_alter_entry (f : UdpListenerEntry → UdpListenerEntry) (e : nat) (s : UdpRuntime)
    : UdpRuntime :=
  ur_set_heap (alter f e (ur_heap s)) s.

Definition ur_alter_session (f : UdpSession → UdpSession) (x : nat) (s : UdpRuntime) : UdpRuntime :=
  ur_set_sessions (alter f x (ur_sessions s)) s.
