(* ===== verification/Udp.v ===== *)
(** runtime/udp.rs, the code: sessions and their table, the steps of the receive, reply
    and cleanup tasks, and the operations of the facade.

    An event is what one task does between two of its suspension points; an operation of
    the facade and a run of the cleanup are one step each. What sockets answer is part of
    the event. After every step the sessions nothing holds any more are dropped. *)
From stdpp Require Import base gmap strings list.
From Stdlib Require Import ZArith Lia.
From S2P Require Import Prelude RustStd Model Facade Metrics UdpModel.
Open Scope Z_scope.

(** * Sessions and their references *)

(** [SessionGuard::new] and its drop. *)
Definition SessionGuard_new (e : nat) (s : UdpRuntime) : UdpRuntime :=
  ur_alter_entry (λ x, ue_set_metrics
      {| um_active := u64_wrapping_add (um_active (ue_metrics x)) 1;
         um_rx := um_rx (ue_metrics x); um_tx := um_tx (ue_metrics x) |} x) e
    (ur_metric (Gauge_inc udp_active_sessions) (ur_inc udp_session_create_total s)).

Definition SessionGuard_drop (e : nat) (s : UdpRuntime) : UdpRuntime :=
  ur_metric (Gauge_dec udp_active_sessions)
    (ur_alter_entry (λ x, ue_set_metrics
       {| um_active := u64_wrapping_sub (um_active (ue_metrics x)) 1;
          um_rx := um_rx (ue_metrics x); um_tx := um_tx (ue_metrics x) |} x) e s).

(** The sessions the receive task's locals hold. *)
Definition phase_sessions (p : ReceivePhase) : list nat :=
  match p with
  | RxIdle | RxRead _ => []
  | RxLookup p | RxCreate p => omap id (pr_sessions p)
  | RxInsert p x | RxSpawn p x | RxStore p x => x :: omap id (pr_sessions p)
  | RxSend _ sessions _ => omap id sessions
  end.

Definition entry_holds (x : nat) (entry : UdpListenerEntry) : bool :=
  bool_decide (x ∈ (map_to_list (ue_sessions entry)).*2) ||
  match ue_receive entry with Some p => bool_decide (x ∈ phase_sessions p) | None => false end.

(** Whether the [Arc] of a session has a holder: a table, a receive task, or its own
    reply task. *)
Definition held (s : UdpRuntime) (x : nat) (session : UdpSession) : bool :=
  bool_decide (is_Some (ux_reply session)) ||
  existsb (entry_holds x) (map_to_list (ur_heap s)).*2.

Definition drop_session (x : nat) (s : UdpRuntime) : UdpRuntime :=
  match ur_sessions s !! x with
  | Some session =>
      SessionGuard_drop (ux_entry session) (ur_set_sessions (delete x (ur_sessions s)) s)
  | None => s
  end.

(** The drops of what nothing holds, where the caller holds the sessions [kept]. *)
Definition drop_unheld_but (kept : list nat) (s : UdpRuntime) : UdpRuntime :=
  foldr drop_session s
    (filter (λ p, held s p.1 p.2 = false ∧ p.1 ∉ kept) (map_to_list (ur_sessions s))).*1.

Definition drop_unheld : UdpRuntime → UdpRuntime := drop_unheld_but [].

(** * The session table *)
Inductive SessionRemovalReason : Type := Expired | DropReply | RemovalError.

Definition record_removal (reason : SessionRemovalReason) (s : UdpRuntime) : UdpRuntime :=
  match reason with
  | Expired => ur_inc udp_session_expire_total s
  | DropReply => ur_inc udp_reply_drop_total s
  | RemovalError => s
  end.

(** [abort_reply_task]: the handle is taken, if it is there. *)
Definition abort_reply_task (y : UdpSession) : UdpSession :=
  if ux_handle y then ux_set_handle false (ux_set_reply None y) else y.

(** [closed.store(true)] and [abort_reply_task]. *)
Definition close_session (x : nat) (s : UdpRuntime) : UdpRuntime :=
  ur_alter_session (λ y, abort_reply_task (ux_set_closed true y)) x s.

(** [empty_since.get_or_insert_with(Instant::now)] when the table is empty. *)
Definition record_empty_since_if_empty (e : nat) (s : UdpRuntime) : UdpRuntime :=
  ur_alter_entry (λ entry,
    if bool_decide (ue_sessions entry = ∅)
    then ue_set_empty_since (Some (default (ur_now s) (ue_empty_since entry))) entry
    else entry) e s.

Definition remove_session (e : nat) (client_addr : SocketAddr) (expected : nat)
    (reason : SessionRemovalReason) (s : UdpRuntime) : UdpRuntime :=
  match ur_heap s !! e with
  | Some entry =>
      if decide (ue_sessions entry !! client_addr = Some expected) then
        record_empty_since_if_empty e
          (close_session expected
            (record_removal reason
              (ur_alter_entry (ue_set_sessions (delete client_addr (ue_sessions entry))) e s)))
      else s
  | None => s
  end.

Definition close_drained (count_as_reply_drop : bool) (x : nat) (s : UdpRuntime) : UdpRuntime :=
  close_session x (if count_as_reply_drop then record_removal DropReply s else s).

Definition UdpRuntime_close_sessions (e : nat) (count_as_reply_drop : bool) (s : UdpRuntime)
    : UdpRuntime :=
  match ur_heap s !! e with
  | Some entry =>
      ur_alter_entry (ue_set_empty_since (Some (ur_now s))) e
        (foldr (close_drained count_as_reply_drop)
           (ur_alter_entry (ue_set_sessions ∅) e s)
           (map_to_list (ue_sessions entry)).*2)
  | None => s
  end.

Definition UdpRuntime_stop_entry (count_as_reply_drop : bool) (e : nat) (s : UdpRuntime)
    : UdpRuntime :=
  UdpRuntime_close_sessions e count_as_reply_drop
    (ur_alter_entry (λ entry, ue_stop_cleanup (ue_stop_receive (ue_send_shutdown entry))) e s).

Definition UdpRuntime_shutdown_all (s : UdpRuntime) : UdpRuntime :=
  drop_unheld
    (foldr (UdpRuntime_stop_entry false) (ur_set_entries ∅ s) (map_to_list (ur_entries s)).*2).

(** * Dropping the runtime: only the locks that are free are taken. *)
Record FreeLocks : Type := {
  fl_entries : bool;
  fl_receive_task : nat → bool;
  fl_cleanup_task : nat → bool;
  fl_sessions : nat → bool;
  fl_reply_task : nat → bool;
}.

Definition close_best_effort (free : FreeLocks) (x : nat) (s : UdpRuntime) : UdpRuntime :=
  ur_alter_session (λ y, if fl_reply_task free x then abort_reply_task (ux_set_closed true y)
                         else ux_set_closed true y) x s.

Definition stop_entry_best_effort (free : FreeLocks) (e : nat) (s : UdpRuntime) : UdpRuntime :=
  let s1 := ur_alter_entry (λ entry,
      let entry1 := ue_send_shutdown entry in
      let entry2 := if fl_receive_task free e then ue_stop_receive entry1 else entry1 in
      if fl_cleanup_task free e then ue_stop_cleanup entry2 else entry2) e s in
  match ur_heap s !! e with
  | Some entry =>
      if fl_sessions free e then
        foldr (close_best_effort free) (ur_alter_entry (ue_set_sessions ∅) e s1)
          (map_to_list (ue_sessions entry)).*2
      else s1
  | None => s1
  end.

Definition shutdown_all_best_effort (free : FreeLocks) (s : UdpRuntime) : UdpRuntime :=
  if fl_entries free then
    drop_unheld (foldr (stop_entry_best_effort free) (ur_set_entries ∅ s)
                   (map_to_list (ur_entries s)).*2)
  else s.

(** * The cleanup task *)
Definition expire_idle_session (e : nat) (session_ttl now : Z) (row : SocketAddr * nat)
    (s : UdpRuntime) : UdpRuntime :=
  match ur_sessions s !! row.2 with
  | Some session =>
      if session_ttl <? now - ux_last_seen session
      then remove_session e row.1 row.2 Expired s else s
  | None => s
  end.

Definition expire_idle_sessions (e : nat) (session_ttl : Z) (s : UdpRuntime) : UdpRuntime :=
  match ur_heap s !! e with
  | Some entry =>
      foldr (expire_idle_session e session_ttl (ur_now s)) s (map_to_list (ue_sessions entry))
  | None => s
  end.

(** The table's memory is released; its capacity is not modelled. *)
Definition compact_empty_sessions_after_idle (e : nat) (idle_grace : Z) (s : UdpRuntime)
    : UdpRuntime :=
  ur_alter_entry (λ entry,
    match ue_empty_since entry with
    | Some empty_since =>
        if ur_now s - empty_since <? idle_grace then entry else ue_set_empty_since None entry
    | None => entry
    end) e s.

Definition cleanup_tick (e : nat) (session_ttl : Z) (s : UdpRuntime) : UdpRuntime :=
  compact_empty_sessions_after_idle e session_ttl (expire_idle_sessions e session_ttl s).

(** * The receive task *)
Definition set_receive (p : ReceivePhase) (e : nat) (s : UdpRuntime) : UdpRuntime :=
  ur_alter_entry (ue_set_receive (Some p)) e s.

(** The batch is done: the buffers may grow, and the task receives again. *)
Definition batch_done (count : nat) (e : nat) (s : UdpRuntime) : UdpRuntime :=
  set_receive RxIdle e
    (ur_alter_entry (λ entry, ue_set_buffers (grow_if_saturated (ue_buffers entry) count) entry) e s).

(** The answer for the next datagram. *)
Definition push_session (p : Preparation) (x : option nat) : Preparation :=
  {| pr_batch := pr_batch p; pr_host := pr_host p; pr_target_port := pr_target_port p;
     pr_generation := pr_generation p; pr_sessions := pr_sessions p ++ [x] |}.

Definition sum_lengths (batch : list UdpDatagram) : Z := foldr (λ d n, dg_length d + n) 0 batch.

(** The counters of a reception. *)
Definition received (e : nat) (entry : UdpListenerEntry) (batch : list UdpDatagram) (s : UdpRuntime)
    : UdpRuntime :=
  let count := Z.of_nat (length batch) in
  let s1 := if ue_udp_batch_enabled entry
            then ur_add udp_batch_messages_total count (ur_inc udp_batch_calls_total s) else s in
  set_receive (RxRead batch) e
    (ur_alter_entry (λ x, ue_set_metrics
       {| um_active := um_active (ue_metrics x);
          um_rx := u64_wrapping_add (um_rx (ue_metrics x)) (sum_lengths batch);
          um_tx := um_tx (ue_metrics x) |} x) e
      (ur_add udp_bytes_in_total (sum_lengths batch) (ur_add udp_packets_in_total count s1))).

(** [prepare_datagram_batch] up to its first datagram. *)
Definition prepare_begin (e : nat) (entry : UdpListenerEntry) (batch : list UdpDatagram)
    (s : UdpRuntime) : UdpRuntime :=
  match us_effective_host (ue_state entry), us_effective_target_port (ue_state entry) with
  | Some host, Some target_port =>
      set_receive (RxLookup {| pr_batch := batch; pr_host := host; pr_target_port := target_port;
                               pr_generation := us_generation (ue_state entry);
                               pr_sessions := [] |}) e s
  | _, _ =>
      batch_done (length batch) e
        (ur_add rejected_no_host_total (Z.of_nat (length batch)) s)
  end.

(** The session of the first earlier datagram of the same peer. *)
Definition previous_session (batch : list UdpDatagram) (sessions : list (option nat))
    (peer : SocketAddr) : option nat :=
  p ← list_find (λ d, dg_peer d = peer) (take (length sessions) batch);
  mjoin (sessions !! p.1).

(** [session_for] up to the release of the table: a session, a refusal, or go on. *)
Inductive Lookup : Type := Found (x : nat) | Refused | MustCreate.

Definition session_lookup (entry : UdpListenerEntry) (sessions : gmap nat UdpSession)
    (client_addr : SocketAddr) (generation : Z) : Lookup :=
  match x ← ue_sessions entry !! client_addr; session ← sessions !! x;
        if ux_generation session =? generation then Some x else None with
  | Some x => Found x
  | None =>
      if ue_max_sessions entry <=? Z.of_nat (size (ue_sessions entry)) then Refused else MustCreate
  end.

(** The sessions of a batch that are still good, from index [length done] on; the others
    are closed. *)
Fixpoint prepare_end (generation now : Z) (seen : list (option nat)) (rest : list (option nat))
    (s : UdpRuntime) : list (option nat) * UdpRuntime :=
  match rest with
  | [] => (seen, s)
  | None :: rest' => prepare_end generation now (seen ++ [None]) rest' s
  | Some x :: rest' =>
      match ur_sessions s !! x with
      | Some session =>
          if negb (ux_generation session =? generation) || ux_closed session then
            prepare_end generation now (seen ++ [None]) rest'
              (ur_inc udp_reply_stale_total (ur_alter_session (ux_set_closed true) x s))
          else
            prepare_end generation now (seen ++ [Some x]) rest'
              (if bool_decide (Some x ∈ seen) then s else ur_alter_session (ux_set_last_seen now) x s)
      | None => prepare_end generation now (seen ++ [None]) rest' s
      end
  end.

(** The indexes of a session, ascending, from [first] on. *)
Definition group_indexes (sessions : list (option nat)) (first : nat) (x : nat) : list nat :=
  filter (λ i, sessions !! i = Some (Some x)) (seq first (length sessions - first)).

(** The loop over [first]: a session whose index was grouped before is passed over. *)
Fixpoint group_loop (sessions : list (option nat)) (grouped : list nat) (firsts : list nat)
    : list (nat * list nat) :=
  match firsts with
  | [] => []
  | first :: firsts' =>
      match mjoin (sessions !! first) with
      | Some x =>
          if bool_decide (first ∈ grouped) then group_loop sessions grouped firsts'
          else
            let indexes := group_indexes sessions first x in
            (x, indexes) :: group_loop sessions (grouped ++ indexes) firsts'
      | None => group_loop sessions grouped firsts'
      end
  end.

Definition group_batch (sessions : list (option nat)) : list (nat * list nat) :=
  group_loop sessions [] (seq 0 (length sessions)).

(** Go on with the groups that are left. *)
Definition send_groups (batch : list UdpDatagram) (sessions : list (option nat))
    (groups : list (nat * list nat)) (e : nat) (s : UdpRuntime) : UdpRuntime :=
  match groups with
  | [] => batch_done (length batch) e s
  | _ => set_receive (RxSend batch sessions groups) e s
  end.

(** The end of [prepare_datagram_batch], when every datagram had its turn. *)
Definition prepare_finish (e : nat) (entry : UdpListenerEntry) (p : Preparation) (s : UdpRuntime)
    : UdpRuntime :=
  if negb (ue_generation entry =? pr_generation p) then
    let stale := omap id (pr_sessions p) in
    batch_done (length (pr_batch p)) e
      (ur_add udp_reply_stale_total (Z.of_nat (length stale))
        (foldr (ur_alter_session (ux_set_closed true)) s stale))
  else
    let '(sessions, s1) := prepare_end (pr_generation p) (ur_now s) [] (pr_sessions p) s in
    send_groups (pr_batch p) sessions (group_batch sessions) e s1.

(** The next datagram's turn. *)
Definition prepare_next (e : nat) (entry : UdpListenerEntry) (p : Preparation) (s : UdpRuntime)
    : UdpRuntime :=
  match pr_batch p !! length (pr_sessions p) with
  | None => prepare_finish e entry p s
  | Some d =>
      match previous_session (pr_batch p) (pr_sessions p) (dg_peer d) with
      | Some x => set_receive (RxLookup (push_session p (Some x))) e s
      | None =>
          match session_lookup entry (ur_sessions s) (dg_peer d) (pr_generation p) with
          | Found x => set_receive (RxLookup (push_session p (Some x))) e s
          | Refused =>
              set_receive (RxLookup (push_session p None)) e (ur_inc udp_drop_total s)
          | MustCreate => set_receive (RxCreate p) e s
          end
      end
  end.

(** [create_session]; [connected] is whether the upstream socket was bound and connected. *)
Definition create_session (e : nat) (p : Preparation) (client_addr : SocketAddr) (connected : bool)
    (s : UdpRuntime) : UdpRuntime :=
  if connected then
    let x := ur_next s in
    let session := {| ux_entry := e; ux_generation := pr_generation p; ux_client_addr := client_addr;
                      ux_upstream := (pr_host p, pr_target_port p); ux_closed := false;
                      ux_last_seen := ur_now s; ux_reply := None; ux_handle := false |} in
    set_receive (RxInsert p x) e
      (SessionGuard_new e (ur_count_ref (ur_set_sessions (<[x := session]> (ur_sessions s)) s)))
  else
    set_receive (RxLookup (push_session p None)) e
      (ur_inc udp_drop_total (ur_inc udp_send_errors_total s)).

(** The second half of [session_for], with the table locked again. *)
Definition session_insert (e : nat) (entry : UdpListenerEntry) (p : Preparation) (x : nat)
    (client_addr : SocketAddr) (s : UdpRuntime) : UdpRuntime :=
  let existing := ue_sessions entry !! client_addr in
  match y ← existing; session ← ur_sessions s !! y;
        if ux_generation session =? pr_generation p then Some y else None with
  | Some y => set_receive (RxLookup (push_session p (Some y))) e s
  | None =>
      if negb (ue_generation entry =? pr_generation p) then
        set_receive (RxLookup (push_session p None)) e (ur_inc udp_reply_stale_total s)
      else
        let s1 := set_receive (RxSpawn p x) e
                    (ur_alter_entry (λ y, ue_set_sessions (<[client_addr := x]> (ue_sessions y))
                                            (ue_set_empty_since None y)) e s) in
        match existing with
        | Some replaced => close_session replaced (ur_inc udp_reply_drop_total s1)
        | None => s1
        end
  end.

(** [spawn_reply_loop] up to the spawned task; without one the session is the
    datagram's at once. *)
Definition session_spawn (e : nat) (p : Preparation) (x : nat) (session : UdpSession) (s : UdpRuntime)
    : UdpRuntime :=
  if ux_closed session then set_receive (RxLookup (push_session p (Some x))) e s
  else set_receive (RxStore p x) e (ur_alter_session (ux_set_reply (Some ReplyTop)) x s).

(** The task's handle is stored, and the new session is the datagram's. *)
Definition session_store (e : nat) (p : Preparation) (x : nat) (s : UdpRuntime) : UdpRuntime :=
  set_receive (RxLookup (push_session p (Some x))) e (ur_alter_session (ux_set_handle true) x s).

(** One group sent; [Err sent] is how many messages went out before the error. *)
Definition group_sent (e : nat) (batch : list UdpDatagram) (sessions : list (option nat))
    (x : nat) (indexes : list nat) (groups : list (nat * list nat)) (sent : result unit nat)
    (s : UdpRuntime) : UdpRuntime :=
  let s1 := match sent, ur_sessions s !! x with
            | Err sent, Some session =>
                remove_session e (ux_client_addr session) x RemovalError
                  (ur_add udp_drop_total (Z.of_nat (length indexes) - Z.of_nat sent)
                    (ur_inc udp_send_errors_total s))
            | _, _ => s
            end in
  send_groups batch sessions groups e s1.

(** * The reply task *)

(** Whether the session is the current one of its client. *)
Definition session_current (s : UdpRuntime) (x : nat) (session : UdpSession) : bool :=
  match ur_heap s !! ux_entry session with
  | Some entry =>
      bool_decide (ue_sessions entry !! ux_client_addr session = Some x) &&
      (ux_generation session =? ue_generation entry)
  | None => false
  end.

Definition set_reply (r : option ReplyPhase) (x : nat) (s : UdpRuntime) : UdpRuntime :=
  ur_alter_session (ux_set_reply r) x s.

(** The loop's head. *)
Definition reply_top (x : nat) (session : UdpSession) (s : UdpRuntime) : UdpRuntime :=
  set_reply (if ux_closed session then None else Some ReplyReceive) x s.

(** [upstream.recv], of [n] bytes when it succeeds. *)
Definition reply_received (x : nat) (session : UdpSession) (r : option Z) (s : UdpRuntime)
    : UdpRuntime :=
  match r with
  | Some n =>
      if session_current s x session then set_reply (Some (ReplySend n)) x s
      else set_reply None x (ur_inc udp_reply_stale_total (ur_alter_session (ux_set_closed true) x s))
  | None =>
      set_reply None x
        (remove_session (ux_entry session) (ux_client_addr session) x RemovalError
          (ur_inc udp_recv_errors_total s))
  end.

(** [listener_socket.send_to] to the session's client, of [sent] bytes when it succeeds. *)
Definition reply_sent (x : nat) (session : UdpSession) (r : option Z) (s : UdpRuntime)
    : UdpRuntime :=
  match r with
  | Some sent =>
      reply_top x session
        (ur_alter_session (ux_set_last_seen (ur_now s)) x
          (ur_alter_entry (λ y, ue_set_metrics
              {| um_active := um_active (ue_metrics y); um_rx := um_rx (ue_metrics y);
                 um_tx := u64_wrapping_add (um_tx (ue_metrics y)) sent |} y) (ux_entry session)
            (ur_add udp_bytes_out_total sent
              (ur_inc udp_packets_out_total (ur_inc udp_reply_primary_total s)))))
  | None =>
      set_reply None x
        (remove_session (ux_entry session) (ux_client_addr session) x RemovalError
          (ur_inc udp_reply_drop_total (ur_inc udp_send_errors_total s)))
  end.

(** * Events *)
Inductive UdpEvent : Type :=
| UEvReceived (e : nat) (batch : list UdpDatagram)      (* of what [recv_batch] returns *)
| UEvReceiveError (e : nat)
| UEvReadState (e : nat)
| UEvNext (e : nat)
| UEvCreated (e : nat) (connected : bool)
| UEvInsert (e : nat)
| UEvSpawn (e : nat)
| UEvStore (e : nat)
| UEvGroupSent (e : nat) (sent : result unit nat)
| UEvReceiveShutdown (e : nat)
| UEvCleanup (e : nat)
| UEvCleanupShutdown (e : nat)
| UEvReplyTop (x : nat)
| UEvReplyReceived (x : nat) (r : option Z)
| UEvReplySent (x : nat) (r : option Z)
| UEvTime (elapsed : Z).

(** The receive task of [e] is in phase [p]. *)
Definition receiving (e : nat) (s : UdpRuntime) : option (ReceivePhase * UdpListenerEntry) :=
  entry ← ur_heap s !! e; p ← ue_receive entry; Some (p, entry).

(** The reply task of [x] is in phase [r]. *)
Definition replying (x : nat) (s : UdpRuntime) : option (ReplyPhase * UdpSession) :=
  session ← ur_sessions s !! x; r ← ux_reply session; Some (r, session).

(** The datagram whose turn it is. *)
Definition next_peer (p : Preparation) : option SocketAddr :=
  dg_peer <$> pr_batch p !! length (pr_sessions p).

(** One step of a task; [None] when it is not at that point. *)
Definition udp_task_step (ev : UdpEvent) (s : UdpRuntime) : option UdpRuntime :=
  match ev with
  | UEvReceived e batch =>
      match receiving e s with
      | Some (RxIdle, entry) =>
          if bool_decide (1 <= length batch <= (if ue_udp_batch_enabled entry then ue_buffers entry else 1))%nat
          then Some (received e entry batch s) else None
      | _ => None
      end
  | UEvReceiveError e =>
      match receiving e s with
      | Some (RxIdle, _) =>
          Some (ur_alter_entry (ue_set_receive None) e (ur_inc udp_recv_errors_total s))
      | _ => None
      end
  | UEvReadState e =>
      match receiving e s with
      | Some (RxRead batch, entry) => Some (prepare_begin e entry batch s)
      | _ => None
      end
  | UEvNext e =>
      match receiving e s with
      | Some (RxLookup p, entry) => Some (prepare_next e entry p s)
      | _ => None
      end
  | UEvCreated e connected =>
      match receiving e s with
      | Some (RxCreate p, _) =>
          client_addr ← next_peer p; Some (create_session e p client_addr connected s)
      | _ => None
      end
  | UEvInsert e =>
      match receiving e s with
      | Some (RxInsert p x, entry) =>
          client_addr ← next_peer p; Some (session_insert e entry p x client_addr s)
      | _ => None
      end
  | UEvSpawn e =>
      match receiving e s with
      | Some (RxSpawn p x, _) => session ← ur_sessions s !! x; Some (session_spawn e p x session s)
      | _ => None
      end
  | UEvStore e =>
      match receiving e s with
      | Some (RxStore p x, _) => Some (session_store e p x s)
      | _ => None
      end
  | UEvGroupSent e sent =>
      match receiving e s with
      | Some (RxSend batch sessions ((x, indexes) :: groups), _) =>
          match sent with
          | Err n => if bool_decide (n < length indexes)%nat
                     then Some (group_sent e batch sessions x indexes groups sent s) else None
          | Ok _ => Some (group_sent e batch sessions x indexes groups sent s)
          end
      | _ => None
      end
  | UEvReceiveShutdown e =>
      match receiving e s with
      | Some (RxIdle, entry) =>
          if ue_shutdown entry then Some (ur_alter_entry (ue_set_receive None) e s) else None
      | _ => None
      end
  | UEvCleanup e =>
      entry ← ur_heap s !! e;
      if ue_cleanup entry then Some (cleanup_tick e (ue_session_ttl entry) s) else None
  | UEvCleanupShutdown e =>
      entry ← ur_heap s !! e;
      if ue_cleanup entry && ue_shutdown entry then Some (ur_alter_entry ue_end_cleanup e s) else None
  | UEvReplyTop x =>
      match replying x s with
      | Some (ReplyTop, session) => Some (reply_top x session s)
      | _ => None
      end
  | UEvReplyReceived x r =>
      match replying x s with
      | Some (ReplyReceive, session) => Some (reply_received x session r s)
      | _ => None
      end
  | UEvReplySent x r =>
      match replying x s with
      | Some (ReplySend _, session) => Some (reply_sent x session r s)
      | _ => None
      end
  | UEvTime elapsed =>
      if 0 <=? elapsed then Some (ur_set_now (ur_now s + elapsed) s) else None
  end.

Definition udp_event (ev : UdpEvent) (s : UdpRuntime) : option UdpRuntime :=
  drop_unheld <$> udp_task_step ev s.

(** * The facade *)
Definition UdpRuntime_entry_state_for (a : Allocation) : UdpEntryState :=
  match al_host a, al_target_port a with
  | Some host, Some target_port =>
      {| us_effective_host := Some host; us_effective_target_port := Some target_port;
         us_runtime_status := Active; us_error_kind := None; us_last_error := None;
         us_generation := 0 |}
  | _, _ =>
      {| us_effective_host := None; us_effective_target_port := None;
         us_runtime_status := RejectingNoHost; us_error_kind := None; us_last_error := None;
         us_generation := 0 |}
  end.

Definition us_set_generation (x : Z) (st : UdpEntryState) : UdpEntryState :=
  {| us_effective_host := us_effective_host st;
     us_effective_target_port := us_effective_target_port st;
     us_runtime_status := us_runtime_status st; us_error_kind := us_error_kind st;
     us_last_error := us_last_error st; us_generation := x |}.

Definition UdpRuntime_bind_addr (c : UdpRuntimeConfig) (port : Z)
    : result (IpAddr * Z) RuntimeError :=
  let? host := ok_or RuntimeCreateFailed (IpAddr_from_str (uc_bind_host c)) in
  Ok (host, port).

(** A new listener, its receive and cleanup tasks started. *)
Definition udp_new_entry (c : UdpRuntimeConfig) (a : Allocation) : UdpListenerEntry :=
  {| ue_port := al_port a; ue_bind_host := uc_bind_host c;
     ue_state := UdpRuntime_entry_state_for a; ue_metrics := UdpListenerMetrics_default;
     ue_shutdown := false; ue_receive := Some RxIdle; ue_receive_task := true;
     ue_cleanup := true; ue_cleanup_task := true; ue_buffers := UdpReceiveBatch_new;
     ue_sessions := ∅; ue_empty_since := None; ue_generation := 0;
     ue_max_sessions := uc_max_sessions c; ue_session_ttl := uc_session_ttl c;
     ue_udp_batch_enabled := uc_udp_batch_enabled c |}.

Abbreviation UdpM := (M UdpRuntime RuntimeError).

Definition udp_bind_socket (a : Allocation) (restore : bool) : UdpM nat := λ s,
  let s1 := ur_count_bind s in
  if ur_binds s (ur_bind_calls s) (al_port a) then
    let e := ur_next s in
    (Ok e, ur_count_ref (ur_set_heap (<[e := udp_new_entry (ur_config s) a]> (ur_heap s1)) s1))
  else if restore then
    (Err RuntimeRestoreFailed, ur_inc restore_failures_total (ur_inc bind_fail_total s1))
  else (Err RuntimeCreateFailed, ur_inc bind_fail_total s1).

Definition UdpRuntime_bind_entry (a : Allocation) (restore : bool) : UdpM nat :=
  let! config := gets ur_config in
  let! _addr := of_result (map_err (λ _, if restore then RuntimeRestoreFailed else RuntimeCreateFailed)
                             (UdpRuntime_bind_addr config (al_port a))) in
  udp_bind_socket a restore.

Definition UdpRuntime_initialize (_timeout_ms : Z) : UdpM unit := ret tt.

Definition udp_track (a : Allocation) (restore : bool) : UdpM unit :=
  if negb (bool_decide (al_protocol a = Udp)) then ret tt
  else
    let! entry := UdpRuntime_bind_entry a restore in
    modify (λ s, ur_set_entries (<[al_id a := entry]> (ur_entries s)) s);;
    modify (ur_inc runtime_apply_total).

Definition UdpRuntime_create (a : Allocation) (_timeout_ms : Z) : UdpM unit := udp_track a false.
Definition UdpRuntime_restore (a : Allocation) (_timeout_ms : Z) : UdpM unit := udp_track a true.

Definition UdpRuntime_update (a : Allocation) (_timeout_ms : Z) : UdpM unit :=
  let! found := gets (λ s, ur_entries s !! al_id a) in
  let! entry := of_result (ok_or RuntimeUpdateFailed found) in
  let new_state := UdpRuntime_entry_state_for a in
  (if bool_decide (us_runtime_status new_state = RejectingNoHost)
   then modify (ur_inc rejected_no_host_total) else ret tt);;
  modify (ur_alter_entry (λ x, ue_set_state
            (us_set_generation (u64_saturating_add (us_generation (ue_state x)) 1) new_state) x) entry);;
  modify (λ s, drop_unheld (UdpRuntime_close_sessions entry true s));;
  modify (ur_inc runtime_apply_total).

Definition UdpRuntime_delete (id : string) (_timeout_ms : Z) : UdpM unit :=
  let! found := gets (λ s, ur_entries s !! id) in
  match found with
  | None => ret tt
  | Some entry =>
      modify (λ s, ur_set_entries (delete id (ur_entries s)) s);;
      modify (λ s, drop_unheld (UdpRuntime_stop_entry true entry s))
  end.

Definition udp_observed (x : UdpEntryState) : ObservedState :=
  {| os_effective_target_port := us_effective_target_port x;
     os_effective_host := us_effective_host x; os_runtime_status := us_runtime_status x;
     os_error_kind := us_error_kind x; os_last_error := us_last_error x |}.

Definition UdpRuntime_snapshot (id : string) : UdpM (option ObservedState) :=
  gets (λ s, e ← ur_entries s !! id; entry ← ur_heap s !! e; Some (udp_observed (ue_state entry))).

Definition udp_listener_row (entry : UdpListenerEntry) : ListenerMetricsSnapshot :=
  {| lm_port := ue_port entry; lm_protocol := Udp;
     lm_connections_current := um_active (ue_metrics entry);
     lm_rx_bytes_total := um_rx (ue_metrics entry);
     lm_tx_bytes_total := um_tx (ue_metrics entry) |}.

(** The rows in the order of the map's iteration. *)
Definition UdpRuntime_snapshot_listener_metrics : UdpM (list ListenerMetricsSnapshot) :=
  gets (λ s, udp_listener_row <$> omap (λ e, ur_heap s !! e) (map_to_list (ur_entries s)).*2).

#[export] Instance UdpRuntime_facade : RuntimeFacade UdpRuntime := {|
  rt_initialize := UdpRuntime_initialize;
  rt_create := UdpRuntime_create;
  rt_update := UdpRuntime_update;
  rt_delete := UdpRuntime_delete;
  rt_restore := UdpRuntime_restore;
  rt_snapshot := UdpRuntime_snapshot;
  rt_snapshot_listener_metrics := UdpRuntime_snapshot_listener_metrics;
|}.
