(* ===== verification/UdpSpec.v ===== *)
(** The invariant of the UDP relay (runtime/udp.rs): what the session tables, the locals
    of the receive tasks and the reply tasks hold, under any interleaving of facade
    operations and task events. *)
From stdpp Require Import base gmap strings list relations fin_maps.
From Stdlib Require Import ZArith Lia.
From S2P Require Import Prelude RustStd Model Facade Metrics UdpModel Udp.
Open Scope Z_scope.

(** * Steps *)
Inductive UdpRequest : Type :=
| UdpCreate (a : Allocation)
| UdpUpdate (a : Allocation)
| UdpDelete (id : string)
| UdpRestore (a : Allocation)
| UdpShutdown.

Definition run_udp (q : UdpRequest) (s : UdpRuntime) : UdpRuntime :=
  match q with
  | UdpCreate a => (UdpRuntime_create a 0 s).2
  | UdpUpdate a => (UdpRuntime_update a 0 s).2
  | UdpDelete id => (UdpRuntime_delete id 0 s).2
  | UdpRestore a => (UdpRuntime_restore a 0 s).2
  | UdpShutdown => UdpRuntime_shutdown_all s
  end.

Inductive udp_step : UdpRuntime → UdpRuntime → Prop :=
| udp_step_request q s : udp_step s (run_udp q s)
| udp_step_event ev s s' : udp_event ev s = Some s' → udp_step s s'.

Definition udp_initial (s : UdpRuntime) : Prop :=
  ∃ config metrics now binds, s = UdpRuntime_new config metrics now binds.

(** * The invariant *)

(** What an update sets, until the generation is exhausted. *)
Definition entry_target (entry : UdpListenerEntry) : option (string * Z) :=
  match us_effective_host (ue_state entry), us_effective_target_port (ue_state entry) with
  | Some host, Some port => Some (host, port)
  | _, _ => None
  end.

(** [x] is a session of the listener [e] for the client [c], of generation [g], connected
    to [u] if [g] is the listener's generation [now]. *)
Definition knows (S : gmap nat UdpSession) (e : nat) (now : Z) (c : SocketAddr) (g : Z)
    (u : string * Z) (x : nat) : Prop :=
  ∃ y, S !! x = Some y ∧ ux_entry y = e ∧ ux_client_addr y = c ∧ ux_generation y = g ∧
       (g = now → g < u64_max → ux_upstream y = u).

Definition is_open (S : gmap nat UdpSession) (x : nat) : Prop :=
  ∃ y, S !! x = Some y ∧ ux_closed y = false.

(** What the invariant makes allowance for while an operation of the facade is under way:
    the listener whose state was set and whose table was not drained yet, and the sessions
    that were drained and not closed yet. *)
Record Window : Type := { wn_stale : option nat; wn_drained : list nat }.

Definition shut : Window := {| wn_stale := None; wn_drained := [] |}.

(** A row of a generation that has passed is there only in the window. *)
Definition table_ok (w : Window) (S : gmap nat UdpSession) (e : nat) (entry : UdpListenerEntry) : Prop :=
  ∀ c x, ue_sessions entry !! c = Some x →
    x ∉ wn_drained w ∧
    ∃ y, S !! x = Some y ∧ ux_entry y = e ∧ ux_client_addr y = c ∧
         ux_generation y ≤ ue_generation entry ∧
         (wn_stale w ≠ Some e → ux_generation y = ue_generation entry) ∧
         (ux_generation y = ue_generation entry → ux_closed y = false ∧
            (ue_generation entry < u64_max → entry_target entry = Some (ux_upstream y))).

(** Another session fits into the table. *)
Definition room (entry : UdpListenerEntry) : Prop :=
  Z.of_nat (size (ue_sessions entry)) < ue_max_sessions entry.

Definition prep_target (p : Preparation) : string * Z := (pr_host p, pr_target_port p).

(** The sessions of a batch belong to the peers of its datagrams. *)
Definition peers_ok (S : gmap nat UdpSession) (e : nat) (now g : Z) (u : string * Z)
    (batch : list UdpDatagram) (sessions : list (option nat)) : Prop :=
  ∀ i d x, batch !! i = Some d → sessions !! i = Some (Some x) → knows S e now (dg_peer d) g u x.

Definition prep_ok (S : gmap nat UdpSession) (e : nat) (entry : UdpListenerEntry) (p : Preparation)
    : Prop :=
  pr_generation p ≤ ue_generation entry ∧
  (pr_generation p = ue_generation entry → pr_generation p < u64_max →
     entry_target entry = Some (prep_target p)) ∧
  (length (pr_sessions p) ≤ length (pr_batch p))%nat ∧
  peers_ok S e (ue_generation entry) (pr_generation p) (prep_target p) (pr_batch p) (pr_sessions p).

Definition phase_ok (w : Window) (S : gmap nat UdpSession) (e : nat) (entry : UdpListenerEntry)
    (ph : ReceivePhase) : Prop :=
  match ph with
  | RxIdle | RxRead _ => True
  | RxLookup p => prep_ok S e entry p
  | RxCreate p => prep_ok S e entry p ∧ is_Some (next_peer p) ∧ room entry
  | RxInsert p x =>
      prep_ok S e entry p ∧ room entry ∧ is_open S x ∧
      ((∀ c, ue_sessions entry !! c ≠ Some x) ∧ x ∉ wn_drained w) ∧
      ∃ c, next_peer p = Some c ∧ knows S e (ue_generation entry) c (pr_generation p) (prep_target p) x
  | RxSpawn p x =>
      prep_ok S e entry p ∧
      ∃ c, next_peer p = Some c ∧ knows S e (ue_generation entry) c (pr_generation p) (prep_target p) x ∧
           (is_open S x → ue_sessions entry !! c = Some x ∨ x ∈ wn_drained w)
  | RxStore p x =>
      prep_ok S e entry p ∧
      ∃ c, next_peer p = Some c ∧ knows S e (ue_generation entry) c (pr_generation p) (prep_target p) x
  | RxSend batch sessions groups =>
      (length sessions ≤ length batch)%nat ∧
      (∃ g u, g ≤ ue_generation entry ∧
         (g = ue_generation entry → g < u64_max → entry_target entry = Some u) ∧
         peers_ok S e (ue_generation entry) g u batch sessions) ∧
      (∀ x idx, (x, idx) ∈ groups → ∀ i, i ∈ idx → sessions !! i = Some (Some x))
  end.

Definition entry_ok (w : Window) (S : gmap nat UdpSession) (e : nat) (entry : UdpListenerEntry) : Prop :=
  us_generation (ue_state entry) = ue_generation entry ∧ 0 ≤ ue_generation entry ≤ u64_max ∧
  (ue_sessions entry = ∅ ∨ Z.of_nat (size (ue_sessions entry)) ≤ ue_max_sessions entry) ∧
  table_ok w S e entry ∧
  ∀ ph, ue_receive entry = Some ph → phase_ok w S e entry ph.

(** Its reply task runs and the session is open. (The task of a closed session that is already
    sending still sends that one reply: [reply_sent].) *)
Definition live (y : UdpSession) : Prop := is_Some (ux_reply y) ∧ ux_closed y = false.

(** The reply task of an open session runs only for the one in its client's row, or one that
    is about to be closed. *)
Definition session_ok (w : Window) (H : gmap nat UdpListenerEntry) (x : nat) (y : UdpSession) : Prop :=
  ∃ entry, H !! ux_entry y = Some entry ∧ ux_generation y ≤ ue_generation entry ∧
    (live y → ue_sessions entry !! ux_client_addr y = Some x ∨ x ∈ wn_drained w).

Definition inv_of (w : Window) (E : gmap string nat) (H : gmap nat UdpListenerEntry)
    (S : gmap nat UdpSession) (n : nat) : Prop :=
  (∀ id e, E !! id = Some e → is_Some (H !! e)) ∧
  (∀ e entry, H !! e = Some entry → (e < n)%nat ∧ entry_ok w S e entry) ∧
  (∀ x y, S !! x = Some y → (x < n)%nat ∧ session_ok w H x y) ∧
  (∀ x, x ∈ wn_drained w → (x < n)%nat).

Definition inv_within (w : Window) (s : UdpRuntime) : Prop :=
  inv_of w (ur_entries s) (ur_heap s) (ur_sessions s) (ur_next s).

(** Between the operations. *)
Abbreviation udp_inv := (inv_within shut).

(** * Frames *)

(** The identity of a session never changes. *)
Definition ident (y : UdpSession) : nat * SocketAddr * Z * (string * Z) :=
  (ux_entry y, ux_client_addr y, ux_generation y, ux_upstream y).

(** What [entry] needs of a change of the sessions: those it holds stay, closed ones stay
    closed, and those in its table or about to go there stay open. *)
Definition opens (entry : UdpListenerEntry) (x : nat) (y : UdpSession) : Prop :=
  ((∃ c, ue_sessions entry !! c = Some x) ∧ ux_generation y = ue_generation entry) ∨
  ∃ p, ue_receive entry = Some (RxInsert p x).

Definition local (entry : UdpListenerEntry) (x : nat) : Prop :=
  ∃ ph, ue_receive entry = Some ph ∧ x ∈ phase_sessions ph.

Definition holds (entry : UdpListenerEntry) (x : nat) : Prop :=
  (∃ c, ue_sessions entry !! c = Some x) ∨ local entry x.

Definition frame (entry : UdpListenerEntry) (S S' : gmap nat UdpSession) : Prop :=
  ∀ x y, holds entry x → S !! x = Some y →
    ∃ y', S' !! x = Some y' ∧ ident y' = ident y ∧
      (ux_closed y = true → ux_closed y' = true) ∧ (opens entry x y → ux_closed y' = ux_closed y).

Lemma ident_same y y' :
  ident y' = ident y →
  ux_entry y' = ux_entry y ∧ ux_client_addr y' = ux_client_addr y ∧
  ux_generation y' = ux_generation y ∧ ux_upstream y' = ux_upstream y.
Proof. unfold ident. by intros [= -> -> -> ->]. Qed.

Lemma knows_ident S S' e now c g u x y y' :
  S !! x = Some y → S' !! x = Some y' → ident y' = ident y → knows S e now c g u x → knows S' e now c g u x.
Proof.
  intros Hy Hy' Hid (y0 & Hy0 & He & Hc & Hg & Hu). assert (y0 = y) as -> by congruence.
  unfold ident in Hid. injection Hid as Hide Hidc Hidg Hidu. exists y'.
  rewrite Hide, Hidc, Hidg, Hidu. auto.
Qed.

Lemma knows_frame entry S S' e now c g u x :
  frame entry S S' → holds entry x → knows S e now c g u x → knows S' e now c g u x.
Proof.
  intros Hf Hh Hk. destruct Hk as (y & Hy & Hk). destruct (Hf _ _ Hh Hy) as (y' & Hy' & Hid & _).
  eapply knows_ident; [exact Hy|exact Hy'|exact Hid|]. by exists y.
Qed.

Lemma open_frame entry S S' p x :
  frame entry S S' → ue_receive entry = Some (RxInsert p x) → is_open S x → is_open S' x.
Proof.
  intros Hf Hp (y & Hy & Hc).
  assert (holds entry x) as Hh by (right; exists (RxInsert p x); split; [done|]; by left).
  destruct (Hf _ _ Hh Hy) as (y' & Hy' & _ & _ & Hc'). exists y'. split; [done|].
  rewrite Hc'; [done|]. right. by eexists.
Qed.

Lemma open_back entry S S' x :
  frame entry S S' → holds entry x → is_Some (S !! x) → is_open S' x → is_open S x.
Proof.
  intros Hf Hh [y Hy] (y' & Hy' & Hc'). exists y. split; [done|].
  destruct (Hf _ _ Hh Hy) as (y'' & Hy'' & _ & Hcl & _). assert (y'' = y') as -> by congruence.
  destruct (ux_closed y); [|done]. by rewrite Hcl in Hc'.
Qed.

Lemma list_some_local (sessions : list (option nat)) (i x : nat) :
  sessions !! i = Some (Some x) → x ∈ omap id sessions.
Proof. intros Hi. apply list_elem_of_omap. exists (Some x). split; [|done]. by eapply list_elem_of_lookup_2. Qed.

Lemma peers_frame entry S S' e now g u batch sessions :
  frame entry S S' → (∀ x, x ∈ omap id sessions → holds entry x) →
  peers_ok S e now g u batch sessions → peers_ok S' e now g u batch sessions.
Proof.
  intros Hf Hh Hp i d x Hi Hx. eapply knows_frame; [exact Hf| |by eapply Hp].
  by eapply Hh, list_some_local.
Qed.

Lemma entry_frame w S S' e entry : frame entry S S' → entry_ok w S e entry → entry_ok w S' e entry.
Proof.
  intros Hf (Hg & Hb & Hsz & Ht & Hph). split_and!; [done|lia|lia|done| |].
  - intros c x Hx. destruct (Ht c x Hx) as (Hnd & y & Hy & Hye & Hyc & Hyg & Hcur & Hop).
    assert (holds entry x) as Hh by (left; by eexists). split; [done|].
    destruct (Hf _ _ Hh Hy) as (y' & Hy' & Hid & _ & Ho).
    destruct (ident_same _ _ Hid) as (He' & Hc' & Hg' & Hu'). exists y'. rewrite He', Hc', Hg', Hu'.
    split_and!; try done. intros Heq. destruct (Hop Heq) as [Hcl ?]. split; [|done].
    rewrite Ho; [done|]. left. split; [by eexists|done].
  - intros ph Hrx. specialize (Hph ph Hrx).
    assert (∀ x, x ∈ phase_sessions ph → holds entry x) as Hloc by (intros x Hx; right; by exists ph).
    assert (∀ p, (∀ x, x ∈ omap id (pr_sessions p) → x ∈ phase_sessions ph) →
              prep_ok S e entry p → prep_ok S' e entry p) as Hprep.
    { intros p Hsub (? & ? & ? & Hp). split_and!; [done..|].
      eapply peers_frame; [exact Hf| |exact Hp]. auto. }
    destruct ph as [|b|p|p|p x|p x|p x|b l gs]; simpl in *; try done.
    + by apply Hprep.
    + destruct Hph as (? & ? & ?). split_and!; [by apply Hprep|done..].
    + destruct Hph as (? & ? & Ho & Hno & c & Hc & Hk).
      assert (holds entry x) as Hh by (apply Hloc; by left).
      split_and!; [apply Hprep; [set_solver|done]|done| |by destruct Hno..|].
      * by eapply open_frame.
      * exists c. split; [done|]. by eapply knows_frame.
    + destruct Hph as (? & c & Hc & Hk & Ho).
      assert (holds entry x) as Hh by (apply Hloc; by left).
      split; [apply Hprep; [set_solver|done]|]. exists c. split_and!; [done|by eapply knows_frame|].
      intros Hop. apply Ho. eapply open_back; [done|done| |done].
      destruct Hk as (y & Hy & _). by eexists.
    + destruct Hph as (? & c & Hc & Hk).
      assert (holds entry x) as Hh by (apply Hloc; by left).
      split; [apply Hprep; [set_solver|done]|]. exists c. split; [done|by eapply knows_frame].
    + destruct Hph as (? & (g & u & ? & ? & Hp) & ?). split_and!; [done| |done].
      exists g, u. split_and!; [done..|]. eapply peers_frame; [exact Hf| |exact Hp]. auto.
Qed.

(** A session an entry holds is its own. *)
Lemma holds_entry w S e entry x y :
  entry_ok w S e entry → holds entry x → S !! x = Some y → ux_entry y = e.
Proof.
  intros (_ & _ & _ & Ht & Hph) [[c Hc]|(ph & Hrx & Hx)] Hy.
  - destruct (Ht _ _ Hc) as (_ & y' & Hy' & He & _). congruence.
  - specialize (Hph ph Hrx).
    assert (∀ now g u batch sessions, peers_ok S e now g u batch sessions → (length sessions ≤ length batch)%nat →
              x ∈ omap id sessions → ux_entry y = e) as Hp.
    { intros now g u batch sessions Hp Hle (o & Ho & Hid)%list_elem_of_omap.
      assert (o = Some x) as -> by exact Hid.
      apply list_elem_of_lookup in Ho as [i Hi]. assert (i < length batch)%nat as Hlt.
      { apply lookup_lt_Some in Hi. lia. }
      apply lookup_lt_is_Some in Hlt as [d Hd]. destruct (Hp i d x Hd Hi) as (y' & ? & ? & _). congruence. }
    destruct ph as [|b|p|p|p x'|p x'|p x'|b l gs]; simpl in *; try (by apply elem_of_nil in Hx).
    + destruct Hph as (_ & _ & Hl & Hpe). eauto.
    + destruct Hph as ((_ & _ & Hl & Hpe) & _). eauto.
    + destruct Hph as ((_ & _ & Hl & Hpe) & _ & _ & _ & c & _ & (y' & ? & ? & _)).
      apply elem_of_cons in Hx as [->|Hx]; [congruence|eauto].
    + destruct Hph as ((_ & _ & Hl & Hpe) & c & _ & (y' & ? & ? & _) & _).
      apply elem_of_cons in Hx as [->|Hx]; [congruence|eauto].
    + destruct Hph as ((_ & _ & Hl & Hpe) & c & _ & (y' & ? & ? & _)).
      apply elem_of_cons in Hx as [->|Hx]; [congruence|eauto].
    + destruct Hph as (Hl & (g & u & _ & _ & Hpe) & _). eauto.
Qed.

(** * Changes that keep the invariant *)
Definition same_udp (s s' : UdpRuntime) : Prop :=
  ur_entries s' = ur_entries s ∧ ur_sessions s' = ur_sessions s ∧ ur_next s' = ur_next s ∧
  ∀ e, ∃ m, ur_heap s' !! e = ue_set_metrics m <$> ur_heap s !! e.

Lemma set_metrics_id entry : ue_set_metrics (ue_metrics entry) entry = entry.
Proof. by destruct entry. Qed.

#[export] Instance same_udp_po : PreOrder same_udp.
Proof.
  split.
  - intros s. split_and!; [done..|]. intros e. destruct (ur_heap s !! e) as [entry|].
    + exists (ue_metrics entry). simpl. by rewrite set_metrics_id.
    + by exists UdpListenerMetrics_default.
  - intros s1 s2 s3 (?&?&?&Ha) (?&?&?&Hb). split_and!; [congruence..|]. intros e.
    destruct (Ha e) as [m1 E1], (Hb e) as [m2 E2]. exists m2. rewrite E2, E1. by destruct (ur_heap s1 !! e).
Qed.

Lemma inv_same w s s' : same_udp s s' → inv_within w s → inv_within w s'.
Proof.
  intros (HE & HS & Hn & HH) (I1 & I2 & I3 & I4). unfold inv_within, inv_of. rewrite HE, HS, Hn.
  split_and!; [| | |exact I4].
  - intros id e He. destruct (HH e) as [m ->]. destruct (I1 id e He) as [entry ->]. by eexists.
  - intros e entry. destruct (HH e) as [m ->]. intros (entry0 & He & ->)%fmap_Some. exact (I2 e entry0 He).
  - intros x y Hx. destruct (I3 x y Hx) as [Hlt (entry & He & Hr)]. split; [done|].
    destruct (HH (ux_entry y)) as [m Hm]. rewrite He in Hm. by exists (ue_set_metrics m entry).
Qed.

Lemma udp_same_metric f s : same_udp s (ur_metric f s).
Proof. split_and!; [done..|]. apply (PreOrder_Reflexive (R := same_udp) s). Qed.

Lemma same_alter_metrics f e s :
  (∀ entry, ∃ m, f entry = ue_set_metrics m entry) → same_udp s (ur_alter_entry f e s).
Proof.
  intros Hf. split_and!; [done..|]. intros e'. simpl. destruct (decide (e' = e)) as [->|].
  - rewrite lookup_alter_eq. destruct (ur_heap s !! e) as [entry|]; simpl.
    + destruct (Hf entry) as [m ->]. by exists m.
    + by exists UdpListenerMetrics_default.
  - rewrite lookup_alter_ne by done. destruct (ur_heap s !! e') as [entry|].
    + exists (ue_metrics entry). simpl. by rewrite set_metrics_id.
    + by exists UdpListenerMetrics_default.
Qed.

Lemma frame_refl entry S : frame entry S S.
Proof. intros x y _ Hy. exists y. auto. Qed.

(** One entry and the sessions change. *)
Lemma inv_update w E H S n e entry entry' S' :
  inv_of w E H S n → H !! e = Some entry → entry_ok w S' e entry' →
  (∀ e' entry0, e' ≠ e → H !! e' = Some entry0 → entry_ok w S e' entry0 → frame entry0 S S') →
  (∀ x y', S' !! x = Some y' → (x < n)%nat ∧
     ((∃ y, S !! x = Some y ∧ ident y' = ident y ∧ ux_entry y ≠ e ∧ (live y' → live y)) ∨
      (ux_entry y' = e ∧ ux_generation y' ≤ ue_generation entry' ∧
       (live y' → ue_sessions entry' !! ux_client_addr y' = Some x ∨ x ∈ wn_drained w)))) →
  inv_of w E (<[e := entry']> H) S' n.
Proof.
  intros (I1 & I2 & I3 & I4) He Hok Hframe HS. split_and!; [| | |exact I4].
  - intros id e0 H0. apply I1 in H0. apply lookup_insert_is_Some.
    destruct (decide (e = e0)); [by left|by right].
  - intros e0 entry0 [[<- <-]|[Hne H0]]%lookup_insert_Some.
    + split; [by apply (I2 e entry)|done].
    + destruct (I2 _ _ H0) as [Hlt Hok0]. split; [done|]. eapply entry_frame; [|done]. by eapply (Hframe e0).
  - intros x y' Hx. destruct (HS _ _ Hx) as [Hlt [(y & Hy & Hid & Hne & Hr)|[<- Hr]]]; (split; [done|]).
    + destruct (ident_same _ _ Hid) as (Hxe & Hxc & Hxg & _). destruct (I3 _ _ Hy) as [_ (entry0 & He0 & Hg & Hrow)].
      exists entry0. rewrite Hxe, Hxc, Hxg. rewrite lookup_insert_ne by done. split_and!; auto.
    + exists entry'. rewrite lookup_insert_eq. auto.
Qed.

Lemma alter_insert {A} (f : A → A) (m : gmap nat A) k x :
  m !! k = Some x → alter f k m = <[k := f x]> m.
Proof.
  intros Hx. apply map_eq. intros i. destruct (decide (i = k)) as [->|].
  - by rewrite lookup_alter_eq, lookup_insert_eq, Hx.
  - by rewrite lookup_alter_ne, lookup_insert_ne.
Qed.

Lemma alter_absent {A} (f : A → A) (m : gmap nat A) k : m !! k = None → alter f k m = m.
Proof.
  intros Hx. apply map_eq. intros i. destruct (decide (i = k)) as [->|].
  - by rewrite lookup_alter_eq, Hx.
  - by rewrite lookup_alter_ne.
Qed.

(** An entry changes; the rows of the sessions that can still reply stay. *)
Lemma inv_alter_rows w f e s :
  inv_within w s →
  (∀ entry, ur_heap s !! e = Some entry → entry_ok w (ur_sessions s) e entry →
     entry_ok w (ur_sessions s) e (f entry) ∧ ue_generation entry ≤ ue_generation (f entry) ∧
     ∀ c x y, ue_sessions entry !! c = Some x → ur_sessions s !! x = Some y → live y →
       ue_sessions (f entry) !! c = Some x) →
  inv_within w (ur_alter_entry f e s).
Proof.
  intros Hinv Hf. unfold inv_within. simpl. destruct (ur_heap s !! e) as [entry|] eqn:He.
  - rewrite (alter_insert f _ _ entry He). destruct (Hf entry eq_refl) as (Hok & Hge & Hrows); [by apply Hinv|].
    eapply inv_update; [exact Hinv|done|done|intros; apply frame_refl|].
    intros x y Hx. destruct Hinv as (_ & _ & I3 & _). destruct (I3 _ _ Hx) as [Hlt (entry0 & He0 & Hg & Hr)].
    split; [done|]. destruct (decide (ux_entry y = e)) as [Hxe|Hne].
    + right. split; [done|]. rewrite Hxe, He in He0. injection He0 as ->.
      split; [lia|]. intros Hl. destruct (Hr Hl); eauto.
    + left. exists y. auto.
  - rewrite alter_absent by done. exact Hinv.
Qed.

(** An entry changes, its rows stay. *)
Lemma inv_alter_entry w f e s :
  inv_within w s →
  (∀ entry, ur_heap s !! e = Some entry → entry_ok w (ur_sessions s) e entry →
     entry_ok w (ur_sessions s) e (f entry) ∧ ue_generation entry ≤ ue_generation (f entry) ∧
     ∀ c x, ue_sessions entry !! c = Some x → ue_sessions (f entry) !! c = Some x) →
  inv_within w (ur_alter_entry f e s).
Proof.
  intros Hinv Hf. apply inv_alter_rows; [done|]. intros entry He Hok.
  destruct (Hf entry He Hok) as (? & ? & Hrows). eauto 10.
Qed.

(** A session changes. *)
Lemma inv_alter_session w f x s :
  inv_within w s →
  (∀ y, ur_sessions s !! x = Some y →
     ident (f y) = ident y ∧ (ux_closed y = true → ux_closed (f y) = true) ∧
     ∀ entry, ur_heap s !! ux_entry y = Some entry →
       entry_ok w (ur_sessions s) (ux_entry y) entry →
       (opens entry x y → ux_closed (f y) = ux_closed y) ∧
       (live (f y) → live y ∨ ue_sessions entry !! ux_client_addr y = Some x ∨ x ∈ wn_drained w)) →
  inv_within w (ur_alter_session f x s).
Proof.
  intros Hinv Hf. unfold inv_within. simpl. destruct (ur_sessions s !! x) as [y|] eqn:Hx;
    [|by rewrite alter_absent].
  destruct Hinv as (I1 & I2 & I3 & I4). destruct (I3 _ _ Hx) as [Hlt (entry & He & Hgen & Hrow)].
  destruct (I2 _ _ He) as [Helt Hok]. destruct (Hf y eq_refl) as (Hid & Hcl & Hf').
  destruct (Hf' entry He Hok) as [Hopen Hreply].
  replace (ur_heap s) with (<[ux_entry y := entry]> (ur_heap s)) by (by apply insert_id).
  assert (∀ e0 entry0, ur_heap s !! e0 = Some entry0 → entry_ok w (ur_sessions s) e0 entry0 →
            frame entry0 (ur_sessions s) (alter f x (ur_sessions s))) as Hframe.
  { intros e0 entry0 He0 Hok0 x0 y0 Hh Hx0. destruct (decide (x0 = x)) as [->|].
    - rewrite lookup_alter_eq, Hx0. simpl. assert (y0 = y) as -> by congruence. exists (f y).
      split_and!; [done..|]. intros Ho. apply Hopen.
      pose proof (holds_entry _ _ _ _ _ _ Hok0 Hh Hx0) as Heq. congruence.
    - rewrite lookup_alter_ne by done. exists y0. auto. }
  eapply inv_update; [exact (conj I1 (conj I2 (conj I3 I4)))|done| | |].
  - eapply entry_frame; [|exact Hok]. by eapply Hframe.
  - intros e0 entry0 _ He0 Hok0. by eapply Hframe.
  - intros x0 y0. destruct (decide (x0 = x)) as [->|].
    + rewrite lookup_alter_eq, Hx. intros [= <-]. split; [done|]. right.
      destruct (ident_same _ _ Hid) as (Hxe & Hxc & Hxg & _). rewrite Hxe, Hxc, Hxg. split_and!; [done..|].
      intros [?|?]%Hreply; auto.
    + rewrite lookup_alter_ne by done. intros Hx0. destruct (I3 _ _ Hx0) as [Hlt0 (entry0 & He0 & Hg0 & Hr0)].
      split; [done|]. destruct (decide (ux_entry y0 = ux_entry y)) as [Heq|]; [right|left; eauto 10].
      rewrite Heq, He in He0. injection He0 as ->. done.
Qed.

(** ** Phases *)
Lemma set_receive_ok w S e entry ph :
  entry_ok w S e entry → phase_ok w S e entry ph → entry_ok w S e (ue_set_receive (Some ph) entry).
Proof.
  intros (? & ? & ? & ? & _) Hph. split_and!; try done; simpl; [lia..|]. by intros ph' [= <-].
Qed.

Lemma inv_set_receive w ph e s :
  inv_within w s →
  (∀ entry, ur_heap s !! e = Some entry → entry_ok w (ur_sessions s) e entry →
     phase_ok w (ur_sessions s) e entry ph) →
  inv_within w (set_receive ph e s).
Proof.
  intros Hinv Hph. apply inv_alter_entry; [done|]. intros entry He Hok. split_and!; [|simpl; lia|done].
  apply set_receive_ok; auto.
Qed.

Lemma inv_batch_done w n e s : inv_within w s → inv_within w (batch_done n e s).
Proof.
  intros Hinv. apply inv_set_receive; [|by intros].
  apply inv_alter_entry; [done|]. intros entry He (? & ? & ? & ? & Hph). split_and!; [|simpl; lia|done].
  split_and!; simpl; try done; lia.
Qed.

Lemma inv_stop_receive w e s : inv_within w s → inv_within w (ur_alter_entry (ue_set_receive None) e s).
Proof.
  intros Hinv. apply inv_alter_entry; [done|]. intros entry He (? & ? & ? & ? & Hph). split_and!; [|simpl; lia|done].
  split_and!; simpl; try done; lia.
Qed.

(** ** Rows leave a table *)
Definition closed_session (y : UdpSession) : UdpSession := abort_reply_task (ux_set_closed true y).

Lemma closed_session_spec y :
  ident (closed_session y) = ident y ∧ ux_closed (closed_session y) = true ∧
  (ux_handle y = true → ux_reply (closed_session y) = None) ∧
  (ux_reply (closed_session y) = ux_reply y ∨ ux_reply (closed_session y) = None).
Proof.
  unfold closed_session, abort_reply_task. change (ux_handle (ux_set_closed true y)) with (ux_handle y).
  destruct (ux_handle y); split_and!; try done; [by right|by left].
Qed.

Lemma closed_session_seen y : ux_last_seen (closed_session y) = ux_last_seen y.
Proof. by destruct y as [? ? ? ? ? ? ? []]. Qed.

Lemma closed_session_twice y : closed_session (closed_session y) = closed_session y.
Proof. by destruct y as [? ? ? ? ? ? ? []]. Qed.

Definition leaves (tbl tbl' : gmap SocketAddr nat) (x : nat) : Prop :=
  ∃ c, tbl !! c = Some x ∧ tbl' !! c = None.

(** A session has one row. *)
Lemma row_of w S e entry c c' x :
  entry_ok w S e entry → ue_sessions entry !! c = Some x → ue_sessions entry !! c' = Some x → c = c'.
Proof.
  intros (_ & _ & _ & Ht & _) Hc Hc'.
  destruct (Ht _ _ Hc) as (_ & y & Hy & _ & Hyc & _).
  destruct (Ht _ _ Hc') as (_ & y' & Hy' & _ & Hyc' & _). congruence.
Qed.

(** In the table of a generation that has not passed. *)
Lemma row_session w S e entry c x y :
  entry_ok w S e entry → ue_sessions entry !! c = Some x → S !! x = Some y →
  ux_entry y = e ∧ ux_client_addr y = c ∧
  (wn_stale w ≠ Some e → ux_generation y = ue_generation entry) ∧
  (ux_generation y = ue_generation entry → ux_closed y = false ∧
     (ue_generation entry < u64_max → entry_target entry = Some (ux_upstream y))).
Proof.
  intros (_ & _ & _ & Ht & _) Hc Hy. destruct (Ht _ _ Hc) as (_ & y' & Hy' & He & Hyc & _ & Hcur & Hop).
  assert (y' = y) as -> by congruence. auto.
Qed.

Section shrink.
  Context (w : Window) (s : UdpRuntime) (Hinv : inv_within w s) (e : nat) (entry : UdpListenerEntry).
  Context (He : ur_heap s !! e = Some entry) (tbl' : gmap SocketAddr nat).
  Context (Hsub : tbl' ⊆ ue_sessions entry) (S' : gmap nat UdpSession).
  Context (Hleave : ∀ x, leaves (ue_sessions entry) tbl' x → S' !! x = closed_session <$> ur_sessions s !! x).
  Context (Hstay : ∀ x, ¬ leaves (ue_sessions entry) tbl' x → S' !! x = ur_sessions s !! x).

Lemma shrink_entry_ok : entry_ok w (ur_sessions s) e entry.
Proof. by apply Hinv. Qed.

Lemma stays c x : tbl' !! c = Some x → ¬ leaves (ue_sessions entry) tbl' x.
Proof.
  intros Hc (c' & Hc' & Hnone). assert (ue_sessions entry !! c = Some x) as Hcc by (by eapply lookup_weaken).
  pose proof (row_of _ _ _ _ _ _ _ shrink_entry_ok Hcc Hc'). congruence.
Qed.

Lemma leaves_or_not x : leaves (ue_sessions entry) tbl' x ∨ ¬ leaves (ue_sessions entry) tbl' x.
Proof.
  destruct (decide (Exists (λ p, p.2 = x ∧ tbl' !! p.1 = None) (map_to_list (ue_sessions entry)))) as [Hl|Hl].
  - left. apply Exists_exists in Hl as ([c x'] & Hin & Hx' & Hnone). simpl in *. subst x'.
    exists c. split; [by apply elem_of_map_to_list|done].
  - right. intros (c & Hc & Hnone). apply Hl, Exists_exists. exists (c, x).
    split; [by apply elem_of_map_to_list|done].
Qed.

Lemma shrink_lookup x y :
  ur_sessions s !! x = Some y →
  ∃ y', S' !! x = Some y' ∧ ident y' = ident y ∧ (ux_closed y = true → ux_closed y' = true) ∧
        (live y' → live y ∧ ¬ leaves (ue_sessions entry) tbl' x) ∧
        (¬ leaves (ue_sessions entry) tbl' x → y' = y).
Proof.
  intros Hy. destruct (leaves_or_not x) as [Hlv|Hlv].
  - exists (closed_session y). rewrite (Hleave _ Hlv), Hy. destruct (closed_session_spec y) as (? & ? & _).
    split_and!; try done. intros [_ ?]. congruence.
  - exists y. rewrite (Hstay _ Hlv), Hy. split_and!; auto.
Qed.

Lemma shrink_inv : inv_of w (ur_entries s) (<[e := ue_set_sessions tbl' entry]> (ur_heap s)) S' (ur_next s).
Proof.
  pose proof shrink_entry_ok as Hok. destruct Hinv as (I1 & I2 & I3 & I4).
  assert (∀ now c g u x, knows (ur_sessions s) e now c g u x → knows S' e now c g u x) as Hknows.
  { intros now c g u x Hk. destruct Hk as (y & Hy & Hk). destruct (shrink_lookup _ _ Hy) as (y' & Hy' & Hid & _).
    eapply knows_ident; [exact Hy|exact Hy'|exact Hid|]. by exists y. }
  assert (∀ now g u b l, peers_ok (ur_sessions s) e now g u b l → peers_ok S' e now g u b l) as Hpeers.
  { intros now g u b l Hp i d x ??. apply Hknows. by eapply Hp. }
  assert (∀ p, prep_ok (ur_sessions s) e entry p → prep_ok S' e (ue_set_sessions tbl' entry) p) as Hprep.
  { intros p (? & ? & ? & ?). split_and!; [done..|]. by apply Hpeers. }
  assert (size tbl' ≤ size (ue_sessions entry))%nat as Hsize by (by apply map_subseteq_size).
  eapply inv_update; [exact Hinv|exact He| | |].
  - destruct Hok as (? & ? & Hsz & Ht & Hph). split_and!; simpl; [done|lia|lia| | |].
    + destruct Hsz as [Hz|]; [|lia]. left. apply map_size_empty_inv. rewrite Hz, map_size_empty in Hsize. lia.
    + intros c x Hc. simpl in Hc. assert (ue_sessions entry !! c = Some x) as Hc0 by (by eapply lookup_weaken).
      destruct (Ht _ _ Hc0) as (Hnd & y & Hy & Hrest). split; [done|].
      destruct (shrink_lookup _ _ Hy) as (y' & Hy' & _ & _ & _ & Heq). exists y. split; [|exact Hrest].
      rewrite <- (Heq (stays _ _ Hc)). exact Hy'.
    + intros ph Hrx. specialize (Hph ph Hrx). destruct ph as [|b|p|p|p x|p x|p x|b l gs]; simpl in *; auto.
      * destruct Hph as (? & ? & Hroom). split_and!; [auto|done|]. unfold room in *. simpl. lia.
      * destruct Hph as (? & Hroom & (y & Hy & Hcl) & [Hno Hnd] & c & Hc & Hk). split_and!; [auto| | | |done|eauto].
        -- unfold room in *. simpl. lia.
        -- exists y. split; [|done]. rewrite Hstay; [done|]. intros (c' & Hc' & _). by apply (Hno c').
        -- intros c' Hc'. apply (Hno c'). by eapply lookup_weaken.
      * destruct Hph as (? & c & Hc & Hk & Hrow). split; [auto|]. exists c. split_and!; [done|auto|].
        intros (y' & Hy' & Hcl). destruct Hk as (y & Hy & _).
        destruct (shrink_lookup _ _ Hy) as (y2 & Hy2 & _ & Hclosed & _ & Heq).
        assert (y2 = y') as -> by congruence.
        assert (ux_closed y = false) as Hcly by (destruct (ux_closed y); [by rewrite Hclosed in Hcl|done]).
        destruct Hrow as [Hc0|Hd]; [by exists y| |by right]. left.
        destruct (tbl' !! c) as [x'|] eqn:Hc'.
        -- assert (ue_sessions entry !! c = Some x') by (by eapply lookup_weaken). congruence.
        -- rewrite Hleave in Hy' by (by exists c). rewrite Hy in Hy'. injection Hy' as <-.
           destruct (closed_session_spec y) as (_ & ? & _). congruence.
      * destruct Hph as (? & c & Hc & Hk). split; [auto|]. exists c. split; [done|auto].
      * destruct Hph as (? & (g & u & ? & ? & Hp) & ?). split_and!; [done|exists g, u; auto|done].
  - intros e0 entry0 Hne He0 Hok0 x y Hh Hy.
    destruct (shrink_lookup _ _ Hy) as (y' & Hy' & Hid & Hcl & _ & Heq). exists y'. split_and!; [done..|].
    intros _. rewrite Heq; [done|]. intros (c & Hc & _).
    destruct (row_session _ _ _ _ _ _ _ Hok Hc Hy) as (Hey & _).
    pose proof (holds_entry _ _ _ _ _ _ Hok0 Hh Hy). congruence.
  - intros x y' Hy'. destruct (ur_sessions s !! x) as [y|] eqn:Hy.
    + destruct (I3 _ _ Hy) as [Hlt (entry0 & He0 & Hg0 & Hr0)]. split; [done|].
      destruct (shrink_lookup _ _ Hy) as (y2 & Hy2 & Hid & _ & Hrep & Heq). assert (y2 = y') as -> by congruence.
      destruct (ident_same _ _ Hid) as (Hxe & Hxc & Hxg & _).
      destruct (decide (ux_entry y = e)) as [Heqe|Hne]; [right|left; exists y; split_and!; [done|done|done|by intros [? _]%Hrep]].
      rewrite Heqe, He in He0. injection He0 as <-. split_and!; [congruence|simpl; lia|].
      intros [Hsome Hnl]%Hrep. simpl. rewrite Hxc.
      destruct (Hr0 Hsome) as [Hrow|?]; [left|by right]. destruct (tbl' !! ux_client_addr y) as [x'|] eqn:Hc'.
      * assert (ue_sessions entry !! ux_client_addr y = Some x') by (by eapply lookup_weaken). congruence.
      * destruct Hnl. by exists (ux_client_addr y).
    + exfalso. destruct (leaves_or_not x) as [Hl|Hl].
      * rewrite (Hleave _ Hl), Hy in Hy'. done.
      * rewrite (Hstay _ Hl) in Hy'. congruence.
Qed.
End shrink.

(** ** Closing sessions *)
Lemma close_drained_spec b l s :
  let s' := foldr (close_drained b) s l in
  ur_entries s' = ur_entries s ∧ ur_heap s' = ur_heap s ∧ ur_next s' = ur_next s ∧
  (∀ x, x ∈ l → ur_sessions s' !! x = closed_session <$> ur_sessions s !! x) ∧
  (∀ x, x ∉ l → ur_sessions s' !! x = ur_sessions s !! x).
Proof.
  cbv zeta. induction l as [|x0 l (HE & HH & Hn & Hin & Hout)]; cbn [foldr].
  { split_and!; try done. by intros x Hx%elem_of_nil. }
  set (s1 := foldr (close_drained b) s l) in *.
  assert (ur_sessions (close_drained b x0 s1) = alter closed_session x0 (ur_sessions s1)) as HS by (by destruct b).
  split_and!.
  - rewrite <- HE. by destruct b.
  - rewrite <- HH. by destruct b.
  - rewrite <- Hn. by destruct b.
  - intros x Hx. rewrite HS. destruct (decide (x = x0)) as [->|Hne].
    + rewrite lookup_alter_eq. destruct (decide (x0 ∈ l)) as [Hl|Hl].
      * rewrite Hin by done. destruct (ur_sessions s !! x0); [|done]. simpl. by rewrite closed_session_twice.
      * by rewrite Hout.
    + rewrite lookup_alter_ne by done. apply Hin. apply elem_of_cons in Hx as [->|]; done.
  - intros x Hx. apply not_elem_of_cons in Hx as [Hne Hl]. rewrite HS, lookup_alter_ne by done. by apply Hout.
Qed.

Lemma table_value_leaves (tbl : gmap SocketAddr nat) x : leaves tbl ∅ x ↔ x ∈ (map_to_list tbl).*2.
Proof.
  split.
  - intros (c & Hc & _). apply list_elem_of_fmap. exists (c, x). split; [done|]. by apply elem_of_map_to_list.
  - intros ([c x'] & -> & Hin)%list_elem_of_fmap. exists c. split; [by apply elem_of_map_to_list|done].
Qed.

(** Closing a listener's sessions: its table is empty, its sessions are closed. *)
Lemma close_sessions_state e b s entry :
  ur_heap s !! e = Some entry →
  let s' := UdpRuntime_close_sessions e b s in
  ur_entries s' = ur_entries s ∧ ur_next s' = ur_next s ∧
  ur_heap s' = <[e := ue_set_empty_since (Some (ur_now s)) (ue_set_sessions ∅ entry)]> (ur_heap s) ∧
  (∀ x, leaves (ue_sessions entry) ∅ x → ur_sessions s' !! x = closed_session <$> ur_sessions s !! x) ∧
  (∀ x, ¬ leaves (ue_sessions entry) ∅ x → ur_sessions s' !! x = ur_sessions s !! x).
Proof.
  intros He. simpl. unfold UdpRuntime_close_sessions. rewrite He.
  set (s1 := ur_alter_entry (ue_set_sessions ∅) e s).
  destruct (close_drained_spec b (map_to_list (ue_sessions entry)).*2 s1) as (HE & HH & Hn & Hin & Hout).
  set (s2 := foldr _ s1 _) in *. simpl. rewrite HE, Hn. split_and!; [done|done| | |].
  - rewrite HH. unfold s1. simpl. rewrite (alter_insert _ _ e entry He).
    erewrite alter_insert by apply lookup_insert_eq. apply insert_insert_eq.
  - intros x Hx%table_value_leaves. by apply Hin.
  - intros x Hx. apply Hout. by rewrite <- table_value_leaves.
Qed.

(** The sessions of [s'] are those of [s], closed or as they were. *)
Definition closes (s s' : UdpRuntime) : Prop :=
  ∀ x y, ur_sessions s' !! x = Some y →
    ∃ y0, ur_sessions s !! x = Some y0 ∧ (y = y0 ∨ y = closed_session y0).

(** What still runs was closed before, or its handle was not stored. *)
Lemma closes_running s s' x y :
  closes s s' → ur_sessions s' !! x = Some y → is_Some (ux_reply y) → ux_closed y = true →
  ∃ y0, ur_sessions s !! x = Some y0 ∧ (ux_closed y0 = true ∨ ux_handle y0 = false).
Proof.
  intros Hc Hy Hrep Hcl. destruct (Hc _ _ Hy) as (y0 & Hy0 & [->|Heq]); [eauto|]. exists y0. split; [done|].
  right. destruct (ux_handle y0) eqn:Hh; [|done]. destruct (closed_session_spec y0) as (_ & _ & Hnone & _).
  rewrite Heq, Hnone in Hrep by done. by destruct Hrep.
Qed.

Lemma close_sessions_each e b s : closes s (UdpRuntime_close_sessions e b s).
Proof.
  intros x y. destruct (ur_heap s !! e) as [entry|] eqn:He; [|unfold UdpRuntime_close_sessions; rewrite He; eauto].
  destruct (close_sessions_state e b s entry He) as (_ & _ & _ & Hin & Hout).
  destruct (decide (x ∈ (map_to_list (ue_sessions entry)).*2)) as [Hx|Hx].
  - rewrite Hin by (by apply table_value_leaves). intros (y0 & Hy0 & ->)%fmap_Some. eauto.
  - rewrite Hout by (by rewrite table_value_leaves). eauto.
Qed.

Lemma inv_empty_since w f e s :
  (∀ entry, ∃ z, f entry = ue_set_empty_since z entry) →
  inv_within w s → inv_within w (ur_alter_entry f e s).
Proof.
  intros Hf Hinv. apply inv_alter_entry; [done|]. intros entry _ Hok. destruct (Hf entry) as [z ->].
  split_and!; [exact Hok|simpl; lia|done].
Qed.

Lemma inv_of_empty_since w E H S n e entry z :
  inv_of w E (<[e := entry]> H) S n → inv_of w E (<[e := ue_set_empty_since z entry]> H) S n.
Proof.
  intros (I1 & I2 & I3 & I4). split_and!; [| | |exact I4].
  - intros id e0 He0. apply I1 in He0. apply lookup_insert_is_Some in He0. by apply lookup_insert_is_Some.
  - intros e0 entry0 [[<- <-]|[Hne He0]]%lookup_insert_Some.
    + apply (I2 e entry). apply lookup_insert_eq.
    + apply I2. by rewrite lookup_insert_ne.
  - intros x y Hx. destruct (I3 _ _ Hx) as [Hlt (entry0 & He0 & Hr)]. split; [done|].
    apply lookup_insert_Some in He0 as [[Heq <-]|[Hne He0]].
    + exists (ue_set_empty_since z entry). rewrite <- Heq, lookup_insert_eq. split; [reflexivity|exact Hr].
    + exists entry0. by rewrite lookup_insert_ne.
Qed.

Lemma inv_close_sessions w e b s : inv_within w s → inv_within w (UdpRuntime_close_sessions e b s).
Proof.
  intros Hinv. destruct (ur_heap s !! e) as [entry|] eqn:He; [|unfold UdpRuntime_close_sessions; by rewrite He].
  destruct (close_sessions_state e b s entry He) as (HE & Hn & HH & Hin & Hout).
  unfold inv_within. rewrite HE, Hn, HH. apply inv_of_empty_since.
  eapply shrink_inv; try done. apply map_empty_subseteq.
Qed.

(** ** Removing one session *)
Lemma remove_session_state e c x reason s entry :
  ur_heap s !! e = Some entry → ue_sessions entry !! c = Some x →
  ∃ z, let s' := remove_session e c x reason s in
  ur_entries s' = ur_entries s ∧ ur_next s' = ur_next s ∧
  ur_heap s' = <[e := ue_set_empty_since z (ue_set_sessions (delete c (ue_sessions entry)) entry)]> (ur_heap s) ∧
  ur_sessions s' = alter closed_session x (ur_sessions s).
Proof.
  intros He Hc. unfold remove_session. rewrite He, decide_True by done.
  set (s1 := record_removal reason _).
  assert (ur_heap s1 = <[e := ue_set_sessions (delete c (ue_sessions entry)) entry]> (ur_heap s)) as HH.
  { unfold s1. rewrite <- (alter_insert _ _ e entry He). by destruct reason. }
  assert (ur_sessions s1 = ur_sessions s) as HS by (by destruct reason).
  assert (ur_entries s1 = ur_entries s) as HE by (by destruct reason).
  assert (ur_next s1 = ur_next s) as Hn by (by destruct reason).
  unfold record_empty_since_if_empty. cbn -[alter].
  rewrite HE, Hn, HS, HH. erewrite alter_insert by apply lookup_insert_eq. rewrite insert_insert_eq.
  case_bool_decide; eexists; (split_and!; [done|done| |done]); reflexivity.
Qed.

Lemma inv_remove_session w e c x reason s :
  inv_within w s → inv_within w (remove_session e c x reason s).
Proof.
  intros Hinv. destruct (ur_heap s !! e) as [entry|] eqn:He; [|unfold remove_session; by rewrite He].
  destruct (decide (ue_sessions entry !! c = Some x)) as [Hc|Hc];
    [|unfold remove_session; rewrite He, decide_False by done; done].
  destruct (remove_session_state e c x reason s entry He Hc) as (z & HE & Hn & HH & HS).
  unfold inv_within. rewrite HE, Hn, HH, HS. apply inv_of_empty_since.
  eapply shrink_inv; [exact Hinv|exact He|apply delete_subseteq| |].
  - intros x' (c' & Hc' & Hnone). assert (c' = c) as ->.
    { destruct (decide (c' = c)); [done|]. rewrite lookup_delete_ne in Hnone by done. congruence. }
    assert (x' = x) as -> by congruence. apply lookup_alter_eq.
  - intros x' Hx'. apply lookup_alter_ne. intros ->. apply Hx'. exists c. split; [done|]. apply lookup_delete_eq.
Qed.

(** What removing sessions leaves of the entries. *)
Definition same_tasks (s s' : UdpRuntime) : Prop :=
  ∀ e entry', ur_heap s' !! e = Some entry' → ∃ entry, ur_heap s !! e = Some entry ∧
    ue_receive entry' = ue_receive entry ∧ ue_sessions entry' ⊆ ue_sessions entry.

#[export] Instance same_tasks_po : PreOrder same_tasks.
Proof.
  split; [intros s e entry He; eauto|]. intros s1 s2 s3 H12 H23 e entry3 H3.
  destruct (H23 _ _ H3) as (entry2 & E2 & ? & ?). destruct (H12 _ _ E2) as (entry1 & E1 & ? & ?).
  exists entry1. split_and!; [done|congruence|by etrans].
Qed.

Lemma remove_session_tasks e c x reason s : same_tasks s (remove_session e c x reason s).
Proof.
  destruct (ur_heap s !! e) as [entry|] eqn:He; [|unfold remove_session; by rewrite He].
  destruct (decide (ue_sessions entry !! c = Some x)) as [Hc|Hc];
    [|unfold remove_session; rewrite He, decide_False by done; done].
  destruct (remove_session_state e c x reason s entry He Hc) as (z & HE & Hn & HH & HS).
  intros e0 entry0. rewrite HH. intros [[<- <-]|[Hne He0]]%lookup_insert_Some; [|eauto].
  exists entry. split_and!; [done|done|]. apply delete_subseteq.
Qed.

(** ** Dropping what nothing holds *)
Lemma drop_session_same x s :
  ∃ s1, same_udp s1 (drop_session x s) ∧ ur_entries s1 = ur_entries s ∧ ur_heap s1 = ur_heap s ∧
        ur_next s1 = ur_next s ∧ ur_sessions s1 = delete x (ur_sessions s).
Proof.
  unfold drop_session. destruct (ur_sessions s !! x) as [y|] eqn:Hx.
  - exists (ur_set_sessions (delete x (ur_sessions s)) s). split_and!; try done.
    unfold SessionGuard_drop. etrans; [|apply udp_same_metric]. apply same_alter_metrics. intros entry. by eexists.
  - exists s. split_and!; try done. by rewrite delete_id.
Qed.

Lemma drop_foldr l s :
  let s' := foldr drop_session s l in
  ur_entries s' = ur_entries s ∧ ur_next s' = ur_next s ∧
  (∀ e, ∃ m, ur_heap s' !! e = ue_set_metrics m <$> ur_heap s !! e) ∧
  (∀ x y, ur_sessions s' !! x = Some y ↔ ur_sessions s !! x = Some y ∧ x ∉ l).
Proof.
  cbv zeta. induction l as [|x0 l (HE & Hn & HH & HS)]; cbn [foldr].
  { split_and!; try done; [|intros x y; split; [|by intros [? _]]; intros; split; [done|apply not_elem_of_nil]].
    intros e. destruct (same_udp_po.(PreOrder_Reflexive) s) as (_ & _ & _ & Hm). apply Hm. }
  set (s1 := foldr drop_session s l) in *.
  destruct (drop_session_same x0 s1) as (s2 & (HE2 & HS2 & Hn2 & HH2) & HE1 & HH1 & Hn1 & HS1).
  split_and!; [congruence|congruence| |].
  - intros e. destruct (HH2 e) as [m2 ->], (HH e) as [m1 Hm1]. rewrite HH1, Hm1. exists m2.
    by destruct (ur_heap s !! e).
  - intros x y. rewrite HS2, HS1, lookup_delete_Some, HS, not_elem_of_cons. naive_solver.
Qed.

Lemma holds_held s e entry x y :
  ur_heap s !! e = Some entry → holds entry x → held s x y = true.
Proof.
  intros He Hh. unfold held. apply orb_true_iff. right. apply existsb_exists. exists entry. split.
  - apply list_elem_of_In, list_elem_of_fmap. exists (e, entry). split; [done|]. by apply elem_of_map_to_list.
  - unfold entry_holds. apply orb_true_iff. destruct Hh as [[c Hc]|(ph & -> & Hx)]; [left|right].
    + apply bool_decide_eq_true, list_elem_of_fmap. exists (c, x). split; [done|]. by apply elem_of_map_to_list.
    + by apply bool_decide_eq_true.
Qed.

(** What is left: the sessions that are held, as they were. *)
Lemma drop_unheld_but_spec kept s :
  let s' := drop_unheld_but kept s in
  ur_entries s' = ur_entries s ∧ ur_next s' = ur_next s ∧
  (∀ e, ∃ m, ur_heap s' !! e = ue_set_metrics m <$> ur_heap s !! e) ∧
  (∀ x y, ur_sessions s' !! x = Some y ↔
     ur_sessions s !! x = Some y ∧ (held s x y = true ∨ x ∈ kept)).
Proof.
  cbv zeta. unfold drop_unheld_but. set (l := (filter _ (map_to_list (ur_sessions s))).*1).
  destruct (drop_foldr l s) as (HE & Hn & HH & HS). split_and!; [done..|].
  intros x y. rewrite HS. split; intros [Hx Hl]; (split; [done|]).
  - destruct (held s x y) eqn:Hheld; [by left|]. right. destruct (decide (x ∈ kept)) as [|Hno]; [done|].
    destruct Hl. apply list_elem_of_fmap. exists (x, y).
    split; [done|]. apply list_elem_of_filter. split; [by split|]. by apply elem_of_map_to_list.
  - intros ([x' y'] & -> & [[Hheld Hno] Hin]%list_elem_of_filter)%list_elem_of_fmap. simpl in *.
    apply elem_of_map_to_list in Hin. assert (y' = y) as -> by congruence.
    destruct Hl as [Hl|?]; [congruence|done].
Qed.

Lemma drop_unheld_spec s :
  let s' := drop_unheld s in
  ur_entries s' = ur_entries s ∧ ur_next s' = ur_next s ∧
  (∀ e, ∃ m, ur_heap s' !! e = ue_set_metrics m <$> ur_heap s !! e) ∧
  (∀ x y, ur_sessions s' !! x = Some y ↔ ur_sessions s !! x = Some y ∧ held s x y = true).
Proof.
  destruct (drop_unheld_but_spec [] s) as (HE & Hn & HH & HS). split_and!; [exact HE|exact Hn|exact HH|].
  intros x y. unfold drop_unheld. rewrite HS, elem_of_nil. naive_solver.
Qed.

Lemma inv_drop_unheld_but w kept s : inv_within w s → inv_within w (drop_unheld_but kept s).
Proof.
  intros (I1 & I2 & I3 & I4). destruct (drop_unheld_but_spec kept s) as (HE & Hn & HH & HS).
  unfold inv_within, inv_of. rewrite HE, Hn. split_and!; [| | |exact I4].
  - intros id e He. apply I1 in He as [entry He]. destruct (HH e) as [m Hm]. rewrite Hm, He. by eexists.
  - intros e entry' He'. destruct (HH e) as [m Hm]. rewrite Hm in He'. apply fmap_Some in He' as (entry & He & ->).
    destruct (I2 _ _ He) as [Hlt Hok]. split; [done|].
    assert (frame entry (ur_sessions s) (ur_sessions (drop_unheld_but kept s))) as Hf.
    { intros x y Hh Hy. exists y. split_and!; try done. apply HS. split; [done|]. left. by eapply holds_held. }
    exact (entry_frame _ _ _ _ _ Hf Hok).
  - intros x y [Hx _]%HS. destruct (I3 _ _ Hx) as [Hlt (entry & He & Hr)]. split; [done|].
    destruct (HH (ux_entry y)) as [m Hm]. rewrite He in Hm. by exists (ue_set_metrics m entry).
Qed.

Lemma inv_drop_unheld w s : inv_within w s → inv_within w (drop_unheld s).
Proof. apply inv_drop_unheld_but. Qed.
