(* ===== verification/UdpSteps.v ===== *)
(** The UDP relay (runtime/udp.rs): every operation of the facade and every event keeps
    the invariant of UdpSpec.v. *)
From stdpp Require Import base gmap strings list relations fin_maps.
From Stdlib Require Import ZArith Lia.
From S2P Require Import Prelude RustStd Model Facade Metrics UdpModel Udp UdpSpec.
Open Scope Z_scope.

(** * Requests *)
Lemma inv_stop_entry b e s : udp_inv s → udp_inv (UdpRuntime_stop_entry b e s).
Proof.
  intros Hinv. apply inv_close_sessions, inv_alter_entry; [done|].
  intros entry _ (? & ? & ? & ? & Hph). split; [|done]. split_and!; simpl; try done; [lia..|].
  destruct (ue_receive_task entry); [done|exact Hph].
Qed.

Lemma inv_entries E s : udp_inv s → E ⊆ ur_entries s → udp_inv (ur_set_entries E s).
Proof.
  intros (I1 & I2 & I3 & I4) Hsub. split_and!; [|exact I2|exact I3|exact I4]. intros id e He. eapply I1, lookup_weaken; done.
Qed.

Lemma new_entry_ok w S e c a : entry_ok w S e (udp_new_entry c a).
Proof.
  split_and!; simpl; [|lia|unfold u64_max; lia|by left| |].
  - unfold UdpRuntime_entry_state_for. by destruct (al_host a), (al_target_port a).
  - intros client x. simpl. by rewrite lookup_empty.
  - by intros ph [= <-].
Qed.

(** A new listener. *)
Lemma inv_new_entry s a :
  udp_inv s →
  udp_inv (ur_count_ref (ur_set_heap (<[ur_next s := udp_new_entry (ur_config s) a]> (ur_heap s)) s)).
Proof.
  intros (I1 & I2 & I3 & I4).
  assert (ur_heap s !! ur_next s = None) as Hnone.
  { destruct (ur_heap s !! ur_next s) as [entry|] eqn:Hx; [|done]. destruct (I2 _ _ Hx). lia. }
  split_and!; simpl; [| | |by intros x Hx%elem_of_nil].
  - intros id e He. apply I1 in He. apply lookup_insert_is_Some. destruct (decide (ur_next s = e)); auto.
  - intros e entry [[<- <-]|[Hne He]]%lookup_insert_Some; [split; [lia|apply new_entry_ok]|].
    destruct (I2 _ _ He). split; [lia|done].
  - intros x y Hx. destruct (I3 _ _ Hx) as [Hlt (entry & He & Hr)]. split; [lia|].
    exists entry. rewrite lookup_insert_ne; [done|]. intros Heq. congruence.
Qed.

Lemma bind_inv a r s :
  udp_inv s →
  wp (udp_bind_socket a r) (λ o s', udp_inv s' ∧ ∀ e, o = Ok e → is_Some (ur_heap s' !! e)) s.
Proof.
  intros Hinv. unfold udp_bind_socket, wp. simpl. destruct (ur_binds _ _ _); simpl.
  - split; [by apply (inv_new_entry (ur_count_bind s) a)|]. intros e [= <-]. simpl. rewrite lookup_insert_eq. by eexists.
  - destruct r; (split; [exact Hinv|done]).
Qed.

Lemma bind_entry_inv a r s :
  udp_inv s →
  wp (UdpRuntime_bind_entry a r) (λ o s', udp_inv s' ∧ ∀ e, o = Ok e → is_Some (ur_heap s' !! e)) s.
Proof.
  intros Hinv. unfold UdpRuntime_bind_entry. wp_simpl. destruct (map_err _ _); [by apply bind_inv|by split].
Qed.

Lemma inv_insert_entry id e s :
  udp_inv s → is_Some (ur_heap s !! e) → udp_inv (ur_set_entries (<[id := e]> (ur_entries s)) s).
Proof.
  intros (I1 & I2 & I3 & I4) He. split_and!; [|exact I2|exact I3|exact I4].
  intros id0 e0. simpl. intros [[<- <-]|[_ H0]]%lookup_insert_Some; [done|by eapply I1].
Qed.

Lemma track_inv a r s :
  udp_inv s → wp (udp_track a r) (λ _ s', udp_inv s') s.
Proof.
  intros Hinv. unfold udp_track. destruct (negb _); [exact Hinv|]. wp_simpl.
  eapply wp_mono; [by apply bind_entry_inv|]. intros [e|err] s1 [Hs1 He]; [|exact Hs1]. wp_simpl.
  eapply inv_same; [apply udp_same_metric|]. apply inv_insert_entry; [done|by apply He].
Qed.

Lemma saturating_bump g : 0 ≤ g ≤ u64_max → g ≤ u64_saturating_add g 1 ≤ u64_max ∧ (g < u64_max → g < u64_saturating_add g 1).
Proof. unfold u64_saturating_add. lia. Qed.

(** After a bump of its generation an entry's rows are of one that has passed, until its
    table is drained. *)
Definition stale (e : nat) : Window := {| wn_stale := Some e; wn_drained := [] |}.

Lemma entry_ok_stale S e e' entry : entry_ok shut S e' entry → entry_ok (stale e) S e' entry.
Proof.
  intros (? & ? & ? & Ht & Hph). split_and!; [done|lia|lia|done| |].
  - intros c x Hc. destruct (Ht c x Hc) as (? & y & ? & ? & ? & ? & Hcur & ?). split; [done|].
    exists y. split_and!; try done. intros _. by apply Hcur.
  - intros ph Hrx. by apply Hph.
Qed.

Lemma bump_entry_ok S e entry st :
  entry_ok shut S e entry → us_generation st = u64_saturating_add (us_generation (ue_state entry)) 1 →
  entry_ok (stale e) S e (ue_set_state st entry).
Proof.
  intros (Hg & Hb & Hsz & Ht & Hph) Hst. rewrite Hg in Hst.
  destruct (saturating_bump _ Hb) as [Hle Hlt]. split_and!; simpl; [done|lia|lia|done| |].
  - intros c x Hc. destruct (Ht c x Hc) as (Hnd & y & Hy & Hye & Hyc & Hyg & Hcur & Hop). split; [done|].
    simpl in Hcur. specialize (Hcur ltac:(done)). exists y. split_and!; try done; simpl; [lia|].
    intros Heq. split; [by apply Hop|]. intros ?. lia.
  - intros ph Hrx. specialize (Hph ph Hrx).
    assert (∀ c g u x, g ≤ ue_generation entry → knows S e (ue_generation entry) c g u x →
              knows S e (us_generation st) c g u x) as Hknows.
    { intros c g u x Hle' (y & ? & ? & ? & ? & ?). exists y. split_and!; try done. intros. lia. }
    assert (∀ p, prep_ok S e entry p → prep_ok S e (ue_set_state st entry) p) as Hprep.
    { intros p (? & ? & ? & Hp). split_and!; simpl; [lia|intros; lia|done|].
      intros i d x Hi Hx. apply Hknows; [done|by eapply Hp]. }
    destruct ph as [|b|p|p|p x|p x|p x|b l gs]; simpl in *; try done.
    + by apply Hprep.
    + destruct Hph as (? & ? & ?). auto.
    + destruct Hph as (Hp & ? & ? & [? ?] & c & ? & ?). pose proof Hp as (? & _).
      split_and!; [auto|done|done|done|done|exists c; auto].
    + destruct Hph as (Hp & c & ? & ? & ?). pose proof Hp as (? & _). split; [auto|exists c; auto].
    + destruct Hph as (Hp & c & ? & ?). pose proof Hp as (? & _). split; [auto|exists c; auto].
    + destruct Hph as (? & (g & u & ? & ? & Hp) & ?). split_and!; [done| |done].
      exists g, u. split_and!; [lia|intros; lia|]. intros i d x Hi Hx. apply Hknows; [done|by eapply Hp].
Qed.

(** The update of the state. *)
Lemma inv_set_state e f s :
  udp_inv s →
  (∀ entry, us_generation (f entry) = u64_saturating_add (us_generation (ue_state entry)) 1) →
  inv_within (stale e) (ur_alter_entry (λ x, ue_set_state (f x) x) e s).
Proof.
  intros (I1 & I2 & I3 & I4) Hf. split_and!; simpl; [| | |exact I4].
  - intros id e0 H0. apply I1 in H0 as [entry He]. rewrite lookup_alter. case_decide as Heq; [subst e0|]; rewrite He; by eexists.
  - intros e0 entry0. rewrite lookup_alter. case_decide as Heq; [subst e0|].
    + intros (entry & He & ->)%fmap_Some. destruct (I2 _ _ He). split; [done|]. by apply bump_entry_ok.
    + intros H0. destruct (I2 _ _ H0). split; [done|]. by apply entry_ok_stale.
  - intros x y Hx. destruct (I3 _ _ Hx) as [Hlt (entry & He & Hge & Hr)]. split; [done|].
    unfold session_ok. rewrite lookup_alter. case_decide as Heq; [subst e|];
      rewrite He; eexists; (split_and!; [reflexivity| |exact Hr]); [|done].
    destruct (I2 _ _ He) as [_ (Hg & Hb & _)]. simpl. rewrite Hf, Hg. pose proof (saturating_bump _ Hb). lia.
Qed.

(** The rows that had passed are gone. *)
Lemma stale_over e s entry :
  inv_within (stale e) s → ur_heap s !! e = Some entry → ue_sessions entry = ∅ → udp_inv s.
Proof.
  intros (I1 & I2 & I3 & I4) He Hempty. split_and!; [exact I1| |exact I3|exact I4].
  intros e' entry' He'. destruct (I2 _ _ He') as [Hlt (? & ? & ? & Ht & Hph)]. split; [done|].
  split_and!; [done|lia|lia|done| |exact Hph]. intros c x Hc.
  destruct (Ht c x Hc) as (? & y & ? & ? & ? & ? & Hcur & ?). split; [done|]. exists y.
  split_and!; try done. intros _. apply Hcur. simpl. intros [= ->].
  assert (entry' = entry) as -> by congruence. by rewrite Hempty, lookup_empty in Hc.
Qed.

Lemma update_inv a t s : udp_inv s → wp (UdpRuntime_update a t) (λ _ s', udp_inv s') s.
Proof.
  intros Hinv. unfold UdpRuntime_update. wp_simpl. destruct (ur_entries s !! al_id a) as [e|] eqn:Hid; [|done].
  simpl. assert (is_Some (ur_heap s !! e)) as [entry He] by (by eapply Hinv).
  set (f := λ x : UdpListenerEntry, us_set_generation (u64_saturating_add (us_generation (ue_state x)) 1)
              (UdpRuntime_entry_state_for a)).
  assert (∀ s0, same_udp s s0 → udp_inv (ur_inc runtime_apply_total (drop_unheld (UdpRuntime_close_sessions e true
    (ur_alter_entry (λ x, ue_set_state (f x) x) e s0))))) as Hgo.
  { intros s0 Hs0. eapply inv_same; [apply udp_same_metric|]. apply inv_drop_unheld.
    pose proof (inv_set_state e f s0 (inv_same _ _ _ Hs0 Hinv)) as Hst.
    destruct Hs0 as (_ & _ & _ & HH). destruct (HH e) as [m Hm]. rewrite He in Hm. simpl in Hm.
    set (s1 := ur_alter_entry _ e s0) in *.
    destruct (close_sessions_state e true s1 (ue_set_state (f (ue_set_metrics m entry)) (ue_set_metrics m entry)))
      as (_ & _ & HH1 & _); [unfold s1; simpl; by rewrite lookup_alter_eq, Hm|].
    eapply stale_over; [by apply inv_close_sessions, Hst|rewrite HH1; apply lookup_insert_eq|done]. }
  case_bool_decide; wp_simpl; apply Hgo; [apply udp_same_metric|reflexivity].
Qed.

Lemma delete_inv id t s : udp_inv s → wp (UdpRuntime_delete id t) (λ _ s', udp_inv s') s.
Proof.
  intros Hinv. unfold UdpRuntime_delete. wp_simpl. destruct (ur_entries s !! id); [|done].
  wp_simpl. apply inv_drop_unheld, inv_stop_entry, inv_entries; [done|apply delete_subseteq].
Qed.

Lemma shutdown_inv s : udp_inv s → udp_inv (UdpRuntime_shutdown_all s).
Proof.
  intros Hinv. apply inv_drop_unheld. generalize (map_to_list (ur_entries s)).*2. intros l.
  induction l as [|e l IH]; cbn [foldr]; [apply inv_entries; [done|apply map_empty_subseteq]|by apply inv_stop_entry].
Qed.

Lemma request_inv q s : udp_inv s → udp_inv (run_udp q s).
Proof.
  intros Hinv. destruct q; simpl.
  - by apply track_inv.
  - by apply update_inv.
  - by apply delete_inv.
  - by apply track_inv.
  - by apply shutdown_inv.
Qed.

(** * Events *)
Lemma receiving_Some e s p entry :
  receiving e s = Some (p, entry) → ur_heap s !! e = Some entry ∧ ue_receive entry = Some p.
Proof.
  unfold receiving. destruct (ur_heap s !! e) as [x|]; simpl; [|done].
  destruct (ue_receive x) as [q|] eqn:Hq; simpl; [|done]. by intros [= -> ->].
Qed.

Lemma replying_Some x s r y :
  replying x s = Some (r, y) → ur_sessions s !! x = Some y ∧ ux_reply y = Some r.
Proof.
  unfold replying. destruct (ur_sessions s !! x) as [z|]; simpl; [|done].
  destruct (ux_reply z) as [q|] eqn:Hq; simpl; [|done]. by intros [= -> ->].
Qed.

Lemma receiving_phase w e s p entry :
  inv_within w s → receiving e s = Some (p, entry) →
  ur_heap s !! e = Some entry ∧ ue_receive entry = Some p ∧
  entry_ok w (ur_sessions s) e entry ∧ phase_ok w (ur_sessions s) e entry p.
Proof.
  intros Hinv [He Hp]%receiving_Some. destruct Hinv as (_ & I2 & _). destruct (I2 _ _ He) as [_ Hok].
  split_and!; [done..|]. by apply Hok.
Qed.

(** A phase for the entry that is there. *)
Lemma inv_phase w ph e entry s :
  inv_within w s → ur_heap s !! e = Some entry → phase_ok w (ur_sessions s) e entry ph →
  inv_within w (set_receive ph e s).
Proof.
  intros Hinv He Hph. apply inv_set_receive; [done|]. intros entry' He' _. congruence.
Qed.

Lemma peers_push S e now g u batch sessions d (x : option nat) :
  peers_ok S e now g u batch sessions → batch !! length sessions = Some d →
  (∀ x', x = Some x' → knows S e now (dg_peer d) g u x') →
  peers_ok S e now g u batch (sessions ++ [x]).
Proof.
  intros Hp Hd Hx i d' x' Hi. rewrite lookup_app_Some. intros [Hl|[Hge Hl]]; [by eapply Hp|].
  apply list_lookup_singleton_Some in Hl as [Hz ->]. assert (i = length sessions) as -> by lia.
  assert (d' = d) as -> by congruence. by apply Hx.
Qed.

Lemma prep_push S e entry p d (x : option nat) :
  prep_ok S e entry p → pr_batch p !! length (pr_sessions p) = Some d →
  (∀ x', x = Some x' → knows S e (ue_generation entry) (dg_peer d) (pr_generation p) (prep_target p) x') →
  prep_ok S e entry (push_session p x).
Proof.
  intros (Hg & Ht & Hl & Hp) Hd Hx. split_and!; simpl; [done|done| |by eapply peers_push].
  rewrite length_app. simpl. apply lookup_lt_Some in Hd. lia.
Qed.

Lemma prep_push_none S e entry p d :
  prep_ok S e entry p → pr_batch p !! length (pr_sessions p) = Some d →
  prep_ok S e entry (push_session p None).
Proof. intros Hp Hd. by eapply prep_push. Qed.

Lemma next_peer_Some p c :
  next_peer p = Some c → ∃ d, pr_batch p !! length (pr_sessions p) = Some d ∧ dg_peer d = c.
Proof. unfold next_peer. intros (d & Hd & ->)%fmap_Some. eauto. Qed.

Lemma previous_session_ok S e now g u batch sessions peer x :
  (length sessions ≤ length batch)%nat →
  peers_ok S e now g u batch sessions → previous_session batch sessions peer = Some x →
  knows S e now peer g u x.
Proof.
  unfold previous_session. intros Hl Hp ([i d] & Hf & Hx)%bind_Some. simpl in Hx.
  apply list_find_Some in Hf as (Hi & Hpeer & _). simpl in Hpeer. subst peer.
  apply lookup_take_Some in Hi as [Hi _].
  destruct (sessions !! i) as [o|] eqn:Ho; simpl in Hx; [|done]. subst o. by eapply Hp.
Qed.

Lemma found_ok w S e entry p c x :
  entry_ok w S e entry → prep_ok S e entry p →
  (x0 ← ue_sessions entry !! c; y ← S !! x0;
   if ux_generation y =? pr_generation p then Some x0 else None) = Some x →
  knows S e (ue_generation entry) c (pr_generation p) (prep_target p) x.
Proof.
  intros (_ & _ & _ & Ht & _) (Hg & Htar & _) (x0 & Hx0 & (y & Hy & Hif)%bind_Some)%bind_Some.
  destruct (Z.eqb_spec (ux_generation y) (pr_generation p)) as [Heq|]; [|done]. injection Hif as ->.
  destruct (Ht _ _ Hx0) as (_ & y' & Hy' & He & Hc & _ & Hcur & Hop).
  assert (y' = y) as -> by congruence. exists y. split_and!; [done..|].
  intros Hnow Hlt. destruct Hop as [_ Htarget]; [congruence|].
  specialize (Htar Hnow Hlt). rewrite Hnow in Hlt. specialize (Htarget Hlt). congruence.
Qed.

(** ** Preparing a batch *)
Lemma inv_received w e entry batch s : inv_within w s → inv_within w (received e entry batch s).
Proof.
  intros Hinv. apply inv_set_receive; [|by intros]. eapply inv_same; [|exact Hinv].
  etrans; [|apply same_alter_metrics; intros x; by eexists].
  etrans; [|apply udp_same_metric]. etrans; [|apply udp_same_metric].
  destruct (ue_udp_batch_enabled entry); [|reflexivity]. etrans; [apply udp_same_metric|apply udp_same_metric].
Qed.

Lemma inv_prepare_begin w e entry batch s :
  inv_within w s → ur_heap s !! e = Some entry → inv_within w (prepare_begin e entry batch s).
Proof.
  intros Hinv He. unfold prepare_begin.
  assert (inv_within w (batch_done (length batch) e (ur_add rejected_no_host_total (Z.of_nat (length batch)) s))) as Hno.
  { apply inv_batch_done. eapply inv_same; [apply udp_same_metric|done]. }
  destruct (us_effective_host (ue_state entry)) as [host|] eqn:Hh; [|exact Hno].
  destruct (us_effective_target_port (ue_state entry)) as [port|] eqn:Hp; [|exact Hno].
  eapply inv_phase; [done|done|]. destruct Hinv as (_ & I2 & _). destruct (I2 _ _ He) as [_ (Hg & _)].
  split_and!; simpl; [lia| |lia|by intros i d x Hd].
  intros _ _. unfold entry_target. by rewrite Hh, Hp.
Qed.

Lemma local_known S e entry p x :
  prep_ok S e entry p → x ∈ omap id (pr_sessions p) →
  ∃ c, knows S e (ue_generation entry) c (pr_generation p) (prep_target p) x.
Proof.
  intros (_ & _ & Hlen & Hp) (o & Ho & Hid)%list_elem_of_omap. assert (o = Some x) as -> by exact Hid.
  apply list_elem_of_lookup in Ho as [i Hi]. pose proof (lookup_lt_Some _ _ _ Hi) as Hlt.
  destruct (pr_batch p !! i) as [d|] eqn:Hd; [|apply lookup_ge_None in Hd; lia].
  exists (dg_peer d). by eapply Hp.
Qed.

(** A session of the batch is of the batch's generation. *)
Lemma local_generation S e entry p x y :
  prep_ok S e entry p → x ∈ omap id (pr_sessions p) → S !! x = Some y →
  ux_generation y = pr_generation p.
Proof.
  intros Hp Hx Hy. destruct (local_known _ _ _ _ _ Hp Hx) as (c & y' & Hy' & _ & _ & Hg & _). congruence.
Qed.

(** Closing a session of a batch whose generation has passed. *)
Lemma inv_stale w e entry p l s :
  inv_within w s → ur_heap s !! e = Some entry → ue_receive entry = Some (RxLookup p) →
  ue_generation entry ≠ pr_generation p → (∀ x, x ∈ l → x ∈ omap id (pr_sessions p)) →
  let s' := foldr (ur_alter_session (ux_set_closed true)) s l in
  inv_within w s' ∧ ur_heap s' = ur_heap s.
Proof.
  intros Hinv He Hrx Hne. cbv zeta. induction l as [|x l IH]; intros Hl; cbn [foldr]; [done|].
  destruct IH as [Hi HH]; [set_solver|]. set (s1 := foldr _ s l) in *. split; [|exact HH].
  apply inv_alter_session; [done|]. intros y Hy. split_and!; [done|done|].
  intros entry0 He0 Hok0. split; [|by intros [_ ?]].
  destruct Hi as (_ & I2 & _). destruct (I2 e entry) as [_ Hok]; [by rewrite HH|].
  pose proof Hok as (_ & _ & _ & _ & Hph). specialize (Hph _ Hrx).
  assert (x ∈ omap id (pr_sessions p)) as Hx by (apply Hl; by left).
  assert (ux_entry y = e) as Hxe.
  { eapply holds_entry; [exact Hok|right; by exists (RxLookup p)|done]. }
  rewrite Hxe, HH, He in He0. injection He0 as <-. intros [[_ Hcur]|(p' & Hp')]; [|congruence].
  pose proof (local_generation _ _ _ _ _ _ Hph Hx Hy). congruence.
Qed.

Lemma prepare_end_spec w e entry p g now seen rest s :
  inv_within w s → ur_heap s !! e = Some entry → ue_receive entry = Some (RxLookup p) →
  pr_generation p = g →
  (∀ i x, rest !! i = Some (Some x) → x ∈ omap id (pr_sessions p)) →
  let '(l, s') := prepare_end g now seen rest s in
  inv_within w s' ∧ ur_heap s' = ur_heap s ∧ length l = length (seen ++ rest) ∧
  ∀ i x, l !! i = Some (Some x) → (seen ++ rest) !! i = Some (Some x).
Proof.
  intros Hinv He Hrx Hg. revert seen s Hinv He. induction rest as [|[x|] rest IH]; intros seen s Hinv He Hrest; simpl.
  - rewrite app_nil_r. done.
  - assert (∀ o s1, inv_within w s1 → ur_heap s1 = ur_heap s → (∀ x', o = Some x' → x' = x) →
      let '(l, s') := prepare_end g now (seen ++ [o]) rest s1 in
      inv_within w s' ∧ ur_heap s' = ur_heap s ∧ length l = length (seen ++ Some x :: rest) ∧
      ∀ i x', l !! i = Some (Some x') → (seen ++ Some x :: rest) !! i = Some (Some x')) as Hgo.
    { intros o s1 Hinv1 HH1 Ho. specialize (IH (seen ++ [o]) s1 Hinv1).
      destruct (prepare_end g now (seen ++ [o]) rest s1) as [l s'].
      destruct IH as (? & ? & Hlen & Hsub); [by rewrite HH1|intros i; apply (Hrest (S i))|].
      split_and!; [done|congruence|rewrite Hlen, !length_app; simpl; lia|].
      intros i x' Hi. apply Hsub in Hi. rewrite <- app_assoc in Hi. simpl in Hi.
      rewrite lookup_app in Hi |- *. destruct (seen !! i); [done|].
      destruct (i - length seen)%nat as [|k]; simpl in *; [|done].
      injection Hi as ->. by rewrite (Ho x'). }
    destruct (ur_sessions s !! x) as [y|] eqn:Hy; [|by apply (Hgo None)].
    destruct (negb (ux_generation y =? g) || ux_closed y) eqn:Hbad.
    + apply (Hgo None); [|done|done]. eapply inv_same; [apply udp_same_metric|].
      apply inv_alter_session; [done|]. intros y0 Hy0. assert (y0 = y) as -> by congruence.
      split_and!; [done|done|]. intros entry0 He0 Hok0. split; [|by intros [_ ?]].
      pose proof Hinv as (_ & I2 & _). destruct (I2 _ _ He) as [_ Hok].
      assert (local entry x) as Hloc.
      { exists (RxLookup p). split; [done|]. simpl. by apply (Hrest 0%nat). }
      assert (ux_entry y = e) as Hxe by (eapply holds_entry; [exact Hok|by right|done]).
      rewrite Hxe, He in He0. injection He0 as <-. intros [[[c Hc] Hcur]|(p' & Hp')]; [|congruence].
      destruct (row_session _ _ _ _ _ _ _ Hok Hc Hy) as (_ & _ & _ & Hop). destruct (Hop Hcur) as [Hcl _].
      pose proof Hok as (_ & _ & _ & _ & Hph).
      pose proof (local_generation _ _ _ _ _ _ (Hph _ Hrx) (Hrest 0%nat x eq_refl) Hy).
      rewrite Hcl, orb_false_r, negb_true_iff, Z.eqb_neq in Hbad. congruence.
    + apply (Hgo (Some x)); [|by case_bool_decide|by intros x' [= <-]].
      case_bool_decide; [done|]. apply inv_alter_session; [done|]. intros y0 Hy0. split_and!; [done|done|].
      intros entry0 He0 Hok0. split; [done|by left].
  - specialize (IH (seen ++ [None]) s Hinv He). destruct (prepare_end g now (seen ++ [None]) rest s) as [l s'].
    destruct IH as (? & ? & Hlen & Hsub); [intros i; apply (Hrest (S i))|].
    split_and!; [done|done|rewrite Hlen, !length_app; simpl; lia|].
    intros i x Hi. apply Hsub in Hi. by rewrite <- app_assoc in Hi.
Qed.

Lemma group_indexes_ok sessions first x i :
  i ∈ group_indexes sessions first x → sessions !! i = Some (Some x).
Proof. unfold group_indexes. by intros [? _]%list_elem_of_filter. Qed.

Lemma group_loop_ok sessions grouped firsts x idx i :
  (x, idx) ∈ group_loop sessions grouped firsts → i ∈ idx → sessions !! i = Some (Some x).
Proof.
  revert grouped. induction firsts as [|first firsts IH]; intros grouped; simpl; [by intros ?%elem_of_nil|].
  destruct (mjoin (sessions !! first)) as [x0|]; [|apply IH]. case_bool_decide; [apply IH|].
  intros [[= -> ->]|Hin]%elem_of_cons; [apply group_indexes_ok|by eapply IH].
Qed.

Lemma inv_send_groups w e batch sessions groups s :
  inv_within w s →
  (∀ entry, ur_heap s !! e = Some entry → phase_ok w (ur_sessions s) e entry (RxSend batch sessions groups)) →
  inv_within w (send_groups batch sessions groups e s).
Proof.
  intros Hinv Hph. destruct groups as [|g groups]; [by apply inv_batch_done|].
  apply inv_set_receive; [done|]. intros entry He _. by apply Hph.
Qed.

Lemma inv_prepare_finish w e entry p s :
  inv_within w s → ur_heap s !! e = Some entry → ue_receive entry = Some (RxLookup p) →
  inv_within w (prepare_finish e entry p s).
Proof.
  intros Hinv He Hrx. unfold prepare_finish.
  destruct (Z.eqb_spec (ue_generation entry) (pr_generation p)) as [Hg|Hg]; simpl.
  - pose proof (prepare_end_spec w e entry p (pr_generation p) (ur_now s) [] (pr_sessions p) s Hinv He Hrx eq_refl) as Hend.
    destruct (prepare_end _ _ [] (pr_sessions p) s) as [l s'].
    destruct Hend as (Hinv' & HH & Hlen & Hsub); [intros i x; apply list_some_local|]. simpl in *.
    apply inv_send_groups; [done|]. intros entry' He'.
    assert (entry' = entry) as -> by congruence. rewrite <- HH in He.
    destruct Hinv' as (_ & I2 & _). destruct (I2 _ _ He) as [_ (_ & _ & _ & _ & Hph)].
    specialize (Hph _ Hrx). destruct Hph as (Hpg & Htar & Hl & Hp). split_and!.
    + by rewrite Hlen.
    + exists (pr_generation p), (prep_target p). split_and!; [done..|]. intros i d x Hd Hi. by eapply Hp, Hsub.
    + intros x idx Hin i. by eapply group_loop_ok.
  - apply inv_batch_done. eapply inv_same; [apply udp_same_metric|].
    by apply (inv_stale w e entry p (omap id (pr_sessions p))).
Qed.

Lemma inv_prepare_next w e entry p s :
  inv_within w s → ur_heap s !! e = Some entry → ue_receive entry = Some (RxLookup p) →
  inv_within w (prepare_next e entry p s).
Proof.
  intros Hinv He Hrx. unfold prepare_next.
  destruct (pr_batch p !! length (pr_sessions p)) as [d|] eqn:Hd; [|by apply inv_prepare_finish].
  assert (entry_ok w (ur_sessions s) e entry) as Hok by (by apply Hinv).
  assert (prep_ok (ur_sessions s) e entry p) as Hp.
  { destruct Hok as (_ & _ & _ & _ & Hph). exact (Hph _ Hrx). }
  destruct (previous_session _ _ _) as [x|] eqn:Hprev.
  { eapply inv_phase; [done|done|]. eapply prep_push; [done|done|]. intros x' [= <-].
    destruct Hp as (_ & _ & Hl & Hpe). by eapply previous_session_ok. }
  unfold session_lookup. destruct (x ← _; _) as [x|] eqn:Hf.
  { eapply inv_phase; [done|done|]. eapply prep_push; [done|done|]. intros x' [= <-]. by eapply found_ok. }
  destruct (Z.leb_spec (ue_max_sessions entry) (Z.of_nat (size (ue_sessions entry)))).
  - eapply inv_phase; [by eapply inv_same; [apply udp_same_metric|]|done|]. by eapply prep_push_none.
  - eapply inv_phase; [done|done|]. split_and!; [done|unfold next_peer; rewrite Hd; by eexists|done].
Qed.

(** ** A new session *)
Lemma fresh_session w s : inv_within w s → ur_sessions s !! ur_next s = None.
Proof.
  intros (_ & _ & I3 & _). destruct (ur_sessions s !! ur_next s) as [y|] eqn:Hy; [|done].
  destruct (I3 _ _ Hy). lia.
Qed.

Lemma inv_add_session w e entry y s :
  inv_within w s → ur_heap s !! e = Some entry → ux_entry y = e → ux_reply y = None →
  ux_generation y ≤ ue_generation entry →
  inv_within w (ur_count_ref (ur_set_sessions (<[ur_next s := y]> (ur_sessions s)) s)).
Proof.
  intros Hinv He Hy Hr Hgen. pose proof (fresh_session _ _ Hinv) as Hfresh. destruct Hinv as (I1 & I2 & I3 & I4).
  split_and!; simpl; [done| | |by intros x ?%I4; lia].
  - intros e0 entry0 He0. destruct (I2 _ _ He0) as [Hlt Hok]. split; [lia|].
    eapply entry_frame; [|exact Hok]. intros x y0 Hh Hx. exists y0. split_and!; try done.
    rewrite lookup_insert_ne; [done|]. intros <-. congruence.
  - intros x y0 [[<- <-]|[_ Hx]]%lookup_insert_Some.
    + split; [lia|]. exists entry. unfold live. rewrite Hy, Hr. split_and!; [done|done|]. by intros [[? ?] _].
    + destruct (I3 _ _ Hx) as [Hlt Hok]. split; [lia|exact Hok].
Qed.

(** A session without a row in its own table is in no table. *)
Lemma inv_create_session w e entry p d connected s :
  inv_within w s → ur_heap s !! e = Some entry → ue_receive entry = Some (RxCreate p) →
  pr_batch p !! length (pr_sessions p) = Some d →
  inv_within w (create_session e p (dg_peer d) connected s).
Proof.
  intros Hinv He Hrx Hd.
  assert (entry_ok w (ur_sessions s) e entry) as Hok by (by apply Hinv).
  pose proof Hok as (_ & _ & _ & Ht & Hph). destruct (Hph _ Hrx) as (Hp & _ & Hroom).
  unfold create_session. destruct connected.
  - set (y := Build_UdpSession _ _ _ _ _ _ _ _).
    pose proof (inv_add_session w e entry y s Hinv He eq_refl eq_refl (proj1 Hp)) as Hinv1.
    set (s1 := ur_count_ref _) in *.
    assert (same_udp s1 (SessionGuard_new e s1)) as Hsame.
    { unfold SessionGuard_new. etrans; [|apply same_alter_metrics; intros x; by eexists].
      etrans; [apply udp_same_metric|apply udp_same_metric]. }
    pose proof (inv_same _ _ _ Hsame Hinv1) as Hinv2. destruct Hsame as (_ & HS2 & _ & HH2).
    destruct (HH2 e) as [m Hm]. change (ur_heap s1) with (ur_heap s) in Hm. rewrite He in Hm. simpl in Hm.
    eapply inv_phase; [exact Hinv2|exact Hm|]. rewrite HS2.
    assert (entry_ok w (ur_sessions s1) e entry) as Hok1.
    { destruct Hinv1 as (_ & I2 & _). by apply (I2 e entry). }
    destruct Hok1 as (_ & _ & _ & Ht1 & Hph1). destruct (Hph1 _ Hrx) as (Hp1 & _ & _).
    assert (ur_sessions s1 !! ur_next s = Some y) as Hy by apply lookup_insert_eq.
    split_and!; [exact Hp1|exact Hroom|by exists y| | |].
    + intros c Hc. simpl in Hc. destruct (Ht _ _ Hc) as (_ & y0 & Hy0 & _).
      rewrite (fresh_session _ _ Hinv) in Hy0. done.
    + intros Hd'. destruct Hinv as (_ & _ & _ & I4). apply I4 in Hd'. lia.
    + exists (dg_peer d). unfold next_peer. rewrite Hd. split; [done|]. by exists y.
  - eapply inv_phase; [|done|by eapply prep_push_none]. eapply inv_same; [|exact Hinv].
    etrans; apply udp_same_metric.
Qed.

Lemma alter_entry_compose f g e s :
  ur_alter_entry f e (ur_alter_entry g e s) = ur_alter_entry (λ x, f (g x)) e s.
Proof.
  unfold ur_alter_entry. simpl. unfold ur_set_heap. simpl. f_equal. apply map_eq. intros i.
  destruct (decide (i = e)) as [->|]; [rewrite !lookup_alter_eq|by rewrite !lookup_alter_ne].
  by destruct (ur_heap s !! e).
Qed.

(** The row of a client at the current generation is found before it is replaced. *)
Lemma other_row (entry : UdpListenerEntry) (S : gmap nat UdpSession) (c : SocketAddr) (g : Z) :
  (y ← ue_sessions entry !! c; session ← S !! y;
   if ux_generation session =? g then Some y else None) = None →
  ∀ x z, ue_sessions entry !! c = Some x → S !! x = Some z → ux_generation z ≠ g.
Proof.
  intros Hnone x z Hc Hz. rewrite Hc in Hnone. simpl in Hnone. rewrite Hz in Hnone. simpl in Hnone.
  intros <-. by rewrite Z.eqb_refl in Hnone.
Qed.

(** The new session takes its client's row, from one that cannot reply any more. *)
Lemma inv_insert_row w e entry p x c s :
  inv_within w s → ur_heap s !! e = Some entry → ue_receive entry = Some (RxInsert p x) →
  next_peer p = Some c → ue_generation entry = pr_generation p →
  (∀ x' y, ue_sessions entry !! c = Some x' → ur_sessions s !! x' = Some y → ux_closed y = true) →
  inv_within w (set_receive (RxSpawn p x) e
    (ur_alter_entry (λ y, ue_set_sessions (<[c := x]> (ue_sessions y)) (ue_set_empty_since None y)) e s)).
Proof.
  intros Hinv He Hrx Hc Hg Hold. unfold set_receive. rewrite alter_entry_compose.
  apply inv_alter_rows; [done|]. intros entry' He' Hok. assert (entry' = entry) as -> by congruence.
  pose proof Hok as (Hge & Hgb & Hsz & Ht & Hph).
  destruct (Hph _ Hrx) as (Hp & Hroom & (y & Hy & Hcl) & [Hno Hnd] & c' & Hc' & Hk).
  assert (c' = c) as -> by congruence. destruct Hk as (y' & Hy' & Hye & Hyc & Hyg & Hu).
  assert (y' = y) as -> by congruence. pose proof Hp as (Hpg & Htar & Hl & Hpe).
  split; [|split; [simpl; lia|]].
  - split_and!; simpl; [done|lia|lia| | |].
    + right. unfold room in Hroom. rewrite map_size_insert. destruct (_ !! c); simpl; lia.
    + intros c0 x' Hx. simpl in Hx. apply lookup_insert_Some in Hx as [[<- <-]|[Hne Hx]]; [|by apply Ht].
      split; [done|]. exists y. simpl. split_and!; [done..|lia|congruence|].
      intros _. split; [done|]. intros Hlt. unfold prep_target in *. rewrite Hu by congruence || lia.
      apply Htar; congruence || lia.
    + intros ph [= <-]. split; [exact Hp|]. exists c. split_and!; [done|by exists y|].
      intros _. left. apply lookup_insert_eq.
  - intros c0 x' y0 Hx Hy0 [_ Hlive]. simpl. rewrite lookup_insert_ne; [done|].
    intros <-. rewrite (Hold _ _ Hx Hy0) in Hlive. done.
Qed.

Lemma inv_session_insert w e entry p x d s :
  inv_within w s → ur_heap s !! e = Some entry → ue_receive entry = Some (RxInsert p x) →
  pr_batch p !! length (pr_sessions p) = Some d →
  inv_within w (session_insert e entry p x (dg_peer d) s).
Proof.
  intros Hinv He Hrx Hd.
  assert (entry_ok w (ur_sessions s) e entry) as Hok by (by apply Hinv).
  pose proof Hok as (Hge & Hgb & Hsz & Ht & Hph).
  destruct (Hph _ Hrx) as (Hp & Hroom & Hopen & Hno & c & Hc & Hk).
  assert (c = dg_peer d) as -> by (unfold next_peer in Hc; rewrite Hd in Hc; simpl in Hc; congruence).
  unfold session_insert. destruct (y ← _; _) as [y|] eqn:Hf.
  { eapply inv_phase; [done|done|]. eapply prep_push; [done|done|]. intros x' [= <-]. by eapply found_ok. }
  destruct (Z.eqb_spec (ue_generation entry) (pr_generation p)) as [Hg|Hg]; simpl.
  - destruct (ue_sessions entry !! dg_peer d) as [x'|] eqn:Hrow; [|eapply inv_insert_row; [done..|]; congruence].
    set (s1 := close_session x' s).
    assert (inv_within w s1) as Hinv1.
    { apply inv_alter_session; [done|]. intros y Hy. destruct (closed_session_spec y) as (? & Hcl & _).
      unfold closed_session in Hcl. split_and!; [done|done|]. intros entry' He' Hok'. split; [|by intros [_ ?]; congruence].
      destruct (row_session _ _ _ _ _ _ _ Hok Hrow Hy) as (Hye & _). rewrite Hye, He in He'. injection He' as <-.
      intros [[_ Hcur]|(p' & Hp')].
      - exfalso. rewrite <- Hrow in Hf at 1. eapply (other_row entry _ _ _ Hf x' y); [exact Hrow|exact Hy|congruence].
      - rewrite Hrx in Hp'. injection Hp' as <- <-. by destruct Hno as [Hno _], (Hno (dg_peer d)). }
    eapply (inv_same w); [apply (udp_same_metric (Counter_inc udp_reply_drop_total)
      (set_receive (RxSpawn p x) e (ur_alter_entry (λ y, ue_set_sessions (<[dg_peer d := x]> (ue_sessions y))
         (ue_set_empty_since None y)) e s1)))|].
    eapply inv_insert_row; [done..|]. intros x0 y. rewrite Hrow. intros [= <-]. simpl.
    rewrite lookup_alter_eq. intros (y0 & _ & ->)%fmap_Some. apply closed_session_spec.
  - eapply inv_phase; [by eapply inv_same; [apply udp_same_metric|]|done|]. by eapply prep_push_none.
Qed.

(** The receive task goes on with the new session. *)
Lemma inv_found w e entry p x c s :
  inv_within w s → ur_heap s !! e = Some entry → prep_ok (ur_sessions s) e entry p → next_peer p = Some c →
  knows (ur_sessions s) e (ue_generation entry) c (pr_generation p) (prep_target p) x →
  inv_within w (set_receive (RxLookup (push_session p (Some x))) e s).
Proof.
  intros Hinv He Hp Hc Hk. eapply inv_phase; [exact Hinv|exact He|].
  apply next_peer_Some in Hc as (d & Hd & <-). eapply prep_push; [exact Hp|exact Hd|]. by intros x' [= <-].
Qed.

Lemma inv_session_spawn w e entry p x y s :
  inv_within w s → ur_heap s !! e = Some entry → ue_receive entry = Some (RxSpawn p x) →
  ur_sessions s !! x = Some y → inv_within w (session_spawn e p x y s).
Proof.
  intros Hinv He Hrx Hy. unfold session_spawn.
  assert (entry_ok w (ur_sessions s) e entry) as Hok by (by apply Hinv).
  pose proof Hok as (_ & _ & _ & _ & Hph). destruct (Hph _ Hrx) as (Hp & c & Hc & Hk & Hrow).
  destruct (ux_closed y) eqn:Hcl; [by eapply inv_found|].
  assert (inv_within w (ur_alter_session (ux_set_reply (Some ReplyTop)) x s)) as Hinv1.
  { apply inv_alter_session; [done|]. intros y0 Hy0. assert (y0 = y) as -> by congruence.
    split_and!; [done|done|]. intros entry' He' _. split; [done|]. intros _. right.
    destruct Hk as (y' & Hy' & Hxe & Hxc & _). assert (y' = y) as -> by congruence.
    rewrite Hxe, He in He'. injection He' as <-. rewrite Hxc. apply Hrow. by exists y. }
  eapply inv_phase; [exact Hinv1|exact He|].
  destruct Hinv1 as (_ & I2 & _). destruct (I2 e entry He) as [_ (_ & _ & _ & _ & Hph1)].
  destruct (Hph1 _ Hrx) as (Hp1 & c1 & Hc1 & Hk1 & _). split; [exact Hp1|]. by exists c1.
Qed.

Lemma inv_session_store w e entry p x s :
  inv_within w s → ur_heap s !! e = Some entry → ue_receive entry = Some (RxStore p x) →
  inv_within w (session_store e p x s).
Proof.
  intros Hinv He Hrx. unfold session_store.
  assert (inv_within w (ur_alter_session (ux_set_handle true) x s)) as Hinv1.
  { apply inv_alter_session; [done|]. intros y Hy. split_and!; [done|done|].
    intros entry' _ _. split; [done|by left]. }
  pose proof Hinv1 as (_ & I2 & _). destruct (I2 e entry He) as [_ (_ & _ & _ & _ & Hph1)].
  destruct (Hph1 _ Hrx) as (Hp1 & c1 & Hc1 & Hk1). by eapply inv_found.
Qed.

(** ** Sending, cleaning up, replying *)
Lemma inv_group_sent w e entry batch sessions x indexes groups sent s :
  inv_within w s → ur_heap s !! e = Some entry →
  ue_receive entry = Some (RxSend batch sessions ((x, indexes) :: groups)) →
  inv_within w (group_sent e batch sessions x indexes groups sent s).
Proof.
  intros Hinv He Hrx. unfold group_sent. cbv zeta.
  match goal with |- inv_within w (send_groups _ _ _ _ ?s0) => set (s1 := s0) end.
  assert (inv_within w s1 ∧ same_tasks s s1) as [Hinv1 Htasks].
  { unfold s1. destruct sent as [|n]; [done|]. destruct (ur_sessions s !! x) as [y|]; [|done].
    assert (∀ s0, same_udp s s0 → inv_within w (remove_session e (ux_client_addr y) x RemovalError s0) ∧
              same_tasks s (remove_session e (ux_client_addr y) x RemovalError s0)) as Hgo.
    { intros s0 Hs0. pose proof (inv_same _ _ _ Hs0 Hinv) as Hinv0. split; [by apply inv_remove_session|].
      etrans; [|by apply remove_session_tasks]. destruct Hs0 as (_ & _ & _ & HH). intros e0 entry0.
      destruct (HH e0) as [m ->]. intros (entry1 & He1 & ->)%fmap_Some. by exists entry1. }
    apply Hgo. etrans; apply udp_same_metric. }
  apply inv_send_groups; [done|]. intros entry1 He1. destruct (Htasks _ _ He1) as (entry0 & He0 & Hrx1 & _).
  assert (entry0 = entry) as -> by congruence. destruct Hinv1 as (_ & I2 & _).
  destruct (I2 _ _ He1) as [_ (_ & _ & _ & _ & Hph)]. rewrite Hrx1 in Hph.
  destruct (Hph _ Hrx) as (Hl & Hpe & Hgr). split_and!; [done|done|].
  intros x' idx Hin. apply Hgr. by right.
Qed.

Lemma inv_expire w e ttl now l s : inv_within w s → inv_within w (foldr (expire_idle_session e ttl now) s l).
Proof.
  intros Hinv. induction l as [|[c x] l IH]; cbn [foldr]; [done|]. unfold expire_idle_session at 1.
  destruct (ur_sessions _ !! _) as [y|]; [|done]. destruct (_ <? _); [by apply inv_remove_session|done].
Qed.

Lemma inv_cleanup_tick w e ttl s : inv_within w s → inv_within w (cleanup_tick e ttl s).
Proof.
  intros Hinv. unfold cleanup_tick, compact_empty_sessions_after_idle. apply inv_alter_entry.
  - unfold expire_idle_sessions. destruct (ur_heap s !! e); [by apply inv_expire|done].
  - intros entry _ Hok. destruct (ue_empty_since entry); [|done]. by destruct (_ <? _).
Qed.

Lemma inv_set_reply w r x s :
  inv_within w s →
  (∀ y, ur_sessions s !! x = Some y → is_Some r → ux_closed y = false → is_Some (ux_reply y)) →
  inv_within w (set_reply r x s).
Proof.
  intros Hinv Hr. apply inv_alter_session; [done|]. intros y Hy. split_and!; [done|done|].
  intros entry He _. split; [done|]. intros [Hs Hc]. left. split; [by apply Hr|done].
Qed.

(** A session that replies and is not current any more may be closed. *)
Lemma not_current_opens w s x y entry :
  inv_within w s → ur_sessions s !! x = Some y → is_Some (ux_reply y) →
  session_current s x y = false → ur_heap s !! ux_entry y = Some entry → opens entry x y →
  ux_closed y = true.
Proof.
  intros (_ & I2 & I3 & _) Hy Hr Hcur He Ho. destruct (I2 _ _ He) as [_ Hok].
  unfold session_current in Hcur. rewrite He in Hcur. destruct Ho as [[[c Hc] Hg]|(p & Hp)].
  - destruct (row_session _ _ _ _ _ _ _ Hok Hc Hy) as (_ & Hyc & _). subst c.
    by rewrite bool_decide_true, Hg, Z.eqb_refl in Hcur.
  - destruct (ux_closed y) eqn:Hcl; [done|]. destruct (I3 _ _ Hy) as [_ (entry' & He' & _ & Hrow)].
    assert (entry' = entry) as -> by congruence. destruct Hok as (_ & _ & _ & _ & Hph).
    destruct (Hph _ Hp) as (_ & _ & _ & [Hno Hnd] & _).
    destruct (Hrow (conj Hr Hcl)) as [Hrow'|?]; [by destruct (Hno (ux_client_addr y))|done].
Qed.

Lemma inv_reply_received w x y r0 r s :
  inv_within w s → ur_sessions s !! x = Some y → ux_reply y = Some r0 →
  inv_within w (reply_received x y r s).
Proof.
  intros Hinv Hy Hr0. destruct r as [n|]; simpl.
  - destruct (session_current s x y) eqn:Hcur.
    + apply inv_set_reply; [done|]. intros y' Hy2 _ _. assert (y' = y) as -> by congruence. rewrite Hr0. by eexists.
    + apply inv_set_reply; [|by intros ? ? [? ?]]. eapply inv_same; [apply udp_same_metric|].
      apply inv_alter_session; [done|]. intros y' Hy'. assert (y' = y) as -> by congruence.
      split_and!; [done|done|]. intros entry He _. split; [|by intros [_ ?]]. intros Ho.
      symmetry. eapply not_current_opens; [done|done| |done|done|done]. rewrite Hr0. by eexists.
  - apply inv_set_reply; [|by intros ? ? [? ?]]. apply inv_remove_session. eapply inv_same; [apply udp_same_metric|done].
Qed.

Lemma inv_reply_sent w x y r0 r s :
  inv_within w s → ur_sessions s !! x = Some y → ux_reply y = Some r0 →
  inv_within w (reply_sent x y r s).
Proof.
  intros Hinv Hy Hr0. destruct r as [n|]; simpl.
  - set (s1 := ur_alter_entry _ _ _).
    assert (same_udp s s1) as Hs1.
    { unfold s1. etrans; [|apply same_alter_metrics; intros z; by eexists].
      etrans; [|apply udp_same_metric]. etrans; apply udp_same_metric. }
    pose proof (inv_same _ _ _ Hs1 Hinv) as Hinv1. destruct Hs1 as (_ & HS & _).
    assert (inv_within w (ur_alter_session (ux_set_last_seen (ur_now s)) x s1)) as Hinv2.
    { apply inv_alter_session; [done|]. intros z Hz. split_and!; [done|done|]. intros entry He _.
      split; [done|by left]. }
    apply inv_set_reply; [exact Hinv2|]. intros z Hz _ _.
    change (alter (ux_set_last_seen (ur_now s)) x (ur_sessions s1) !! x = Some z) in Hz.
    rewrite lookup_alter_eq, HS, Hy in Hz. injection Hz as <-. simpl. rewrite Hr0. by eexists.
  - apply inv_set_reply; [|by intros ? ? [? ?]]. apply inv_remove_session. eapply inv_same; [|done].
    etrans; apply udp_same_metric.
Qed.

Lemma task_step_inv w ev s s' : inv_within w s → udp_task_step ev s = Some s' → inv_within w s'.
Proof.
  intros Hinv. destruct ev as [e b|e|e|e|e c|e|e|e|e sent|e|e|e|x|x r|x r|n]; simpl.
  1-10: destruct (receiving e s) as [[ph entry]|] eqn:Hrx; [|done];
    apply receiving_Some in Hrx as [He Hrx]; destruct ph as [|b'|p|p|p x|p x|p x|b' l gs]; try done.
  - case_bool_decide; [|done]. intros [= <-]. by apply inv_received.
  - intros [= <-]. apply inv_stop_receive. eapply inv_same; [apply udp_same_metric|done].
  - intros [= <-]. by apply inv_prepare_begin.
  - intros [= <-]. by apply inv_prepare_next.
  - intros (client & Hc & [= <-])%bind_Some. apply next_peer_Some in Hc as (d & Hd & <-).
    by eapply inv_create_session.
  - intros (client & Hc & [= <-])%bind_Some. apply next_peer_Some in Hc as (d & Hd & <-).
    by eapply inv_session_insert.
  - intros (y & Hy & [= <-])%bind_Some. by eapply inv_session_spawn.
  - intros [= <-]. by eapply inv_session_store.
  - destruct gs as [|[x idx] gs]; [done|]. destruct sent as [|n].
    + intros [= <-]. by eapply inv_group_sent.
    + case_bool_decide; [|done]. intros [= <-]. by eapply inv_group_sent.
  - destruct (ue_shutdown entry); [|done]. intros [= <-]. by apply inv_stop_receive.
  - intros (entry & He & Hif)%bind_Some. destruct (ue_cleanup entry); [|done]. injection Hif as <-.
    by apply inv_cleanup_tick.
  - intros (entry & He & Hif)%bind_Some. destruct (_ && _); [|done]. injection Hif as <-.
    apply inv_alter_entry; [done|]. intros entry' _ Hok. split_and!; [exact Hok|simpl; lia|done].
  - destruct (replying x s) as [[[| |n] y]|] eqn:Hr; try done. apply replying_Some in Hr as [Hy Hr].
    intros [= <-]. apply inv_set_reply; [done|]. intros z Hz _ _. assert (z = y) as -> by congruence.
    rewrite Hr. by eexists.
  - destruct (replying x s) as [[[| |n] y]|] eqn:Hr; try done. apply replying_Some in Hr as [Hy Hr].
    intros [= <-]. by eapply inv_reply_received.
  - destruct (replying x s) as [[[| |n] y]|] eqn:Hr; try done. apply replying_Some in Hr as [Hy Hr].
    intros [= <-]. by eapply inv_reply_sent.
  - destruct (0 <=? n); [|done]. by intros [= <-].
Qed.

Lemma udp_step_inv s s' : udp_inv s → udp_step s s' → udp_inv s'.
Proof.
  intros Hinv Hstep. destruct Hstep as [q s|ev s s' Hev]; [by apply request_inv|].
  unfold udp_event in Hev. apply fmap_Some in Hev as (s1 & Hs1 & ->).
  by eapply inv_drop_unheld, task_step_inv.
Qed.

Lemma udp_initial_inv s : udp_initial s → udp_inv s.
Proof.
  intros (c & m & now & b & ->). split_and!; simpl; [intros *; by rewrite lookup_empty..|].
  by intros x Hx%elem_of_nil.
Qed.

Lemma udp_reachable_inv s0 s : udp_initial s0 → rtc udp_step s0 s → udp_inv s.
Proof. intros H0 Hr. apply udp_initial_inv in H0. induction Hr; eauto using udp_step_inv. Qed.
