(* ===== verification/UdpProps.v ===== *)
(** What the UDP relay (runtime/udp.rs) guarantees to its clients: whom datagrams and
    replies reach, how they are grouped, how many sessions there are, when they end. *)
From stdpp Require Import base gmap strings list relations fin_maps.
From Stdlib Require Import ZArith Lia.
From S2P Require Import Prelude RustStd Model Facade Metrics UdpModel Udp UdpSpec UdpSteps.
Open Scope Z_scope.

(** [x] is the current session of its client: in the listener's table, of its present
    generation, open, and connected to the target that the last update set (before the
    generation counter is exhausted). *)
Definition current_for (s : UdpRuntime) (x : nat) (y : UdpSession) : Prop :=
  ∃ entry, ur_heap s !! ux_entry y = Some entry ∧
    ue_sessions entry !! ux_client_addr y = Some x ∧ ux_generation y = ue_generation entry ∧
    ux_closed y = false ∧
    (ue_generation entry < u64_max → entry_target entry = Some (ux_upstream y)).

Lemma row_current w s x y entry :
  inv_within w s → ur_sessions s !! x = Some y → ur_heap s !! ux_entry y = Some entry →
  ue_sessions entry !! ux_client_addr y = Some x →
  wn_stale w ≠ Some (ux_entry y) ∨ ux_generation y = ue_generation entry → current_for s x y.
Proof.
  intros (_ & I2 & _) Hy He Hrow Hcur. destruct (I2 _ _ He) as [_ Hok].
  destruct (row_session _ _ _ _ _ _ _ Hok Hrow Hy) as (_ & _ & Hg & Hop).
  assert (ux_generation y = ue_generation entry) as Heq by (destruct Hcur; auto).
  destruct (Hop Heq) as [Hcl Htar]. by exists entry.
Qed.

Lemma set_reply_lookup r x s y : ur_sessions (set_reply r x s) !! x = Some y → ux_reply y = r.
Proof.
  simpl. rewrite lookup_alter_eq. by intros (z & _ & ->)%fmap_Some.
Qed.

(** A reply task goes on to send what it received only as the current one. *)
Lemma reply_accepted w s x y n s' y' :
  inv_within w s → ur_sessions s !! x = Some y → udp_task_step (UEvReplyReceived x (Some n)) s = Some s' →
  ur_sessions s' !! x = Some y' → ux_reply y' = Some (ReplySend n) → current_for s x y.
Proof.
  intros Hinv Hy Hev Hy' Hsend. simpl in Hev.
  destruct (replying x s) as [[[] z]|] eqn:Hrep; try done. apply replying_Some in Hrep as [Hz _].
  assert (z = y) as -> by congruence. injection Hev as <-. simpl in Hy'.
  destruct (session_current s x y) eqn:Hcur; [|apply set_reply_lookup in Hy'; congruence].
  unfold session_current in Hcur. destruct (ur_heap s !! ux_entry y) as [entry|] eqn:He; [|done].
  apply andb_true_iff in Hcur as [Hrow%bool_decide_eq_true Hg%Z.eqb_eq].
  eapply row_current; [done|done|done|done|by right].
Qed.

(** The reply task of a session that has been closed ends with what it is sending. *)
Lemma reply_closed_ends s x y r s' :
  ur_sessions s !! x = Some y → ux_closed y = true → udp_task_step (UEvReplySent x r) s = Some s' →
  ∀ y', ur_sessions s' !! x = Some y' → ux_reply y' = None.
Proof.
  intros Hy Hcl Hev y' Hy'. simpl in Hev.
  destruct (replying x s) as [[[] z]|] eqn:Hrep; try done. apply replying_Some in Hrep as [Hz _].
  assert (z = y) as -> by congruence. injection Hev as <-. destruct r; simpl in Hy'.
  - unfold reply_top in Hy'. rewrite Hcl in Hy'. simpl in Hy'. rewrite lookup_alter_eq in Hy'.
    by apply fmap_Some in Hy' as (z' & _ & ->).
  - by apply set_reply_lookup in Hy'.
Qed.

Lemma replying_session s s' x y r :
  ur_sessions s !! x = Some y → udp_task_step (UEvReplySent x r) s = Some s' → is_Some (ux_reply y).
Proof.
  intros Hy Hev. simpl in Hev. destruct (replying x s) as [[[] z]|] eqn:Hrep; try done.
  apply replying_Some in Hrep as [Hz Hr]. assert (z = y) as <- by congruence. rewrite Hr. by eexists.
Qed.

Lemma event_sessions ev s s' :
  udp_event ev s = Some s' →
  ∃ s1, udp_task_step ev s = Some s1 ∧
    ∀ x y, ur_sessions s' !! x = Some y → ur_sessions s1 !! x = Some y.
Proof.
  unfold udp_event. intros (s1 & Hs1 & ->)%fmap_Some. exists s1. split; [done|].
  destruct (drop_unheld_spec s1) as (_ & _ & _ & HS). intros x y Hy. by apply HS.
Qed.

(** A reply reaches a client only from the current session of that client. A reply task
    goes on to send what it received only if its session is current, hence connected to
    the target of the last update; when it then sends, the session is still current, or
    it was closed in between, and the task ends with this one reply. *)
Theorem replies_from_current_target s0 s x y :
  udp_initial s0 → rtc udp_step s0 s → ur_sessions s !! x = Some y →
  (∀ n s' y', udp_event (UEvReplyReceived x (Some n)) s = Some s' →
     ur_sessions s' !! x = Some y' → ux_reply y' = Some (ReplySend n) → current_for s x y) ∧
  (∀ r s', udp_event (UEvReplySent x r) s = Some s' →
     current_for s x y ∨
     ux_closed y = true ∧ ∀ y', ur_sessions s' !! x = Some y' → ux_reply y' = None).
Proof.
  intros H0 Hr Hy. pose proof (udp_reachable_inv _ _ H0 Hr) as Hinv. split.
  - intros n s' y' (s1 & Hev & Hsub)%event_sessions Hy' Hsend. by apply (reply_accepted shut s x y n s1 y' Hinv Hy Hev (Hsub _ _ Hy')).
  - intros r s' (s1 & Hev & Hsub)%event_sessions.
    destruct (replying_session _ _ _ _ r Hy Hev) as [ph Hph].
    destruct (ux_closed y) eqn:Hcl; [right|left].
    + split; [done|]. intros y' Hy'%Hsub. by apply (reply_closed_ends s x y r s1 Hy Hcl Hev).
    + destruct (Hinv) as (_ & _ & I3 & _). destruct (I3 _ _ Hy) as [_ (entry & He & _ & Hrow)].
      eapply row_current; [exact Hinv|done|done| |by left].
      destruct Hrow as [?|?%elem_of_nil]; [split; [rewrite Hph; by eexists|done]|done|done].
Qed.

Lemma datagram_session w s e entry batch sessions x indexes groups i d :
  inv_within w s → receiving e s = Some (RxSend batch sessions ((x, indexes) :: groups), entry) →
  i ∈ indexes → batch !! i = Some d →
  ∃ y, ur_sessions s !! x = Some y ∧ ux_entry y = e ∧ ux_client_addr y = dg_peer d ∧
    ux_generation y ≤ ue_generation entry ∧
    (ux_generation y = ue_generation entry → ue_generation entry < u64_max →
       entry_target entry = Some (ux_upstream y)).
Proof.
  intros Hinv Hrx Hi Hd.
  destruct (receiving_phase _ _ _ _ _ Hinv Hrx) as (He & _ & _ & (_ & (g & u & Hg & Htar & Hp) & Hgr)).
  assert (sessions !! i = Some (Some x)) as Hs by (eapply (Hgr x indexes); [by left|done]).
  destruct (Hp i d x Hd Hs) as (y & Hy & Hxe & Hxc & Hxg & Hu). exists y.
  split_and!; [done..|lia|]. intros Heq Hlt. rewrite Hu by lia. apply Htar; lia.
Qed.

(** Datagrams are not mixed up: a datagram about to be forwarded goes to a session of
    the same listener for the datagram's own peer; and to the target that is set now,
    unless an update came after its batch was prepared. *)
Theorem datagrams_reach_own_session s0 s e entry batch sessions x indexes groups i d :
  udp_initial s0 → rtc udp_step s0 s →
  receiving e s = Some (RxSend batch sessions ((x, indexes) :: groups), entry) →
  i ∈ indexes → batch !! i = Some d →
  ∃ y, ur_sessions s !! x = Some y ∧ ux_entry y = e ∧ ux_client_addr y = dg_peer d ∧
    ux_generation y ≤ ue_generation entry ∧
    (ux_generation y = ue_generation entry → ue_generation entry < u64_max →
       entry_target entry = Some (ux_upstream y)).
Proof.
  intros H0 Hr. eapply datagram_session. by eapply udp_reachable_inv.
Qed.

Lemma table_bounded w s e entry :
  inv_within w s → ur_heap s !! e = Some entry → 0 ≤ ue_max_sessions entry →
  Z.of_nat (size (ue_sessions entry)) ≤ ue_max_sessions entry.
Proof.
  intros (_ & I2 & _) He Hm. destruct (I2 _ _ He) as [_ (_ & _ & [Hz|] & _)]; [|done].
  rewrite Hz, map_size_empty. lia.
Qed.

(** A listener never has more sessions than configured, in any interleaving of its
    receive task with updates, deletions, expiry and replies. *)
Theorem session_table_bounded s0 s e entry :
  udp_initial s0 → rtc udp_step s0 s → ur_heap s !! e = Some entry → 0 ≤ ue_max_sessions entry →
  Z.of_nat (size (ue_sessions entry)) ≤ ue_max_sessions entry.
Proof.
  intros H0 Hr. apply (table_bounded shut). by eapply udp_reachable_inv.
Qed.

(** * Grouping *)

(** The distinct sessions in the order of their first datagrams. *)
Fixpoint first_occurrences (seen : list nat) (l : list (option nat)) : list nat :=
  match l with
  | [] => []
  | None :: l' => first_occurrences seen l'
  | Some x :: l' =>
      if bool_decide (x ∈ seen) then first_occurrences seen l'
      else x :: first_occurrences (seen ++ [x]) l'
  end.

(** All positions of a session. *)
Definition positions (sessions : list (option nat)) (x : nat) : list nat :=
  filter (λ i, sessions !! i = Some (Some x)) (seq 0 (length sessions)).

Lemma filter_none (P : nat → Prop) `{∀ i, Decision (P i)} l :
  (∀ i, i ∈ l → ¬ P i) → filter P l = [].
Proof.
  induction l as [|i l IH]; intros Hno; [done|]. rewrite filter_cons_False by (apply Hno; by left).
  apply IH. intros j Hj. apply Hno. by right.
Qed.

Lemma group_indexes_positions sessions first x :
  (∀ i, (i < first)%nat → sessions !! i ≠ Some (Some x)) → (first ≤ length sessions)%nat →
  group_indexes sessions first x = positions sessions x.
Proof.
  intros Hno Hle. unfold group_indexes, positions.
  replace (length sessions) with (first + (length sessions - first))%nat at 2 by lia.
  rewrite seq_app, filter_app, (filter_none _ (seq 0 first)); [done|].
  intros i Hi%elem_of_seq. apply Hno. lia.
Qed.

Lemma positions_elem sessions x i : i ∈ positions sessions x ↔ sessions !! i = Some (Some x).
Proof.
  unfold positions. rewrite list_elem_of_filter. split; [by intros [? _]|]. intros Hi. split; [done|].
  apply elem_of_seq. apply lookup_lt_Some in Hi. lia.
Qed.

Lemma group_loop_spec sessions k grouped seen :
  (∀ i x, sessions !! i = Some (Some x) → (i ∈ grouped ↔ x ∈ seen)) →
  (∀ i x, (i < k)%nat → sessions !! i = Some (Some x) → x ∈ seen) →
  group_loop sessions grouped (seq k (length sessions - k)) =
  (λ x, (x, positions sessions x)) <$> first_occurrences seen (drop k sessions).
Proof.
  remember (length sessions - k)%nat as n eqn:Hn. revert k grouped seen Hn.
  induction n as [|n IH]; intros k grouped seen Hn Hgr Hbef.
  { rewrite drop_ge by lia. done. }
  destruct (sessions !! k) as [o|] eqn:Hk; [|apply lookup_ge_None in Hk; lia].
  rewrite (drop_S _ _ _ Hk). cbn [seq group_loop first_occurrences]. rewrite Hk. simpl.
  destruct o as [x|].
  - pose proof (Hgr k x Hk) as Hiff. rewrite (bool_decide_ext _ _ Hiff). case_bool_decide as Hseen.
    + apply IH; [lia|done|]. intros i x' Hi Hx'. destruct (decide (i = k)) as [->|]; [congruence|].
      eapply (Hbef i); [lia|done].
    + assert (group_indexes sessions k x = positions sessions x) as ->.
      { apply group_indexes_positions; [|apply lookup_lt_Some in Hk; lia]. intros i Hi Hx. by eapply Hseen, Hbef. }
      simpl. f_equal. apply IH; [lia| |].
      * intros i x' Hx'. rewrite !elem_of_app, positions_elem, list_elem_of_singleton, (Hgr _ _ Hx').
        split; (intros [?|?]; [by left|right]); congruence.
      * intros i x' Hi Hx'. apply elem_of_app. destruct (decide (i = k)) as [->|].
        -- right. apply list_elem_of_singleton. congruence.
        -- left. eapply (Hbef i); [lia|done].
  - apply IH; [lia|done|]. intros i x' Hi Hx'. destruct (decide (i = k)) as [->|]; [congruence|].
    eapply (Hbef i); [lia|done].
Qed.

(** C25: the grouping of a batch is the reference one: one group per session, in the order
    of their first datagrams, with all positions of the session in ascending order; so
    each datagram with a session is sent exactly once, and in order per session. *)
Theorem group_batch_reference sessions :
  group_batch sessions =
  (λ x, (x, positions sessions x)) <$> first_occurrences [] sessions.
Proof.
  unfold group_batch. rewrite <- (Nat.sub_0_r (length sessions)) at 1.
  rewrite (group_loop_spec sessions 0 [] []); [by rewrite drop_0| |intros; lia].
  intros i x _. split; intros Hx; by apply elem_of_nil in Hx.
Qed.

(** * Batches of the socket *)
Lemma storages_length l r : storages l = Ok r → length r = length l.
Proof.
  revert r. induction l as [|[a n] l IH]; intros r; simpl; [by intros [= <-]|].
  destruct (socket_addr_from_storage a); simpl; [|done].
  destruct (storages l) as [r'|] eqn:Hr; simpl; [|done]. intros [= <-]. simpl. f_equal. by apply IH.
Qed.

(** The receive buffers are never overrun: the number of buffers stays between 16 and
    64 and never shrinks, a saturated batch doubles it up to 64, and whatever recvmmsg(2)
    answers within what it was asked for, a batch has at least one datagram and at most
    as many as there are buffers. *)
Theorem receive_batch_bounds capacity received first more batch :
  (UDP_INITIAL_RECEIVE_BATCH_SIZE ≤ capacity ≤ UDP_MAX_RECEIVE_BATCH_SIZE)%nat →
  (∀ l, more (capacity - 1)%nat = MoreReceived l → (length l ≤ capacity - 1)%nat) →
  recv_batch capacity first more = Some batch →
  (1 ≤ length batch ≤ capacity)%nat ∧
  (capacity ≤ grow_if_saturated capacity received ≤ UDP_MAX_RECEIVE_BATCH_SIZE)%nat ∧
  (grow_if_saturated capacity (length batch) ≠ capacity → length batch = capacity).
Proof.
  unfold UDP_INITIAL_RECEIVE_BATCH_SIZE, UDP_MAX_RECEIVE_BATCH_SIZE. intros Hcap Hmore Hrecv.
  assert (1 ≤ length batch ≤ capacity)%nat as Hlen.
  { unfold recv_batch, recv_one in Hrecv. destruct first as [d|]; simpl in Hrecv; [|done].
    destruct (more (capacity - 1)%nat) as [l| |] eqn:Hm; simpl in Hrecv.
    - destruct (storages l) as [r|] eqn:Hl; simpl in Hrecv; [|done]. injection Hrecv as <-.
      specialize (Hmore l eq_refl). apply storages_length in Hl. simpl. lia.
    - injection Hrecv as <-. simpl. lia.
    - done. }
  split; [done|]. unfold grow_if_saturated, UDP_MAX_RECEIVE_BATCH_SIZE.
  split; [|repeat case_bool_decide; simpl; lia]. repeat case_bool_decide; simpl; lia.
Qed.

(** The kernel took the first [m] of [count] messages, in calls that each offer the rest. *)
Inductive kernel_took (kernel : nat → nat → option nat) (count : nat) : nat → Prop :=
| took_none : kernel_took kernel count 0
| took_more m k : kernel_took kernel count m → kernel m (count - m)%nat = Some k →
    kernel_took kernel count (m + k).

(** How sending ends: with everything taken, or at a call that failed or took nothing. *)
Definition send_outcome (kernel : nat → nat → option nat) (count : nat) (r : result unit nat) : Prop :=
  match r with
  | Ok _ => kernel_took kernel count count
  | Err sent => kernel_took kernel count sent ∧ (sent < count)%nat ∧
      (kernel sent (count - sent)%nat = None ∨ kernel sent (count - sent)%nat = Some 0%nat)
  end.

(** C40: sending a group with sendmmsg(2) ends, whatever number of messages the kernel
    takes at a time, and within one call per message and a last one; it succeeds only when
    every message was taken, and on an error reports exactly how many were, at least one
    less than all, so that the drop count is positive and exact. *)
Theorem send_batch_complete kernel count :
  (∀ sent n k, kernel sent n = Some k → (k ≤ n)%nat) →
  ∃ r, send_batch kernel (S count) 0 count = Some r ∧ send_outcome kernel count r.
Proof.
  intros Hk. enough (∀ fuel sent, kernel_took kernel count sent → (sent ≤ count)%nat →
    (count - sent < fuel)%nat →
    ∃ r, send_batch kernel fuel sent count = Some r ∧ send_outcome kernel count r) as Hgo
    by (apply Hgo; [constructor|lia|lia]).
  induction fuel as [|fuel IH]; intros sent Htook Hle Hfuel; [lia|]. simpl.
  case_bool_decide; [exists (Ok tt); by replace sent with count in Htook by lia|].
  destruct (kernel sent (count - sent)%nat) as [[|k]|] eqn:Hs.
  - exists (Err sent). split; [done|]. split; [done|]. split; [lia|by right].
  - pose proof (took_more _ _ _ _ Htook Hs). apply Hk in Hs. apply IH; [done|lia..].
  - exists (Err sent). split; [done|]. split; [done|]. split; [lia|by left].
Qed.
