(* ===== verification/UdpLife.v ===== *)
(** When the sessions of the UDP relay (runtime/udp.rs) end: expiry, updates, deletion. *)
From stdpp Require Import base gmap strings list relations fin_maps.
From Stdlib Require Import ZArith Lia.
From S2P Require Import Prelude RustStd Model Facade Metrics UdpModel Udp UdpSpec UdpSteps.
Open Scope Z_scope.

(** * Expiry *)
Definition expired (s : UdpRuntime) (ttl now : Z) (x : nat) : Prop :=
  ∃ y, ur_sessions s !! x = Some y ∧ ttl < now - ux_last_seen y.

#[export] Instance expired_dec s ttl now x : Decision (expired s ttl now x).
Proof.
  destruct (ur_sessions s !! x) as [y|] eqn:Hx; [|right; intros (y & Hy & _); congruence].
  destruct (decide (ttl < now - ux_last_seen y)); [left; by exists y|].
  right. intros (y' & Hy' & ?). assert (y' = y) as -> by congruence. done.
Defined.

(** What is left of the session [x] of [s] after it was removed: closed, and its reply task
    aborted if the handle was stored. *)
Definition cut_off (s : UdpRuntime) (x : nat) (y : UdpSession) : Prop :=
  ux_closed y = true ∧
  ∀ y0, ur_sessions s !! x = Some y0 → ux_handle y0 = true → ux_reply y = None.

(** What the expiry of the rows [l] has done. *)
Definition expired_rows (e : nat) (entry : UdpListenerEntry) (ttl now : Z) (l : list (SocketAddr * nat))
    (s s' : UdpRuntime) : Prop :=
  udp_inv s' ∧
  (∃ entry', ur_heap s' !! e = Some entry' ∧
     ∀ c x, ue_sessions entry' !! c = Some x ↔
       ue_sessions entry !! c = Some x ∧ ¬ ((c, x) ∈ l ∧ expired s ttl now x)) ∧
  (∀ x, ux_last_seen <$> ur_sessions s' !! x = ux_last_seen <$> ur_sessions s !! x) ∧
  (∀ c x, ue_sessions entry !! c = Some x → (c, x) ∉ l → ur_sessions s' !! x = ur_sessions s !! x) ∧
  (∀ c x y, (c, x) ∈ l → expired s ttl now x → ur_sessions s' !! x = Some y → cut_off s x y).

Lemma expire_one e entry ttl now c x l s s1 :
  (∀ c', ue_sessions entry !! c' = Some x → c' = c) →
  expired_rows e entry ttl now l s s1 → ue_sessions entry !! c = Some x → (c, x) ∉ l →
  expired_rows e entry ttl now ((c, x) :: l) s (expire_idle_session e ttl now (c, x) s1).
Proof.
  intros Hone (Hinv & (entry1 & He1 & Htbl) & Hseen & Hrest & Hcl) Hc Hnin. unfold expire_idle_session. simpl.
  assert (∀ c0 x0, ue_sessions entry !! c0 = Some x0 → (c0, x0) ∈ (c, x) :: l ↔ (c0, x0) = (c, x) ∨ (c0, x0) ∈ l) as Hcons
    by (intros; apply elem_of_cons).
  destruct (ur_sessions s1 !! x) as [y|] eqn:Hy.
  - pose proof (Hseen x) as Hsx. rewrite Hy in Hsx. simpl in Hsx. symmetry in Hsx.
    apply fmap_Some in Hsx as (y0 & Hy0 & Hlast). rewrite Hlast.
    destruct (Z.ltb_spec ttl (now - ux_last_seen y0)) as [Hlt|Hge].
    + assert (expired s ttl now x) as Hexp by (by exists y0).
      assert (ue_sessions entry1 !! c = Some x) as Hc1 by (apply Htbl; naive_solver).
      destruct (remove_session_state e c x Expired s1 entry1 He1 Hc1) as (z & HE & Hn & HH & HS).
      split_and!; [by apply inv_remove_session| | | |].
      * eexists. rewrite HH, lookup_insert_eq. split; [reflexivity|]. intros c0 x0. simpl.
        rewrite lookup_delete_Some, Htbl, elem_of_cons. split.
        -- intros (Hne & Hin & Hnot). split; [done|]. intros [[[= -> ->]|?] ?]; naive_solver.
        -- intros (Hin & Hnot). split_and!; [|done|naive_solver]. intros ->. naive_solver congruence.
      * intros x0. rewrite HS. destruct (decide (x0 = x)) as [->|]; [|by rewrite lookup_alter_ne].
        rewrite lookup_alter_eq, Hy, Hy0. simpl. by rewrite closed_session_seen, Hlast.
      * intros c0 x0 Hc0 [Hn0 Hnl]%not_elem_of_cons. rewrite HS, lookup_alter_ne; [by eapply Hrest|].
        intros <-. apply Hn0. by rewrite (Hone c0).
      * intros c0 x0 y1. rewrite HS. destruct (decide (x0 = x)) as [->|Hne].
        -- rewrite lookup_alter_eq, Hy. intros _ _ [= <-].
           destruct (closed_session_spec y) as (_ & Hclosed & Hrep & _). split; [done|].
           intros y1 Hy1. rewrite <- (Hrest c x Hc Hnin), Hy in Hy1. injection Hy1 as <-. done.
        -- rewrite lookup_alter_ne by done. intros [[= -> ->]|Hin]%elem_of_cons; [done|]. by eapply Hcl.
    + assert (¬ expired s ttl now x) as Hexp by (intros (y1 & Hy1 & ?); assert (y1 = y0) as -> by congruence; lia).
      split_and!; [done| |done|by intros c0 x0 ? [_ ?]%not_elem_of_cons; eapply Hrest|].
      * exists entry1. split; [done|]. intros c0 x0. rewrite Htbl, elem_of_cons. naive_solver.
      * intros c0 x0 y1 [[= -> ->]|Hin]%elem_of_cons; [done|]. by eapply Hcl.
  - assert (¬ expired s ttl now x) as Hexp.
    { intros (y1 & Hy1 & _). pose proof (Hseen x) as Hsx. rewrite Hy, Hy1 in Hsx. done. }
    split_and!; [done| |done|by intros c0 x0 ? [_ ?]%not_elem_of_cons; eapply Hrest|].
    + exists entry1. split; [done|]. intros c0 x0. rewrite Htbl, elem_of_cons. naive_solver.
    + intros c0 x0 y1 [[= -> ->]|Hin]%elem_of_cons; [done|]. by eapply Hcl.
Qed.

Lemma expire_rows e entry ttl now s l :
  udp_inv s → ur_heap s !! e = Some entry → NoDup l →
  (∀ c x, (c, x) ∈ l → ue_sessions entry !! c = Some x) →
  expired_rows e entry ttl now l s (foldr (expire_idle_session e ttl now) s l).
Proof.
  intros Hinv He Hnd. induction Hnd as [|[c x] l Hnin Hnd IH]; intros Hl; cbn [foldr].
  - split_and!; [done| |done|done|by intros ??? ?%elem_of_nil]. exists entry. split; [done|].
    intros c x. split; [|by intros [? _]]. intros Hc. split; [done|]. by intros [?%elem_of_nil _].
  - assert (entry_ok shut (ur_sessions s) e entry) as Hok by (by apply Hinv).
    apply expire_one; [|  |apply Hl; by left|done].
    { intros c' Hc'. eapply row_of; [exact Hok|exact Hc'|apply Hl; by left]. }
    apply IH. intros c0 x0 Hin. apply Hl. by right.
Qed.

(** C22: the cleanup removes exactly the idle sessions: afterwards a row is in the table if
    and only if it was there before and its session was seen within the time to live;
    the sessions removed are closed, and their reply tasks aborted if their handles had
    been stored. *)
Theorem cleanup_expires_idle s0 s e entry s' :
  udp_initial s0 → rtc udp_step s0 s → ur_heap s !! e = Some entry →
  udp_event (UEvCleanup e) s = Some s' →
  (∃ entry', ur_heap s' !! e = Some entry' ∧
     ∀ c x, ue_sessions entry' !! c = Some x ↔
       ue_sessions entry !! c = Some x ∧ ¬ expired s (ue_session_ttl entry) (ur_now s) x) ∧
  (∀ c x y, ue_sessions entry !! c = Some x → expired s (ue_session_ttl entry) (ur_now s) x →
     ur_sessions s' !! x = Some y → cut_off s x y).
Proof.
  intros H0 Hr He Hev. pose proof (udp_reachable_inv _ _ H0 Hr) as Hinv.
  unfold udp_event in Hev. apply fmap_Some in Hev as (s1 & Hev & ->). simpl in Hev. rewrite He in Hev.
  simpl in Hev. destruct (ue_cleanup entry); [|done]. injection Hev as <-.
  unfold cleanup_tick, compact_empty_sessions_after_idle, expire_idle_sessions. rewrite He.
  set (ttl := ue_session_ttl entry). set (rows := map_to_list (ue_sessions entry)).
  destruct (expire_rows e entry ttl (ur_now s) s rows Hinv He) as (_ & (entry1 & He1 & Htbl) & _ & _ & Hcl).
  { apply NoDup_map_to_list. }
  { intros c x. apply elem_of_map_to_list. }
  set (s1 := foldr _ s rows) in *.
  assert (∀ c x, ue_sessions entry !! c = Some x → (c, x) ∈ rows) as Hrows by (intros; by apply elem_of_map_to_list).
  match goal with |- context [ur_alter_entry ?f e s1] => set (g := f) end.
  destruct (drop_unheld_spec (ur_alter_entry g e s1)) as (_ & _ & HH & HS). split.
  - destruct (HH e) as [m Hm]. simpl in Hm. rewrite lookup_alter_eq, He1 in Hm. simpl in Hm.
    eexists. split; [exact Hm|]. intros c x.
    assert (ue_sessions (ue_set_metrics m (g entry1)) = ue_sessions entry1) as ->.
    { simpl. unfold g. destruct (ue_empty_since entry1); [|done]. by destruct (_ <? _). }
    rewrite Htbl. naive_solver.
  - intros c x y Hc Hexp [Hx _]%HS. eapply Hcl; [by apply Hrows|exact Hexp|exact Hx].
Qed.

(** * Updates *)

Lemma udp_update_outcome a t s e entry :
  ur_entries s !! al_id a = Some e → ur_heap s !! e = Some entry →
  let st := us_set_generation (u64_saturating_add (us_generation (ue_state entry)) 1)
              (UdpRuntime_entry_state_for a) in
  ∃ s' entry', UdpRuntime_update a t s = (Ok tt, s') ∧ ur_heap s' !! e = Some entry' ∧
    ue_sessions entry' = ∅ ∧ ue_state entry' = st ∧ ue_generation entry' = us_generation st ∧
    ue_receive entry' = ue_receive entry ∧ closes s s'.
Proof.
  intros Hid He. cbv zeta. unfold UdpRuntime_update, bind, gets, of_result, modify. rewrite Hid. simpl.
  assert (∀ s0, ur_heap s0 = ur_heap s → ur_sessions s0 = ur_sessions s →
    ∃ entry', ur_heap (drop_unheld (UdpRuntime_close_sessions e true (ur_alter_entry
        (λ x, ue_set_state (us_set_generation (u64_saturating_add (us_generation (ue_state x)) 1)
                 (UdpRuntime_entry_state_for a)) x) e s0))) !! e = Some entry' ∧
    ue_sessions entry' = ∅ ∧ ue_state entry' = us_set_generation (u64_saturating_add (us_generation (ue_state entry)) 1)
              (UdpRuntime_entry_state_for a) ∧
    ue_generation entry' = u64_saturating_add (us_generation (ue_state entry)) 1 ∧
    ue_receive entry' = ue_receive entry ∧
    closes s (drop_unheld (UdpRuntime_close_sessions e true (ur_alter_entry
        (λ x, ue_set_state (us_set_generation (u64_saturating_add (us_generation (ue_state x)) 1)
                 (UdpRuntime_entry_state_for a)) x) e s0)))) as Hgo.
  { intros s0 H0 HS0. rewrite <- H0 in He. set (s1 := ur_alter_entry _ e s0).
    assert (ur_heap s1 !! e = Some (ue_set_state (us_set_generation (u64_saturating_add (us_generation (ue_state entry)) 1)
              (UdpRuntime_entry_state_for a)) entry)) as He1.
    { unfold s1. simpl. by rewrite lookup_alter_eq, He. }
    destruct (close_sessions_state e true s1 _ He1) as (_ & _ & HH & _).
    destruct (drop_unheld_spec (UdpRuntime_close_sessions e true s1)) as (_ & _ & Hd & HS).
    destruct (Hd e) as [m Hm]. rewrite HH, lookup_insert_eq in Hm. simpl in Hm. eexists. split_and!; [exact Hm|done..|].
    intros x y [Hy _]%HS. apply close_sessions_each in Hy. change (ur_sessions s1) with (ur_sessions s0) in Hy.
    by rewrite HS0 in Hy. }
  case_bool_decide; simpl.
  - destruct (Hgo (ur_inc rejected_no_host_total s) eq_refl eq_refl) as (entry' & ?). eexists _, entry'. split; [reflexivity|done].
  - destruct (Hgo s eq_refl eq_refl) as (entry' & ?). eexists _, entry'. split; [reflexivity|done].
Qed.

(** A prepared batch of another generation is discarded. *)
Lemma stale_batch_dropped e p s entry :
  ur_heap s !! e = Some entry → ue_receive entry = Some (RxLookup p) → next_peer p = None →
  ue_generation entry ≠ pr_generation p →
  ∃ s' entry', udp_event (UEvNext e) s = Some s' ∧ ur_heap s' !! e = Some entry' ∧
    ue_receive entry' = Some RxIdle ∧ ue_sessions entry' = ue_sessions entry.
Proof.
  intros He Hrx Hnext Hne.
  assert (pr_batch p !! length (pr_sessions p) = None) as Hdone.
  { unfold next_peer in Hnext. by apply fmap_None in Hnext. }
  set (l := omap id (pr_sessions p)).
  set (s1 := ur_add udp_reply_stale_total (Z.of_nat (length l)) (foldr (ur_alter_session (ux_set_closed true)) s l)).
  assert (ur_heap s1 = ur_heap s) as H1.
  { unfold s1. simpl. clear. induction l as [|x l IH]; [done|exact IH]. }
  destruct (drop_unheld_spec (batch_done (length (pr_batch p)) e s1)) as (_ & _ & HH & _).
  destruct (HH e) as [m Hm]. eexists (drop_unheld (batch_done (length (pr_batch p)) e s1)), _. split.
  - unfold udp_event. simpl. unfold receiving. rewrite He. simpl. rewrite Hrx. simpl.
    unfold prepare_next. rewrite Hdone. unfold prepare_finish.
    apply Z.eqb_neq in Hne. rewrite Hne. reflexivity.
  - rewrite Hm. unfold batch_done, set_receive. rewrite alter_entry_compose.
    unfold ur_alter_entry. cbn [ur_heap ur_set_heap]. rewrite H1, lookup_alter_eq, He.
    split; [reflexivity|by split].
Qed.

(** An update cuts off the old target: it returns Ok with the listener's new state, no
    session left in the table and every session of the listener closed whose reply task
    still runs, which then had been closed before or its handle not yet stored; and a batch
    that the receive task had prepared with the state before is discarded, not forwarded. *)
Theorem update_cuts_off_old_target s0 s a t e entry :
  udp_initial s0 → rtc udp_step s0 s →
  ur_entries s !! al_id a = Some e → ur_heap s !! e = Some entry →
  ∃ s' entry', UdpRuntime_update a t s = (Ok tt, s') ∧ ur_heap s' !! e = Some entry' ∧
    udp_observed (ue_state entry') = udp_observed (UdpRuntime_entry_state_for a) ∧
    ue_sessions entry' = ∅ ∧
    (∀ x y, ur_sessions s' !! x = Some y → ux_entry y = e → is_Some (ux_reply y) →
       ux_closed y = true ∧
       ∃ y0, ur_sessions s !! x = Some y0 ∧ (ux_closed y0 = true ∨ ux_handle y0 = false)) ∧
    (∀ p, ue_receive entry = Some (RxLookup p) → next_peer p = None → ue_generation entry < u64_max →
       ∃ s'' entry'', udp_event (UEvNext e) s' = Some s'' ∧ ur_heap s'' !! e = Some entry'' ∧
         ue_receive entry'' = Some RxIdle ∧ ue_sessions entry'' = ∅).
Proof.
  intros H0 Hr Hid He. pose proof (udp_reachable_inv _ _ H0 Hr) as Hinv.
  destruct (udp_update_outcome a t s e entry Hid He) as (s' & entry' & Hup & He' & Hempty & Hst & Hgen & Hrx' & Hcloses).
  assert (udp_inv s') as Hinv'.
  { pose proof (update_inv a t s Hinv) as Hw. by eapply wp_elim in Hw. }
  exists s', entry'. split_and!; [done|done|rewrite Hst; done|done| |].
  - intros x y Hy Hxe Hrep. assert (ux_closed y = true) as Hcl.
    { destruct (ux_closed y) eqn:Hcl; [done|]. destruct Hinv' as (_ & _ & I3 & _).
      destruct (I3 _ _ Hy) as [_ (entry0 & He0 & _ & Hrow)]. rewrite Hxe, He' in He0. injection He0 as <-.
      destruct (Hrow (conj Hrep Hcl)) as [Hrow'|?%elem_of_nil]; [|done].
      by rewrite Hempty, lookup_empty in Hrow'. }
    split; [done|]. by eapply closes_running.
  - intros p Hp Hnext Hlt. rewrite Hp in Hrx'.
    destruct Hinv as (_ & I2 & _). destruct (I2 _ _ He) as [_ (Hg & Hb & _ & _ & Hph)].
    destruct (Hph _ Hp) as (Hpg & _).
    assert (ue_generation entry' ≠ pr_generation p) as Hne.
    { rewrite Hgen. simpl. rewrite Hg. destruct (saturating_bump _ Hb) as [_ Hbump]. specialize (Hbump Hlt). lia. }
    destruct (stale_batch_dropped e p s' entry' He' Hrx' Hnext Hne) as (s'' & entry'' & ? & ? & ? & Htbl).
    exists s'', entry''. by rewrite Htbl.
Qed.
