(* ===== verification/UdpAccount.v ===== *)
(** The session counts of the UDP relay (runtime/udp.rs): the gauge and the counts of the
    listeners follow the sessions that are alive, and a session is alive only as long as
    something holds it. *)
From stdpp Require Import base gmap strings list relations fin_maps.
From Stdlib Require Import ZArith Lia.
From S2P Require Import Prelude RustStd Model Facade Metrics Account UdpModel Udp UdpSpec UdpSteps.
Open Scope Z_scope.

(** The sessions that are alive, and their listeners. *)
Definition alive (s : UdpRuntime) : gmap nat nat := ux_entry <$> ur_sessions s.
Definition udp_gauge (s : UdpRuntime) : Z := ur_metrics s udp_active_sessions.
Definition udp_actives (s : UdpRuntime) : gmap nat Z := (λ x, um_active (ue_metrics x)) <$> ur_heap s.

Definition udp_account (s : UdpRuntime) : Prop := account (udp_gauge s) (udp_actives s) (alive s).

Definition same_counts (s s' : UdpRuntime) : Prop :=
  udp_gauge s' = udp_gauge s ∧ udp_actives s' = udp_actives s ∧ alive s' = alive s.

Lemma same_counts_account s s' : same_counts s s' → udp_account s → udp_account s'.
Proof. unfold udp_account. by intros (-> & -> & ->). Qed.

Lemma same_counts_refl s : same_counts s s.
Proof. done. Qed.

Lemma same_counts_trans s1 s2 s3 : same_counts s1 s2 → same_counts s2 s3 → same_counts s1 s3.
Proof. intros (?&?&?) (?&?&?). split_and!; congruence. Qed.

(** ** One more assignment that leaves the counts alone *)
Lemma counts_add s s' c n : same_counts s s' → c ≠ udp_active_sessions → same_counts s (ur_add c n s').
Proof.
  intros Hs Hc. eapply same_counts_trans; [exact Hs|]. split_and!; [|done|done].
  unfold udp_gauge. simpl. unfold Counter_add, fetch_add. by rewrite decide_False.
Qed.

Lemma counts_inc s s' c : same_counts s s' → c ≠ udp_active_sessions → same_counts s (ur_inc c s').
Proof. apply counts_add. Qed.

Lemma fmap_alter_id {A B} (g : A → B) (f : A → A) (m : gmap nat A) k :
  (∀ x, g (f x) = g x) → g <$> alter f k m = g <$> m.
Proof.
  intros Hf. apply map_eq. intros i. rewrite !lookup_fmap.
  destruct (decide (i = k)) as [->|]; [|by rewrite lookup_alter_ne].
  rewrite lookup_alter_eq. destruct (m !! k); simpl; [by rewrite Hf|done].
Qed.

Lemma counts_entry s s' f e :
  same_counts s s' → (∀ x, um_active (ue_metrics (f x)) = um_active (ue_metrics x)) →
  same_counts s (ur_alter_entry f e s').
Proof.
  intros Hs Hf. eapply same_counts_trans; [exact Hs|]. split_and!; [done| |done].
  unfold udp_actives. simpl. by apply fmap_alter_id.
Qed.

Lemma counts_session s s' f x :
  same_counts s s' → (∀ y, ux_entry (f y) = ux_entry y) → same_counts s (ur_alter_session f x s').
Proof.
  intros Hs Hf. eapply same_counts_trans; [exact Hs|]. split_and!; [done|done|].
  unfold alive. simpl. by apply fmap_alter_id.
Qed.

Lemma counts_entries s s' E : same_counts s s' → same_counts s (ur_set_entries E s').
Proof. done. Qed.

Create HintDb counts.
#[export] Hint Resolve same_counts_refl counts_add counts_inc counts_entry counts_session counts_entries : counts.
#[export] Hint Extern 1 (_ ≠ udp_active_sessions) => discriminate : counts.
#[export] Hint Extern 1 (∀ x, um_active _ = um_active _) => intros; reflexivity : counts.
#[export] Hint Extern 1 (∀ y, ux_entry _ = ux_entry _) => intros; reflexivity : counts.

Lemma counts_set_receive s s' p e : same_counts s s' → same_counts s (set_receive p e s').
Proof. unfold set_receive. auto with counts. Qed.

Lemma counts_batch_done s s' n e : same_counts s s' → same_counts s (batch_done n e s').
Proof. unfold batch_done. intros Hs. apply counts_set_receive. auto with counts. Qed.

Lemma counts_close_session s s' x : same_counts s s' → same_counts s (close_session x s').
Proof.
  intros Hs. apply counts_session; [done|]. intros y. unfold abort_reply_task. by destruct (ux_handle _).
Qed.

Lemma counts_record_removal s s' r : same_counts s s' → same_counts s (record_removal r s').
Proof. destruct r; simpl; auto with counts. Qed.

#[export] Hint Resolve counts_set_receive counts_batch_done counts_close_session counts_record_removal : counts.

Lemma counts_remove_session s s' e c x r : same_counts s s' → same_counts s (remove_session e c x r s').
Proof.
  intros Hs. unfold remove_session. destruct (ur_heap s' !! e); [|done]. case_decide; [|done].
  unfold record_empty_since_if_empty. apply counts_entry; [auto with counts|]. intros y. by case_bool_decide.
Qed.

Lemma counts_close_drained s s' b l : same_counts s s' → same_counts s (foldr (close_drained b) s' l).
Proof.
  intros Hs. induction l as [|x l IH]; cbn [foldr]; [done|]. unfold close_drained.
  destruct b; auto with counts.
Qed.

Lemma counts_close_sessions s s' e b : same_counts s s' → same_counts s (UdpRuntime_close_sessions e b s').
Proof.
  intros Hs. unfold UdpRuntime_close_sessions. destruct (ur_heap s' !! e); [|done].
  apply counts_entry; [|by intros]. apply counts_close_drained. auto with counts.
Qed.

Lemma counts_stop_entry s s' b e : same_counts s s' → same_counts s (UdpRuntime_stop_entry b e s').
Proof. intros Hs. apply counts_close_sessions. auto with counts. Qed.

#[export] Hint Resolve counts_remove_session counts_close_sessions counts_stop_entry : counts.

(** ** The guard *)
Lemma udp_actives_alter f g e s :
  (∀ x, um_active (ue_metrics (f x)) = g (um_active (ue_metrics x))) →
  udp_actives (ur_alter_entry f e s) = alter g e (udp_actives s).
Proof.
  intros Hf. unfold udp_actives. simpl. apply map_eq. intros e'. rewrite lookup_fmap.
  destruct (decide (e' = e)) as [->|]; [rewrite !lookup_alter_eq|rewrite !lookup_alter_ne by done];
    rewrite lookup_fmap; [|done]. destruct (ur_heap s !! e); simpl; [by rewrite Hf|done].
Qed.

Lemma account_drop_session x s : udp_account s → udp_account (drop_session x s).
Proof.
  intros Hacc. unfold drop_session. destruct (ur_sessions s !! x) as [y|] eqn:Hx; [|done].
  unfold udp_account, SessionGuard_drop.
  match goal with |- account ?g ?A ?R =>
    change g with (u64_wrapping_sub (udp_gauge s) 1);
    assert (A = alter (λ n, u64_wrapping_sub n 1) (ux_entry y) (udp_actives s)) as ->
      by (by apply (udp_actives_alter _ (λ n, u64_wrapping_sub n 1) _ (ur_set_sessions (delete x (ur_sessions s)) s)));
    assert (R = delete x (alive s)) as -> by (unfold alive; simpl; apply fmap_delete)
  end.
  apply account_end; [exact Hacc|]. unfold alive. by rewrite lookup_fmap, Hx.
Qed.

Lemma account_drop_unheld_but kept s : udp_account s → udp_account (drop_unheld_but kept s).
Proof.
  intros Hacc. unfold drop_unheld_but. induction (filter _ _).*1 as [|x l IH]; cbn [foldr]; [done|].
  by apply account_drop_session.
Qed.

Lemma account_drop_unheld s : udp_account s → udp_account (drop_unheld s).
Proof. apply account_drop_unheld_but. Qed.

Lemma account_new_session e y s :
  ur_sessions s !! ur_next s = None → ux_entry y = e → udp_account s →
  udp_account (SessionGuard_new e (ur_count_ref (ur_set_sessions (<[ur_next s := y]> (ur_sessions s)) s))).
Proof.
  intros Hfresh He Hacc. unfold udp_account, SessionGuard_new.
  match goal with |- account ?g ?A ?R =>
    change g with (u64_wrapping_add (udp_gauge s) 1);
    assert (A = alter (λ n, u64_wrapping_add n 1) e (udp_actives s)) as ->
      by (by apply (udp_actives_alter _ (λ n, u64_wrapping_add n 1) _
            (ur_metric (Gauge_inc udp_active_sessions) (ur_inc udp_session_create_total
              (ur_count_ref (ur_set_sessions (<[ur_next s := y]> (ur_sessions s)) s))))));
    assert (R = <[ur_next s := e]> (alive s)) as -> by (unfold alive; simpl; by rewrite fmap_insert, He)
  end.
  apply account_begin; [exact Hacc|]. unfold alive. by rewrite lookup_fmap, Hfresh.
Qed.

(** ** Steps *)
Lemma counts_prepare_end g now seen rest s s' :
  same_counts s s' → same_counts s (prepare_end g now seen rest s').2.
Proof.
  revert seen s'. induction rest as [|[x|] rest IH]; intros seen s' Hs; simpl; [done| |by apply IH].
  destruct (ur_sessions s' !! x) as [y|]; [|by apply IH].
  destruct (negb _ || _); [apply IH; auto with counts|]. apply IH.
  case_bool_decide; auto with counts.
Qed.

Lemma counts_send_groups s s' b l gs e : same_counts s s' → same_counts s (send_groups b l gs e s').
Proof. intros Hs. destruct gs; simpl; auto with counts. Qed.

Lemma counts_prepare_next e entry p s : same_counts s (prepare_next e entry p s).
Proof.
  unfold prepare_next. destruct (pr_batch p !! _) as [d|].
  - destruct (previous_session _ _ _); [auto with counts|]. destruct (session_lookup _ _ _ _); auto with counts.
  - unfold prepare_finish. destruct (negb _).
    + apply counts_batch_done, counts_add; [|done]. induction (omap id (pr_sessions p)); cbn [foldr]; auto with counts.
    + pose proof (counts_prepare_end (pr_generation p) (ur_now s) [] (pr_sessions p) s s (same_counts_refl s)) as Hs.
      destruct (prepare_end _ _ _ _ _) as [l s']. by apply counts_send_groups.
Qed.

Lemma counts_session_insert e entry p x c s : same_counts s (session_insert e entry p x c s).
Proof.
  unfold session_insert. destruct (y ← _; _); [auto with counts|]. destruct (negb _); [auto with counts|].
  destruct (ue_sessions entry !! c); auto with counts.
Qed.

Lemma counts_group_sent e b l x idx gs sent s : same_counts s (group_sent e b l x idx gs sent s).
Proof.
  unfold group_sent. cbv zeta. apply counts_send_groups. destruct sent; [done|].
  destruct (ur_sessions s !! x); auto with counts.
Qed.

Lemma counts_session_spawn e p x y s : same_counts s (session_spawn e p x y s).
Proof. unfold session_spawn. destruct (ux_closed y); auto with counts. Qed.

Lemma counts_session_store e p x s : same_counts s (session_store e p x s).
Proof. unfold session_store. auto with counts. Qed.

Lemma counts_cleanup e ttl s : same_counts s (cleanup_tick e ttl s).
Proof.
  unfold cleanup_tick, compact_empty_sessions_after_idle. apply counts_entry.
  - unfold expire_idle_sessions. destruct (ur_heap s !! e) as [entry|]; [|done].
    induction (map_to_list (ue_sessions entry)) as [|row l IH]; cbn [foldr]; [done|].
    unfold expire_idle_session at 1. destruct (ur_sessions _ !! _); [|done]. destruct (_ <? _); auto with counts.
  - intros y. destruct (ue_empty_since y); [|done]. by destruct (_ <? _).
Qed.

Lemma counts_set_reply s s' r x : same_counts s s' → same_counts s (set_reply r x s').
Proof. unfold set_reply. auto with counts. Qed.
#[export] Hint Resolve counts_set_reply : counts.

Lemma counts_reply_received x y r s : same_counts s (reply_received x y r s).
Proof. destruct r; simpl; [|auto with counts]. destruct (session_current s x y); auto with counts. Qed.

Lemma counts_reply_sent x y r s : same_counts s (reply_sent x y r s).
Proof.
  destruct r; simpl; [|auto with counts]. apply counts_set_reply, counts_session; [|done].
  apply counts_entry; auto with counts.
Qed.

Lemma counts_received e entry batch s : same_counts s (received e entry batch s).
Proof.
  unfold received. cbv zeta. apply counts_set_receive, counts_entry; [|done].
  destruct (ue_udp_batch_enabled entry); auto with counts.
Qed.

Lemma counts_prepare_begin e entry batch s : same_counts s (prepare_begin e entry batch s).
Proof.
  unfold prepare_begin.
  destruct (us_effective_host (ue_state entry)), (us_effective_target_port (ue_state entry)); auto with counts.
Qed.

Lemma account_create w e p c connected s :
  inv_within w s → udp_account s → udp_account (create_session e p c connected s).
Proof.
  intros Hinv Hacc. unfold create_session. destruct connected.
  - eapply same_counts_account; [apply counts_set_receive, same_counts_refl|].
    apply account_new_session; [by eapply fresh_session|done|done].
  - eapply same_counts_account; [|exact Hacc]. auto with counts.
Qed.

Lemma task_step_account w ev s s' :
  inv_within w s → udp_account s → udp_task_step ev s = Some s' → udp_account s'.
Proof.
  intros Hinv Hacc. destruct ev as [e b|e|e|e|e c|e|e|e|e sent|e|e|e|x|x r|x r|n]; simpl.
  1-10: destruct (receiving e s) as [[ph entry]|] eqn:Hrx; [|done];
    destruct ph as [|b'|p|p|p x|p x|p x|b' l gs]; try done.
  5: intros (client & Hc & [= <-])%bind_Some; by eapply account_create.
  all: intros Hs; eapply same_counts_account; [|exact Hacc]; revert Hs.
  - case_bool_decide; [|done]. intros [= <-]. apply counts_received.
  - intros [= <-]. auto with counts.
  - intros [= <-]. apply counts_prepare_begin.
  - intros [= <-]. apply counts_prepare_next.
  - intros (client & Hc & [= <-])%bind_Some. apply counts_session_insert.
  - intros (y & _ & [= <-])%bind_Some. apply counts_session_spawn.
  - intros [= <-]. apply counts_session_store.
  - destruct gs as [|[x idx] gs]; [done|]. destruct sent as [|n]; [intros [= <-]; apply counts_group_sent|].
    case_bool_decide; [|done]. intros [= <-]. apply counts_group_sent.
  - destruct (ue_shutdown entry); [|done]. intros [= <-]. auto with counts.
  - intros (entry & He & Hif)%bind_Some. destruct (ue_cleanup entry); [|done]. injection Hif as <-. apply counts_cleanup.
  - intros (entry & He & Hif)%bind_Some. destruct (_ && _); [|done]. injection Hif as <-. auto with counts.
  - destruct (replying x s) as [[[| |n] y]|]; try done. intros [= <-]. unfold reply_top. auto with counts.
  - destruct (replying x s) as [[[| |n] y]|]; try done. intros [= <-]. apply counts_reply_received.
  - destruct (replying x s) as [[[| |n] y]|]; try done. intros [= <-]. apply counts_reply_sent.
  - destruct (0 <=? n); [|done]. by intros [= <-].
Qed.

Lemma udp_bind_account a r s :
  udp_inv s → udp_account s → wp (UdpRuntime_bind_entry a r) (λ _ s', udp_account s') s.
Proof.
  intros Hinv Hacc. unfold UdpRuntime_bind_entry. wp_simpl. destruct (map_err _ _); [|exact Hacc].
  unfold udp_bind_socket, wp. simpl. destruct (ur_binds _ _ _); simpl.
  - unfold udp_account. set (H := udp_actives _).
    assert (H = <[ur_next s := 0]> (udp_actives s)) as -> by (unfold H, udp_actives; simpl; by rewrite fmap_insert).
    apply account_new_entry; [exact Hacc|]. intros x. unfold alive. simpl. rewrite lookup_fmap.
    intros (y & Hy & Hxe)%fmap_Some. destruct Hinv as (_ & I2 & I3 & _).
    destruct (I3 _ _ Hy) as [_ (entry & He & _)]. rewrite <- Hxe in He. destruct (I2 _ _ He). lia.
  - destruct r; simpl; (eapply same_counts_account; [|exact Hacc]);
      (eapply same_counts_trans; [|repeat (apply counts_inc; [|discriminate]); apply same_counts_refl]); done.
Qed.

Lemma track_account a r s :
  udp_inv s → udp_account s → wp (udp_track a r) (λ _ s', udp_account s') s.
Proof.
  intros Hinv Hacc. unfold udp_track. destruct (negb _); [exact Hacc|]. wp_simpl.
  eapply wp_mono; [by apply udp_bind_account|]. intros [e|err] s1 Hs1; [|exact Hs1]. wp_simpl.
  eapply same_counts_account; [|exact Hs1]. apply counts_inc; [apply counts_entries, same_counts_refl|discriminate].
Qed.

Lemma udp_request_account q s : udp_inv s → udp_account s → udp_account (run_udp q s).
Proof.
  intros Hinv Hacc. destruct q as [a|a|id|a|]; simpl.
  - by apply track_account.
  - enough (wp (UdpRuntime_update a 0) (λ _ s', udp_account s') s) by done.
    unfold UdpRuntime_update. wp_simpl. destruct (ur_entries s !! al_id a) as [e|]; [|exact Hacc].
    simpl. case_bool_decide; wp_simpl;
      (eapply same_counts_account; [apply counts_inc; [apply same_counts_refl|discriminate]|]);
      apply account_drop_unheld; (eapply same_counts_account; [|exact Hacc]); auto with counts.
  - enough (wp (UdpRuntime_delete id 0) (λ _ s', udp_account s') s) by done.
    unfold UdpRuntime_delete. wp_simpl. destruct (ur_entries s !! id); [|exact Hacc].
    wp_simpl. apply account_drop_unheld. eapply same_counts_account; [|exact Hacc].
    apply counts_stop_entry. auto with counts.
  - by apply track_account.
  - apply account_drop_unheld. eapply same_counts_account; [|exact Hacc].
    induction (map_to_list (ur_entries s)).*2 as [|e l IH]; cbn [foldr]; auto with counts.
Qed.

Lemma udp_step_account s s' : udp_inv s → udp_account s → udp_step s s' → udp_account s'.
Proof.
  intros Hinv Hacc Hstep. destruct Hstep as [q s|ev s s' Hev]; [by apply udp_request_account|].
  unfold udp_event in Hev. apply fmap_Some in Hev as (s1 & Hs1 & ->).
  by eapply account_drop_unheld, task_step_account.
Qed.

(** ** Every session is held *)
Definition all_held (s : UdpRuntime) : Prop :=
  ∀ x y, ur_sessions s !! x = Some y → held s x y = true.

Lemma held_elim s x y :
  held s x y = true → is_Some (ux_reply y) ∨ ∃ e entry, ur_heap s !! e = Some entry ∧ holds entry x.
Proof.
  unfold held. intros [Hr%bool_decide_eq_true|Hx]%orb_true_iff; [by left|right].
  apply existsb_exists in Hx as (entry & Hin & Hh).
  apply list_elem_of_In, list_elem_of_fmap in Hin as ([e entry'] & -> & Hin).
  apply elem_of_map_to_list in Hin. exists e, entry'. split; [done|]. simpl in Hh. unfold entry_holds in Hh.
  apply orb_true_iff in Hh as [Hh%bool_decide_eq_true|Hh].
  - left. apply list_elem_of_fmap in Hh as ([c x'] & -> & Hc). exists c. by apply elem_of_map_to_list in Hc.
  - destruct (ue_receive entry') as [ph|] eqn:Hph; [|done]. apply bool_decide_eq_true in Hh.
    right. by exists ph.
Qed.

Lemma held_metrics s s' x y :
  (∀ e, ∃ m, ur_heap s' !! e = ue_set_metrics m <$> ur_heap s !! e) →
  held s x y = true → held s' x y = true.
Proof.
  intros HH [Hr|(e & entry & He & Hh)]%held_elim.
  - unfold held. apply orb_true_iff. left. by apply bool_decide_eq_true.
  - destruct (HH e) as [m Hm]. rewrite He in Hm. eapply holds_held; [exact Hm|exact Hh].
Qed.

Lemma drop_unheld_held s : all_held (drop_unheld s).
Proof.
  destruct (drop_unheld_spec s) as (_ & _ & HH & HS). intros x y [Hx Hheld]%HS. by eapply held_metrics.
Qed.

Lemma same_udp_held s s' : same_udp s s' → all_held s → all_held s'.
Proof.
  intros (_ & HS & _ & HH) Hall x y. rewrite HS. intros Hx. eapply held_metrics; [exact HH|by apply Hall].
Qed.

Lemma track_held a r s : udp_inv s → all_held s → wp (udp_track a r) (λ _ s', all_held s') s.
Proof.
  intros Hinv Hall. unfold udp_track, UdpRuntime_bind_entry. destruct (negb _); [exact Hall|].
  wp_simpl. destruct (map_err _ _); [|exact Hall].
  unfold udp_bind_socket, wp. simpl. destruct (ur_binds _ _ _); simpl; [|by destruct r].
  intros x y Hx. destruct (held_elim _ _ _ (Hall x y Hx)) as [Hr|(e & entry & He & Hh)].
  - unfold held. apply orb_true_iff. left. by apply bool_decide_eq_true.
  - apply (holds_held _ e entry); [|done]. simpl. rewrite lookup_insert_ne; [done|].
    intros Heq. destruct Hinv as (_ & I2 & _). destruct (I2 _ _ He). lia.
Qed.

Lemma udp_step_held s s' : udp_inv s → all_held s → udp_step s s' → all_held s'.
Proof.
  intros Hinv Hall Hstep. destruct Hstep as [q s|ev s s' Hev].
  - destruct q as [a|a|id|a|]; simpl; [by apply track_held| | |by apply track_held|apply drop_unheld_held].
    + enough (wp (UdpRuntime_update a 0) (λ _ s', all_held s') s) by done.
      unfold UdpRuntime_update. wp_simpl. destruct (ur_entries s !! al_id a); [|exact Hall].
      simpl. case_bool_decide; wp_simpl; (eapply same_udp_held; [apply udp_same_metric|apply drop_unheld_held]).
    + enough (wp (UdpRuntime_delete id 0) (λ _ s', all_held s') s) by done.
      unfold UdpRuntime_delete. wp_simpl. destruct (ur_entries s !! id); [|exact Hall].
      wp_simpl. apply drop_unheld_held.
  - unfold udp_event in Hev. apply fmap_Some in Hev as (s1 & _ & ->). apply drop_unheld_held.
Qed.

(** Closed, with its reply task still there: it was closed before the task's handle was
    stored. *)
Definition lingers (y : UdpSession) : Prop := ux_closed y = true ∧ is_Some (ux_reply y).

(** A session is held by its own listener's table or receive task, or it lingers. *)
Lemma alive_held w s x y :
  inv_within w s → wn_drained w = [] → all_held s → ur_sessions s !! x = Some y →
  ∃ entry, ur_heap s !! ux_entry y = Some entry ∧ (holds entry x ∨ lingers y).
Proof.
  intros (I1 & I2 & I3 & I4) Hd Hall Hx. destruct (I3 _ _ Hx) as [_ (entry & He & _ & Hrow)].
  destruct (held_elim _ _ _ (Hall _ _ Hx)) as [Hr|(e & entry' & He' & Hh)].
  - exists entry. split; [done|]. destruct (ux_closed y) eqn:Hcl; [by right|]. left. left.
    destruct (Hrow (conj Hr Hcl)) as [?|Hin]; [by eexists|]. rewrite Hd in Hin. by apply elem_of_nil in Hin.
  - destruct (I2 _ _ He') as [_ Hok]. rewrite (holds_entry _ _ _ _ _ _ Hok Hh Hx). eauto.
Qed.

(** The rows of a listener whose receive task holds no session are all its sessions that do
    not linger. *)
Lemma owned_rows w s e entry :
  inv_within w s → wn_drained w = [] → all_held s → ur_heap s !! e = Some entry → (∀ x, ¬ local entry x) →
  (∀ x y, ur_sessions s !! x = Some y → ux_entry y = e → ¬ lingers y) →
  size (owned e (alive s)) = size (ue_sessions entry).
Proof.
  intros Hinv Hd Hall He Hloc Hnl. pose proof Hinv as (_ & I2 & _). destruct (I2 _ _ He) as [_ Hok].
  pose proof Hok as (_ & _ & _ & Ht & _). set (l := (map_to_list (ue_sessions entry)).*2).
  assert (NoDup l) as Hnd.
  { apply NoDup_fmap_2_strong; [|apply NoDup_map_to_list].
    intros [c x] [c' x'] Hc%elem_of_map_to_list Hc'%elem_of_map_to_list Heq. simpl in Heq. subst x'.
    f_equal. by eapply row_of. }
  assert (dom (owned e (alive s)) = list_to_set l) as Hdom.
  { apply set_eq. intros x. rewrite elem_of_dom, elem_of_list_to_set. unfold l. split.
    - intros [e' [Hx Hee]%map_lookup_filter_Some]. simpl in Hee. subst e'.
      unfold alive in Hx. rewrite lookup_fmap in Hx. apply fmap_Some in Hx as (y & Hy & Hxe).
      destruct (alive_held w s x y Hinv Hd Hall Hy) as (entry' & He' & [[[c Hc]|Hl]|Hl]); rewrite <- Hxe, He in He';
        injection He' as <-; [|by destruct (Hloc x)|by destruct (Hnl x y)].
      apply list_elem_of_fmap. exists (c, x). split; [done|]. by apply elem_of_map_to_list.
    - intros ([c x'] & -> & Hc%elem_of_map_to_list)%list_elem_of_fmap. simpl.
      destruct (Ht _ _ Hc) as (_ & y & Hy & Hye & _). exists e.
      apply map_lookup_filter_Some. split; [|done]. unfold alive. by rewrite lookup_fmap, Hy, <- Hye. }
  rewrite <- size_dom, Hdom, size_list_to_set by done. unfold l. rewrite length_fmap. apply length_map_to_list.
Qed.

(** The UDP session counts are exact. In every reachable state the gauge of active
    sessions is the number of sessions that are alive, the count of each listener that of
    its own, both modulo 2^64; and when its receive task holds none, that is the number of
    rows of its session table: no session outlives its row, unless it was closed before
    the handle of its reply task was stored. *)
Theorem udp_session_counts_exact config now binds s :
  rtc udp_step (UdpRuntime_new config Metrics_default now binds) s →
  Gauge_load udp_active_sessions (ur_metrics s) = wrap (Z.of_nat (size (ur_sessions s))) ∧
  ∀ e entry, ur_heap s !! e = Some entry →
    um_active (ue_metrics entry) = wrap (Z.of_nat (size (owned e (alive s)))) ∧
    ((∀ p, ue_receive entry = Some p → phase_sessions p = []) →
     (∀ x y, ur_sessions s !! x = Some y → ux_entry y = e → ¬ lingers y) →
       size (owned e (alive s)) = size (ue_sessions entry)).
Proof.
  intros Hr. set (s0 := UdpRuntime_new config Metrics_default now binds) in Hr.
  enough (udp_inv s ∧ udp_account s ∧ all_held s) as (Hinv & [Hg HA] & Hall).
  { split.
    - unfold Gauge_load. fold (udp_gauge s). rewrite Hg. unfold alive. by rewrite map_size_fmap.
    - intros e entry He. split; [apply HA; unfold udp_actives; by rewrite lookup_fmap, He|].
      intros Hidle Hnl. apply (owned_rows shut); [done..| |exact Hnl]. intros x (p & Hp & Hx). rewrite (Hidle p Hp) in Hx.
      by apply elem_of_nil in Hx. }
  assert (udp_inv s0 ∧ udp_account s0 ∧ all_held s0) as H0.
  { split_and!.
    - apply udp_initial_inv. by repeat eexists.
    - split; [done|]. intros e n. unfold udp_actives. simpl. by rewrite fmap_empty, lookup_empty.
    - intros x y Hx. simpl in Hx. by rewrite lookup_empty in Hx. }
  clearbody s0. induction Hr as [|s1 s2 s3 H12 _ IH]; [exact H0|]. destruct H0 as (Hi & Ha & Hh).
  apply IH. split_and!; [by eapply udp_step_inv|by eapply udp_step_account|by eapply udp_step_held].
Qed.
