(* ===== verification/UdpQuiet.v ===== *)
(** Stopping a UDP listener (runtime/udp.rs): what a deletion stops stays stopped, and so
    does a receive task that ended by itself. *)
From stdpp Require Import base gmap strings list relations fin_maps.
From Stdlib Require Import ZArith Lia.
From S2P Require Import Prelude RustStd Model Facade Metrics UdpModel Udp UdpSpec UdpSteps UdpAccount.
Open Scope Z_scope.

(** A running task can still be aborted: its handle is stored. *)
Definition receive_kept (x : UdpListenerEntry) : Prop := ue_receive_task x = false → ue_receive x = None.
Definition cleanup_kept (x : UdpListenerEntry) : Prop := ue_cleanup_task x = false → ue_cleanup x = false.
Definition handles_kept (x : UdpListenerEntry) : Prop := receive_kept x ∧ cleanup_kept x.

Definition keeps (x x' : UdpListenerEntry) : Prop :=
  (receive_kept x → receive_kept x') ∧ (cleanup_kept x → cleanup_kept x').

Lemma keeps_handles x x' : keeps x x' → handles_kept x → handles_kept x'.
Proof. intros [H1 H2] [? ?]. split; auto. Qed.

(** How an entry may change: ended tasks stay ended, without its receive task the table
    gains no row, and the generation grows. *)
Definition calmer (x x' : UdpListenerEntry) : Prop :=
  (ue_receive x = None → ue_receive x' = None ∧ ue_sessions x' ⊆ ue_sessions x) ∧
  (ue_cleanup x = false → ue_cleanup x' = false) ∧
  keeps x x' ∧
  ue_generation x ≤ ue_generation x'.

#[export] Instance calmer_po : PreOrder calmer.
Proof.
  split; [by intros x|]. intros x y z (H1 & H2 & [H3 H3'] & ?) (H4 & H5 & [H6 H6'] & ?).
  split_and!; [|auto|split; auto|lia].
  intros [Hn Hs]%H1. destruct (H4 Hn) as [? ?]. split; [done|by etrans].
Qed.

(** A session stays what it is, and closed. *)
Definition same_session (y y' : UdpSession) : Prop :=
  ident y' = ident y ∧ (ux_closed y = true → ux_closed y' = true).

#[export] Instance same_session_po : PreOrder same_session.
Proof. split; [by intros y|]. intros x y z [? ?] [? ?]. split; [congruence|auto]. Qed.

#[export] Hint Extern 0 (same_session ?y ?y) => reflexivity : core.
#[export] Hint Extern 1 (same_session ?y _) => split; [reflexivity|done] : core.

Lemma same_session_entry y y' : same_session y y' → ux_entry y' = ux_entry y.
Proof. intros [Hid _]. by destruct (ident_same _ _ Hid). Qed.

(** A step does not wake what has ended, and keeps what a session is. *)
Definition calm (s s' : UdpRuntime) : Prop :=
  (∀ e entry, ur_heap s !! e = Some entry → ∃ entry', ur_heap s' !! e = Some entry' ∧ calmer entry entry') ∧
  (∀ e entry', ur_heap s' !! e = Some entry' → ur_heap s !! e = None → handles_kept entry') ∧
  (ur_next s ≤ ur_next s')%nat ∧
  (∀ x y', ur_sessions s' !! x = Some y' →
    (∃ y, ur_sessions s !! x = Some y ∧ same_session y y') ∨
    ((ur_next s ≤ x)%nat ∧
     ∀ entry, ur_heap s !! ux_entry y' = Some entry → ue_receive entry ≠ None)).

#[export] Instance calm_po : PreOrder calm.
Proof.
  split.
  - intros s. split_and!; [|congruence|done|eauto]. intros e entry He. exists entry. by split.
  - intros s1 s2 s3 (He & Hk & Hn & Hx) (He' & Hk' & Hn' & Hx'). split_and!.
    + intros e entry (entry' & (entry'' & ? & ?)%He' & ?)%He. exists entry''. split; [done|by etrans].
    + intros e entry3 H3 Hnone. destruct (ur_heap s2 !! e) as [entry2|] eqn:H2; [|by eapply Hk'].
      destruct (He' _ _ H2) as (entry3' & H3' & _ & _ & Hkeep & _). assert (entry3' = entry3) as -> by congruence.
      by eapply keeps_handles, (Hk _ _ H2).
    + lia.
    + intros x y3 [(y2 & H2 & Heq2)|[Hlt Hlive]]%Hx'.
      * apply Hx in H2 as [(y1 & H1 & Heq1)|Hlive]; [left; exists y1; split; [done|by etrans]|].
        right. by rewrite (same_session_entry _ _ Heq2).
      * right. split; [lia|]. intros entry Hentry Hnone. apply He in Hentry as (entry' & Hentry' & Hc & _).
        by apply (Hlive _ Hentry'), Hc.
Qed.

Lemma calm_refl s : calm s s.
Proof. reflexivity. Qed.

(** ** One more assignment *)
Lemma calm_assign s s' s'' :
  calm s s' → ur_heap s'' = ur_heap s' → ur_sessions s'' = ur_sessions s' → ur_next s'' = ur_next s' →
  calm s s''.
Proof. intros Hs Hh Hx Hn. etrans; [exact Hs|]. unfold calm. rewrite Hh, Hx, Hn. apply calm_refl. Qed.

Lemma calm_entry s s' f e :
  calm s s' → (∀ x, ur_heap s' !! e = Some x → calmer x (f x)) → calm s (ur_alter_entry f e s').
Proof.
  intros Hs Hf. etrans; [exact Hs|]. split_and!; simpl; [| |done|eauto].
  - intros e' entry He'. destruct (decide (e' = e)) as [->|].
    + rewrite lookup_alter_eq, He'. simpl. eauto.
    + rewrite lookup_alter_ne by done. exists entry. by split.
  - intros e' entry He' Hnone. exfalso.
    destruct (decide (e' = e)) as [->|];
      [rewrite lookup_alter_eq in He'|rewrite lookup_alter_ne in He' by done];
      rewrite Hnone in He'; done.
Qed.

Lemma calm_session s s' f x :
  calm s s' → (∀ y, same_session y (f y)) → calm s (ur_alter_session f x s').
Proof.
  intros Hs Hf. etrans; [exact Hs|]. destruct (calm_refl s') as (Hc & Hk & _).
  split_and!; [exact Hc|exact Hk|done|]. simpl.
  intros x' y' Hx'. left. destruct (decide (x' = x)) as [->|].
  - rewrite lookup_alter_eq in Hx'. apply fmap_Some in Hx' as (y & Hy & ->). exists y. split; [done|apply Hf].
  - rewrite lookup_alter_ne in Hx' by done. eauto.
Qed.

Lemma calm_metric s s' f : calm s s' → calm s (ur_metric f s').
Proof. intros Hs. by apply (calm_assign s s'). Qed.

Lemma calm_add s s' c n : calm s s' → calm s (ur_add c n s').
Proof. apply calm_metric. Qed.

Lemma calm_inc s s' c : calm s s' → calm s (ur_inc c s').
Proof. apply calm_metric. Qed.

Lemma calm_entries s s' E : calm s s' → calm s (ur_set_entries E s').
Proof. intros Hs. by apply (calm_assign s s'). Qed.

(** The receive task is at work: its entry may change at will, its handles apart. *)
Lemma calmer_live x f p :
  ue_receive x = Some p →
  ue_receive_task (f x) = ue_receive_task x → ue_cleanup_task (f x) = ue_cleanup_task x →
  ue_cleanup (f x) = ue_cleanup x → ue_generation (f x) = ue_generation x → calmer x (f x).
Proof.
  intros Hp Hr Hc Hcl Hg. split_and!; [congruence|congruence| |lia].
  unfold keeps, receive_kept, cleanup_kept. rewrite Hr, Hc, Hcl. split; [|done].
  intros H1 Ht%H1. congruence.
Qed.

Create HintDb calm.
#[export] Hint Resolve calm_refl calm_session calm_metric calm_add calm_inc calm_entries : calm.
#[export] Hint Extern 1 (∀ y, same_session y _) => intros; split; [reflexivity|done] : calm.

Lemma calm_close_session s s' x : calm s s' → calm s (close_session x s').
Proof.
  intros Hs. apply calm_session; [done|]. intros y. unfold abort_reply_task. destruct (ux_handle _); auto.
Qed.

Lemma calm_record_removal s s' r : calm s s' → calm s (record_removal r s').
Proof. destruct r; simpl; auto with calm. Qed.
#[export] Hint Resolve calm_close_session calm_record_removal : calm.

(** Fewer rows. *)
Lemma calmer_rows x tbl : tbl ⊆ ue_sessions x → calmer x (ue_set_sessions tbl x).
Proof. intros Hsub. split_and!; [|done|done|done]. intros Hn. by split. Qed.

Lemma calm_remove_session s s' e c x r : calm s s' → calm s (remove_session e c x r s').
Proof.
  intros Hs. unfold remove_session. destruct (ur_heap s' !! e) as [entry|] eqn:He; [|done]. case_decide; [|done].
  unfold record_empty_since_if_empty. apply calm_entry; [|intros y _; by case_bool_decide].
  apply calm_close_session, calm_record_removal, calm_entry; [done|].
  intros y Hy. assert (y = entry) as -> by congruence. apply calmer_rows, delete_subseteq.
Qed.

Lemma calm_close_drained s s' b l : calm s s' → calm s (foldr (close_drained b) s' l).
Proof.
  intros Hs. induction l as [|x l IH]; cbn [foldr]; [done|]. unfold close_drained. destruct b; auto with calm.
Qed.

Lemma calm_close_sessions s s' e b : calm s s' → calm s (UdpRuntime_close_sessions e b s').
Proof.
  intros Hs. unfold UdpRuntime_close_sessions. destruct (ur_heap s' !! e) as [entry|]; [|done].
  apply calm_entry; [|by intros]. apply calm_close_drained, calm_entry; [done|].
  intros y _. apply calmer_rows, map_empty_subseteq.
Qed.

(** A stopped entry, its handles kept, has ended its tasks. *)
Definition stopped (x : UdpListenerEntry) : UdpListenerEntry :=
  ue_stop_cleanup (ue_stop_receive (ue_send_shutdown x)).

Lemma stopped_calmer x : calmer x (stopped x).
Proof.
  split_and!; unfold keeps, receive_kept, cleanup_kept; simpl.
  - intros Hn. rewrite Hn. by destruct (ue_receive_task x).
  - intros Hn. rewrite Hn. by destruct (ue_cleanup_task x).
  - destruct (ue_receive_task x), (ue_cleanup_task x); split; auto.
  - done.
Qed.

Lemma stopped_ended x : handles_kept x → ue_receive (stopped x) = None ∧ ue_cleanup (stopped x) = false.
Proof.
  unfold handles_kept, receive_kept, cleanup_kept. intros [H1 H2]. simpl.
  destruct (ue_receive_task x), (ue_cleanup_task x); split; auto.
Qed.

Lemma calm_stop_entry s s' b e : calm s s' → calm s (UdpRuntime_stop_entry b e s').
Proof. intros Hs. apply calm_close_sessions, calm_entry; [done|]. intros x _. apply stopped_calmer. Qed.

#[export] Hint Resolve calm_remove_session calm_close_sessions calm_stop_entry : calm.

Lemma calm_drop_unheld_but kept s s' : calm s s' → calm s (drop_unheld_but kept s').
Proof.
  intros Hs. etrans; [exact Hs|]. destruct (drop_unheld_but_spec kept s') as (_ & Hn & HH & HS). split_and!.
  - intros e entry He. destruct (HH e) as [m Hm]. rewrite He in Hm. eexists. split; [exact Hm|]. done.
  - intros e entry' He' Hnone. destruct (HH e) as [m Hm]. rewrite Hnone in Hm. simpl in Hm. congruence.
  - by rewrite Hn.
  - intros x y [Hx _]%HS. eauto.
Qed.

Lemma calm_drop_unheld s s' : calm s s' → calm s (drop_unheld s').
Proof. apply calm_drop_unheld_but. Qed.
#[export] Hint Resolve calm_drop_unheld : calm.

(** ** Requests *)
Lemma bind_calm a r s : udp_inv s → wp (UdpRuntime_bind_entry a r) (λ _ s', calm s s') s.
Proof.
  intros Hinv. unfold UdpRuntime_bind_entry. wp_simpl. destruct (map_err _ _); [|apply calm_refl].
  unfold udp_bind_socket, wp. simpl. destruct (ur_binds _ _ _); simpl.
  - split_and!; simpl; [| |lia|eauto].
    + intros e entry He. rewrite lookup_insert_ne; [exists entry; by split|]. intros Heq.
      destruct Hinv as (_ & I2 & _). destruct (I2 _ _ He). lia.
    + intros e entry [[_ <-]|[_ He]]%lookup_insert_Some; [done|congruence].
  - destruct r; simpl; (eapply calm_assign; [apply calm_refl|done|done|done]).
Qed.

Lemma track_calm a r s : udp_inv s → wp (udp_track a r) (λ _ s', calm s s') s.
Proof.
  intros Hinv. unfold udp_track. destruct (negb _); [apply calm_refl|]. wp_simpl.
  eapply wp_mono; [by apply bind_calm|]. intros [e|err] s1 Hs1; [|exact Hs1]. wp_simpl.
  by apply calm_inc, calm_entries.
Qed.

Lemma set_state_calm w (f : UdpListenerEntry → UdpEntryState) e s :
  inv_within w s →
  (∀ x, us_generation (f x) = u64_saturating_add (us_generation (ue_state x)) 1) →
  calm s (ur_alter_entry (λ x, ue_set_state (f x) x) e s).
Proof.
  intros Hinv Hf. apply calm_entry; [apply calm_refl|]. intros x Hx.
  split_and!; [by intros|by intros|by intros|]. destruct Hinv as (_ & I2 & _).
  destruct (I2 _ _ Hx) as [_ (Hg & Hb & _)]. simpl. rewrite Hf, Hg. apply (saturating_bump _ Hb).
Qed.

Lemma request_calm q s : udp_inv s → calm s (run_udp q s).
Proof.
  intros Hinv. destruct q as [a|a|id|a|]; simpl; [by apply track_calm| | |by apply track_calm|].
  - enough (wp (UdpRuntime_update a 0) (λ _ s', calm s s') s) by done.
    unfold UdpRuntime_update. wp_simpl. destruct (ur_entries s !! al_id a) as [e|]; [|apply calm_refl].
    simpl. case_bool_decide; wp_simpl; apply calm_inc, calm_drop_unheld, calm_close_sessions.
    + etrans; [apply calm_inc, calm_refl|]. eapply (set_state_calm shut (λ x, us_set_generation
        (u64_saturating_add (us_generation (ue_state x)) 1) (UdpRuntime_entry_state_for a))); [|done].
      eapply inv_same; [apply udp_same_metric|done].
    + by apply (set_state_calm shut (λ x, us_set_generation
        (u64_saturating_add (us_generation (ue_state x)) 1) (UdpRuntime_entry_state_for a))).
  - enough (wp (UdpRuntime_delete id 0) (λ _ s', calm s s') s) by done.
    unfold UdpRuntime_delete. wp_simpl. destruct (ur_entries s !! id); [|apply calm_refl].
    wp_simpl. auto with calm.
  - apply calm_drop_unheld. induction (map_to_list (ur_entries s)).*2 as [|e l IH]; cbn [foldr]; auto with calm.
Qed.

(** ** Events *)
Section live.
  Context (s : UdpRuntime) (e : nat) (entry : UdpListenerEntry) (p0 : ReceivePhase).
  Context (He : ur_heap s !! e = Some entry) (Hp0 : ue_receive entry = Some p0).

(** As long as the receive task of [e] is at work. *)
Definition awake (s' : UdpRuntime) : Prop :=
  calm s s' ∧ ∃ entry' p, ur_heap s' !! e = Some entry' ∧ ue_receive entry' = Some p.

Lemma awake_refl : awake s.
Proof. split; [apply calm_refl|eauto]. Qed.

Lemma awake_calm s' f :
  awake s' → (∀ s1, calm s s1 → calm s (f s1)) → ur_heap (f s') = ur_heap s' → awake (f s').
Proof. intros (Hc & entry' & p & He' & Hp) Hf HH. split; [by apply Hf|]. rewrite HH. eauto. Qed.

Lemma awake_add c n s' : awake s' → awake (ur_add c n s').
Proof. intros Ha. by apply (awake_calm s' (ur_add c n)); [|intros; by apply calm_add|]. Qed.

Lemma awake_inc c s' : awake s' → awake (ur_inc c s').
Proof. intros Ha. by apply (awake_calm s' (ur_inc c)); [|intros; by apply calm_inc|]. Qed.

Lemma awake_session f x s' :
  awake s' → (∀ y, same_session y (f y)) → awake (ur_alter_session f x s').
Proof. intros Ha Hf. by apply (awake_calm s' (ur_alter_session f x)); [|intros; by apply calm_session|]. Qed.

Lemma calm_live f s' :
  awake s' →
  (∀ x, ue_receive_task (f x) = ue_receive_task x ∧ ue_cleanup_task (f x) = ue_cleanup_task x ∧
        ue_cleanup (f x) = ue_cleanup x ∧ ue_generation (f x) = ue_generation x) →
  calm s (ur_alter_entry f e s').
Proof.
  intros (Hc & entry' & p & He' & Hp) Hf. apply calm_entry; [done|].
  intros x Hx. assert (x = entry') as -> by congruence. destruct (Hf entry') as (? & ? & ? & ?).
  by eapply calmer_live.
Qed.

Lemma awake_entry f s' :
  awake s' →
  (∀ x, ue_receive_task (f x) = ue_receive_task x ∧ ue_cleanup_task (f x) = ue_cleanup_task x ∧
        ue_cleanup (f x) = ue_cleanup x ∧ ue_generation (f x) = ue_generation x ∧
        (is_Some (ue_receive x) → is_Some (ue_receive (f x)))) →
  awake (ur_alter_entry f e s').
Proof.
  intros Ha Hf. split; [apply calm_live; [done|]; intros x; by destruct (Hf x) as (? & ? & ? & ? & _)|].
  destruct Ha as (_ & entry' & p & He' & Hp). exists (f entry').
  destruct (Hf entry') as (_ & _ & _ & _ & Hrx). destruct Hrx as [p' Hp']; [by eexists|].
  exists p'. split; [|done]. simpl. by rewrite lookup_alter_eq, He'.
Qed.

Lemma awake_set_receive ph s' : awake s' → awake (set_receive ph e s').
Proof. intros Ha. apply awake_entry; [done|]. intros x. by split_and!; [..|by eexists]. Qed.

Lemma awake_batch_done n s' : awake s' → awake (batch_done n e s').
Proof. intros Ha. apply awake_set_receive, awake_entry; [done|]. by intros x. Qed.

Lemma awake_remove_session c x r s' : awake s' → awake (remove_session e c x r s').
Proof.
  intros (Hc & entry' & p & He' & Hp). split; [by apply calm_remove_session|].
  unfold remove_session. rewrite He'. case_decide; [|eauto]. unfold record_empty_since_if_empty. simpl.
  assert (∀ s1, ur_heap (record_removal r s1) = ur_heap s1) as -> by (by destruct r). simpl.
  rewrite !lookup_alter_eq, He'. simpl. eexists _, p. split; [reflexivity|].
  by case_bool_decide.
Qed.

Lemma awake_send_groups b l gs s' : awake s' → awake (send_groups b l gs e s').
Proof. intros Ha. destruct gs; simpl; [by apply awake_batch_done|by apply awake_set_receive]. Qed.

Lemma awake_prepare_end g now seen rest s' : awake s' → awake (prepare_end g now seen rest s').2.
Proof.
  revert seen s'. induction rest as [|[x|] rest IH]; intros seen s' Ha; simpl; [done| |by apply IH].
  destruct (ur_sessions s' !! x); [|by apply IH].
  destruct (negb _ || _); [apply IH; by apply awake_inc, awake_session|]. apply IH.
  case_bool_decide; [done|by apply awake_session].
Qed.

Lemma awake_closes l s' : awake s' → awake (foldr (ur_alter_session (ux_set_closed true)) s' l).
Proof. intros Ha. induction l as [|x l IH]; cbn [foldr]; [done|]. by apply awake_session. Qed.

Lemma awake_prepare_next entry0 p : awake (prepare_next e entry0 p s).
Proof.
  pose proof awake_refl as Ha. unfold prepare_next. destruct (pr_batch p !! _) as [d|].
  - destruct (previous_session _ _ _); [by apply awake_set_receive|].
    destruct (session_lookup _ _ _ _); apply awake_set_receive; [done|by apply awake_inc|done].
  - unfold prepare_finish. destruct (negb _).
    + by apply awake_batch_done, awake_add, awake_closes.
    + pose proof (awake_prepare_end (pr_generation p) (ur_now s) [] (pr_sessions p) s Ha) as Hs.
      destruct (prepare_end _ _ _ _ _) as [l s']. by apply awake_send_groups.
Qed.

Lemma awake_prepare_begin entry0 batch : awake (prepare_begin e entry0 batch s).
Proof.
  pose proof awake_refl as Ha. unfold prepare_begin.
  destruct (us_effective_host (ue_state entry0)), (us_effective_target_port (ue_state entry0));
    first [by apply awake_set_receive|by apply awake_batch_done, awake_add].
Qed.

Lemma awake_received entry0 batch : awake (received e entry0 batch s).
Proof.
  pose proof awake_refl as Ha. unfold received. cbv zeta.
  apply awake_set_receive, awake_entry; [|by intros x].
  apply awake_add, awake_add. destruct (ue_udp_batch_enabled entry0); [|done]. by apply awake_add, awake_inc.
Qed.

Lemma awake_create p c connected : awake (create_session e p c connected s).
Proof.
  pose proof awake_refl as Ha. unfold create_session. destruct connected.
  - unfold SessionGuard_new. apply awake_set_receive, awake_entry; [|by intros x]. split; [|simpl; eauto].
    apply calm_metric, calm_inc. destruct (calm_refl s) as (Hc & Hk & _).
    split_and!; [exact Hc|exact Hk|simpl; lia|].
    intros x y. simpl. intros [[<- <-]|[_ Hx]]%lookup_insert_Some; [right|left; eauto].
    split; [done|]. simpl. intros entry' He'. congruence.
  - by apply awake_set_receive, awake_inc, awake_inc.
Qed.

Lemma awake_session_insert entry0 p x c : awake (session_insert e entry0 p x c s).
Proof.
  pose proof awake_refl as Ha. unfold session_insert. destruct (y ← _; _); [by apply awake_set_receive|].
  destruct (negb _); [by apply awake_set_receive, awake_inc|].
  assert (awake (set_receive (RxSpawn p x) e (ur_alter_entry (λ y, ue_set_sessions (<[c:=x]> (ue_sessions y))
            (ue_set_empty_since None y)) e s))) as Hs by (apply awake_set_receive, awake_entry; [done|by intros y]).
  destruct (ue_sessions entry0 !! c); [|done]. unfold close_session.
  apply awake_session; [by apply awake_inc|]. intros y. unfold abort_reply_task. destruct (ux_handle _); auto.
Qed.

Lemma awake_spawn p x y : awake (session_spawn e p x y s).
Proof.
  pose proof awake_refl as Ha. unfold session_spawn. destruct (ux_closed y); [by apply awake_set_receive|].
  by apply awake_set_receive, awake_session.
Qed.

Lemma awake_store p x : awake (session_store e p x s).
Proof. pose proof awake_refl as Ha. by apply awake_set_receive, awake_session. Qed.

Lemma awake_group_sent b l x idx gs sent : awake (group_sent e b l x idx gs sent s).
Proof.
  pose proof awake_refl as Ha. unfold group_sent. cbv zeta. apply awake_send_groups. destruct sent; [done|].
  destruct (ur_sessions s !! x); [|done]. by apply awake_remove_session, awake_add, awake_inc.
Qed.

Lemma calm_end_receive s' : awake s' → calm s (ur_alter_entry (ue_set_receive None) e s').
Proof. intros Ha. by apply calm_live. Qed.
End live.

Lemma calm_reply_received x y r s : calm s (reply_received x y r s).
Proof.
  destruct r; simpl; unfold set_reply; [|auto 6 with calm]. destruct (session_current s x y); auto 6 with calm.
Qed.

Lemma calm_reply_sent x y r s : calm s (reply_sent x y r s).
Proof.
  destruct r; simpl; unfold reply_top, set_reply; [|auto 8 with calm].
  apply calm_session; [|done]. apply calm_session; [|done].
  apply calm_entry; [auto 6 with calm|by intros y0 _].
Qed.

Lemma calm_cleanup e ttl s : calm s (cleanup_tick e ttl s).
Proof.
  unfold cleanup_tick, compact_empty_sessions_after_idle. apply calm_entry.
  - unfold expire_idle_sessions. destruct (ur_heap s !! e) as [entry|]; [|apply calm_refl].
    induction (map_to_list (ue_sessions entry)) as [|row l IH]; cbn [foldr]; [apply calm_refl|].
    unfold expire_idle_session at 1. destruct (ur_sessions _ !! _); [|done]. destruct (_ <? _); auto with calm.
  - intros y _. destruct (ue_empty_since y); [|reflexivity]. by destruct (_ <? _).
Qed.

Lemma task_step_calm ev s s' : udp_task_step ev s = Some s' → calm s s'.
Proof.
  destruct ev as [e b|e|e|e|e c|e|e|e|e sent|e|e|e|x|x r|x r|n]; simpl.
  1-10: destruct (receiving e s) as [[ph entry]|] eqn:Hrx; [|done];
    apply receiving_Some in Hrx as [He Hrx];
    pose proof (awake_refl s e entry ph He Hrx) as Ha;
    destruct ph as [|b'|p|p|p x|p x|p x|b' l gs]; try done.
  - case_bool_decide; [|done]. intros [= <-]. by eapply awake_received.
  - intros [= <-]. eapply calm_end_receive, awake_inc, Ha.
  - intros [= <-]. by eapply awake_prepare_begin.
  - intros [= <-]. by eapply awake_prepare_next.
  - intros (client & Hc & [= <-])%bind_Some. by eapply awake_create.
  - intros (client & Hc & [= <-])%bind_Some. by eapply awake_session_insert.
  - intros (y & _ & [= <-])%bind_Some. by eapply awake_spawn.
  - intros [= <-]. by eapply awake_store.
  - destruct gs as [|[x idx] gs]; [done|]. destruct sent as [|n]; [intros [= <-]; by eapply awake_group_sent|].
    case_bool_decide; [|done]. intros [= <-]. by eapply awake_group_sent.
  - destruct (ue_shutdown entry); [|done]. intros [= <-]. by eapply calm_end_receive.
  - intros (entry & He & Hif)%bind_Some. destruct (ue_cleanup entry); [|done]. injection Hif as <-. apply calm_cleanup.
  - intros (entry & He & Hif)%bind_Some. destruct (_ && _); [|done]. injection Hif as <-.
    apply calm_entry; [apply calm_refl|]. intros x _. split_and!; done.
  - destruct (replying x s) as [[[| |n] y]|]; try done. intros [= <-]. unfold reply_top, set_reply. auto with calm.
  - destruct (replying x s) as [[[| |n] y]|]; try done. intros [= <-]. apply calm_reply_received.
  - destruct (replying x s) as [[[| |n] y]|]; try done. intros [= <-]. apply calm_reply_sent.
  - destruct (0 <=? n); [|done]. intros [= <-]. by eapply calm_assign; [apply calm_refl|..].
Qed.

Lemma udp_step_calm s s' : udp_inv s → udp_step s s' → calm s s'.
Proof.
  intros Hinv Hstep. destruct Hstep as [q s|ev s s' Hev]; [by apply request_calm|].
  unfold udp_event in Hev. apply fmap_Some in Hev as (s1 & Hs1 & ->).
  by apply calm_drop_unheld, (task_step_calm ev).
Qed.

Lemma udp_rtc_calm s s' : udp_inv s → rtc udp_step s s' → calm s s'.
Proof.
  intros Hinv Hr. induction Hr as [s|s1 s2 s3 H12 _ IH]; [apply calm_refl|].
  etrans; [by apply udp_step_calm|]. apply IH. by eapply udp_step_inv.
Qed.

Lemma reachable_handles s0 s e entry :
  udp_initial s0 → rtc udp_step s0 s → ur_heap s !! e = Some entry → handles_kept entry.
Proof.
  intros H0 Hr He. pose proof (udp_initial_inv _ H0) as Hinv.
  destruct (udp_rtc_calm _ _ Hinv Hr) as (_ & Hk & _). apply (Hk e); [done|].
  destruct H0 as (c & m & now & b & ->). apply lookup_empty.
Qed.

(** The state after a deletion. *)
Lemma delete_state id t s e entry :
  udp_inv s → ur_entries s !! id = Some e → ur_heap s !! e = Some entry → handles_kept entry →
  let s' := (UdpRuntime_delete id t s).2 in
  ∃ entry', ur_heap s' !! e = Some entry' ∧ ue_receive entry' = None ∧ ue_cleanup entry' = false ∧
    ue_sessions entry' = ∅ ∧ all_held s' ∧ closes s s'.
Proof.
  intros Hinv Hid He Hk. cbv zeta.
  set (s' := (UdpRuntime_delete id t s).2).
  assert (udp_inv s') as Hinv' by (by apply delete_inv).
  set (s1 := ur_set_entries (delete id (ur_entries s)) s).
  assert (s' = drop_unheld (UdpRuntime_close_sessions e true (ur_alter_entry stopped e s1))) as Hs'.
  { unfold s', UdpRuntime_delete, bind, gets, modify. by rewrite Hid. }
  assert (ur_heap (ur_alter_entry stopped e s1) !! e = Some (stopped entry)) as Hst.
  { simpl. by rewrite lookup_alter_eq, He. }
  destruct (close_sessions_state e true _ _ Hst) as (_ & _ & HH & _).
  destruct (stopped_ended _ Hk) as [Hrx Hcl].
  destruct (drop_unheld_spec (UdpRuntime_close_sessions e true (ur_alter_entry stopped e s1))) as (_ & _ & Hd & HS).
  destruct (Hd e) as [m Hm]. rewrite <- Hs', HH, lookup_insert_eq in Hm. cbn [fmap option_fmap option_map] in Hm.
  eexists. split; [exact Hm|]. split_and!; [exact Hrx|exact Hcl|done|rewrite Hs'; apply drop_unheld_held|].
  intros x y. rewrite Hs'. intros [Hx _]%HS. exact (close_sessions_each _ _ _ _ _ Hx).
Qed.

(** The sessions of a listener that has ended. *)
Lemma ended_lingers s e entry x y :
  udp_inv s → all_held s → ur_heap s !! e = Some entry → ue_receive entry = None →
  ue_sessions entry = ∅ → ur_sessions s !! x = Some y → ux_entry y = e → lingers y.
Proof.
  intros Hinv Hall He Hrx Htbl Hy Hxe. destruct (alive_held shut s x y Hinv eq_refl Hall Hy) as (entry' & He' & [Hh|]); [|done].
  rewrite Hxe, He in He'. injection He' as <-. destruct Hh as [[c Hc]|(ph & Hph & _)]; [|congruence].
  by rewrite Htbl, lookup_empty in Hc.
Qed.

(** What has ended stays so. *)
Lemma calm_ended s s' e entry :
  calm s s' → ur_heap s !! e = Some entry → ue_receive entry = None →
  ∃ entry', ur_heap s' !! e = Some entry' ∧ ue_receive entry' = None ∧
    ue_sessions entry' ⊆ ue_sessions entry ∧ (ue_cleanup entry = false → ue_cleanup entry' = false).
Proof.
  intros (Hc & _) He Hn. destruct (Hc _ _ He) as (entry' & He' & Hr & Hcl & _).
  destruct (Hr Hn). exists entry'. auto.
Qed.

Lemma udp_rtc_held s s' : udp_inv s → all_held s → rtc udp_step s s' → udp_inv s' ∧ all_held s'.
Proof. intros Hi Hh Hr. induction Hr; [done|]. eauto using udp_step_inv, udp_step_held. Qed.

(** Once a UDP allocation is deleted its listener is gone for good: in every state that
    any interleaving of later operations and events reaches, its receive and cleanup tasks
    have ended and its session table is empty; a session of it that is still alive is
    closed and kept by its own reply task, whose handle was missing at the deletion. *)
Theorem deleted_udp_listener_stays_gone s0 s id e t s' :
  udp_initial s0 → rtc udp_step s0 s → ur_entries s !! id = Some e →
  rtc udp_step (UdpRuntime_delete id t s).2 s' →
  (∃ entry, ur_heap s' !! e = Some entry ∧ ue_receive entry = None ∧ ue_cleanup entry = false ∧
     ue_sessions entry = ∅) ∧
  (∀ x y, ur_sessions s' !! x = Some y → ux_entry y = e →
     lingers y ∧
     ∃ y0, ur_sessions s !! x = Some y0 ∧ (ux_closed y0 = true ∨ ux_handle y0 = false)).
Proof.
  intros H0 Hr Hid Hr'. pose proof (udp_reachable_inv _ _ H0 Hr) as Hinv.
  assert (is_Some (ur_heap s !! e)) as [entry He] by (by eapply Hinv).
  pose proof (reachable_handles _ _ _ _ H0 Hr He) as Hk.
  destruct (delete_state id t s e entry Hinv Hid He Hk) as (entry1 & He1 & Hrx & Hcl & Htbl & Hheld & Hcloses).
  set (s1 := (UdpRuntime_delete id t s).2) in *.
  assert (udp_inv s1) as Hinv1 by (by apply delete_inv).
  pose proof (udp_rtc_calm _ _ Hinv1 Hr') as Hcalm.
  destruct (udp_rtc_held _ _ Hinv1 Hheld Hr') as [Hinv' Hheld'].
  destruct (calm_ended _ _ _ _ Hcalm He1 Hrx) as (entry' & He' & Hrx' & Hsub & Hcl').
  assert (ue_sessions entry' = ∅) as Hempty.
  { rewrite Htbl in Hsub. apply (anti_symm (⊆)); [done|apply map_empty_subseteq]. }
  split; [exists entry'; split_and!; auto|].
  intros x y' Hx Hxe. split; [by eapply (ended_lingers s' e entry')|].
  destruct Hcalm as (_ & _ & _ & Hs). destruct (Hs _ _ Hx) as [(y & Hy & Heq)|[_ Hlive]].
  - destruct (ended_lingers s1 e entry1 x y) as [Hclosed Hrep]; [done|done|done|done|done|done|by rewrite <- (same_session_entry _ _ Heq)|].
    by eapply closes_running.
  - exfalso. apply (Hlive entry1); [by rewrite Hxe|done].
Qed.

(** The defect behind the exception: when the allocation is deleted between the start of a
    session's reply task and the storing of its handle, the task is not aborted. The session
    stays alive, closed and in no table, until its upstream sends something. *)
Theorem missing_handle_lingers s id e t entry p x y :
  udp_inv s → ur_entries s !! id = Some e → ur_heap s !! e = Some entry → handles_kept entry →
  ue_receive entry = Some (RxStore p x) → ur_sessions s !! x = Some y →
  ue_sessions entry !! ux_client_addr y = Some x →
  ux_reply y = Some ReplyReceive → ux_handle y = false →
  let s' := (UdpRuntime_delete id t s).2 in
  ∃ y', ur_sessions s' !! x = Some y' ∧ lingers y' ∧ ux_reply y' = Some ReplyReceive ∧
    udp_event (UEvReplyTop x) s' = None ∧ ∀ r, udp_event (UEvReplySent x r) s' = None.
Proof.
  intros Hinv Hid He Hk Hrx Hy Hrow Hrep Hh. cbv zeta.
  set (s1 := ur_set_entries (delete id (ur_entries s)) s).
  assert ((UdpRuntime_delete id t s).2 = drop_unheld (UdpRuntime_close_sessions e true (ur_alter_entry stopped e s1)))
    as -> by (unfold UdpRuntime_delete, bind, gets, modify; by rewrite Hid).
  assert (ur_heap (ur_alter_entry stopped e s1) !! e = Some (stopped entry)) as Hst by (simpl; by rewrite lookup_alter_eq, He).
  destruct (close_sessions_state e true _ _ Hst) as (_ & _ & _ & Hin & _).
  set (s2 := UdpRuntime_close_sessions e true _) in *. destruct (drop_unheld_spec s2) as (_ & _ & _ & HS).
  assert (ur_sessions s2 !! x = Some (closed_session y)) as Hy2.
  { rewrite Hin by (exists (ux_client_addr y); split; [done|apply lookup_empty]). simpl. by rewrite Hy. }
  assert (ux_reply (closed_session y) = Some ReplyReceive ∧ ux_closed (closed_session y) = true) as [Hrep' Hcl].
  { unfold closed_session, abort_reply_task. change (ux_handle (ux_set_closed true y)) with (ux_handle y).
    rewrite Hh. by split. }
  assert (ur_sessions (drop_unheld s2) !! x = Some (closed_session y)) as Hy3.
  { apply HS. split; [done|]. unfold held. by rewrite Hrep'. }
  exists (closed_session y). split_and!; [done|by split; [|rewrite Hrep'; eexists]|done| |].
  - unfold udp_event, udp_task_step, replying. rewrite Hy3. simpl. by rewrite Hrep'.
  - intros r. unfold udp_event, udp_task_step, replying. rewrite Hy3. simpl. by rewrite Hrep'.
Qed.

(** When receiving fails once, the listener is deaf for good: in every later state its
    receive task is gone, while the allocation is reported as before and without an
    error; only its present sessions go on relaying replies. *)
Theorem receive_error_is_final s0 s id e s1 s2 :
  udp_initial s0 → rtc udp_step s0 s → ur_entries s !! id = Some e →
  udp_event (UEvReceiveError e) s = Some s1 → rtc udp_step s1 s2 →
  (UdpRuntime_snapshot id s1).1 = (UdpRuntime_snapshot id s).1 ∧
  ∃ entry entry2, ur_heap s1 !! e = Some entry ∧ ur_heap s2 !! e = Some entry2 ∧
    ue_receive entry2 = None ∧ ue_sessions entry2 ⊆ ue_sessions entry.
Proof.
  intros H0 Hr Hid Hev Hr2. pose proof (udp_reachable_inv _ _ H0 Hr) as Hinv.
  assert (udp_inv s1) as Hinv1 by (eapply udp_step_inv; [exact Hinv|by econstructor]).
  pose proof (udp_rtc_calm _ _ Hinv1 Hr2) as Hcalm.
  unfold udp_event in Hev. apply fmap_Some in Hev as (s3 & Hev & ->). simpl in Hev.
  destruct (receiving e s) as [[ph entry]|] eqn:Hrx; [|done]. apply receiving_Some in Hrx as [He Hrx].
  destruct ph; try done. injection Hev as <-.
  set (s3 := ur_alter_entry (ue_set_receive None) e (ur_inc udp_recv_errors_total s)) in *.
  destruct (drop_unheld_spec s3) as (HE & _ & Hd & _). destruct (Hd e) as [m Hm].
  assert (ur_heap s3 !! e = Some (ue_set_receive None entry)) as H3 by (simpl; by rewrite lookup_alter_eq, He).
  rewrite H3 in Hm. cbn [fmap option_fmap option_map] in Hm. split.
  - assert (ur_entries (drop_unheld s3) !! id = Some e) as Hid1 by (by rewrite HE).
    clear HE Hd. set (s4 := drop_unheld s3) in *. clearbody s4.
    unfold UdpRuntime_snapshot, gets. simpl. rewrite Hid1, Hid. simpl. by rewrite Hm, He.
  - destruct (calm_ended _ _ _ _ Hcalm Hm) as (entry2 & He2 & Hrx2 & Hsub & _); [done|].
    by exists (ue_set_metrics m (ue_set_receive None entry)), entry2.
Qed.
