(* ===== verification/UdpWitness.v ===== *)
(** Concrete runs of the UDP relay, where the theorems' hypotheses hold. *)
From stdpp Require Import base gmap strings list relations.
From Stdlib Require Import ZArith Lia.
From S2P Require Import Prelude RustStd Model Facade Metrics Account UdpModel Udp UdpSpec UdpSteps.
From S2P Require Import UdpProps UdpLife UdpAccount UdpQuiet.
Open Scope Z_scope.

Inductive UdpAction : Type :=
| UActRequest (q : UdpRequest)
| UActEvent (ev : UdpEvent).

Fixpoint udp_exec (l : list UdpAction) (s : UdpRuntime) : option UdpRuntime :=
  match l with
  | [] => Some s
  | UActRequest q :: l' => udp_exec l' (run_udp q s)
  | UActEvent ev :: l' => s' ← udp_event ev s; udp_exec l' s'
  end.

Lemma udp_exec_rtc l s s' : udp_exec l s = Some s' → rtc udp_step s s'.
Proof.
  revert s. induction l as [|[q|ev] l IH]; intros s; simpl; [intros [= <-]; constructor| |].
  - intros Hl. econstructor; [constructor|by apply IH].
  - intros (s1 & H1 & H2)%bind_Some. econstructor; [by econstructor|by apply IH].
Qed.

Definition udp_allocation (host : option string) : Allocation :=
  {| al_id := "a"; al_protocol := Udp; al_port := 5001; al_target_port := Some 53;
     al_host := host; al_created_at_ms := 0; al_updated_at_ms := 0 |}.

Definition udp_state0 : UdpRuntime :=
  UdpRuntime_new (UdpRuntimeConfig_with_udp_max_sessions 2 UdpRuntimeConfig_loopback)
    Metrics_default 0 (λ _ _, true).

Definition peer (n : Z) : SocketAddr :=
  {| sa_ip := V4 10 0 0 n; sa_port := 4000; sa_flowinfo := 0; sa_scope_id := 0 |}.

Definition datagram (n : Z) : UdpDatagram := {| dg_peer := peer n; dg_length := 10 |}.

(** Two datagrams of one client and one of another: sessions 1 and 2 of listener 0. *)
Definition udp_prepared : list UdpAction :=
  [UActRequest (UdpCreate (udp_allocation (Some "10.1.0.1")));
   UActEvent (UEvReceived 0 [datagram 1; datagram 2; datagram 1]); UActEvent (UEvReadState 0);
   UActEvent (UEvNext 0); UActEvent (UEvCreated 0 true); UActEvent (UEvInsert 0); UActEvent (UEvSpawn 0);
   UActEvent (UEvStore 0);
   UActEvent (UEvNext 0); UActEvent (UEvCreated 0 true); UActEvent (UEvInsert 0); UActEvent (UEvSpawn 0);
   UActEvent (UEvStore 0);
   UActEvent (UEvNext 0)].

Definition udp_sending : list UdpAction := udp_prepared ++ [UActEvent (UEvNext 0)].

Definition udp_relaying : list UdpAction :=
  udp_sending ++ [UActEvent (UEvGroupSent 0 (Ok tt)); UActEvent (UEvGroupSent 0 (Ok tt))].

(** Session 1 is about to send a reply. *)
Definition udp_replying : list UdpAction :=
  udp_relaying ++ [UActEvent (UEvReplyTop 1); UActEvent (UEvReplyReceived 1 (Some 20))].

Definition udp_after (l : list UdpAction) : UdpRuntime := default udp_state0 (udp_exec l udp_state0).

Lemma udp_initial0 : udp_initial udp_state0.
Proof. repeat eexists. Qed.

Lemma udp_after_reachable l : rtc udp_step udp_state0 (udp_after l).
Proof.
  unfold udp_after. destruct (udp_exec l udp_state0) eqn:Hl; simpl; [by eapply udp_exec_rtc|constructor].
Qed.

Lemma udp_ran (o : option UdpRuntime) d :
  match o with Some _ => true | None => false end = true → o = Some (default d o).
Proof. by destruct o. Qed.

(** The runs do not fail on the way. *)
Example udp_runs :
  (match udp_exec udp_replying udp_state0 with Some _ => true | None => false end) = true.
Proof. by vm_compute. Qed.

Definition entry_after (l : list UdpAction) : UdpListenerEntry :=
  default (udp_new_entry UdpRuntimeConfig_loopback (udp_allocation None)) (ur_heap (udp_after l) !! 0%nat).

Lemma replies_from_current_target_witness :
  let s := udp_after udp_replying in
  ∃ y, ur_sessions s !! 1%nat = Some y ∧ current_for s 1 y.
Proof.
  cbv zeta. assert (ux_closed <$> ur_sessions (udp_after udp_replying) !! 1%nat = Some false) as Hc by (by vm_compute).
  destruct (ur_sessions (udp_after udp_replying) !! 1%nat) as [y|] eqn:Hy; [|discriminate Hc].
  injection Hc as Hc. exists y. split; [reflexivity|].
  destruct (replies_from_current_target udp_state0 (udp_after udp_replying) 1 y udp_initial0
              (udp_after_reachable _) Hy) as [_ Hsent].
  destruct (Hsent (Some 20) (default udp_state0 (udp_event (UEvReplySent 1 (Some 20)) (udp_after udp_replying))))
    as [Hcur|[Hcl _]]; [apply udp_ran; by vm_compute|exact Hcur|congruence].
Defined.

Lemma datagrams_reach_own_session_witness :
  let s := udp_after udp_sending in
  ∃ y, ur_sessions s !! 1%nat = Some y ∧ ux_entry y = 0%nat ∧ ux_client_addr y = peer 1 ∧
    ux_generation y ≤ ue_generation (entry_after udp_sending) ∧
    (ux_generation y = ue_generation (entry_after udp_sending) →
       ue_generation (entry_after udp_sending) < u64_max →
       entry_target (entry_after udp_sending) = Some (ux_upstream y)).
Proof.
  apply (datagrams_reach_own_session udp_state0 (udp_after udp_sending) 0 (entry_after udp_sending)
    [datagram 1; datagram 2; datagram 1] [Some 1%nat; Some 2%nat; Some 1%nat] 1 [0%nat; 2%nat]
    [(2%nat, [1%nat])] 2 (datagram 1));
    [apply udp_initial0|apply udp_after_reachable|by vm_compute|right; left|done].
Defined.

Lemma session_table_bounded_witness :
  size (ue_sessions (entry_after udp_relaying)) = 2%nat ∧
  Z.of_nat (size (ue_sessions (entry_after udp_relaying))) ≤ ue_max_sessions (entry_after udp_relaying).
Proof.
  split; [by vm_compute|].
  apply (session_table_bounded udp_state0 (udp_after udp_relaying) 0);
    [apply udp_initial0|apply udp_after_reachable|by vm_compute|by vm_compute].
Defined.

Lemma receive_batch_bounds_witness :
  let batch := datagram 1 :: replicate 15 {| dg_peer := {| sa_ip := V4 10 0 0 2; sa_port := 258;
                                sa_flowinfo := 0; sa_scope_id := 0 |}; dg_length := 10 |} in
  (1 ≤ length batch ≤ 16)%nat ∧
  (16 ≤ grow_if_saturated 16 16 ≤ UDP_MAX_RECEIVE_BATCH_SIZE)%nat ∧
  (grow_if_saturated 16 (length batch) ≠ 16%nat → length batch = 16%nat).
Proof.
  apply (receive_batch_bounds 16 16 (Some (datagram 1))
    (λ n, MoreReceived (replicate n (sockaddr_in [1; 2] 10 0 0 2, 10)))).
  - vm_compute. lia.
  - intros l [= <-]. by vm_compute.
  - by vm_compute.
Defined.

Lemma send_batch_complete_witness :
  send_batch (λ _ n, Some (Nat.min n 2)) 6 0 5 = Some (Ok tt) ∧
  ∃ r, send_batch (λ _ n, Some (Nat.min n 2)) 6 0 5 = Some r ∧
    send_outcome (λ _ n, Some (Nat.min n 2)) 5 r.
Proof.
  split; [by vm_compute|].
  apply (send_batch_complete (λ _ n, Some (Nat.min n 2)) 5). intros sent n k [= <-]. lia.
Defined.

(** A minute and a second later both sessions have expired. *)
Definition udp_idle : list UdpAction := udp_relaying ++ [UActEvent (UEvTime (61000 * ns_per_ms))].

Lemma cleanup_expires_idle_witness :
  let s := udp_after udp_idle in
  let s' := default s (udp_event (UEvCleanup 0) s) in
  size (ur_sessions s') = 0%nat ∧
  (∃ entry', ur_heap s' !! 0%nat = Some entry' ∧
     ∀ c x, ue_sessions entry' !! c = Some x ↔
       ue_sessions (entry_after udp_idle) !! c = Some x ∧
       ¬ expired s (ue_session_ttl (entry_after udp_idle)) (ur_now s) x) ∧
  (∀ c x y, ue_sessions (entry_after udp_idle) !! c = Some x →
     expired s (ue_session_ttl (entry_after udp_idle)) (ur_now s) x →
     ur_sessions s' !! x = Some y → cut_off s x y).
Proof.
  split; [by vm_compute|].
  apply (cleanup_expires_idle udp_state0 (udp_after udp_idle) 0 (entry_after udp_idle));
    [apply udp_initial0|apply udp_after_reachable|by vm_compute|apply udp_ran; by vm_compute].
Defined.

(** The update comes while a batch is prepared. *)
Lemma update_cuts_off_old_target_witness :
  let s := udp_after udp_prepared in
  let entry := entry_after udp_prepared in
  ∃ s' entry', UdpRuntime_update (udp_allocation (Some "10.1.0.2")) 0 s = (Ok tt, s') ∧
    ur_heap s' !! 0%nat = Some entry' ∧
    udp_observed (ue_state entry') = udp_observed (UdpRuntime_entry_state_for (udp_allocation (Some "10.1.0.2"))) ∧
    ue_sessions entry' = ∅ ∧
    (∀ x y, ur_sessions s' !! x = Some y → ux_entry y = 0%nat → is_Some (ux_reply y) →
       ux_closed y = true ∧
       ∃ y0, ur_sessions s !! x = Some y0 ∧ (ux_closed y0 = true ∨ ux_handle y0 = false)) ∧
    (∀ p, ue_receive entry = Some (RxLookup p) → next_peer p = None → ue_generation entry < u64_max →
       ∃ s'' entry'', udp_event (UEvNext 0) s' = Some s'' ∧ ur_heap s'' !! 0%nat = Some entry'' ∧
         ue_receive entry'' = Some RxIdle ∧ ue_sessions entry'' = ∅).
Proof.
  apply (update_cuts_off_old_target udp_state0 (udp_after udp_prepared) (udp_allocation (Some "10.1.0.2")) 0 0
           (entry_after udp_prepared));
    [apply udp_initial0|apply udp_after_reachable|by vm_compute|by vm_compute].
Defined.

Lemma udp_session_counts_exact_witness :
  let s := udp_after udp_relaying in
  size (ur_sessions s) = 2%nat ∧
  Gauge_load udp_active_sessions (ur_metrics s) = wrap (Z.of_nat (size (ur_sessions s))) ∧
  ∀ e entry, ur_heap s !! e = Some entry →
    um_active (ue_metrics entry) = wrap (Z.of_nat (size (owned e (alive s)))) ∧
    ((∀ p, ue_receive entry = Some p → phase_sessions p = []) →
     (∀ x y, ur_sessions s !! x = Some y → ux_entry y = e → ¬ lingers y) →
       size (owned e (alive s)) = size (ue_sessions entry)).
Proof. split; [by vm_compute|]. eapply udp_session_counts_exact. apply udp_after_reachable. Defined.

Lemma deleted_udp_listener_stays_gone_witness :
  let s := udp_after udp_relaying in
  let s' := (UdpRuntime_delete "a" 0 s).2 in
  size (ur_sessions s') = 0%nat ∧
  (∃ entry, ur_heap s' !! 0%nat = Some entry ∧ ue_receive entry = None ∧ ue_cleanup entry = false ∧
     ue_sessions entry = ∅) ∧
  (∀ x y, ur_sessions s' !! x = Some y → ux_entry y = 0%nat →
     lingers y ∧
     ∃ y0, ur_sessions s !! x = Some y0 ∧ (ux_closed y0 = true ∨ ux_handle y0 = false)).
Proof.
  cbv zeta. split; [by vm_compute|].
  apply (deleted_udp_listener_stays_gone udp_state0 (udp_after udp_relaying) "a" 0 0);
    [apply udp_initial0|apply udp_after_reachable|by vm_compute|constructor].
Defined.

(** The deletion comes when the reply task of session 1 runs and its handle is not stored. *)
Definition udp_unstored : list UdpAction :=
  [UActRequest (UdpCreate (udp_allocation (Some "10.1.0.1")));
   UActEvent (UEvReceived 0 [datagram 1]); UActEvent (UEvReadState 0); UActEvent (UEvNext 0);
   UActEvent (UEvCreated 0 true); UActEvent (UEvInsert 0); UActEvent (UEvSpawn 0); UActEvent (UEvReplyTop 1)].

Lemma missing_handle_lingers_witness :
  let s' := (UdpRuntime_delete "a" 0 (udp_after udp_unstored)).2 in
  size (ur_entries s') = 0%nat ∧ um_active <$> (ue_metrics <$> ur_heap s' !! 0%nat) = Some 1 ∧
  ∃ y', ur_sessions s' !! 1%nat = Some y' ∧ lingers y' ∧ ux_reply y' = Some ReplyReceive ∧
    udp_event (UEvReplyTop 1) s' = None ∧ ∀ r, udp_event (UEvReplySent 1 r) s' = None.
Proof.
  cbv zeta. split; [by vm_compute|]. split; [by vm_compute|].
  assert (option_map (λ y, (ux_reply y, ux_handle y, ux_client_addr y)) (ur_sessions (udp_after udp_unstored) !! 1%nat)
    = Some (Some ReplyReceive, false, peer 1)) as Hs by (by vm_compute).
  destruct (ur_sessions (udp_after udp_unstored) !! 1%nat) as [y|] eqn:Hy; [|discriminate Hs].
  injection Hs as Hrep Hh Hc.
  assert (ur_heap (udp_after udp_unstored) !! 0%nat = Some (entry_after udp_unstored)) as He by (by vm_compute).
  eapply (missing_handle_lingers (udp_after udp_unstored) "a" 0 0 (entry_after udp_unstored));
    [eapply udp_reachable_inv; [apply udp_initial0|apply udp_after_reachable]|by vm_compute|exact He
    |eapply reachable_handles; [apply udp_initial0|apply udp_after_reachable|exact He]|by vm_compute|exact Hy
    |rewrite Hc; by vm_compute|exact Hrep|exact Hh].
Defined.

Lemma receive_error_is_final_witness :
  let s := udp_after udp_relaying in
  let s1 := default s (udp_event (UEvReceiveError 0) s) in
  (os_runtime_status <$> default None (result_ok (UdpRuntime_snapshot "a" s1).1)) = Some Active ∧
  (UdpRuntime_snapshot "a" s1).1 = (UdpRuntime_snapshot "a" s).1 ∧
  ∃ entry entry2, ur_heap s1 !! 0%nat = Some entry ∧ ur_heap s1 !! 0%nat = Some entry2 ∧
    ue_receive entry2 = None ∧ ue_sessions entry2 ⊆ ue_sessions entry.
Proof.
  split; [by vm_compute|].
  apply (receive_error_is_final udp_state0 (udp_after udp_relaying) "a" 0);
    [apply udp_initial0|apply udp_after_reachable|by vm_compute|apply udp_ran; by vm_compute|constructor].
Defined.
