(* ===== verification/Real.v ===== *)
(** runtime/real.rs: the runtime over listening sockets, a TCP and a UDP relay side by side.

    The code needs of the relays only what [ListenerLaws] states, so the runtime is
    modelled and verified over any two of them; Relays.v shows that the relays of Tcp.v
    and Udp.v keep these laws and puts the three together. *)
From stdpp Require Import base gmap strings list sorting.
From Stdlib Require Import ZArith Lia.
From S2P Require Import Prelude RustStd Model Facade.
Open Scope Z_scope.

(** * What a relay promises *)

(** A relay of the protocol [p]: the runtime's trait, with exact promises. A creation
    tracks the allocation or changes nothing, a deletion always succeeds. *)
Class ListenerLaws (p : Protocol) (R : Type) `{RuntimeFacade R} : Type := {
  ls_ok : R → Prop;
  ls_tracks : R → string → Prop;
  ls_create_spec a t s :
    ls_ok s → al_protocol a = p →
    wp (rt_create a t)
      (λ r s', ls_ok s' ∧
        ∀ id, ls_tracks s' id ↔ ls_tracks s id ∨ (is_ok r = true ∧ id = al_id a)) s;
  ls_restore_spec a t s :
    ls_ok s → al_protocol a = p →
    wp (rt_restore a t)
      (λ r s', ls_ok s' ∧
        ∀ id, ls_tracks s' id ↔ ls_tracks s id ∨ (is_ok r = true ∧ id = al_id a)) s;
  ls_update_spec a t s :
    ls_ok s →
    wp (rt_update a t)
      (λ r s', ls_ok s' ∧ (∀ id, ls_tracks s' id ↔ ls_tracks s id) ∧
        (is_ok r = true ↔ ls_tracks s (al_id a))) s;
  ls_delete_spec i t s :
    ls_ok s →
    wp (rt_delete i t)
      (λ r s', ls_ok s' ∧ r = Ok tt ∧ ∀ id, ls_tracks s' id ↔ ls_tracks s id ∧ id ≠ i) s;
  ls_snapshot_spec i s :
    ls_ok s →
    wp (rt_snapshot i)
      (λ r s', s' = s ∧ ∃ o, r = Ok o ∧ (is_Some o ↔ ls_tracks s i)) s;
  ls_metrics_spec s :
    ls_ok s →
    wp rt_snapshot_listener_metrics
      (λ r s', s' = s ∧ ∃ rows, r = Ok rows ∧ Forall (λ row, lm_protocol row = p) rows) s;
}.

(** * The state *)
Record RealRuntime (T U : Type) : Type := {
  rr_tcp : T;
  rr_udp : U;
  rr_protocols : gmap string Protocol;
}.
Arguments rr_tcp {T U} _.
Arguments rr_udp {T U} _.
Arguments rr_protocols {T U} _.

Definition rr_set_tcp {T U} (x : T) (s : RealRuntime T U) : RealRuntime T U :=
  {| rr_tcp := x; rr_udp := rr_udp s; rr_protocols := rr_protocols s |}.
Definition rr_set_udp {T U} (x : U) (s : RealRuntime T U) : RealRuntime T U :=
  {| rr_tcp := rr_tcp s; rr_udp := x; rr_protocols := rr_protocols s |}.
Definition rr_set_protocols {T U} (x : gmap string Protocol) (s : RealRuntime T U) : RealRuntime T U :=
  {| rr_tcp := rr_tcp s; rr_udp := rr_udp s; rr_protocols := x |}.

(** [Allocation { protocol, ..allocation.clone() }]. *)
Definition as_protocol (a : Allocation) (p : Protocol) : Allocation :=
  {| al_id := al_id a; al_protocol := p; al_port := al_port a;
     al_target_port := al_target_port a; al_host := al_host a;
     al_created_at_ms := al_created_at_ms a; al_updated_at_ms := al_updated_at_ms a |}.

Definition degraded_from (state : ObservedState) (message : string) : ObservedState :=
  {| os_effective_target_port := os_effective_target_port state;
     os_effective_host := os_effective_host state;
     os_runtime_status := DegradedApplyFailed;
     os_error_kind := Some ApplyFailed;
     os_last_error := Some message |}.

Definition aggregate_snapshot (tcp udp : option ObservedState) : option ObservedState :=
  match tcp, udp with
  | Some tcp, Some udp =>
      if decide (tcp = udp) then Some tcp
      else Some (degraded_from tcp "divergent tcp/udp runtime state")
  | Some tcp, None => Some (degraded_from tcp "missing udp runtime state")
  | None, Some udp => Some (degraded_from udp "missing tcp runtime state")
  | None, None => None
  end.

(** The sort key of a row: its port, then its protocol's name. *)
Definition row_le (x y : ListenerMetricsSnapshot) : Prop :=
  lm_port x < lm_port y ∨
  (lm_port x = lm_port y ∧
   String.leb (Protocol_as_str (lm_protocol x)) (Protocol_as_str (lm_protocol y)) = true).

#[export] Instance row_le_dec : RelDecision row_le.
Proof. intros x y. unfold row_le. apply _. Defined.

(** * The operations *)
Section real.
  Context {T U : Type} `{RuntimeFacade T} `{RuntimeFacade U}.

Definition on_tcp {A} (m : M T RuntimeError A) : M (RealRuntime T U) RuntimeError A :=
  zoom rr_tcp rr_set_tcp id m.
Definition on_udp {A} (m : M U RuntimeError A) : M (RealRuntime T U) RuntimeError A :=
  zoom rr_udp rr_set_udp id m.

Definition insert_protocol (id : string) (p : Protocol) : M (RealRuntime T U) RuntimeError unit :=
  modify (λ s, rr_set_protocols (<[id := p]> (rr_protocols s)) s).

Definition RealRuntime_initialize (_timeout_ms : Z) : M (RealRuntime T U) RuntimeError unit :=
  ret tt.

Definition RealRuntime_create (a : Allocation) (t : Z) : M (RealRuntime T U) RuntimeError unit :=
  match al_protocol a with
  | Tcp => on_tcp (rt_create a t);; insert_protocol (al_id a) Tcp
  | Udp => on_udp (rt_create a t);; insert_protocol (al_id a) Udp
  | Both =>
      on_tcp (rt_create (as_protocol a Tcp) t);;
      let! udp := attempt (on_udp (rt_create (as_protocol a Udp) t)) in
      match udp with
      | Err error =>
          let! _ignored := attempt (on_tcp (rt_delete (al_id a) t)) in
          fail error
      | Ok _ => insert_protocol (al_id a) Both
      end
  end.

Definition RealRuntime_update (a : Allocation) (t : Z) : M (RealRuntime T U) RuntimeError unit :=
  match al_protocol a with
  | Tcp => on_tcp (rt_update a t)
  | Udp => on_udp (rt_update a t)
  | Both =>
      on_tcp (rt_update (as_protocol a Tcp) t);;
      on_udp (rt_update (as_protocol a Udp) t)
  end.

Definition RealRuntime_delete (id : string) (t : Z) : M (RealRuntime T U) RuntimeError unit :=
  modify (λ s, rr_set_protocols (delete id (rr_protocols s)) s);;
  let! tcp := attempt (on_tcp (rt_delete id t)) in
  let! udp := attempt (on_udp (rt_delete id t)) in
  of_result (match tcp with Ok _ => udp | Err error => Err error end).   (* [tcp.and(udp)] *)

Definition RealRuntime_restore (a : Allocation) (t : Z) : M (RealRuntime T U) RuntimeError unit :=
  match al_protocol a with
  | Tcp => on_tcp (rt_restore a t);; insert_protocol (al_id a) Tcp
  | Udp => on_udp (rt_restore a t);; insert_protocol (al_id a) Udp
  | Both =>
      on_tcp (rt_restore (as_protocol a Tcp) t);;
      let! udp := attempt (on_udp (rt_restore (as_protocol a Udp) t)) in
      match udp with
      | Err _error =>
          let! _ignored := attempt (on_tcp (rt_delete (al_id a) t)) in
          fail RuntimeRestoreFailed
      | Ok _ => insert_protocol (al_id a) Both
      end
  end.

Definition RealRuntime_snapshot (id : string)
    : M (RealRuntime T U) RuntimeError (option ObservedState) :=
  let! p := gets (λ s, rr_protocols s !! id) in
  match p with
  | Some Tcp => on_tcp (rt_snapshot id)
  | Some Udp => on_udp (rt_snapshot id)
  | Some Both =>
      let! tcp := on_tcp (rt_snapshot id) in
      let! udp := on_udp (rt_snapshot id) in
      ret (aggregate_snapshot tcp udp)
  | None => ret None
  end.

Definition RealRuntime_snapshot_listener_metrics
    : M (RealRuntime T U) RuntimeError (list ListenerMetricsSnapshot) :=
  let! tcp_rows := on_tcp rt_snapshot_listener_metrics in
  let! udp_rows := on_udp rt_snapshot_listener_metrics in
  ret (merge_sort row_le (tcp_rows ++ udp_rows)).

#[export] Instance RealRuntime_facade : RuntimeFacade (RealRuntime T U) := {|
  rt_initialize := RealRuntime_initialize;
  rt_create := RealRuntime_create;
  rt_update := RealRuntime_update;
  rt_delete := RealRuntime_delete;
  rt_restore := RealRuntime_restore;
  rt_snapshot := RealRuntime_snapshot;
  rt_snapshot_listener_metrics := RealRuntime_snapshot_listener_metrics;
|}.

(** [shutdown_all] of the two relays. *)
Definition RealRuntime_shutdown_all (tcp_shutdown : T → T) (udp_shutdown : U → U)
    (s : RealRuntime T U) : RealRuntime T U :=
  {| rr_tcp := tcp_shutdown (rr_tcp s); rr_udp := udp_shutdown (rr_udp s); rr_protocols := ∅ |}.
End real.

(** * The promises of the trait *)
Section laws.
  Context {T U : Type} `{FT : RuntimeFacade T} `{FU : RuntimeFacade U}.
  Context `{LT : !ListenerLaws Tcp T} `{LU : !ListenerLaws Udp U}.

Definition real_ok (s : RealRuntime T U) : Prop := ls_ok (rr_tcp s) ∧ ls_ok (rr_udp s).

Definition real_tracks (s : RealRuntime T U) (id : string) : Prop :=
  match rr_protocols s !! id with
  | Some Tcp => ls_tracks (rr_tcp s) id
  | Some Udp => ls_tracks (rr_udp s) id
  | Some Both => ls_tracks (rr_tcp s) id ∨ ls_tracks (rr_udp s) id
  | None => False
  end.

(** A call of a relay inside the runtime. *)
Lemma wp_tcp {A} (m : M T RuntimeError A) (Q : result A RuntimeError → T → Prop) Q' s :
  wp m Q (rr_tcp s) → (∀ r x, Q r x → Q' r (rr_set_tcp x s)) → wp (on_tcp (U := U) m) Q' s.
Proof.
  intros Hm HQ. unfold on_tcp. apply wp_zoom. eapply wp_mono; [exact Hm|].
  intros r x Hx. destruct r; apply HQ; exact Hx.
Qed.

Lemma wp_udp {A} (m : M U RuntimeError A) (Q : result A RuntimeError → U → Prop) Q' s :
  wp m Q (rr_udp s) → (∀ r x, Q r x → Q' r (rr_set_udp x s)) → wp (on_udp (T := T) m) Q' s.
Proof.
  intros Hm HQ. unfold on_udp. apply wp_zoom. eapply wp_mono; [exact Hm|].
  intros r x Hx. destruct r; apply HQ; exact Hx.
Qed.

(** What creating and restoring have in common: [op] of both relays, undone on the TCP
    side when the UDP side fails. *)
Definition real_tracked (a : Allocation) (s : RealRuntime T U) (r : result unit RuntimeError)
    (s' : RealRuntime T U) : Prop :=
  real_ok s' ∧
  (∀ id, id ≠ al_id a → real_tracks s' id ↔ real_tracks s id) ∧
  (is_ok r = true → real_tracks s' (al_id a) ∧
     match al_protocol a with
     | Both => ls_tracks (rr_tcp s') (al_id a) ∧ ls_tracks (rr_udp s') (al_id a)
     | _ => True
     end) ∧
  (is_ok r = false → ¬ real_tracks s (al_id a) → ¬ real_tracks s' (al_id a)) ∧
  (is_ok r = false →
     rr_protocols s' = rr_protocols s ∧
     (∀ id, ls_tracks (rr_udp s') id ↔ ls_tracks (rr_udp s) id) ∧
     (¬ ls_tracks (rr_tcp s) (al_id a) → ∀ id, ls_tracks (rr_tcp s') id ↔ ls_tracks (rr_tcp s) id)).

Lemma real_tracks_insert (s : RealRuntime T U) (tcp : T) (udp : U) i p j :
  real_tracks {| rr_tcp := tcp; rr_udp := udp; rr_protocols := <[i := p]> (rr_protocols s) |} j ↔
  if decide (j = i) then
    match p with
    | Tcp => ls_tracks tcp i | Udp => ls_tracks udp i | Both => ls_tracks tcp i ∨ ls_tracks udp i
    end
  else real_tracks {| rr_tcp := tcp; rr_udp := udp; rr_protocols := rr_protocols s |} j.
Proof.
  unfold real_tracks. simpl. case_decide as Hj; [subst; by rewrite lookup_insert_eq|].
  by rewrite lookup_insert_ne.
Qed.

(** Tracking follows the relays where they agree. *)
Lemma real_tracks_ext (s s' : RealRuntime T U) id :
  rr_protocols s' !! id = rr_protocols s !! id →
  (ls_tracks (rr_tcp s') id ↔ ls_tracks (rr_tcp s) id) →
  (ls_tracks (rr_udp s') id ↔ ls_tracks (rr_udp s) id) →
  real_tracks s' id ↔ real_tracks s id.
Proof. unfold real_tracks. intros -> Ht Hu. destruct (rr_protocols s !! id) as [[]|]; naive_solver. Qed.

(** The relays' contract for a creation or a restoration. *)
Definition tracks_new {R} (ok : R → Prop) (tracks : R → string → Prop) (i : string) (s : R)
    (r : result unit RuntimeError) (s' : R) : Prop :=
  ok s' ∧ ∀ id, tracks s' id ↔ tracks s id ∨ (is_ok r = true ∧ id = i).

Lemma tcp_alone (m : M T RuntimeError unit) a (s : RealRuntime T U) :
  al_protocol a = Tcp → real_ok s →
  wp m (tracks_new ls_ok ls_tracks (al_id a) (rr_tcp s)) (rr_tcp s) →
  wp (on_tcp m;; insert_protocol (al_id a) Tcp) (real_tracked a s) s.
Proof.
  intros Hp [Ht Hu] Hm. apply wp_bind. eapply wp_tcp; [exact Hm|].
  intros [[]|err] x [Hok Htr]; unfold insert_protocol, real_tracked; rewrite Hp.
  - apply wp_modify. simpl. split_and!; [done| | |done|done].
    + intros id Hne. etrans; [apply real_tracks_insert|]. rewrite decide_False by done.
      apply real_tracks_ext; simpl; [done| |done]. rewrite Htr. naive_solver.
    + intros _. split; [|done]. apply real_tracks_insert. rewrite decide_True by done. apply Htr. auto.
  - simpl in *. assert (∀ id, ls_tracks x id ↔ ls_tracks (rr_tcp s) id) as Hsame by (intros id; rewrite Htr; naive_solver).
    split_and!; [done| |done| |].
    + intros id _. by apply real_tracks_ext.
    + intros _ Hno. by rewrite (real_tracks_ext s).
    + intros _. split_and!; [done|done|]. intros _. exact Hsame.
Qed.

Lemma udp_alone (m : M U RuntimeError unit) a (s : RealRuntime T U) :
  al_protocol a = Udp → real_ok s →
  wp m (tracks_new ls_ok ls_tracks (al_id a) (rr_udp s)) (rr_udp s) →
  wp (on_udp m;; insert_protocol (al_id a) Udp) (real_tracked a s) s.
Proof.
  intros Hp [Ht Hu] Hm. apply wp_bind. eapply wp_udp; [exact Hm|].
  intros [[]|err] x [Hok Htr]; unfold insert_protocol, real_tracked; rewrite Hp.
  - apply wp_modify. simpl. split_and!; [done| | |done|done].
    + intros id Hne. etrans; [apply real_tracks_insert|]. rewrite decide_False by done.
      apply real_tracks_ext; simpl; [done|done|]. rewrite Htr. naive_solver.
    + intros _. split; [|done]. apply real_tracks_insert. rewrite decide_True by done. apply Htr. auto.
  - simpl in *. assert (∀ id, ls_tracks x id ↔ ls_tracks (rr_udp s) id) as Hsame by (intros id; rewrite Htr; naive_solver).
    split_and!; [done| |done| |].
    + intros id _. by apply real_tracks_ext.
    + intros _ Hno. by rewrite (real_tracks_ext s).
    + intros _. split_and!; [done|exact Hsame|done].
Qed.

Lemma both_sides (mt : M T RuntimeError unit) (mu : M U RuntimeError unit)
    (conv : RuntimeError → RuntimeError) t a (s : RealRuntime T U) :
  al_protocol a = Both → real_ok s →
  wp mt (tracks_new ls_ok ls_tracks (al_id a) (rr_tcp s)) (rr_tcp s) →
  wp mu (tracks_new ls_ok ls_tracks (al_id a) (rr_udp s)) (rr_udp s) →
  wp (on_tcp mt;;
      let! udp := attempt (on_udp mu) in
      match udp with
      | Err error => let! _ignored := attempt (on_tcp (rt_delete (al_id a) t)) in fail (conv error)
      | Ok _ => insert_protocol (al_id a) Both
      end) (real_tracked a s) s.
Proof.
  intros Hp [Hokt Hoku] Hmt Hmu. apply wp_bind. eapply wp_tcp; [exact Hmt|].
  intros [[]|err] x [Hx Htr]; cbn beta iota.
  2: { simpl in Htr. assert (∀ id, ls_tracks x id ↔ ls_tracks (rr_tcp s) id) as Hsame by (intros id; rewrite Htr; naive_solver).
       unfold real_tracked. rewrite Hp. split_and!; [done| |done| |].
       - intros id _. by apply real_tracks_ext.
       - intros _ Hno. by rewrite (real_tracks_ext s).
       - intros _. split_and!; [done|done|]. intros _. exact Hsame. }
  apply wp_bind, wp_attempt. eapply wp_udp; [exact Hmu|].
  intros [[]|err] y [Hy Hur]; cbn beta iota.
  - unfold insert_protocol, real_tracked. rewrite Hp. apply wp_modify. simpl in *.
    assert (ls_tracks x (al_id a)) by (apply Htr; auto). assert (ls_tracks y (al_id a)) by (apply Hur; auto).
    split_and!; [done| | |done|done].
    + intros id Hne. etrans; [apply real_tracks_insert|]. rewrite decide_False by done.
      apply real_tracks_ext; simpl; [done|rewrite Htr; naive_solver|rewrite Hur; naive_solver].
    + intros _. split; [|done]. apply real_tracks_insert. rewrite decide_True by done. by left.
  - apply wp_bind, wp_attempt. eapply wp_tcp; [by apply ls_delete_spec|].
    intros r z (Hz & _ & Hdel). cbn beta iota. apply wp_fail. simpl in *. unfold real_tracked. rewrite Hp. simpl.
    assert (∀ id, ls_tracks y id ↔ ls_tracks (rr_udp s) id) as Hudp by (intros id; rewrite Hur; naive_solver).
    split_and!; [done| |done| |].
    + intros id Hne. apply real_tracks_ext; simpl; [done| |apply Hudp]. rewrite Hdel, Htr. naive_solver.
    + intros _ Hno. unfold real_tracks in *. simpl.
      destruct (rr_protocols s !! al_id a) as [[]|]; rewrite ?Hdel, ?Hudp; naive_solver.
    + intros _. split_and!; [done|exact Hudp|]. intros Hno id. rewrite Hdel, Htr. naive_solver.
Qed.

Lemma real_create_spec a t (s : RealRuntime T U) : real_ok s → wp (RealRuntime_create a t) (real_tracked a s) s.
Proof.
  intros Hok. unfold RealRuntime_create. pose proof Hok as [Hokt Hoku]. destruct (al_protocol a) eqn:Hp.
  - apply tcp_alone; [done|done|]. by apply ls_create_spec.
  - apply udp_alone; [done|done|]. by apply ls_create_spec.
  - apply (both_sides _ _ id); [done|done|by apply (ls_create_spec (as_protocol a Tcp))|
      by apply (ls_create_spec (as_protocol a Udp))].
Qed.

Lemma real_restore_spec a t (s : RealRuntime T U) : real_ok s → wp (RealRuntime_restore a t) (real_tracked a s) s.
Proof.
  intros Hok. unfold RealRuntime_restore. pose proof Hok as [Hokt Hoku]. destruct (al_protocol a) eqn:Hp.
  - apply tcp_alone; [done|done|]. by apply ls_restore_spec.
  - apply udp_alone; [done|done|]. by apply ls_restore_spec.
  - apply (both_sides _ _ (λ _, RuntimeRestoreFailed)); [done|done|by apply (ls_restore_spec (as_protocol a Tcp))|
      by apply (ls_restore_spec (as_protocol a Udp))].
Qed.

Lemma real_update_spec a t (s : RealRuntime T U) :
  real_ok s →
  wp (RealRuntime_update a t)
    (λ r s', real_ok s' ∧ (∀ id, real_tracks s' id ↔ real_tracks s id) ∧
      rr_protocols s' = rr_protocols s ∧
      (is_ok r = true ↔
         match al_protocol a with
         | Tcp => ls_tracks (rr_tcp s) (al_id a)
         | Udp => ls_tracks (rr_udp s) (al_id a)
         | Both => ls_tracks (rr_tcp s) (al_id a) ∧ ls_tracks (rr_udp s) (al_id a)
         end)) s.
Proof.
  intros [Hokt Hoku]. unfold RealRuntime_update. destruct (al_protocol a).
  - eapply wp_tcp; [by apply ls_update_spec|]. intros r x (Hx & Htr & Hr).
    split_and!; [done| |done|done..]. intros id. by apply real_tracks_ext.
  - eapply wp_udp; [by apply ls_update_spec|]. intros r x (Hx & Htr & Hr).
    split_and!; [done| |done|done..]. intros id. by apply real_tracks_ext.
  - apply wp_bind. eapply wp_tcp; [by apply ls_update_spec|]. intros [[]|err] x (Hx & Htr & Hr); cbn beta iota.
    + eapply wp_udp; [by apply ls_update_spec|]. intros r y (Hy & Hur & Hr'). simpl in *.
      split_and!; [done| |done|].
      * intros id. by apply real_tracks_ext.
      * split; [intros Hok; split; [by apply Hr|by apply Hr']|]. intros [_ Hu]. by apply Hr'.
    + simpl in *. split_and!; [done| |done|split; [done|intros [Hi _]; by apply Hr in Hi]].
      intros id. by apply real_tracks_ext.
Qed.

Lemma real_delete_spec i t (s : RealRuntime T U) :
  real_ok s →
  wp (RealRuntime_delete i t)
    (λ r s', real_ok s' ∧ r = Ok tt ∧ rr_protocols s' = delete i (rr_protocols s) ∧
      (∀ id, ls_tracks (rr_tcp s') id ↔ ls_tracks (rr_tcp s) id ∧ id ≠ i) ∧
      (∀ id, ls_tracks (rr_udp s') id ↔ ls_tracks (rr_udp s) id ∧ id ≠ i)) s.
Proof.
  intros [Hokt Hoku]. unfold RealRuntime_delete. apply wp_bind, wp_modify. cbn beta iota.
  apply wp_bind, wp_attempt. eapply wp_tcp; [by apply ls_delete_spec|].
  intros r x (Hx & -> & Htr). cbn beta iota. apply wp_bind, wp_attempt.
  eapply wp_udp; [by apply ls_delete_spec|].
  intros r y (Hy & -> & Hur). cbn beta iota. apply wp_of_result. by split_and!.
Qed.

Lemma real_snapshot_spec i (s : RealRuntime T U) :
  real_ok s →
  wp (RealRuntime_snapshot i)
    (λ r s', s' = s ∧ ∃ o, r = Ok o ∧ (is_Some o ↔ real_tracks s i)) s.
Proof.
  intros [Hokt Hoku]. unfold RealRuntime_snapshot. apply wp_bind, wp_gets. cbn beta iota. unfold real_tracks.
  assert (∀ s : RealRuntime T U, rr_set_tcp (rr_tcp s) s = s) as Hst by (by intros []).
  assert (∀ s : RealRuntime T U, rr_set_udp (rr_udp s) s = s) as Hsu by (by intros []).
  destruct (rr_protocols s !! i) as [[| |]|].
  - eapply wp_tcp; [by apply ls_snapshot_spec|]. intros r x (-> & Ho). by rewrite Hst.
  - eapply wp_udp; [by apply ls_snapshot_spec|]. intros r x (-> & Ho). by rewrite Hsu.
  - apply wp_bind. eapply wp_tcp; [by apply ls_snapshot_spec|]. intros r x (-> & o & -> & Ho). cbn beta iota.
    rewrite Hst. apply wp_bind. eapply wp_udp; [by apply ls_snapshot_spec|].
    intros r x (-> & o' & -> & Ho'). cbn beta iota. rewrite Hsu. apply wp_ret. split; [done|].
    eexists. split; [reflexivity|]. rewrite <- Ho, <- Ho'. destruct o, o'; simpl; try case_decide; naive_solver.
  - apply wp_ret. split; [done|]. exists None. split; [done|]. split; [by intros [? ?]|done].
Qed.

#[export] Instance row_le_total : Total row_le.
Proof.
  intros x y. unfold row_le.
  destruct (Z.lt_trichotomy (lm_port x) (lm_port y)) as [|[Heq|]]; [auto| |auto].
  destruct (lm_protocol x), (lm_protocol y); simpl; auto.
Qed.

(** The metrics rows of an allocation's ports are those of both relays, each as often
    as a relay gives it, sorted by port and then by the protocol's name. *)
Theorem listener_rows_sorted (s : RealRuntime T U) :
  real_ok s →
  wp rt_snapshot_listener_metrics
    (λ r s', s' = s ∧ ∃ rows tcp udp, r = Ok rows ∧
       (rt_snapshot_listener_metrics (rr_tcp s)).1 = Ok tcp ∧
       (rt_snapshot_listener_metrics (rr_udp s)).1 = Ok udp ∧
       rows ≡ₚ tcp ++ udp ∧ Sorted row_le rows ∧
       Forall (λ row, lm_protocol row ≠ Both) rows) s.
Proof.
  intros [Hokt Hoku]. unfold rt_snapshot_listener_metrics at 1. simpl.
  unfold RealRuntime_snapshot_listener_metrics. apply wp_bind.
  eapply wp_tcp; [eapply wp_intro; intros r x Hrun; exact (conj Hrun (wp_elim _ _ _ _ _ (ls_metrics_spec _ Hokt) Hrun))|].
  intros r x (Hrun & -> & tcp & -> & Hft). cbn beta iota.
  apply wp_bind. eapply wp_udp;
    [eapply wp_intro; intros r y Hrun'; exact (conj Hrun' (wp_elim _ _ _ _ _ (ls_metrics_spec _ Hoku) Hrun'))|].
  intros r y (Hrun' & -> & udp & -> & Hfu). cbn beta iota. apply wp_ret.
  split; [by destruct s|]. exists (merge_sort row_le (tcp ++ udp)), tcp, udp.
  split_and!; [done|exact (f_equal fst Hrun)|exact (f_equal fst Hrun')|apply merge_sort_Permutation|apply Sorted_merge_sort; apply _|].
  rewrite merge_sort_Permutation. apply Forall_app. split; (eapply Forall_impl; [eassumption|]); simpl; congruence.
Qed.

#[export] Program Instance RealRuntime_laws : RuntimeFacadeLaws (RealRuntime T U) := {|
  rt_ok := real_ok;
  rt_tracks := real_tracks;
|}.
Next Obligation. intros t s Hok. apply wp_ret. by split. Qed.
Next Obligation.
  intros a t s Hok Hno. eapply wp_mono; [by apply real_create_spec|].
  intros r s' (Hok' & Hother & Hyes & Hnot & _). split; [done|]. intros id.
  destruct (decide (id = al_id a)) as [->|Hne]; [|rewrite Hother by done; naive_solver].
  destruct (is_ok r) eqn:Hr; [naive_solver|]. naive_solver.
Qed.
Next Obligation.
  intros a t s Hok _. eapply wp_mono; [by apply real_update_spec|]. by intros r s' (? & ? & _).
Qed.
Next Obligation.
  intros i t s Hok. eapply wp_mono; [by apply real_delete_spec|].
  intros r s' (Hok' & -> & Hp & Ht & Hu). split; [done|]. intros id. unfold real_tracks. rewrite Hp.
  destruct (decide (id = i)) as [->|Hne].
  - rewrite lookup_delete_eq. split; [done|]. intros [_ Hx]. by apply Hx.
  - rewrite lookup_delete_ne by done. destruct (rr_protocols s !! id) as [[]|]; rewrite ?Ht, ?Hu; naive_solver.
Qed.
Next Obligation.
  intros a t s Hok. eapply wp_mono; [by apply real_restore_spec|].
  intros r s' (Hok' & Hother & Hyes & _). split_and!; [done|done|]. intros Hr. by apply Hyes.
Qed.
Next Obligation. intros i s Hok. by apply real_snapshot_spec. Qed.
Next Obligation. intros s Hok. eapply wp_mono; [by apply listener_rows_sorted|]. by intros r s' [-> _]. Qed.

(** C17: an allocation of both protocols is created and restored on both relays or on none:
    Ok means that each relay tracks it; an error leaves what the relays track and the
    protocol table as they were. *)
Theorem both_protocols_all_or_nothing (restore : bool) a t (s : RealRuntime T U) :
  real_ok s → al_protocol a = Both → ¬ ls_tracks (rr_tcp s) (al_id a) →
  wp (if restore then rt_restore a t else rt_create a t)
    (λ r s',
       match r with
       | Ok _ => ls_tracks (rr_tcp s') (al_id a) ∧ ls_tracks (rr_udp s') (al_id a)
       | Err _ => rr_protocols s' = rr_protocols s ∧
           (∀ id, ls_tracks (rr_tcp s') id ↔ ls_tracks (rr_tcp s) id) ∧
           (∀ id, ls_tracks (rr_udp s') id ↔ ls_tracks (rr_udp s) id)
       end) s.
Proof.
  intros Hok Hp Hno.
  assert (wp (if restore then rt_restore a t else rt_create a t) (real_tracked a s) s) as Hw
    by (destruct restore; [by apply real_restore_spec|by apply real_create_spec]).
  eapply wp_mono; [exact Hw|]. intros r s' (_ & _ & Hyes & _ & Herr). rewrite Hp in Hyes.
  destruct r as [|err]; simpl in *; [by apply Hyes|]. destruct (Herr eq_refl) as (? & ? & Ht). auto.
Qed.
End laws.
