(* ===== verification/RealServing.v ===== *)
(** The runtime over two relays (runtime/real.rs) forwards what it was told: relays that
    are maps from identifiers to listeners make up a runtime that serves its allocations. *)
From stdpp Require Import base gmap strings list.
From Stdlib Require Import ZArith Lia.
From S2P Require Import Prelude RustStd Model Facade Real Serving.
Open Scope Z_scope.

(** A listener: its port, and the target it forwards to, if any. *)
Abbreviation Listener := (Z * option (string * Z))%type.

Definition listener_of (a : Allocation) : Listener := (al_port a, al_target a).

(** A relay implements a map of listeners: every operation is an operation on the map. *)
Class ListenerView (p : Protocol) (R : Type) `{ListenerLaws p R} : Type := {
  lv_view : R → gmap string Listener;
  lv_create a t s :
    ls_ok s → al_protocol a = p →
    wp (rt_create a t)
      (λ r s', lv_view s' = if is_ok r then <[al_id a := listener_of a]> (lv_view s) else lv_view s) s;
  lv_restore a t s :
    ls_ok s → al_protocol a = p →
    wp (rt_restore a t)
      (λ r s', lv_view s' = if is_ok r then <[al_id a := listener_of a]> (lv_view s) else lv_view s) s;
  lv_update a t s :
    ls_ok s →
    wp (rt_update a t)
      (λ _ s', lv_view s' = alter (λ l, (l.1, al_target a)) (al_id a) (lv_view s)) s;
  lv_delete i t s :
    ls_ok s → wp (rt_delete i t) (λ _ s', lv_view s' = delete i (lv_view s)) s;
}.

Section serving.
  Context {T U : Type} `{FT : RuntimeFacade T} `{FU : RuntimeFacade U}.
  Context `{LT : !ListenerLaws Tcp T} `{LU : !ListenerLaws Udp U}.
  Context `{VT : !ListenerView Tcp T} `{VU : !ListenerView Udp U}.

Abbreviation RR := (RealRuntime T U).

(** The relays of an allocation's protocol have [P] of its listener. *)
Definition on_sides (P : option Listener → Prop) (s : RR) (a : Allocation) : Prop :=
  rr_protocols s !! al_id a = Some (al_protocol a) ∧
  (al_protocol a ≠ Udp → P (lv_view (rr_tcp s) !! al_id a)) ∧
  (al_protocol a ≠ Tcp → P (lv_view (rr_udp s) !! al_id a)).

Definition real_listens (s : RR) (a : Allocation) : Prop :=
  on_sides (λ l, fst <$> l = Some (al_port a)) s a.

Definition real_serves (s : RR) (a : Allocation) : Prop :=
  on_sides (λ l, l = Some (listener_of a)) s a.

(** Everything but the allocation [i] is as before. *)
Definition agree_but (i : string) (s s' : RR) : Prop :=
  ∀ id, id ≠ i →
    rr_protocols s' !! id = rr_protocols s !! id ∧
    lv_view (rr_tcp s') !! id = lv_view (rr_tcp s) !! id ∧
    lv_view (rr_udp s') !! id = lv_view (rr_udp s) !! id.

Lemma agree_but_spares i s s' :
  agree_but i s s' → spares real_listens real_serves (λ b, al_id b ≠ i) s s'.
Proof.
  intros Hag b Hb. destruct (Hag _ Hb) as (Hp & Ht & Hu).
  unfold real_listens, real_serves, on_sides. by rewrite Hp, Ht, Hu.
Qed.

(** The relays' contract for a creation or a restoration. *)
Definition view_new {R} (ok : R → Prop) (view : R → gmap string Listener) (i : string) (l : Listener)
    (s : R) (r : result unit RuntimeError) (s' : R) : Prop :=
  ok s' ∧ view s' = if is_ok r then <[i := l]> (view s) else view s.

Definition real_new (a : Allocation) (s : RR) (r : result unit RuntimeError) (s' : RR) : Prop :=
  agree_but (al_id a) s s' ∧ (is_ok r = true → real_serves s' a).

Lemma tcp_alone_serves (m : M T RuntimeError unit) a (s : RR) :
  al_protocol a = Tcp →
  wp m (view_new ls_ok lv_view (al_id a) (listener_of a) (rr_tcp s)) (rr_tcp s) →
  wp (on_tcp m;; insert_protocol (al_id a) Tcp) (real_new a s) s.
Proof.
  intros Hp Hm. apply wp_bind. eapply wp_tcp; [exact Hm|].
  intros [[]|err] x [_ Hv]; unfold insert_protocol, real_new; simpl in Hv.
  - apply wp_modify. split.
    + intros id Hne. simpl. by rewrite Hv, !lookup_insert_ne.
    + intros _. unfold real_serves, on_sides. simpl. by rewrite Hp, Hv, !lookup_insert_eq.
  - split; [|done]. intros id _. simpl. by rewrite Hv.
Qed.

Lemma udp_alone_serves (m : M U RuntimeError unit) a (s : RR) :
  al_protocol a = Udp →
  wp m (view_new ls_ok lv_view (al_id a) (listener_of a) (rr_udp s)) (rr_udp s) →
  wp (on_udp m;; insert_protocol (al_id a) Udp) (real_new a s) s.
Proof.
  intros Hp Hm. apply wp_bind. eapply wp_udp; [exact Hm|].
  intros [[]|err] x [_ Hv]; unfold insert_protocol, real_new; simpl in Hv.
  - apply wp_modify. split.
    + intros id Hne. simpl. by rewrite Hv, !lookup_insert_ne.
    + intros _. unfold real_serves, on_sides. simpl. by rewrite Hp, Hv, !lookup_insert_eq.
  - split; [|done]. intros id _. simpl. by rewrite Hv.
Qed.

Lemma both_sides_serve (mt : M T RuntimeError unit) (mu : M U RuntimeError unit)
    (conv : RuntimeError → RuntimeError) t a (s : RR) :
  al_protocol a = Both →
  wp mt (view_new ls_ok lv_view (al_id a) (listener_of a) (rr_tcp s)) (rr_tcp s) →
  wp mu (view_new ls_ok lv_view (al_id a) (listener_of a) (rr_udp s)) (rr_udp s) →
  wp (on_tcp mt;;
      let! udp := attempt (on_udp mu) in
      match udp with
      | Err error => let! _ignored := attempt (on_tcp (rt_delete (al_id a) t)) in fail (conv error)
      | Ok _ => insert_protocol (al_id a) Both
      end) (real_new a s) s.
Proof.
  intros Hp Hmt Hmu. apply wp_bind. eapply wp_tcp; [exact Hmt|].
  intros [[]|err] x [Hx Hxv]; cbn beta iota; simpl in Hxv.
  2: { split; [|done]. intros id _. simpl. by rewrite Hxv. }
  apply wp_bind, wp_attempt. eapply wp_udp; [exact Hmu|].
  intros [[]|err] y [Hy Hyv]; cbn beta iota; simpl in Hyv.
  - unfold insert_protocol. apply wp_modify. split.
    + intros id Hne. simpl. by rewrite Hxv, Hyv, !lookup_insert_ne.
    + intros _. unfold real_serves, on_sides. simpl. by rewrite Hp, Hxv, Hyv, !lookup_insert_eq.
  - apply wp_bind, wp_attempt. eapply wp_tcp; [by apply lv_delete|].
    intros r z Hz. cbn beta iota. apply wp_fail. simpl in Hz. split; [|done].
    intros id Hne. simpl. by rewrite Hz, Hxv, Hyv, lookup_delete_ne, lookup_insert_ne.
Qed.

Lemma tcp_create_new a b t (s : RR) :
  ls_ok (rr_tcp s) → al_protocol a = Tcp → al_id a = al_id b → listener_of a = listener_of b →
  wp (rt_create a t) (view_new ls_ok lv_view (al_id b) (listener_of b) (rr_tcp s)) (rr_tcp s).
Proof.
  intros Hok Hp <- <-. eapply wp_mono; [apply wp_and; [by apply ls_create_spec|by apply lv_create]|].
  by intros r s' [[? _] ?].
Qed.

Lemma tcp_restore_new a b t (s : RR) :
  ls_ok (rr_tcp s) → al_protocol a = Tcp → al_id a = al_id b → listener_of a = listener_of b →
  wp (rt_restore a t) (view_new ls_ok lv_view (al_id b) (listener_of b) (rr_tcp s)) (rr_tcp s).
Proof.
  intros Hok Hp <- <-. eapply wp_mono; [apply wp_and; [by apply ls_restore_spec|by apply lv_restore]|].
  by intros r s' [[? _] ?].
Qed.

Lemma udp_create_new a b t (s : RR) :
  ls_ok (rr_udp s) → al_protocol a = Udp → al_id a = al_id b → listener_of a = listener_of b →
  wp (rt_create a t) (view_new ls_ok lv_view (al_id b) (listener_of b) (rr_udp s)) (rr_udp s).
Proof.
  intros Hok Hp <- <-. eapply wp_mono; [apply wp_and; [by apply ls_create_spec|by apply lv_create]|].
  by intros r s' [[? _] ?].
Qed.

Lemma udp_restore_new a b t (s : RR) :
  ls_ok (rr_udp s) → al_protocol a = Udp → al_id a = al_id b → listener_of a = listener_of b →
  wp (rt_restore a t) (view_new ls_ok lv_view (al_id b) (listener_of b) (rr_udp s)) (rr_udp s).
Proof.
  intros Hok Hp <- <-. eapply wp_mono; [apply wp_and; [by apply ls_restore_spec|by apply lv_restore]|].
  by intros r s' [[? _] ?].
Qed.

Lemma real_create_serves a t (s : RR) : real_ok s → wp (RealRuntime_create a t) (real_new a s) s.
Proof.
  intros [Ht Hu]. unfold RealRuntime_create. destruct (al_protocol a) eqn:Hp.
  - apply tcp_alone_serves; [done|]. by apply tcp_create_new.
  - apply udp_alone_serves; [done|]. by apply udp_create_new.
  - apply (both_sides_serve _ _ id); [done|by apply tcp_create_new|by apply udp_create_new].
Qed.

Lemma real_restore_serves a t (s : RR) : real_ok s → wp (RealRuntime_restore a t) (real_new a s) s.
Proof.
  intros [Ht Hu]. unfold RealRuntime_restore. destruct (al_protocol a) eqn:Hp.
  - apply tcp_alone_serves; [done|]. by apply tcp_restore_new.
  - apply udp_alone_serves; [done|]. by apply udp_restore_new.
  - apply (both_sides_serve _ _ (λ _, RuntimeRestoreFailed)); [done|by apply tcp_restore_new|by apply udp_restore_new].
Qed.

(** A listener that is there gets the new target, and keeps its port. *)
Lemma alter_listener (v : gmap string Listener) i port (target : option (string * Z)) :
  fst <$> v !! i = Some port → alter (λ l, (l.1, target)) i v !! i = Some (port, target).
Proof. intros Hv. rewrite lookup_alter_eq. destruct (v !! i) as [[]|]; simpl in *; [congruence|done]. Qed.

Lemma real_update_serves a t (s : RR) :
  real_ok s → real_listens s a →
  wp (RealRuntime_update a t)
    (λ r s', real_listens s' a ∧ (is_ok r = true → real_serves s' a) ∧ agree_but (al_id a) s s') s.
Proof.
  intros [Hokt Hoku] (Hp & Ht & Hu). unfold RealRuntime_update.
  assert (∀ p t, ls_ok (rr_tcp s) →
    wp (rt_update (as_protocol a p) t) (λ _ x, lv_view x =
      alter (λ l, (l.1, al_target a)) (al_id a) (lv_view (rr_tcp s))) (rr_tcp s)) as Hut
    by (intros p t' Hok; by apply (lv_update (as_protocol a p))).
  destruct (al_protocol a) eqn:Hpr.
  - eapply wp_tcp; [by apply lv_update|]. intros r x Hx.
    assert (lv_view x !! al_id a = Some (listener_of a)) as Hl by (rewrite Hx; by apply alter_listener, Ht).
    unfold real_listens, real_serves, on_sides. simpl. rewrite Hpr, Hl. split_and!; [done..|].
    intros id Hne. simpl. by rewrite Hx, lookup_alter_ne.
  - eapply wp_udp; [by apply lv_update|]. intros r x Hx.
    assert (lv_view x !! al_id a = Some (listener_of a)) as Hl by (rewrite Hx; by apply alter_listener, Hu).
    unfold real_listens, real_serves, on_sides. simpl. rewrite Hpr, Hl. split_and!; [done..|].
    intros id Hne. simpl. by rewrite Hx, lookup_alter_ne.
  - apply wp_bind. eapply wp_tcp; [by apply Hut|]. intros r x Hx.
    assert (lv_view x !! al_id a = Some (listener_of a)) as Hl by (rewrite Hx; by apply alter_listener, Ht).
    destruct r as [[]|e]; cbn beta iota.
    + eapply wp_udp; [by apply (lv_update (as_protocol a Udp))|]. intros r y Hy. simpl in Hy.
      assert (lv_view y !! al_id a = Some (listener_of a)) as Hl' by (rewrite Hy; by apply alter_listener, Hu).
      unfold real_listens, real_serves, on_sides. simpl. rewrite Hpr, Hl, Hl'. split_and!; [done..|].
      intros id Hne. simpl. by rewrite Hx, Hy, !lookup_alter_ne.
    + unfold real_listens, real_serves, on_sides. simpl. rewrite Hpr, Hl. split_and!; [done|done| |done|].
      * intros _. by apply Hu.
      * intros id Hne. simpl. by rewrite Hx, lookup_alter_ne.
Qed.

Lemma real_delete_agree i t (s : RR) :
  real_ok s → wp (RealRuntime_delete i t) (λ r s', is_ok r = true ∧ agree_but i s s') s.
Proof.
  intros [Hokt Hoku]. unfold RealRuntime_delete. apply wp_bind, wp_modify. cbn beta iota.
  apply wp_bind, wp_attempt. eapply wp_tcp.
  { apply wp_and; [by apply ls_delete_spec|by apply lv_delete]. }
  intros r x [(Hx & -> & _) Hxv]. cbn beta iota. apply wp_bind, wp_attempt. eapply wp_udp.
  { apply wp_and; [by apply ls_delete_spec|by apply lv_delete]. }
  intros r y [(Hy & -> & _) Hyv]. cbn beta iota. apply wp_of_result. split; [done|].
  intros id Hne. simpl in *. by rewrite Hxv, Hyv, !lookup_delete_ne.
Qed.

#[export] Program Instance RealRuntime_serves : RuntimeServes RR := {|
  rt_listens := real_listens;
  rt_serves := real_serves;
|}.
Next Obligation.
  intros s a b (Hi & Hp & Hport). unfold real_listens, on_sides. by rewrite Hi, Hp, Hport.
Qed.
Next Obligation.
  intros s a b (Hi & Hp & Hport) Ht. unfold real_serves, on_sides, listener_of.
  by rewrite Hi, Hp, Hport, Ht.
Qed.
Next Obligation.
  intros s a (Hp & Ht & Hu). split; [done|]. split; intros Hne; [by rewrite Ht|by rewrite Hu].
Qed.
Next Obligation. intros t s Hok. by apply wp_ret. Qed.
Next Obligation.
  intros a t s Hok _. eapply wp_mono; [by apply real_create_serves|].
  intros r s' [Hag Hv]. split; [done|]. by apply agree_but_spares.
Qed.
Next Obligation.
  intros a t s Hok Hl. eapply wp_mono; [by apply real_update_serves|].
  intros r s' (Hl' & Hv & Hag). split_and!; [done..|]. by apply agree_but_spares.
Qed.
Next Obligation.
  intros i t s Hok. eapply wp_mono; [by apply real_delete_agree|].
  intros r s' [-> Hag] b Hb. apply (agree_but_spares i s s'); auto.
Qed.
Next Obligation.
  intros a t s Hok. eapply wp_mono; [by apply real_restore_serves|].
  intros r s' [Hag Hv]. split; [done|]. by apply agree_but_spares.
Qed.
End serving.
