(* ===== verification/Views.v ===== *)
(** The relays as maps of listeners (runtime/tcp.rs, runtime/udp.rs): for each allocation
    the port it is bound to and the target its traffic goes to. The operations of the facade
    are operations on this map, and no event of a task changes it. *)
From stdpp Require Import base gmap strings list fin_maps.
From Stdlib Require Import ZArith Lia.
From S2P Require Import Prelude RustStd Model Facade Metrics Serving.
From S2P Require Import Tcp TcpSpec UdpModel Udp UdpSpec UdpSteps RealServing.
Open Scope Z_scope.

(** * Maps through references *)

(** No two identifiers share a listener. *)
Definition refs_inj (E : gmap string nat) : Prop :=
  ∀ i j e, E !! i = Some e → E !! j = Some e → i = j.

Lemma refs_inj_insert E i e : refs_inj E → (∀ j, E !! j ≠ Some e) → refs_inj (<[i := e]> E).
Proof.
  intros HE He j k e' [[? ?]|[? ?]]%lookup_insert_Some [[? ?]|[? ?]]%lookup_insert_Some; simplify_eq.
  - done.
  - by destruct (He k).
  - by destruct (He j).
  - by eapply HE.
Qed.

Lemma refs_inj_subseteq E E' : refs_inj E → E' ⊆ E → refs_inj E'.
Proof. intros HE Hsub i j e Hi Hj. eapply HE; by eapply lookup_weaken. Qed.

(** The listeners by identifier: [E] refers to rows. *)
Definition view_of (E : gmap string nat) (rows : gmap nat Listener) : gmap string Listener :=
  omap (λ e, rows !! e) E.

Lemma view_insert E rows i e l :
  (∀ j, E !! j ≠ Some e) → view_of (<[i := e]> E) (<[e := l]> rows) = <[i := l]> (view_of E rows).
Proof.
  intros He. apply map_eq. intros j. unfold view_of. rewrite lookup_omap.
  destruct (decide (j = i)) as [->|Hj]; [by rewrite !lookup_insert_eq; simpl; rewrite lookup_insert_eq|].
  rewrite !lookup_insert_ne, lookup_omap by done. destruct (E !! j) as [e'|] eqn:Hj'; simpl; [|done].
  rewrite lookup_insert_ne; [done|]. intros ->. by apply (He j).
Qed.

Lemma view_alter E rows i e f :
  refs_inj E → E !! i = Some e → view_of E (alter f e rows) = alter f i (view_of E rows).
Proof.
  intros HE Hi. apply map_eq. intros j. unfold view_of. rewrite lookup_omap, lookup_alter, !lookup_omap.
  destruct (E !! j) as [e'|] eqn:Hj; simpl.
  - case_decide as Hij; [subst j; rewrite Hi in Hj; injection Hj as <-; by rewrite Hi, lookup_alter_eq|].
    rewrite lookup_alter_ne; [done|]. intros ->. by destruct Hij; eapply HE.
  - case_decide; [congruence|done].
Qed.

Lemma view_delete E rows i : view_of (delete i E) rows = delete i (view_of E rows).
Proof.
  apply map_eq. intros j. unfold view_of. rewrite lookup_omap, !lookup_delete, lookup_omap.
  by case_decide.
Qed.

(** * The TCP relay *)
Definition tcp_target (entry : TcpListenerEntry) : option (string * Z) :=
  match ts_effective_host (te_state entry), ts_effective_target_port (te_state entry) with
  | Some host, Some port => Some (host, port)
  | _, _ => None
  end.

Definition tcp_row (entry : TcpListenerEntry) : Listener := (te_port entry, tcp_target entry).
Definition tcp_rows (s : TcpRuntime) : gmap nat Listener := tcp_row <$> tr_heap s.
Definition tcp_view (s : TcpRuntime) : gmap string Listener := view_of (tr_entries s) (tcp_rows s).

Definition same_rows (s s' : TcpRuntime) : Prop :=
  tr_entries s' = tr_entries s ∧ tcp_rows s' = tcp_rows s.

#[export] Instance same_rows_po : PreOrder same_rows.
Proof. split; [by intros s|]. intros s1 s2 s3 [? ?] [? ?]. split; congruence. Qed.

Lemma same_rows_alter f e s : (∀ x, tcp_row (f x) = tcp_row x) → same_rows s (tr_alter_entry f e s).
Proof. intros Hf. split; [done|]. by apply fmap_alter_same. Qed.

Lemma same_rows_metric f s : same_rows s (tr_metric f s).
Proof. done. Qed.

Lemma same_rows_task f t s : same_rows s (tr_alter_task f t s).
Proof. done. Qed.

Lemma same_rows_close e s : same_rows s (TcpRuntime_close_sessions e s).
Proof.
  unfold TcpRuntime_close_sessions. destruct (tr_heap s !! e); [|done].
  etrans; [by apply (same_rows_alter (te_set_sessions ∅) e)|done].
Qed.

Lemma same_rows_stop e s : same_rows s (TcpRuntime_stop_entry e s).
Proof. etrans; [by apply (same_rows_alter te_stop_accept e)|apply same_rows_close]. Qed.

Lemma same_rows_signal o s : same_rows s (signal_sender o s).
Proof. by destruct o. Qed.

Lemma same_rows_drop e s : same_rows s (ActiveSessionGuard_drop e s).
Proof. etrans; [|apply same_rows_metric]. etrans; [|apply same_rows_metric]. by apply same_rows_alter. Qed.

Lemma same_rows_copied e r s : same_rows s (copied e r s).
Proof.
  unfold copied. etrans; [|apply same_rows_drop]. destruct r as [[]|error]; by apply same_rows_alter.
Qed.

Lemma same_rows_begin entry s : same_rows s (copy_streams_begin entry s).2.
Proof. unfold copy_streams_begin. destruct (te_force_copy_fallback _); [done|]. by destruct (negb _). Qed.

Lemma same_rows_spliced o s : same_rows s (copy_streams_spliced o s).2.
Proof. destruct o; simpl; [done|]. by destruct (head _). Qed.

(** Events of the tasks leave the listeners' ports and targets alone. *)
Lemma tcp_event_rows ev s s' : tcp_event ev s = Some s' → same_rows s s'.
Proof.
  destruct ev as [e|e|e|e|e|e|t|t error|t o|t r|t|t]; simpl;
    try (destruct (accepting e s) as [[[| | |i h p] entry]|] eqn:Ha; try done).
  - intros [= <-]. etrans; [|apply same_rows_metric]. by apply same_rows_alter.
  - intros [= <-]. by apply same_rows_alter.
  - destruct (te_shutdown entry); [|done]. intros [= <-]. by apply same_rows_alter.
  - intros [= <-]. unfold handle_client_read.
    destruct (ts_effective_host (te_state entry)), (ts_effective_target_port (te_state entry)).
    { by apply same_rows_alter. }
    all: etrans; [|apply same_rows_metric]; by apply same_rows_alter.
  - intros [= <-]. by apply same_rows_alter.
  - intros [= <-]. unfold handle_client_insert.
    etrans; [apply same_rows_signal|]. by apply same_rows_alter.
  - intros (task & Ht & (entry & He & H')%bind_Some)%bind_Some. destruct (ss_phase task); try done.
    match type of H' with context [copy_streams_begin entry ?s0] =>
      pose proof (same_rows_begin entry s0) as Hb; destruct (copy_streams_begin entry s0) as [p s1] end.
    injection H' as <-. etrans; [|apply same_rows_task]. etrans; [|exact Hb].
    etrans; [|by apply same_rows_alter]. done.
  - intros (task & Ht & H')%bind_Some. destruct (ss_phase task); try done. injection H' as <-.
    etrans; [|apply same_rows_task]. etrans; [|by apply same_rows_alter]. done.
  - intros (task & Ht & H')%bind_Some. destruct (ss_phase task); try done.
    pose proof (same_rows_spliced o s) as Hs. destruct (copy_streams_spliced o s) as [[r|] s1];
      injection H' as <-; simpl in Hs; (etrans; [|apply same_rows_task]); [|done].
    etrans; [exact Hs|apply same_rows_copied].
  - intros (task & Ht & H')%bind_Some. destruct (ss_phase task); try done. injection H' as <-.
    etrans; [|apply same_rows_task]. apply same_rows_copied.
  - intros (task & Ht & H')%bind_Some. destruct (ss_signalled task); [|done].
    destruct (ss_phase task); try done; injection H' as <-; (etrans; [|apply same_rows_task]);
      [done|apply same_rows_drop..].
  - intros (task & Ht & H')%bind_Some. destruct (ss_phase task); try done. injection H' as <-.
    unfold TcpRuntime_remove_session_handle. destruct (tr_heap s !! ss_entry task); [|done].
    etrans; [|apply same_rows_signal]. by apply same_rows_alter.
Qed.

Definition tcp_ok (s : TcpRuntime) : Prop := tcp_structure s ∧ refs_inj (tr_entries s).

(** The map after an operation, and that references stay distinct. *)
Definition tcp_becomes (s : TcpRuntime) (v : gmap string Listener) : Prop :=
  refs_inj (tr_entries s) ∧ tcp_view s = v.

Lemma same_rows_becomes s s' :
  same_rows s s' → refs_inj (tr_entries s) → tcp_becomes s' (tcp_view s).
Proof. intros [HE Hr] Hi. unfold tcp_becomes, tcp_view. by rewrite HE, Hr. Qed.

Lemma tcp_entry_target a : tcp_target (new_entry TcpRuntimeConfig_loopback a) = al_target a.
Proof.
  unfold tcp_target, al_target. simpl. unfold TcpRuntime_entry_state_for.
  by destruct (al_host a), (al_target_port a).
Qed.

Lemma tcp_fresh s : tcp_structure s → ∀ j, tr_entries s !! j ≠ Some (tr_next s).
Proof.
  intros Hst j Hj. apply (st_entries _ _ _ _ Hst) in Hj. apply (st_entry_ref _ _ _ _ Hst) in Hj. lia.
Qed.

Lemma bind_listener_rows a failed err s :
  wp (bind_listener a failed err)
    (λ r s', match r with
             | Ok e => e = tr_next s ∧ tr_entries s' = tr_entries s ∧
                       tcp_rows s' = <[e := listener_of a]> (tcp_rows s)
             | Err _ => same_rows s s'
             end) s.
Proof.
  unfold bind_listener, wp. simpl. destruct (tr_binds _ _ _); simpl.
  - split_and!; [done..|]. unfold tcp_rows. simpl. rewrite fmap_insert. f_equal.
    unfold tcp_row, listener_of. by rewrite <- tcp_entry_target.
  - induction failed as [|c failed IH]; [done|]. etrans; [exact IH|done].
Qed.

(** A new listener under its identifier. *)
Lemma tcp_insert_becomes s s1 a e :
  tcp_ok s → e = tr_next s → tr_entries s1 = tr_entries s →
  tcp_rows s1 = <[e := listener_of a]> (tcp_rows s) →
  tcp_becomes (tr_inc runtime_apply_total (tr_set_entries (<[al_id a := e]> (tr_entries s1)) s1))
    (<[al_id a := listener_of a]> (tcp_view s)).
Proof.
  intros [Hst Hi] -> HE Hr. split.
  - simpl. rewrite HE. apply refs_inj_insert; [done|by apply tcp_fresh].
  - unfold tcp_view. simpl. rewrite HE.
    match goal with |- view_of _ ?rows = _ => change rows with (tcp_rows s1) end. rewrite Hr.
    apply view_insert. by apply tcp_fresh.
Qed.

Definition tcp_tracked_view (a : Allocation) (s : TcpRuntime) (r : result unit RuntimeError)
    (s' : TcpRuntime) : Prop :=
  tcp_becomes s' (if is_ok r then <[al_id a := listener_of a]> (tcp_view s) else tcp_view s).

Lemma tcp_create_view a t s :
  tcp_ok s → al_protocol a = Tcp → wp (TcpRuntime_create a t) (tcp_tracked_view a s) s.
Proof.
  intros Hok Hp. unfold TcpRuntime_create, TcpRuntime_bind_entry. rewrite bool_decide_true by done. simpl.
  wp_simpl. destruct (TcpRuntime_bind_addr _ _); [|by apply same_rows_becomes, Hok].
  eapply wp_mono; [by apply bind_listener_rows|]. intros [e|err] s1; unfold insert_entry.
  - intros (He & HE & Hr). wp_simpl. by apply (tcp_insert_becomes s).
  - intros Hr. by apply same_rows_becomes, Hok.
Qed.

Lemma tcp_restore_view a t s :
  tcp_ok s → al_protocol a = Tcp → wp (TcpRuntime_restore a t) (tcp_tracked_view a s) s.
Proof.
  intros Hok Hp. unfold TcpRuntime_restore. rewrite bool_decide_true by done. simpl.
  wp_simpl. destruct (TcpRuntime_bind_addr _ _); simpl; [|by apply same_rows_becomes, Hok]. wp_simpl.
  eapply wp_mono; [by apply bind_listener_rows|]. intros [e|err] s1; unfold insert_entry.
  - intros (He & HE & Hr). wp_simpl. by apply (tcp_insert_becomes s).
  - intros Hr. by apply same_rows_becomes, Hok.
Qed.

Lemma tcp_set_state_row a x :
  tcp_row (te_set_state (TcpRuntime_entry_state_for a) x) = ((tcp_row x).1, al_target a).
Proof. unfold tcp_row. simpl. f_equal. by rewrite <- tcp_entry_target. Qed.

Lemma tcp_update_view a t s :
  tcp_ok s →
  wp (TcpRuntime_update a t)
    (λ _ s', tcp_becomes s' (alter (λ l, (l.1, al_target a)) (al_id a) (tcp_view s))) s.
Proof.
  intros [_ Hi]. unfold TcpRuntime_update. wp_simpl. destruct (tr_entries s !! al_id a) as [e|] eqn:He; simpl.
  - assert (∀ s0, same_rows s s0 → tcp_becomes (tr_inc runtime_apply_total (TcpRuntime_close_sessions e
      (tr_alter_entry (te_set_state (TcpRuntime_entry_state_for a)) e s0)))
      (alter (λ l, (l.1, al_target a)) (al_id a) (tcp_view s))) as Hgo.
    { intros s0 [HE Hr]. set (s1 := tr_alter_entry _ e s0).
      assert (same_rows s1 (tr_inc runtime_apply_total (TcpRuntime_close_sessions e s1))) as [HE1 Hr1]
        by (etrans; [apply same_rows_close|done]).
      unfold tcp_becomes, tcp_view. rewrite HE1, Hr1. change (tr_entries s1) with (tr_entries s0). rewrite HE.
      split; [done|]. assert (tcp_rows s1 = alter (λ l, (l.1, al_target a)) e (tcp_rows s)) as ->.
      { rewrite <- Hr. apply map_eq. intros e'. unfold tcp_rows. simpl.
        rewrite lookup_fmap, !lookup_alter, !lookup_fmap. case_decide; [subst e'|done].
        destruct (tr_heap s0 !! e); simpl; [|done]. by rewrite tcp_set_state_row. }
      by apply view_alter. }
    case_bool_decide; wp_simpl; apply Hgo; done.
  - split; [done|]. symmetry. apply map_eq. intros j. rewrite lookup_alter. case_decide; [subst j|done].
    unfold tcp_view, view_of. by rewrite lookup_omap, He.
Qed.

Lemma tcp_delete_view i t s :
  tcp_ok s → wp (TcpRuntime_delete i t) (λ _ s', tcp_becomes s' (delete i (tcp_view s))) s.
Proof.
  intros [_ Hi]. unfold TcpRuntime_delete. wp_simpl. destruct (tr_entries s !! i) as [e|] eqn:He; wp_simpl.
  - destruct (same_rows_stop e (tr_set_entries (delete i (tr_entries s)) s)) as [HE Hr].
    unfold tcp_becomes, tcp_view. rewrite HE, Hr. simpl. split; [|apply view_delete].
    eapply refs_inj_subseteq; [exact Hi|apply delete_subseteq].
  - split; [done|]. symmetry. apply delete_id. unfold tcp_view, view_of. by rewrite lookup_omap, He.
Qed.

(** References stay distinct. *)
Lemma tcp_view_ok {A} (m : M TcpRuntime RuntimeError A) (v : result A RuntimeError → gmap string Listener) s :
  wp m (λ _ s', tcp_structure s') s → wp m (λ r s', tcp_becomes s' (v r)) s →
  wp m (λ _ s', tcp_ok s') s.
Proof.
  intros Hst Hv. eapply wp_mono; [exact (wp_and _ _ _ _ Hst Hv)|]. by intros r s' [? [? _]].
Qed.

(** * The UDP relay *)
Definition udp_row (entry : UdpListenerEntry) : Listener := (ue_port entry, entry_target entry).
Definition udp_rows (s : UdpRuntime) : gmap nat Listener := udp_row <$> ur_heap s.
Definition udp_view (s : UdpRuntime) : gmap string Listener := view_of (ur_entries s) (udp_rows s).

(** What the view is made of, and what decides whether an operation succeeds. *)
Definition udp_inputs (s : UdpRuntime) : UdpRuntimeConfig * (nat → Z → bool) * nat :=
  (ur_config s, ur_binds s, ur_bind_calls s).

Definition udp_shape (s : UdpRuntime) : gmap string nat * gmap nat Listener * _ :=
  (ur_entries s, udp_rows s, udp_inputs s).

Lemma shape_parts s s' :
  udp_shape s' = udp_shape s → ur_entries s' = ur_entries s ∧ udp_rows s' = udp_rows s.
Proof. unfold udp_shape. generalize (udp_inputs s), (udp_inputs s'). by intros ?? [= ? ? ?]. Qed.

Lemma shape_inputs s s' : udp_shape s' = udp_shape s → udp_inputs s' = udp_inputs s.
Proof. unfold udp_shape. generalize (udp_inputs s), (udp_inputs s'). by intros ?? [= ? ? ?]. Qed.

Lemma shape_alter f e s : (∀ x, udp_row (f x) = udp_row x) → udp_shape (ur_alter_entry f e s) = udp_shape s.
Proof. intros Hf. unfold udp_shape. do 2 f_equal. by apply fmap_alter_same. Qed.

Lemma shape_metric f s : udp_shape (ur_metric f s) = udp_shape s.
Proof. done. Qed.
Lemma shape_inc c s : udp_shape (ur_inc c s) = udp_shape s.
Proof. done. Qed.
Lemma shape_add c n s : udp_shape (ur_add c n s) = udp_shape s.
Proof. done. Qed.
Lemma shape_session f x s : udp_shape (ur_alter_session f x s) = udp_shape s.
Proof. done. Qed.
Lemma shape_sessions m s : udp_shape (ur_set_sessions m s) = udp_shape s.
Proof. done. Qed.
Lemma shape_count s : udp_shape (ur_count_ref s) = udp_shape s.
Proof. done. Qed.
Lemma shape_now n s : udp_shape (ur_set_now n s) = udp_shape s.
Proof. done. Qed.

#[local] Hint Rewrite shape_metric shape_inc shape_add shape_session shape_sessions shape_count shape_now : rows.
#[local] Hint Rewrite shape_alter using done : rows.

Ltac rows := autorewrite with rows; try done.

Lemma shape_receive p e s : udp_shape (set_receive p e s) = udp_shape s.
Proof. unfold set_receive. by rows. Qed.

Lemma shape_done n e s : udp_shape (batch_done n e s) = udp_shape s.
Proof. unfold batch_done. rewrite shape_receive. by rows. Qed.

Lemma shape_close x s : udp_shape (close_session x s) = udp_shape s.
Proof. done. Qed.

Lemma shape_reply r x s : udp_shape (set_reply r x s) = udp_shape s.
Proof. done. Qed.

#[local] Hint Rewrite shape_receive shape_done shape_close shape_reply : rows.

Lemma shape_remove e c x r s : udp_shape (remove_session e c x r s) = udp_shape s.
Proof.
  unfold remove_session. destruct (ur_heap s !! e); [|done]. case_decide; [|done].
  unfold record_empty_since_if_empty. rewrite shape_alter by (intros y; by case_bool_decide).
  rows. by destruct r; cbn [record_removal]; rows.
Qed.

Lemma shape_groups batch sessions groups e s : udp_shape (send_groups batch sessions groups e s) = udp_shape s.
Proof. by destruct groups; simpl; rows. Qed.

#[local] Hint Rewrite shape_remove shape_groups : rows.

Lemma shape_end g now rest seen s : udp_shape (prepare_end g now seen rest s).2 = udp_shape s.
Proof.
  revert seen s. induction rest as [|[x|] rest IH]; intros seen s; simpl; [done| |by rewrite IH].
  destruct (ur_sessions s !! x); [|by rewrite IH]. destruct (_ || _); rewrite IH; [by rows|].
  by case_bool_decide.
Qed.

Lemma shape_finish e entry p s : udp_shape (prepare_finish e entry p s) = udp_shape s.
Proof.
  unfold prepare_finish. destruct (negb _); [|destruct (prepare_end _ _ _ _ s) as [sessions s1] eqn:He].
  - rows. induction (omap id (pr_sessions p)) as [|x l IH]; simpl; rows.
  - rows. rewrite <- (shape_end (pr_generation p) (ur_now s) (pr_sessions p) [] s). by rewrite He.
Qed.

Lemma shape_next e entry p s : udp_shape (prepare_next e entry p s) = udp_shape s.
Proof.
  unfold prepare_next. destruct (pr_batch p !! _); [|apply shape_finish].
  destruct (previous_session _ _ _); [by rows|]. by destruct (session_lookup _ _ _ _); rows.
Qed.

Lemma shape_insert e entry p x c s : udp_shape (session_insert e entry p x c s) = udp_shape s.
Proof.
  unfold session_insert. destruct (_ ≫= _); [by rows|]. destruct (negb _); [by rows|].
  destruct (ue_sessions entry !! c); rows.
Qed.

Lemma shape_expire e ttl now l s : udp_shape (foldr (expire_idle_session e ttl now) s l) = udp_shape s.
Proof.
  induction l as [|row l IH]; simpl; [done|]. unfold expire_idle_session at 1.
  destruct (ur_sessions _ !! _); [|done]. destruct (_ <? _); [by rows|done].
Qed.

Lemma shape_cleanup e ttl s : udp_shape (cleanup_tick e ttl s) = udp_shape s.
Proof.
  unfold cleanup_tick, compact_empty_sessions_after_idle. rewrite shape_alter.
  - unfold expire_idle_sessions. destruct (ur_heap s !! e); [apply shape_expire|done].
  - intros x. destruct (ue_empty_since x); [|done]. by destruct (_ <? _).
Qed.

Lemma shape_drop x s : udp_shape (drop_session x s) = udp_shape s.
Proof. unfold drop_session, SessionGuard_drop. destruct (ur_sessions s !! x); rows. Qed.

Lemma shape_unheld_but kept s : udp_shape (drop_unheld_but kept s) = udp_shape s.
Proof.
  unfold drop_unheld_but. induction (filter _ _).*1 as [|x l IH]; cbn [foldr]; [done|]. by rewrite shape_drop.
Qed.

Lemma shape_unheld s : udp_shape (drop_unheld s) = udp_shape s.
Proof. apply shape_unheld_but. Qed.

#[local] Hint Rewrite shape_finish shape_next shape_insert shape_cleanup shape_unheld : rows.

(** Events of the tasks leave the listeners' ports and targets alone. *)
Lemma udp_task_shape ev s s' : udp_task_step ev s = Some s' → udp_shape s' = udp_shape s.
Proof.
  intros Hev. destruct ev as [e batch|e|e|e|e connected|e|e|e|e sent|e|e|e|x|x r|x r|elapsed]; simpl in Hev;
    try (match type of Hev with context [receiving ?e0 s] =>
      destruct (receiving e0 s) as [[[|b|p|p|p x|p x|p x|b ss [|[x idx] gs]] entry]|]; try done end);
    try (match type of Hev with context [replying ?x0 s] =>
      destruct (replying x0 s) as [[[| |n] session]|]; try done end).
  - case_bool_decide; [|done]. injection Hev as <-. unfold received. rows. by destruct (ue_udp_batch_enabled entry); rows.
  - injection Hev as <-. rows.
  - injection Hev as <-. unfold prepare_begin.
    by destruct (us_effective_host (ue_state entry)), (us_effective_target_port (ue_state entry)); rows.
  - injection Hev as <-. rows.
  - apply bind_Some in Hev as (c & _ & Hev). injection Hev as <-. unfold create_session, SessionGuard_new.
    destruct connected; rows.
  - apply bind_Some in Hev as (c & _ & Hev). injection Hev as <-. rows.
  - apply bind_Some in Hev as (y & _ & Hev). injection Hev as <-. unfold session_spawn.
    destruct (ux_closed y); rows.
  - injection Hev as <-. unfold session_store. rows.
  - unfold group_sent in Hev. destruct sent as [u|n]; [|case_bool_decide; [|done]]; injection Hev as <-; rows.
    destruct (ur_sessions s !! x); rows.
  - destruct (ue_shutdown entry); [|done]. injection Hev as <-. rows.
  - apply bind_Some in Hev as (entry' & _ & Hev). destruct (ue_cleanup entry'); [|done]. injection Hev as <-. rows.
  - apply bind_Some in Hev as (entry' & _ & Hev). destruct (_ && _); [|done]. injection Hev as <-. rows.
  - injection Hev as <-. by unfold reply_top.
  - injection Hev as <-. unfold reply_received. destruct r; [destruct (session_current _ _ _)|]; rows.
  - injection Hev as <-. unfold reply_sent, reply_top. destruct r; rows.
  - destruct (_ <=? _); [|done]. by injection Hev as <-.
Qed.

Lemma udp_event_shape ev s s' : udp_event ev s = Some s' → udp_shape s' = udp_shape s.
Proof.
  unfold udp_event. intros (s1 & Hev & ->)%fmap_Some. rewrite shape_unheld. by eapply udp_task_shape.
Qed.

Lemma shape_sessions_closed e b s : udp_shape (UdpRuntime_close_sessions e b s) = udp_shape s.
Proof.
  unfold UdpRuntime_close_sessions. destruct (ur_heap s !! e) as [entry|]; [|done]. rows.
  induction (map_to_list (ue_sessions entry)).*2 as [|x l IH]; cbn [foldr]; [by rows|].
  rewrite <- IH. unfold close_drained. destruct b; cbn [record_removal]; by rows.
Qed.

#[local] Hint Rewrite shape_sessions_closed : rows.

Lemma shape_stop b e s : udp_shape (UdpRuntime_stop_entry b e s) = udp_shape s.
Proof. unfold UdpRuntime_stop_entry. by rows. Qed.

#[local] Hint Rewrite shape_stop : rows.

Definition udp_ok (s : UdpRuntime) : Prop := udp_inv s ∧ refs_inj (ur_entries s).

Definition udp_becomes (s : UdpRuntime) (v : gmap string Listener) : Prop :=
  refs_inj (ur_entries s) ∧ udp_view s = v.

Lemma shape_becomes s s' :
  udp_shape s' = udp_shape s → refs_inj (ur_entries s) → udp_becomes s' (udp_view s).
Proof. intros [HE Hr]%shape_parts Hi. unfold udp_becomes, udp_view. by rewrite HE, Hr. Qed.

Lemma udp_entry_target a : entry_target (udp_new_entry UdpRuntimeConfig_loopback a) = al_target a.
Proof.
  unfold entry_target, al_target. simpl. unfold UdpRuntime_entry_state_for.
  by destruct (al_host a), (al_target_port a).
Qed.

Lemma udp_fresh s : udp_inv s → ∀ j, ur_entries s !! j ≠ Some (ur_next s).
Proof. intros (I1 & I2 & _) j [entry He]%I1. apply I2 in He as [? _]. lia. Qed.

Definition udp_tracked_view (a : Allocation) (s : UdpRuntime) (r : result unit RuntimeError)
    (s' : UdpRuntime) : Prop :=
  udp_becomes s' (if is_ok r then <[al_id a := listener_of a]> (udp_view s) else udp_view s).

Lemma udp_track_view a restore s :
  udp_ok s → al_protocol a = Udp → wp (udp_track a restore) (udp_tracked_view a s) s.
Proof.
  intros [Hinv Hi] Hp. unfold udp_track, UdpRuntime_bind_entry. rewrite bool_decide_true by done. simpl.
  wp_simpl. destruct (map_err _ _); simpl; [|by apply shape_becomes].
  unfold udp_bind_socket, wp. simpl. destruct (ur_binds _ _ _); simpl; [|by destruct restore; split].
  split; simpl.
  - apply refs_inj_insert; [done|by apply udp_fresh].
  - unfold udp_view, udp_rows. simpl. rewrite fmap_insert.
    assert (udp_row (udp_new_entry (ur_config s) a) = listener_of a) as ->
      by (unfold udp_row, listener_of; by rewrite <- udp_entry_target).
    apply view_insert. by apply udp_fresh.
Qed.

Lemma udp_update_view a t s :
  udp_ok s →
  wp (UdpRuntime_update a t)
    (λ _ s', udp_becomes s' (alter (λ l, (l.1, al_target a)) (al_id a) (udp_view s))) s.
Proof.
  intros [_ Hi]. unfold UdpRuntime_update. wp_simpl. destruct (ur_entries s !! al_id a) as [e|] eqn:He; simpl.
  - set (bump := λ x, ue_set_state _ x).
    assert (∀ s0, udp_shape s0 = udp_shape s → udp_becomes (ur_inc runtime_apply_total
      (drop_unheld (UdpRuntime_close_sessions e true (ur_alter_entry bump e s0))))
      (alter (λ l, (l.1, al_target a)) (al_id a) (udp_view s))) as Hgo.
    { intros s0 [HE Hr]%shape_parts. set (s1 := ur_alter_entry bump e s0).
      assert (udp_shape (ur_inc runtime_apply_total (drop_unheld (UdpRuntime_close_sessions e true s1)))
        = udp_shape s1) as Hs by (by rows).
      apply shape_parts in Hs as [HE1 Hr1]. unfold udp_becomes, udp_view. rewrite HE1, Hr1.
      change (ur_entries s1) with (ur_entries s0). rewrite HE. split; [done|].
      assert (udp_rows s1 = alter (λ l, (l.1, al_target a)) e (udp_rows s)) as ->.
      { rewrite <- Hr. apply map_eq. intros e'. unfold udp_rows. simpl.
        rewrite lookup_fmap, !lookup_alter, !lookup_fmap. case_decide; [subst e'|done].
        destruct (ur_heap s0 !! e); simpl; [|done]. do 2 f_equal. by rewrite <- udp_entry_target. }
      by apply view_alter. }
    case_bool_decide; wp_simpl; apply Hgo; done.
  - split; [done|]. symmetry. apply map_eq. intros j. rewrite lookup_alter. case_decide; [subst j|done].
    unfold udp_view, view_of. by rewrite lookup_omap, He.
Qed.

Lemma udp_delete_view i t s :
  udp_ok s → wp (UdpRuntime_delete i t) (λ _ s', udp_becomes s' (delete i (udp_view s))) s.
Proof.
  intros [_ Hi]. unfold UdpRuntime_delete. wp_simpl. destruct (ur_entries s !! i) as [e|] eqn:He; wp_simpl.
  - set (s1 := ur_set_entries _ s). assert (udp_shape (drop_unheld (UdpRuntime_stop_entry true e s1)) = udp_shape s1)
      as [HE Hr]%shape_parts by (by rows).
    unfold udp_becomes, udp_view. rewrite HE, Hr. simpl. split; [|apply view_delete].
    eapply refs_inj_subseteq; [exact Hi|apply delete_subseteq].
  - split; [done|]. symmetry. apply delete_id. unfold udp_view, view_of. by rewrite lookup_omap, He.
Qed.

Lemma udp_view_ok {A} (m : M UdpRuntime RuntimeError A) (v : result A RuntimeError → gmap string Listener) s :
  wp m (λ _ s', udp_inv s') s → wp m (λ r s', udp_becomes s' (v r)) s →
  wp m (λ _ s', udp_ok s') s.
Proof.
  intros Hst Hv. eapply wp_mono; [exact (wp_and _ _ _ _ Hst Hv)|]. by intros r s' [? [? _]].
Qed.
