(* ===== verification/Relays.v ===== *)
(** The relays of runtime/tcp.rs and runtime/udp.rs keep the laws that runtime/real.rs
    relies on, and the runtime put together from them with its configuration. *)
From stdpp Require Import base gmap strings list.
From Stdlib Require Import ZArith Lia.
From S2P Require Import Prelude RustStd Model Facade Metrics Tcp TcpSpec UdpModel Udp UdpSpec UdpSteps Real.
From S2P Require Import Serving RealServing Views.
Open Scope Z_scope.

(** * The TCP relay *)
Definition tcp_tracks (s : TcpRuntime) (id : string) : Prop := is_Some (tr_entries s !! id).

Lemma tcp_insert_tracks s s1 i e :
  tr_entries s1 = tr_entries s →
  ∀ id, tcp_tracks (tr_inc runtime_apply_total (tr_set_entries (<[i := e]> (tr_entries s1)) s1)) id ↔
    tcp_tracks s id ∨ (true = true ∧ id = i).
Proof. intros HE id. unfold tcp_tracks. simpl. rewrite HE, is_Some_insert. naive_solver. Qed.

Lemma tcp_close_entries e s : tr_entries (TcpRuntime_close_sessions e s) = tr_entries s.
Proof. unfold TcpRuntime_close_sessions. by destruct (tr_heap s !! e). Qed.

#[export] Program Instance TcpRuntime_laws : ListenerLaws Tcp TcpRuntime := {|
  ls_ok := tcp_ok;
  ls_tracks := tcp_tracks;
|}.
Next Obligation.
  intros a t s Hok Hp. eapply wp_mono; [apply wp_and; [by eapply tcp_view_ok; [apply create_structure, Hok|apply tcp_create_view]|]|by intros r s' [? ?]; split; [|exact H0]].
  unfold rt_create, TcpRuntime_facade, TcpRuntime_create, TcpRuntime_bind_entry. rewrite bool_decide_true by done. simpl.
  wp_simpl. destruct (TcpRuntime_bind_addr _ _); [|by simpl; naive_solver].
  eapply wp_mono; [by apply bind_listener_spec, Hok|]. intros [e|err] s1 (_ & HE & _); unfold insert_entry; wp_simpl.
  - by apply tcp_insert_tracks.
  - intros id. unfold tcp_tracks. rewrite HE. naive_solver.
Qed.
Next Obligation.
  intros a t s Hok Hp. eapply wp_mono; [apply wp_and; [by eapply tcp_view_ok; [apply restore_structure, Hok|apply tcp_restore_view]|]|by intros r s' [? ?]; split; [|exact H0]].
  unfold rt_restore, TcpRuntime_facade, TcpRuntime_restore. rewrite bool_decide_true by done. simpl.
  wp_simpl. destruct (TcpRuntime_bind_addr _ _); simpl; [|naive_solver]. wp_simpl.
  eapply wp_mono; [by apply bind_listener_spec, Hok|]. intros [e|err] s1 (_ & HE & _); unfold insert_entry; wp_simpl.
  - by apply tcp_insert_tracks.
  - intros id. unfold tcp_tracks. rewrite HE. naive_solver.
Qed.
Next Obligation.
  intros a t s Hok. eapply wp_mono; [apply wp_and; [by eapply (tcp_view_ok _ (λ _, _)); [apply update_structure, Hok|apply tcp_update_view]|]|by intros r s' [? ?]; split; [|exact H0]].
  unfold rt_update, TcpRuntime_facade, TcpRuntime_update. wp_simpl. unfold tcp_tracks.
  destruct (tr_entries s !! al_id a) as [e|] eqn:He; simpl.
  - case_bool_decide; wp_simpl; rewrite tcp_close_entries; (split; [done|]; split; [by eexists|done]).
  - split; [done|]. split; [done|by intros [? ?]].
Qed.
Next Obligation.
  intros i t s Hok. eapply wp_mono; [apply wp_and; [by eapply (tcp_view_ok _ (λ _, _)); [apply delete_structure, Hok|apply tcp_delete_view]|]|by intros r s' [? ?]; split; [|exact H0]].
  unfold rt_delete, TcpRuntime_facade, TcpRuntime_delete. wp_simpl. unfold tcp_tracks. destruct (tr_entries s !! i) as [e|] eqn:He; wp_simpl.
  - split; [done|]. intros id.
    unfold TcpRuntime_stop_entry. rewrite tcp_close_entries. apply is_Some_delete.
  - split; [done|]. intros id. split; [|by intros [? _]]. intros Hs. split; [done|].
    intros ->. rewrite He in Hs. by destruct Hs.
Qed.
Next Obligation.
  intros i s Hok. unfold rt_snapshot. simpl. unfold TcpRuntime_snapshot. apply wp_gets. split; [done|].
  eexists. split; [reflexivity|]. unfold tcp_tracks. destruct (tr_entries s !! i) as [e|] eqn:He; simpl.
  - pose proof (st_entries _ _ _ _ (proj1 Hok) _ _ He) as [tbl Htbl]. rewrite tables_lookup in Htbl.
    destruct (tr_heap s !! e); simpl; [split; by eexists|done].
  - split; by intros [? ?].
Qed.
Next Obligation.
  intros s Hok. unfold rt_snapshot_listener_metrics. simpl. unfold TcpRuntime_snapshot_listener_metrics.
  apply wp_gets. split; [done|]. eexists. split; [reflexivity|]. apply Forall_fmap, Forall_true. by intros x.
Qed.

(** * The UDP relay *)
Definition udp_tracks (s : UdpRuntime) (id : string) : Prop := is_Some (ur_entries s !! id).

Lemma udp_track_tracks a r s :
  al_protocol a = Udp →
  wp (udp_track a r) (λ o s', ∀ id, udp_tracks s' id ↔ udp_tracks s id ∨ (is_ok o = true ∧ id = al_id a)) s.
Proof.
  intros Hp. unfold udp_track, UdpRuntime_bind_entry. rewrite bool_decide_true by done. simpl.
  wp_simpl. destruct (map_err _ _); simpl; [|naive_solver].
  unfold udp_bind_socket, wp. simpl. destruct (ur_binds _ _ _); simpl.
  - intros id. unfold udp_tracks. simpl. rewrite is_Some_insert. naive_solver.
  - destruct r; simpl; naive_solver.
Qed.

Lemma udp_update_entries e b f s0 :
  ur_entries (drop_unheld (UdpRuntime_close_sessions e b (ur_alter_entry f e s0))) = ur_entries s0.
Proof.
  destruct (drop_unheld_spec (UdpRuntime_close_sessions e b (ur_alter_entry f e s0))) as (-> & _).
  set (s1 := ur_alter_entry f e s0).
  destruct (ur_heap s1 !! e) as [entry|] eqn:He.
  - by destruct (close_sessions_state e b s1 entry He) as (-> & _).
  - unfold UdpRuntime_close_sessions. by rewrite He.
Qed.

#[export] Program Instance UdpRuntime_laws : ListenerLaws Udp UdpRuntime := {|
  ls_ok := udp_ok;
  ls_tracks := udp_tracks;
|}.
Next Obligation. intros a t s Hok Hp. apply wp_and; [by eapply udp_view_ok; [apply track_inv, Hok|apply udp_track_view]|by apply udp_track_tracks]. Qed.
Next Obligation. intros a t s Hok Hp. apply wp_and; [by eapply udp_view_ok; [apply track_inv, Hok|apply udp_track_view]|by apply udp_track_tracks]. Qed.
Next Obligation.
  intros a t s Hok. eapply wp_mono; [apply wp_and; [by eapply (udp_view_ok _ (λ _, _)); [apply update_inv, Hok|apply udp_update_view]|]|by intros r s' [? ?]; split; [|exact H0]].
  unfold rt_update, UdpRuntime_facade, UdpRuntime_update. wp_simpl. unfold udp_tracks.
  destruct (ur_entries s !! al_id a) as [e|] eqn:He; simpl.
  - case_bool_decide; wp_simpl; rewrite udp_update_entries; simpl; (split; [done|]; split; [by eexists|done]).
  - split; [done|]. split; [done|by intros [? ?]].
Qed.
Next Obligation.
  intros i t s Hok. eapply wp_mono; [apply wp_and; [by eapply (udp_view_ok _ (λ _, _)); [apply delete_inv, Hok|apply udp_delete_view]|]|by intros r s' [? ?]; split; [|exact H0]].
  unfold rt_delete, UdpRuntime_facade, UdpRuntime_delete. wp_simpl. unfold udp_tracks. destruct (ur_entries s !! i) as [e|] eqn:He; wp_simpl.
  - split; [done|]. intros id. unfold UdpRuntime_stop_entry. rewrite udp_update_entries. apply is_Some_delete.
  - split; [done|]. intros id. split; [|by intros [? _]]. intros Hs. split; [done|].
    intros ->. rewrite He in Hs. by destruct Hs.
Qed.
Next Obligation.
  intros i s Hok. unfold rt_snapshot. simpl. unfold UdpRuntime_snapshot. apply wp_gets. split; [done|].
  eexists. split; [reflexivity|]. unfold udp_tracks. destruct (ur_entries s !! i) as [e|] eqn:He; simpl.
  - destruct Hok as [(I1 & _) _]. destruct (I1 _ _ He) as [entry ->]. simpl. split; by eexists.
  - split; by intros [? ?].
Qed.
Next Obligation.
  intros s Hok. unfold rt_snapshot_listener_metrics. simpl. unfold UdpRuntime_snapshot_listener_metrics.
  apply wp_gets. split; [done|]. eexists. split; [reflexivity|]. apply Forall_fmap, Forall_true. by intros x.
Qed.

(** * Both are maps of listeners *)
#[export] Program Instance TcpRuntime_view : ListenerView Tcp TcpRuntime := {| lv_view := tcp_view |}.
Next Obligation.
  intros a t s Hok Hp. eapply wp_mono; [by apply tcp_create_view|]. by intros r s' [_ ?].
Qed.
Next Obligation.
  intros a t s Hok Hp. eapply wp_mono; [by apply tcp_restore_view|]. by intros r s' [_ ?].
Qed.
Next Obligation. intros a t s Hok. eapply wp_mono; [by apply tcp_update_view|]. by intros r s' [_ ?]. Qed.
Next Obligation. intros i t s Hok. eapply wp_mono; [by apply tcp_delete_view|]. by intros r s' [_ ?]. Qed.

#[export] Program Instance UdpRuntime_view : ListenerView Udp UdpRuntime := {| lv_view := udp_view |}.
Next Obligation.
  intros a t s Hok Hp. eapply wp_mono; [by apply udp_track_view|]. by intros r s' [_ ?].
Qed.
Next Obligation.
  intros a t s Hok Hp. eapply wp_mono; [by apply udp_track_view|]. by intros r s' [_ ?].
Qed.
Next Obligation. intros a t s Hok. eapply wp_mono; [by apply udp_update_view|]. by intros r s' [_ ?]. Qed.
Next Obligation. intros i t s Hok. eapply wp_mono; [by apply udp_delete_view|]. by intros r s' [_ ?]. Qed.

(** * The runtime of the program *)
Record RealRuntimeConfig : Type := {
  rc_bind_host : string;
  rc_udp_session_ttl : Z;
  rc_udp_max_sessions : Z;
  rc_udp_batch_enabled : bool;
  rc_tcp_splice_enabled : bool;
  rc_force_tcp_copy_fallback : bool;
}.

Definition RealRuntimeConfig_with_bind_host (bind_host : string) : RealRuntimeConfig :=
  {| rc_bind_host := bind_host; rc_udp_session_ttl := 60000 * ns_per_ms;
     rc_udp_max_sessions := 65536; rc_udp_batch_enabled := true;       (* on Linux *)
     rc_tcp_splice_enabled := false; rc_force_tcp_copy_fallback := false |}.

Definition RealRuntimeConfig_loopback : RealRuntimeConfig :=
  RealRuntimeConfig_with_bind_host "127.0.0.1".

Definition with_udp_session_ttl (ttl : Z) (c : RealRuntimeConfig) : RealRuntimeConfig :=
  {| rc_bind_host := rc_bind_host c; rc_udp_session_ttl := ttl;
     rc_udp_max_sessions := rc_udp_max_sessions c; rc_udp_batch_enabled := rc_udp_batch_enabled c;
     rc_tcp_splice_enabled := rc_tcp_splice_enabled c;
     rc_force_tcp_copy_fallback := rc_force_tcp_copy_fallback c |}.

Definition with_udp_max_sessions (max_sessions : Z) (c : RealRuntimeConfig) : RealRuntimeConfig :=
  {| rc_bind_host := rc_bind_host c; rc_udp_session_ttl := rc_udp_session_ttl c;
     rc_udp_max_sessions := max_sessions; rc_udp_batch_enabled := rc_udp_batch_enabled c;
     rc_tcp_splice_enabled := rc_tcp_splice_enabled c;
     rc_force_tcp_copy_fallback := rc_force_tcp_copy_fallback c |}.

Definition with_udp_batch_enabled (enabled : bool) (c : RealRuntimeConfig) : RealRuntimeConfig :=
  {| rc_bind_host := rc_bind_host c; rc_udp_session_ttl := rc_udp_session_ttl c;
     rc_udp_max_sessions := rc_udp_max_sessions c; rc_udp_batch_enabled := enabled;
     rc_tcp_splice_enabled := rc_tcp_splice_enabled c;
     rc_force_tcp_copy_fallback := rc_force_tcp_copy_fallback c |}.

Definition with_tcp_splice_enabled (enabled : bool) (c : RealRuntimeConfig) : RealRuntimeConfig :=
  {| rc_bind_host := rc_bind_host c; rc_udp_session_ttl := rc_udp_session_ttl c;
     rc_udp_max_sessions := rc_udp_max_sessions c; rc_udp_batch_enabled := rc_udp_batch_enabled c;
     rc_tcp_splice_enabled := enabled;
     rc_force_tcp_copy_fallback := rc_force_tcp_copy_fallback c |}.

Definition with_force_tcp_copy_fallback (force : bool) (c : RealRuntimeConfig) : RealRuntimeConfig :=
  {| rc_bind_host := rc_bind_host c; rc_udp_session_ttl := rc_udp_session_ttl c;
     rc_udp_max_sessions := rc_udp_max_sessions c; rc_udp_batch_enabled := rc_udp_batch_enabled c;
     rc_tcp_splice_enabled := rc_tcp_splice_enabled c; rc_force_tcp_copy_fallback := force |}.

(** What the relays are configured with. *)
Definition tcp_config_of (c : RealRuntimeConfig) : TcpRuntimeConfig :=
  TcpRuntimeConfig_with_force_tcp_copy_fallback (rc_force_tcp_copy_fallback c)
    (TcpRuntimeConfig_with_tcp_splice_enabled (rc_tcp_splice_enabled c)
      (TcpRuntimeConfig_with_bind_host (rc_bind_host c))).

Definition udp_config_of (c : RealRuntimeConfig) : UdpRuntimeConfig :=
  UdpRuntimeConfig_with_udp_batch_enabled (rc_udp_batch_enabled c)
    (UdpRuntimeConfig_with_udp_max_sessions (rc_udp_max_sessions c)
      (UdpRuntimeConfig_with_session_ttl (rc_udp_session_ttl c)
        (UdpRuntimeConfig_with_bind_host (rc_bind_host c)))).

(** The relays share the [Metrics]; each of them models its own share of the counters. *)
Definition RealRuntime_new (c : RealRuntimeConfig) (metrics : Metrics) (now : Z)
    (tcp_binds udp_binds : nat → Z → bool) : RealRuntime TcpRuntime UdpRuntime :=
  {| rr_tcp := TcpRuntime_new (tcp_config_of c) metrics tcp_binds;
     rr_udp := UdpRuntime_new (udp_config_of c) metrics now udp_binds;
     rr_protocols := ∅ |}.

Lemma RealRuntime_new_ok c metrics now tb ub : real_ok (RealRuntime_new c metrics now tb ub).
Proof.
  split.
  - split; [apply initial_structure; repeat eexists|done].
  - split; [apply udp_initial_inv; repeat eexists|done].
Qed.

Lemma RealRuntime_new_tracks c metrics now tb ub id : ¬ real_tracks (RealRuntime_new c metrics now tb ub) id.
Proof. intros Ht. unfold real_tracks in Ht. simpl in Ht. by rewrite lookup_empty in Ht. Qed.
