(* ===== verification/RelaysWitness.v ===== *)
(** The runtime over the two relays at concrete inputs. *)
From stdpp Require Import base gmap strings list sorting.
From Stdlib Require Import ZArith Lia.
From S2P Require Import Prelude RustStd Model Facade Metrics Tcp TcpSpec UdpModel Udp UdpSpec Real Relays.
Open Scope Z_scope.

Definition both_allocation : Allocation :=
  {| al_id := "b"; al_protocol := Both; al_port := 5001; al_target_port := Some 80;
     al_host := Some "10.0.0.1"; al_created_at_ms := 0; al_updated_at_ms := 0 |}.

Definition relays (udp_binds : bool) : RealRuntime TcpRuntime UdpRuntime :=
  RealRuntime_new RealRuntimeConfig_loopback Metrics_default 0 (λ _ _, true) (λ _ _, udp_binds).

(** The UDP port is taken: the TCP listener is given up again. *)
Lemma both_protocols_all_or_nothing_witness :
  is_ok (rt_create both_allocation 0 (relays false)).1 = false ∧
  is_ok (rt_create both_allocation 0 (relays true)).1 = true ∧
  wp (rt_create both_allocation 0)
    (λ r s',
       match r with
       | Ok _ => ls_tracks (rr_tcp s') "b" ∧ ls_tracks (rr_udp s') "b"
       | Err _ => rr_protocols s' = rr_protocols (relays false) ∧
           (∀ id, ls_tracks (rr_tcp s') id ↔ ls_tracks (rr_tcp (relays false)) id) ∧
           (∀ id, ls_tracks (rr_udp s') id ↔ ls_tracks (rr_udp (relays false)) id)
       end) (relays false).
Proof.
  split; [by vm_compute|]. split; [by vm_compute|].
  apply (both_protocols_all_or_nothing false both_allocation 0 (relays false));
    [apply RealRuntime_new_ok|reflexivity|].
  intros Ht. destruct Ht as [x Hx]. discriminate Hx.
Defined.

Definition relays_serving : RealRuntime TcpRuntime UdpRuntime :=
  (rt_create both_allocation 0 (relays true)).2.

Lemma listener_rows_sorted_witness :
  (default [] (result_ok (rt_snapshot_listener_metrics relays_serving).1)) =
    [{| lm_port := 5001; lm_protocol := Tcp; lm_connections_current := 0; lm_rx_bytes_total := 0; lm_tx_bytes_total := 0 |};
     {| lm_port := 5001; lm_protocol := Udp; lm_connections_current := 0; lm_rx_bytes_total := 0; lm_tx_bytes_total := 0 |}] ∧
  wp rt_snapshot_listener_metrics
    (λ r s', s' = relays_serving ∧ ∃ rows tcp udp, r = Ok rows ∧
       (rt_snapshot_listener_metrics (rr_tcp relays_serving)).1 = Ok tcp ∧
       (rt_snapshot_listener_metrics (rr_udp relays_serving)).1 = Ok udp ∧
       rows ≡ₚ tcp ++ udp ∧ Sorted.Sorted row_le rows ∧
       Forall (λ row, lm_protocol row ≠ Both) rows) relays_serving.
Proof.
  split; [by vm_compute|]. apply (listener_rows_sorted relays_serving).
  pose proof (real_create_spec both_allocation 0 (relays true) (RealRuntime_new_ok _ _ _ _ _)) as Hw.
  exact (proj1 Hw).
Defined.
