(* ===== verification/TcpSplice.v ===== *)
(** copy_splice of runtime/tcp.rs: both directions of a session copied by splice(2).

    The contexts that copy are tokio_splice2's: whether one can be prepared, what its nth
    poll answers and how many bytes it has written are parameters. *)
From stdpp Require Import base strings list.
From Stdlib Require Import ZArith Lia.
From S2P Require Import Prelude RustStd Model Metrics Tcp.
Open Scope Z_scope.

(** What a direction ends with. *)
Abbreviation SpliceEnd := (result unit TcpIoError).

(** The two results the closure of [poll_fn] keeps, and how often it has polled each
    direction. *)
Record SplicePoll : Type := {
  sp_client_result : option SpliceEnd;
  sp_upstream_result : option SpliceEnd;
  sp_client_polls : nat;
  sp_upstream_polls : nat;
}.

Definition SplicePoll_new : SplicePoll :=
  {| sp_client_result := None; sp_upstream_result := None; sp_client_polls := 0; sp_upstream_polls := 0 |}.

Section splice.
  (** [poll_execute] of the two directions: the answer to the nth poll, [None] when pending. *)
  Context (client_to_upstream upstream_to_client : nat → option SpliceEnd).

(** The closure: a direction without a result is polled; when both have one, they are
    taken, else put back. *)
Definition splice_poll (p : SplicePoll) : option (SpliceEnd * SpliceEnd) * SplicePoll :=
  let p1 :=
    match sp_client_result p with
    | None => {| sp_client_result := client_to_upstream (sp_client_polls p);
                 sp_upstream_result := sp_upstream_result p;
                 sp_client_polls := S (sp_client_polls p); sp_upstream_polls := sp_upstream_polls p |}
    | Some _ => p
    end in
  let p2 :=
    match sp_upstream_result p1 with
    | None => {| sp_client_result := sp_client_result p1;
                 sp_upstream_result := upstream_to_client (sp_upstream_polls p1);
                 sp_client_polls := sp_client_polls p1; sp_upstream_polls := S (sp_upstream_polls p1) |}
    | Some _ => p1
    end in
  match sp_client_result p2, sp_upstream_result p2 with
  | Some client_result, Some upstream_result =>
      (Some (client_result, upstream_result),
       {| sp_client_result := None; sp_upstream_result := None;
          sp_client_polls := sp_client_polls p2; sp_upstream_polls := sp_upstream_polls p2 |})
  | _, _ => (None, p2)
  end.

(** The task is woken [n] times at most. *)
Fixpoint splice_polls (n : nat) (p : SplicePoll) : option (SpliceEnd * SpliceEnd) * SplicePoll :=
  match n with
  | O => (None, p)
  | S n' => match splice_poll p with
            | (Some r, p') => (Some r, p')
            | (None, p') => splice_polls n' p'
            end
  end.

Definition splice_error (r : SpliceEnd) : option TcpIoError :=
  match r with Ok _ => None | Err error => Some error end.

(** [copy_splice] after [n] wake-ups; [None] while it is pending. *)
Definition copy_splice (prepared : bool * bool) (written : Z * Z) (n : nat) : option SpliceOutcome :=
  if prepared.1 && prepared.2 then
    '(client_result, upstream_result) ← (splice_polls n SplicePoll_new).1;
    Some (SpliceResult written.1 written.2 (splice_error client_result) (splice_error upstream_result))
  else Some SpliceUnsupported.

(** * The first result of each direction *)

(** The [k]th poll is the first that is not pending. *)
Definition ready_at (answers : nat → option SpliceEnd) (k : nat) (r : SpliceEnd) : Prop :=
  answers k = Some r ∧ ∀ j, (j < k)%nat → answers j = None.

(** A direction that has been offered [m] polls. *)
Definition offered (k m : nat) (r : SpliceEnd) : option SpliceEnd :=
  if decide (k < m)%nat then Some r else None.

Definition after_polls (kc ku m : nat) (rc ru : SpliceEnd) : SplicePoll :=
  {| sp_client_result := offered kc m rc; sp_upstream_result := offered ku m ru;
     sp_client_polls := Nat.min m (S kc); sp_upstream_polls := Nat.min m (S ku) |}.

Context (kc ku : nat) (rc ru : SpliceEnd).
Context (Hc : ready_at client_to_upstream kc rc) (Hu : ready_at upstream_to_client ku ru).

(** One direction's turn: its result and its polls. *)
Definition direction (answers : nat → option SpliceEnd) (r : option SpliceEnd) (polls : nat)
    : option SpliceEnd * nat :=
  match r with None => (answers polls, S polls) | Some _ => (r, polls) end.

Lemma splice_poll_directions p :
  splice_poll p =
  let c := direction client_to_upstream (sp_client_result p) (sp_client_polls p) in
  let u := direction upstream_to_client (sp_upstream_result p) (sp_upstream_polls p) in
  match c.1, u.1 with
  | Some a, Some b => (Some (a, b), {| sp_client_result := None; sp_upstream_result := None;
                                       sp_client_polls := c.2; sp_upstream_polls := u.2 |})
  | _, _ => (None, {| sp_client_result := c.1; sp_upstream_result := u.1;
                      sp_client_polls := c.2; sp_upstream_polls := u.2 |})
  end.
Proof. destruct p as [[a|] [b|] nc nu]; unfold splice_poll, direction; simpl; repeat case_match; done. Qed.

Lemma direction_offered answers k r m :
  ready_at answers k r →
  direction answers (offered k m r) (Nat.min m (S k)) = (offered k (S m) r, Nat.min (S m) (S k)).
Proof.
  intros [Hk Hj]. unfold direction, offered. destruct (decide (k < m)%nat).
  - rewrite decide_True by lia. f_equal. lia.
  - rewrite Nat.min_l by lia. f_equal; [|lia].
    case_decide; [by replace m with k by lia|apply Hj; lia].
Qed.

Lemma splice_poll_after m :
  splice_poll (after_polls kc ku m rc ru) =
  if decide (Nat.max kc ku < S m)%nat
  then (Some (rc, ru), {| sp_client_result := None; sp_upstream_result := None;
                          sp_client_polls := S kc; sp_upstream_polls := S ku |})
  else (None, after_polls kc ku (S m) rc ru).
Proof.
  rewrite splice_poll_directions. unfold after_polls. cbn [sp_client_result sp_upstream_result sp_client_polls sp_upstream_polls].
  rewrite (direction_offered _ _ _ m Hc), (direction_offered _ _ _ m Hu). cbn [fst snd]. unfold offered.
  repeat case_decide; try lia; try done. f_equal. f_equal; lia.
Qed.

Lemma splice_polls_after n m :
  (m ≤ Nat.max kc ku)%nat →
  splice_polls n (after_polls kc ku m rc ru) =
  if decide (Nat.max kc ku < m + n)%nat
  then (Some (rc, ru), {| sp_client_result := None; sp_upstream_result := None;
                          sp_client_polls := S kc; sp_upstream_polls := S ku |})
  else (None, after_polls kc ku (m + n) rc ru).
Proof.
  revert m. induction n as [|n IH]; intros m Hm; simpl.
  - rewrite decide_False by lia. by rewrite Nat.add_0_r.
  - rewrite splice_poll_after. destruct (decide (Nat.max kc ku < S m)%nat) as [Hlt|Hge].
    + by rewrite decide_True by lia.
    + rewrite IH by lia. by replace (S m + n)%nat with (m + S n)%nat by lia.
Qed.

(** Copying ends as soon as both directions have, with the first result of each: a
    direction that has ended is not polled again while the other drains. *)
Theorem splice_ends n :
  splice_polls n SplicePoll_new =
  if decide (Nat.max kc ku < n)%nat
  then (Some (rc, ru), {| sp_client_result := None; sp_upstream_result := None;
                          sp_client_polls := S kc; sp_upstream_polls := S ku |})
  else (None, after_polls kc ku n rc ru).
Proof. exact (splice_polls_after n 0 ltac:(lia)). Qed.

(** So does [copy_splice], with the bytes of both directions and the first error of each;
    what cannot be prepared falls back at once. *)
Theorem copy_splice_result written n :
  copy_splice (true, true) written n =
    (if decide (Nat.max kc ku < n)%nat
     then Some (SpliceResult written.1 written.2 (splice_error rc) (splice_error ru)) else None) ∧
  ∀ prepared, prepared ≠ (true, true) → copy_splice prepared written n = Some SpliceUnsupported.
Proof.
  split.
  - unfold copy_splice. simpl. rewrite splice_ends. by case_decide.
  - by intros [[] []].
Qed.
End splice.

(** A direction ready at its first poll, the other at its third. *)
Example splice_example :
  let client (n : nat) := if decide (n < 1)%nat then Some (Ok tt) else None in
  let upstream (n : nat) := if decide (n < 2)%nat then None else Some (Err {| tie_kind := BrokenPipe; tie_message := "pipe"%string |}) in
  copy_splice client upstream (true, true) (10, 20) 2 = None ∧
  copy_splice client upstream (true, true) (10, 20) 3 =
    Some (SpliceResult 10 20 None (Some {| tie_kind := BrokenPipe; tie_message := "pipe"%string |})).
Proof. by split; vm_compute. Qed.
