(* ===== verification/TcpFine.v ===== *)
(** The operations of the TCP relay's facade (runtime/tcp.rs) at the grain of the code: one
    step from one lock, send or await to the next, and the relay's tasks run in between.

    Tcp.v takes each operation as one step. Here an operation in flight is the place where
    it waits, and the service's mutation lock lets one run at a time. An increment of a
    counter, which holds no lock, belongs to the step before it; the handle of a new accept
    task is stored with the bind, as nobody else knows the entry yet. *)
From stdpp Require Import base gmap strings list relations.
From Stdlib Require Import ZArith Lia.
From S2P Require Import Prelude RustStd Model Facade Metrics Tcp TcpSpec.
Open Scope Z_scope.

(** * Where an operation waits *)

(** What [close_sessions] returns to: [update], or [stop_entry] with the listeners that
    [shutdown_all] has left. *)
Inductive TcpAfter : Type :=
| AfterUpdate
| AfterStop (rest : list nat).

Inductive TcpOp : Type :=
| OpCall (q : TcpRequest)
| OpInsert (id : string) (e : nat)           (* create, restore: to lock [entries] *)
| OpSetState (e : nat) (x : TcpEntryState)   (* update: to lock the listener's state *)
| OpStop (e : nat) (rest : list nat)         (* stop_entry *)
| OpTakeTask (e : nat) (rest : list nat)     (* to lock [accept_task] *)
| OpAwaitTask (e : nat) (rest : list nat)    (* the aborted accept task *)
| OpDrain (e : nat) (k : TcpAfter)           (* close_sessions: to lock [sessions] *)
| OpSend (ts : list nat) (k : TcpAfter).     (* to send to the drained sessions *)

Inductive TcpNext : Type :=
| Returned (r : result unit RuntimeError)
| Waiting (op : TcpOp).

(** * The parts of [stop_entry] *)
Definition te_send_shutdown (e : TcpListenerEntry) : TcpListenerEntry :=
  {| te_port := te_port e; te_state := te_state e; te_metrics := te_metrics e;
     te_shutdown := true; te_accept := te_accept e; te_accept_task := te_accept_task e;
     te_sessions := te_sessions e; te_next_session_id := te_next_session_id e;
     te_splice_enabled := te_splice_enabled e; te_force_copy_fallback := te_force_copy_fallback e |}.

Definition te_take_task (e : TcpListenerEntry) : TcpListenerEntry :=
  {| te_port := te_port e; te_state := te_state e; te_metrics := te_metrics e;
     te_shutdown := te_shutdown e; te_accept := te_accept e; te_accept_task := false;
     te_sessions := te_sessions e; te_next_session_id := te_next_session_id e;
     te_splice_enabled := te_splice_enabled e; te_force_copy_fallback := te_force_copy_fallback e |}.

(** * Steps *)
Definition tcp_bound (id : string) (r : result nat RuntimeError * TcpRuntime) : TcpNext * TcpRuntime :=
  match r with
  | (Ok e, s) => (Waiting (OpInsert id e), s)
  | (Err error, s) => (Returned (Err error), s)
  end.

(** The next listener of [shutdown_all]. *)
Definition tcp_stop_next (es : list nat) : TcpNext :=
  match es with
  | [] => Returned (Ok tt)
  | e :: rest => Waiting (OpStop e rest)
  end.

Definition tcp_call (q : TcpRequest) (s : TcpRuntime) : TcpNext * TcpRuntime :=
  match q with
  | TcpCreate a =>
      if negb (bool_decide (al_protocol a = Tcp)) then (Returned (Ok tt), s)
      else tcp_bound (al_id a) (TcpRuntime_bind_entry a s)
  | TcpRestore a =>
      if negb (bool_decide (al_protocol a = Tcp)) then (Returned (Ok tt), s)
      else tcp_bound (al_id a)
        ((let! config := gets tr_config in
          let! _addr := of_result (map_err (λ _, RuntimeRestoreFailed)
                                     (TcpRuntime_bind_addr config (al_port a))) in
          bind_listener a [restore_failures_total; bind_fail_total] RuntimeRestoreFailed) s)
  | TcpUpdate a =>
      match tr_entries s !! al_id a with
      | None => (Returned (Err RuntimeUpdateFailed), s)
      | Some e =>
          let new_state := TcpRuntime_entry_state_for a in
          (Waiting (OpSetState e new_state),
           if bool_decide (ts_runtime_status new_state = RejectingNoHost)
           then tr_inc rejected_no_host_total s else s)
      end
  | TcpDelete id =>
      match tr_entries s !! id with
      | None => (Returned (Ok tt), s)
      | Some e => (Waiting (OpStop e []), tr_set_entries (delete id (tr_entries s)) s)
      end
  | TcpShutdown => (tcp_stop_next (map_to_list (tr_entries s)).*2, tr_set_entries ∅ s)
  end.

Definition tcp_op_step (op : TcpOp) (s : TcpRuntime) : TcpNext * TcpRuntime :=
  match op with
  | OpCall q => tcp_call q s
  | OpInsert id e =>
      (Returned (Ok tt), tr_inc runtime_apply_total (tr_set_entries (<[id := e]> (tr_entries s)) s))
  | OpSetState e x => (Waiting (OpDrain e AfterUpdate), tr_alter_entry (te_set_state x) e s)
  | OpStop e rest => (Waiting (OpTakeTask e rest), tr_alter_entry te_send_shutdown e s)
  | OpTakeTask e rest =>
      match te_accept_task <$> tr_heap s !! e with
      | Some true => (Waiting (OpAwaitTask e rest), tr_alter_entry te_take_task e s)
      | _ => (Waiting (OpDrain e (AfterStop rest)), s)
      end
  | OpAwaitTask e rest =>
      (Waiting (OpDrain e (AfterStop rest)), tr_alter_entry (te_set_accept None) e s)
  | OpDrain e k =>
      match tr_heap s !! e with
      | Some entry =>
          (Waiting (OpSend (map_to_list (te_sessions entry)).*2 k), tr_alter_entry (te_set_sessions ∅) e s)
      | None => (Waiting (OpSend [] k), s)
      end
  | OpSend (t :: ts) k => (Waiting (OpSend ts k), tr_alter_task ss_signal t s)
  | OpSend [] AfterUpdate => (Returned (Ok tt), tr_inc runtime_apply_total s)
  | OpSend [] (AfterStop rest) => (tcp_stop_next rest, s)
  end.

(** An operation starts when the one before has returned; its steps and the events of the
    tasks interleave. *)
Inductive fine_step : TcpRuntime * TcpNext → TcpRuntime * TcpNext → Prop :=
| fine_call q r s : fine_step (s, Returned r) (s, Waiting (OpCall q))
| fine_op op s : fine_step (s, Waiting op) ((tcp_op_step op s).2, (tcp_op_step op s).1)
| fine_event ev s s' c : tcp_event ev s = Some s' → fine_step (s, c) (s', c).

(** Undisturbed, an operation's steps one after the other. *)
Fixpoint tcp_op_run (n : nat) (c : TcpNext) (s : TcpRuntime) : TcpNext * TcpRuntime :=
  match n, c with
  | S n', Waiting op => let '(c', s') := tcp_op_step op s in tcp_op_run n' c' s'
  | _, _ => (c, s)
  end.
