(* ===== verification/TcpFineSpec.v ===== *)
(** The TCP relay under the finest interleaving: what its operations do when nothing comes
    in between is what Tcp.v says, and what is proved of the relay's tasks in TcpSpec.v,
    TcpAccount.v and TcpQuiet.v holds when they run in the middle of an operation. *)
From stdpp Require Import base gmap strings list relations fin_maps.
From Stdlib Require Import ZArith Lia.
From S2P Require Import Prelude RustStd Model Facade Metrics Account Serving.
From S2P Require Import Tcp TcpSpec TcpQuiet TcpAccount RealServing Views TcpFine.
Open Scope Z_scope.

(** * Signals, one by one and all at once *)
Lemma signal_all_nil s : signal_all [] s = s.
Proof.
  unfold signal_all. destruct s; unfold tr_set_tasks; simpl. f_equal.
  apply map_eq. intros t. rewrite map_lookup_imap. by destruct (_ !! t).
Qed.

Lemma signal_all_cons t ts s : signal_all (t :: ts) s = signal_all ts (tr_alter_task ss_signal t s).
Proof.
  unfold signal_all, tr_alter_task, tr_set_tasks. simpl. f_equal. apply map_eq. intros t'.
  rewrite !map_lookup_imap, lookup_alter. destruct (decide (t = t')) as [->|Hne].
  - destruct (tr_tasks s !! t'); simpl; [|done]. rewrite decide_True by set_solver. by case_decide.
  - destruct (tr_tasks s !! t'); simpl; [|done]. do 2 case_decide; set_solver.
Qed.

(** * Undisturbed *)
Definition op_runs (c : TcpNext) (s : TcpRuntime) (r : result unit RuntimeError) (s' : TcpRuntime) : Prop :=
  ∃ n, tcp_op_run n c s = (Returned r, s').

Lemma op_runs_step op s r s' :
  op_runs (tcp_op_step op s).1 (tcp_op_step op s).2 r s' → op_runs (Waiting op) s r s'.
Proof. intros [n Hn]. exists (S n). simpl. by destruct (tcp_op_step op s). Qed.

Lemma op_runs_returned r s : op_runs (Returned r) s r s.
Proof. by exists 0%nat. Qed.

Lemma op_runs_send ts k s r s' :
  op_runs (Waiting (OpSend [] k)) (signal_all ts s) r s' → op_runs (Waiting (OpSend ts k)) s r s'.
Proof.
  revert s. induction ts as [|t ts IH]; intros s; [by rewrite signal_all_nil|].
  rewrite signal_all_cons. intros Hr. apply op_runs_step. simpl. by apply IH.
Qed.

Lemma op_runs_drain e k s r s' :
  op_runs (Waiting (OpSend [] k)) (TcpRuntime_close_sessions e s) r s' → op_runs (Waiting (OpDrain e k)) s r s'.
Proof.
  unfold TcpRuntime_close_sessions. intros Hr. apply op_runs_step. simpl.
  destruct (tr_heap s !! e); simpl; [by apply op_runs_send|done].
Qed.

Lemma heap_alter_eq f g e s :
  (∀ x, tr_heap s !! e = Some x → f x = g x) → tr_alter_entry f e s = tr_alter_entry g e s.
Proof.
  intros Hfg. unfold tr_alter_entry, tr_set_heap. f_equal. apply map_eq. intros e'. rewrite !lookup_alter.
  case_decide; [subst e'|done]. destruct (tr_heap s !! e) eqn:He; simpl; [by rewrite Hfg|done].
Qed.

Lemma heap_alter_compose f g e s :
  tr_alter_entry f e (tr_alter_entry g e s) = tr_alter_entry (f ∘ g) e s.
Proof.
  unfold tr_alter_entry, tr_set_heap. simpl. f_equal. apply map_eq. intros e'. rewrite !lookup_alter.
  rewrite (decide_True (P := e = e)) by done. case_decide; [by destruct (tr_heap s !! e)|done].
Qed.

Lemma op_runs_stop e rest s r s' :
  op_runs (Waiting (OpSend [] (AfterStop rest))) (TcpRuntime_stop_entry e s) r s' →
  op_runs (Waiting (OpStop e rest)) s r s'.
Proof.
  unfold TcpRuntime_stop_entry. intros Hr. apply op_runs_step. simpl. apply op_runs_step.
  simpl. rewrite lookup_alter_eq. destruct (tr_heap s !! e) as [x|] eqn:Hx; simpl.
  - destruct (te_accept_task x) eqn:Hk; simpl.
    + apply op_runs_step. simpl. rewrite !heap_alter_compose. apply op_runs_drain.
      erewrite heap_alter_eq; [exact Hr|]. intros y Hy. assert (y = x) as -> by congruence.
      unfold te_stop_accept. by rewrite Hk.
    + apply op_runs_drain. erewrite heap_alter_eq; [exact Hr|]. intros y Hy. assert (y = x) as -> by congruence.
      unfold te_stop_accept, te_send_shutdown. by rewrite Hk.
  - apply op_runs_drain. erewrite heap_alter_eq; [exact Hr|]. intros y Hy. congruence.
Qed.

Lemma op_runs_stop_all es s :
  op_runs (tcp_stop_next es) s (Ok tt) (foldl (λ s e, TcpRuntime_stop_entry e s) s es).
Proof.
  revert s. induction es as [|e es IH]; intros s; simpl; [apply op_runs_returned|].
  apply op_runs_stop, op_runs_step. simpl. apply IH.
Qed.

(** An operation of the facade with its result. *)
Definition tcp_operation (q : TcpRequest) : TcpM unit :=
  match q with
  | TcpCreate a => TcpRuntime_create a 0
  | TcpUpdate a => TcpRuntime_update a 0
  | TcpDelete id => TcpRuntime_delete id 0
  | TcpRestore a => TcpRuntime_restore a 0
  | TcpShutdown => modify TcpRuntime_shutdown_all
  end.

Lemma tcp_operation_run q s : (tcp_operation q s).2 = run_tcp q s.
Proof. by destruct q. Qed.

Lemma op_runs_bound id (m : TcpM nat) s :
  op_runs (tcp_bound id (m s)).1 (tcp_bound id (m s)).2
    ((let! e := m in insert_entry id e;; modify (tr_inc runtime_apply_total)) s).1
    ((let! e := m in insert_entry id e;; modify (tr_inc runtime_apply_total)) s).2.
Proof.
  unfold bind, insert_entry, modify. destruct (m s) as [[e|err] s1]; simpl; [|apply op_runs_returned].
  apply op_runs_step, op_runs_returned.
Qed.

Lemma operation_runs q s :
  op_runs (Waiting (OpCall q)) s (tcp_operation q s).1 (tcp_operation q s).2.
Proof.
  apply op_runs_step. destruct q as [a|a|id|a|]; simpl.
  - unfold TcpRuntime_create. destruct (negb _); [apply op_runs_returned|]. apply op_runs_bound.
  - unfold TcpRuntime_update, bind, gets, of_result. destruct (tr_entries s !! al_id a) as [e|]; simpl;
      [|apply op_runs_returned].
    case_bool_decide; simpl; (apply op_runs_step; simpl; apply op_runs_drain, op_runs_step, op_runs_returned).
  - unfold TcpRuntime_delete, bind, gets. destruct (tr_entries s !! id) as [e|]; simpl; [|apply op_runs_returned].
    apply op_runs_stop, op_runs_step, op_runs_returned.
  - unfold TcpRuntime_restore. destruct (negb _); [apply op_runs_returned|].
    match goal with |- context [tcp_bound ?id ((bind ?m ?f) s)] => pose proof (op_runs_bound id (bind m f) s) as Hb end.
    unfold bind, gets, of_result in *. simpl in *. by destruct (map_err _ _); simpl in *.
  - apply op_runs_stop_all.
Qed.

(** * Sends still to come

    A session that was drained and not sent to yet has no handle any more; with the sends
    still to come taken as done, the state is one that coarser steps reach. *)
Definition pending (c : TcpNext) : list nat :=
  match c with Waiting (OpSend ts _) => ts | _ => [] end.

Definition settled (x : TcpRuntime * TcpNext) : TcpRuntime := signal_all (pending x.2) x.1.

Section commute.
  Context (ts : list nat).

Definition told (t : nat) (task : TcpSession) : TcpSession :=
  if decide (t ∈ ts) then ss_signal task else task.

Lemma told_phase t task : ss_phase (told t task) = ss_phase task.
Proof. unfold told. by case_decide. Qed.
Lemma told_entry t task : ss_entry (told t task) = ss_entry task.
Proof. unfold told. by case_decide. Qed.
Lemma told_id t task : ss_id (told t task) = ss_id task.
Proof. unfold told. by case_decide. Qed.
Lemma told_signalled t task : ss_signalled task = true → ss_signalled (told t task) = true.
Proof. unfold told. by case_decide. Qed.

Lemma signal_all_lookup s t : tr_tasks (signal_all ts s) !! t = told t <$> tr_tasks s !! t.
Proof. unfold signal_all. simpl. rewrite map_lookup_imap. by destruct (tr_tasks s !! t). Qed.

Lemma signal_all_task f t s :
  (∀ x, f (ss_signal x) = ss_signal (f x)) →
  signal_all ts (tr_alter_task f t s) = tr_alter_task f t (signal_all ts s).
Proof.
  intros Hf. unfold signal_all, tr_alter_task, tr_set_tasks. simpl. f_equal. apply map_eq. intros t'.
  rewrite map_lookup_imap, !lookup_alter, !map_lookup_imap. destruct (decide (t = t')) as [->|]; [|done].
  destruct (tr_tasks s !! t'); simpl; [|done]. case_decide; [by rewrite Hf|done].
Qed.

Lemma signal_all_phase t p s : signal_all ts (set_phase t p s) = set_phase t p (signal_all ts s).
Proof. by apply signal_all_task. Qed.

Lemma signal_all_sender o s : signal_all ts (signal_sender o s) = signal_sender o (signal_all ts s).
Proof. destruct o; [by apply signal_all_task|done]. Qed.

Lemma signal_all_delete t s :
  signal_all ts (tr_set_tasks (delete t (tr_tasks s)) s) =
  tr_set_tasks (delete t (tr_tasks (signal_all ts s))) (signal_all ts s).
Proof.
  unfold signal_all, tr_set_tasks. simpl. f_equal. apply map_eq. intros t'.
  rewrite map_lookup_imap, !lookup_delete, !map_lookup_imap. by destruct (decide (t = t')).
Qed.

Lemma signal_all_insert t task s :
  t ∉ ts →
  signal_all ts (tr_set_tasks (<[t := task]> (tr_tasks s)) s) =
  tr_set_tasks (<[t := task]> (tr_tasks (signal_all ts s))) (signal_all ts s).
Proof.
  intros Ht. unfold signal_all, tr_set_tasks. simpl. f_equal. apply map_eq. intros t'.
  rewrite map_lookup_imap, !lookup_insert, !map_lookup_imap. destruct (decide (t = t')) as [<-|]; [|done]. simpl.
  by rewrite decide_False.
Qed.

Lemma signal_all_begin entry s :
  copy_streams_begin entry (signal_all ts s) =
  ((copy_streams_begin entry s).1, signal_all ts (copy_streams_begin entry s).2).
Proof. unfold copy_streams_begin. by destruct (te_force_copy_fallback entry), (te_splice_enabled entry). Qed.

Lemma signal_all_spliced o s :
  copy_streams_spliced o (signal_all ts s) =
  ((copy_streams_spliced o s).1, signal_all ts (copy_streams_spliced o s).2).
Proof. unfold copy_streams_spliced. destruct o; [done|]. by destruct (head _). Qed.

Lemma signal_all_copied e r s : signal_all ts (copied e r s) = copied e r (signal_all ts s).
Proof. by destruct r as [[]|]. Qed.

Lemma signal_all_read e entry s :
  signal_all ts (handle_client_read e entry s) = handle_client_read e entry (signal_all ts s).
Proof.
  unfold handle_client_read.
  by destruct (ts_effective_host (te_state entry)), (ts_effective_target_port (te_state entry)).
Qed.

Lemma signal_all_client e entry i host port s :
  tr_next s ∉ ts →
  signal_all ts (handle_client_insert e entry i host port s) =
  handle_client_insert e entry i host port (signal_all ts s).
Proof.
  intros Hn. unfold handle_client_insert. rewrite <- signal_all_sender.
  set (s2 := tr_alter_entry _ e (signal_sender _ s)).
  change (signal_all ts (tr_count_ref ?x)) with (tr_count_ref (signal_all ts x)).
  by rewrite signal_all_insert.
Qed.

Lemma signal_all_removed e i s :
  signal_all ts (TcpRuntime_remove_session_handle e i s) =
  TcpRuntime_remove_session_handle e i (signal_all ts s).
Proof.
  unfold TcpRuntime_remove_session_handle. change (tr_heap (signal_all ts s)) with (tr_heap s).
  destruct (tr_heap s !! e) as [entry|]; [by rewrite signal_all_sender|done].
Qed.

(** An event is possible as well when the sends have been made. *)
Lemma event_told ev s s' :
  tr_next s ∉ ts → tcp_event ev s = Some s' → tcp_event ev (signal_all ts s) = Some (signal_all ts s').
Proof.
  intros Hn. destruct ev as [e|e|e|e|e|e|t|t err|t o|t r|t|t]; cbn [tcp_event].
  7-12: rewrite signal_all_lookup; destruct (tr_tasks s !! t) as [task|]; cbn [fmap option_fmap option_map mbind option_bind];
    [|done]; rewrite ?told_entry, ?told_id, ?told_phase.
  1-6: change (accepting e (signal_all ts s)) with (accepting e s);
    destruct (accepting e s) as [[[| | |i h p] entry]|] eqn:Ha; try done.
  1-2, 5: by intros [= <-].
  - destruct (te_shutdown entry); [|done]. by intros [= <-].
  - intros [= <-]. by rewrite signal_all_read.
  - intros [= <-]. by rewrite signal_all_client.
  - change (tr_heap (signal_all ts s)) with (tr_heap s).
    destruct (tr_heap s !! ss_entry task) as [entry|]; cbn [mbind option_bind]; [|done].
    destruct (ss_phase task); try done.
    change (ActiveSessionGuard_new (ss_entry task) (tr_inc tcp_upstream_connect_total (signal_all ts s)))
      with (signal_all ts (ActiveSessionGuard_new (ss_entry task) (tr_inc tcp_upstream_connect_total s))).
    rewrite signal_all_begin. destruct (copy_streams_begin entry _) as [p s1]. intros [= <-].
    by rewrite signal_all_phase.
  - destruct (ss_phase task); try done. intros [= <-]. by rewrite signal_all_phase.
  - destruct (ss_phase task); try done. rewrite signal_all_spliced.
    destruct (copy_streams_spliced o s) as [[x|] s1]; intros [= <-]; by rewrite signal_all_phase, ?signal_all_copied.
  - destruct (ss_phase task); try done. intros [= <-]. by rewrite signal_all_phase, signal_all_copied.
  - destruct (ss_signalled task) eqn:Hs; [|done]. rewrite (told_signalled _ _ Hs).
    destruct (ss_phase task); try done; intros [= <-]; by rewrite signal_all_phase.
  - destruct (ss_phase task); try done. intros [= <-]. by rewrite signal_all_delete, signal_all_removed.
Qed.
End commute.

(** * What holds at every point of an operation *)
Record fine_inv (x : TcpRuntime * TcpNext) : Prop := {
  fi_structure : tcp_structure (settled x);
  fi_pending t : t ∈ pending x.2 → (t < tr_next x.1)%nat;
  fi_bound : match x.2 with Waiting (OpInsert _ e) => is_Some (tr_heap x.1 !! e) | _ => True end;
}.

Lemma settled_quiet_op s c : pending c = [] → settled (s, c) = s.
Proof. unfold settled. simpl. intros ->. apply signal_all_nil. Qed.

Lemma fine_inv_simple s c :
  pending c = [] → tcp_structure s →
  match c with Waiting (OpInsert _ e) => is_Some (tr_heap s !! e) | _ => True end → fine_inv (s, c).
Proof.
  intros Hp Hst Hb. split; simpl; [by rewrite settled_quiet_op| |done]. rewrite Hp. intros t []%elem_of_nil.
Qed.

Lemma tables_heap s e : is_Some (tables s !! e) ↔ is_Some (tr_heap s !! e).
Proof. rewrite tables_lookup. apply fmap_is_Some. Qed.

Lemma bound_inv id (m : TcpM nat) s :
  wp m (λ r s', tcp_structure s' ∧ match r with Ok e => is_Some (tables s' !! e) | Err _ => True end) s →
  fine_inv ((tcp_bound id (m s)).2, (tcp_bound id (m s)).1).
Proof.
  unfold wp. destruct (m s) as [[e|err] s']; simpl; intros [Hst He]; apply fine_inv_simple; try done.
  by apply tables_heap.
Qed.

Lemma stop_next_inv es s : tcp_structure s → fine_inv (s, tcp_stop_next es).
Proof. intros Hst. by apply fine_inv_simple; destruct es. Qed.

Lemma bind_bound a failed err s :
  tcp_structure s →
  wp (bind_listener a failed err)
    (λ r s', tcp_structure s' ∧ match r with Ok e => is_Some (tables s' !! e) | Err _ => True end) s.
Proof.
  intros Hst. eapply wp_mono; [by apply bind_listener_spec|]. intros [e|e] s' (? & _ & ?); auto.
Qed.

Lemma call_inv q s : tcp_structure s → fine_inv ((tcp_call q s).2, (tcp_call q s).1).
Proof.
  intros Hst. destruct q as [a|a|id|a|]; simpl.
  - destruct (negb _); [by apply fine_inv_simple|]. apply bound_inv.
    unfold TcpRuntime_bind_entry. wp_simpl. destruct (TcpRuntime_bind_addr _ _); [by apply bind_bound|done].
  - destruct (tr_entries s !! al_id a); [|by apply fine_inv_simple].
    case_bool_decide; by apply fine_inv_simple.
  - destruct (tr_entries s !! id); [|by apply fine_inv_simple]. apply fine_inv_simple; [done| |done].
    by apply delete_entries_structure, delete_subseteq.
  - destruct (negb _); [by apply fine_inv_simple|]. apply bound_inv.
    wp_simpl. destruct (map_err _ _); simpl; wp_simpl; [by apply bind_bound|done].
  - apply stop_next_inv, delete_entries_structure; [done|apply map_empty_subseteq].
Qed.

Lemma settled_drain e k s entry :
  tr_heap s !! e = Some entry →
  settled (tr_alter_entry (te_set_sessions ∅) e s, Waiting (OpSend (map_to_list (te_sessions entry)).*2 k))
  = TcpRuntime_close_sessions e s.
Proof. intros He. unfold settled, TcpRuntime_close_sessions. by rewrite He. Qed.

Lemma op_inv op s :
  fine_inv (s, Waiting op) → fine_inv ((tcp_op_step op s).2, (tcp_op_step op s).1).
Proof.
  intros [Hst Hp Hb]. simpl in Hp, Hb.
  destruct op as [q|id e|e x|e rest|e rest|e rest|e k|[|t ts] k]; cbn [tcp_op_step fst snd];
    try rewrite settled_quiet_op in Hst by done.
  - by apply call_inv.
  - apply fine_inv_simple; [done| |done]. eapply same_structure_inv; [apply same_inc|].
    by apply insert_entry_structure, tables_heap.
  - apply fine_inv_simple; [done| |done]. eapply same_structure_inv; [apply same_set_state|done].
  - apply fine_inv_simple; [done| |done]. eapply same_structure_inv; [|exact Hst]. same_tac.
  - destruct (te_accept_task <$> tr_heap s !! e) as [[]|]; (apply fine_inv_simple; [done| |done]); [|done..].
    eapply same_structure_inv; [|exact Hst]. same_tac.
  - apply fine_inv_simple; [done| |done]. eapply same_structure_inv; [|exact Hst]. same_tac.
  - destruct (tr_heap s !! e) as [entry|] eqn:He; simpl; [|by apply fine_inv_simple].
    split; simpl; [rewrite settled_drain by done; by apply close_sessions_spec| |done].
    intros t ([i t'] & -> & Hi%elem_of_map_to_list)%list_elem_of_fmap. simpl.
    eapply (st_table _ _ _ _ Hst e); [|exact Hi]. by rewrite tables_lookup, He.
  - destruct k; [by apply fine_inv_simple|by apply stop_next_inv].
  - split; simpl; [|intros t' Ht'; apply Hp; set_solver|done].
    unfold settled in *. simpl in *. by rewrite signal_all_cons in Hst.
Qed.

Lemma fresh_pending x : fine_inv x → tr_next x.1 ∉ pending x.2.
Proof. intros Hx Hn%(fi_pending _ Hx). lia. Qed.

Lemma event_settled ev x s' :
  fine_inv x → tcp_event ev x.1 = Some s' → tcp_event ev (settled x) = Some (settled (s', x.2)).
Proof. intros Hx Hev. by apply (event_told (pending x.2) ev x.1 s'); [apply fresh_pending|]. Qed.

Lemma fine_step_inv x y : fine_inv x → fine_step x y → fine_inv y.
Proof.
  intros Hx Hstep. destruct Hstep as [q r s|op s|ev s s' c Hev].
  - destruct Hx as [Hst _ _]. rewrite settled_quiet_op in Hst by done. by apply fine_inv_simple.
  - by apply op_inv.
  - pose proof (event_settled ev (s, c) s' Hx Hev) as Hset.
    destruct (event_quiet _ _ _ Hev) as [(Hn & He & _) _]. destruct Hx as [Hst Hp Hb]. split; simpl in *.
    + by eapply event_structure.
    + intros t Ht. specialize (Hp t Ht). lia.
    + destruct c as [|[]]; try done. destruct Hb as [entry Hentry]. destruct (He _ _ Hentry) as (entry' & ? & _).
      by exists entry'.
Qed.

Definition fine_initial (x : TcpRuntime * TcpNext) : Prop := tcp_initial x.1 ∧ x.2 = Returned (Ok tt).

Lemma reachable_fine x y : fine_initial x → rtc fine_step x y → fine_inv y.
Proof.
  intros [Hi Hc] Hr. assert (fine_inv x) as Hx.
  { destruct x as [s c]. simpl in *. subst c. apply fine_inv_simple; [done|by apply initial_structure|done]. }
  clear Hi Hc. induction Hr; eauto using fine_step_inv.
Qed.

(** * Counts *)
Lemma account_told ts s : same_account s (signal_all ts s).
Proof.
  split_and!; [done|done|]. unfold copying. apply map_eq. intros t.
  rewrite !lookup_omap, signal_all_lookup. destruct (tr_tasks s !! t) as [task|]; simpl; [|done].
  unfold copying_entry. by rewrite told_phase, told_entry.
Qed.

Lemma settled_account x : tcp_account (settled x) ↔ tcp_account x.1.
Proof.
  unfold tcp_account, settled. by destruct (account_told (pending x.2) x.1) as (-> & -> & ->).
Qed.

Lemma bound_account id (m : TcpM nat) s :
  wp m (λ _ s', tcp_account s') s → tcp_account (tcp_bound id (m s)).2.
Proof. unfold wp. by destruct (m s) as [[e|err] s']. Qed.

Lemma call_account q s : tcp_structure s → tcp_account s → tcp_account (tcp_call q s).2.
Proof.
  intros Hst Hacc. destruct q as [a|a|id|a|]; simpl.
  - destruct (negb _); [done|]. apply bound_account. unfold TcpRuntime_bind_entry. wp_simpl.
    destruct (TcpRuntime_bind_addr _ _); [|done]. apply bind_account; [done|done|by repeat constructor].
  - destruct (tr_entries s !! al_id a); [|done]. by case_bool_decide.
  - by destruct (tr_entries s !! id).
  - destruct (negb _); [done|]. apply bound_account. wp_simpl. destruct (map_err _ _); simpl; wp_simpl; [|done].
    apply bind_account; [done|done|by repeat constructor].
  - done.
Qed.

Lemma op_account op s :
  fine_inv (s, Waiting op) → tcp_account s → tcp_account (tcp_op_step op s).2.
Proof.
  intros [Hst _ _] Hacc.
  destruct op as [q|id e|e x|e rest|e rest|e rest|e k|[|t ts] k]; cbn [tcp_op_step snd].
  - rewrite settled_quiet_op in Hst by done. by apply call_account.
  - eapply same_account_inv; [|exact Hacc]. account_tac.
  - eapply same_account_inv; [|exact Hacc]. account_tac.
  - eapply same_account_inv; [|exact Hacc]. account_tac.
  - destruct (te_accept_task <$> tr_heap s !! e) as [[]|]; [|done..].
    eapply same_account_inv; [|exact Hacc]. account_tac.
  - eapply same_account_inv; [|exact Hacc]. account_tac.
  - destruct (tr_heap s !! e); [|done]. eapply same_account_inv; [|exact Hacc]. account_tac.
  - destruct k; [|done]. eapply same_account_inv; [|exact Hacc]. account_tac.
  - eapply same_account_inv; [|exact Hacc]. apply (account_signal (Some t)).
Qed.

Lemma fine_step_account x y : fine_inv x → tcp_account x.1 → fine_step x y → tcp_account y.1.
Proof.
  intros Hx Hacc Hstep. destruct Hstep as [q r s|op s|ev s s' c Hev]; [done|by apply op_account|].
  apply (settled_account (s', c)). eapply event_account; [apply (fi_structure _ Hx)| |].
  - by apply settled_account.
  - by apply (event_settled ev (s, c)).
Qed.

(** C9: the TCP session counts are exact at every moment. In every state that the relay
    reaches, also between any two steps of an operation in flight, the gauge of active
    sessions is the number of sessions that copy bytes, and the current-connections count
    of each listener, deleted ones included, is the number of its own, both modulo 2^64;
    cancelled, failed and completed copies all give their count back. *)
Theorem fine_counts_exact config binds s c :
  rtc fine_step (TcpRuntime_new config Metrics_default binds, Returned (Ok tt)) (s, c) →
  Gauge_load tcp_active_sessions (tr_metrics s) = wrap (Z.of_nat (size (copying s))) ∧
  ∀ e entry, tr_heap s !! e = Some entry →
    tm_active (te_metrics entry) = wrap (Z.of_nat (size (owned e (copying s)))).
Proof.
  intros Hr. enough (tcp_account s) as [Hg HA].
  { split; [exact Hg|]. intros e entry He. apply HA. unfold actives. by rewrite lookup_fmap, He. }
  set (x := (TcpRuntime_new config Metrics_default binds, Returned (Ok tt))) in Hr.
  assert (fine_inv x) as Hx by (by apply (reachable_fine x x); [split; [by repeat eexists|]|]).
  assert (tcp_account x.1) as H0.
  { split; [done|]. intros e n. unfold actives. simpl. by rewrite fmap_empty, lookup_empty. }
  change (tcp_account (s, c).1). induction Hr as [|x y z Hxy _ IH]; [exact H0|].
  apply IH; [by eapply fine_step_inv|by eapply fine_step_account].
Qed.

(** * Stopping *)

(** [quiet] without the handles of the accept tasks. *)
Definition calm (s s' : TcpRuntime) : Prop :=
  (tr_next s ≤ tr_next s')%nat ∧
  (∀ e entry, tr_heap s !! e = Some entry →
    ∃ entry', tr_heap s' !! e = Some entry' ∧ (te_accept entry = None → te_accept entry' = None)) ∧
  (∀ t task', tr_tasks s' !! t = Some task' →
    (∃ task, tr_tasks s !! t = Some task ∧ ss_entry task' = ss_entry task ∧
       (ss_signalled task = true → ss_signalled task' = true)) ∨
    ((tr_next s ≤ t)%nat ∧
     ∀ entry, tr_heap s !! ss_entry task' = Some entry → te_accept entry ≠ None)).

Lemma quiet_calm s s' : quiet s s' → calm s s'.
Proof.
  intros (Hn & He & _ & Ht). split_and!; [done| |].
  - intros e entry (entry' & ? & ? & _)%He. eauto.
  - intros t task' [(task & ? & ? & ? & _)|?]%Ht; eauto.
Qed.

#[export] Instance calm_po : PreOrder calm.
Proof.
  split; [intros s; by apply quiet_calm|].
  intros s1 s2 s3 (Hn & He & Ht) (Hn' & He' & Ht'). split_and!; [lia| |].
  - intros e entry (entry' & (entry'' & ? & ?)%He' & ?)%He. eauto 10.
  - intros t task3 [(task2 & H2 & Hent2 & Hsig2)|[Hlt Hacc]]%Ht'.
    + apply Ht in H2 as [(task1 & H1 & Hent1 & Hsig1)|[Hlt Hacc]].
      * left. exists task1. split_and!; [done|congruence|auto].
      * right. rewrite Hent2. by split.
    + right. split; [lia|]. intros entry (entry' & Hentry' & Hnone)%He Hacc0. by apply (Hacc entry'), Hnone.
Qed.

Lemma calm_alter_entry f e s :
  (∀ x, te_accept x = None → te_accept (f x) = None) → calm s (tr_alter_entry f e s).
Proof.
  intros Hf. split_and!; [done| |simpl; intros t task Ht; left; exists task; eauto]. simpl.
  intros e' entry He'. destruct (decide (e' = e)) as [->|].
  - rewrite lookup_alter_eq, He'. simpl. eauto.
  - rewrite lookup_alter_ne by done. eauto.
Qed.

Lemma call_quiet q s : tcp_structure s → quiet s (tcp_call q s).2.
Proof.
  intros Hst.
  assert (∀ id (m : TcpM nat), wp m (λ _ s', quiet s s') s → quiet s (tcp_bound id (m s)).2) as Hb.
  { intros id m. unfold wp. by destruct (m s) as [[e|err] s']. }
  destruct q as [a|a|id|a|]; simpl.
  - destruct (negb _); [done|]. apply Hb. unfold TcpRuntime_bind_entry. wp_simpl.
    destruct (TcpRuntime_bind_addr _ _); [by apply quiet_bind|exact (quiet_refl s)].
  - destruct (tr_entries s !! al_id a); [|done]. case_bool_decide; [|done]. by apply quiet_assign.
  - destruct (tr_entries s !! id); [|done]. by apply quiet_assign.
  - destruct (negb _); [done|]. apply Hb. wp_simpl.
    destruct (map_err _ _); simpl; wp_simpl; [by apply quiet_bind|exact (quiet_refl s)].
  - by apply quiet_assign.
Qed.

Lemma op_calm op s : fine_inv (s, Waiting op) → calm s (tcp_op_step op s).2.
Proof.
  intros [Hst _ _].
  destruct op as [q|id e|e x|e rest|e rest|e rest|e k|[|t ts] k]; cbn [tcp_op_step snd].
  - rewrite settled_quiet_op in Hst by done. by apply quiet_calm, call_quiet.
  - by apply quiet_calm, quiet_assign.
  - by apply calm_alter_entry.
  - by apply calm_alter_entry.
  - destruct (te_accept_task <$> tr_heap s !! e) as [[]|]; [|done..]. by apply calm_alter_entry.
  - by apply calm_alter_entry.
  - destruct (tr_heap s !! e); [|done]. by apply calm_alter_entry.
  - destruct k; [|done]. by apply quiet_calm, quiet_assign.
  - apply quiet_calm, (quiet_signal (Some t)).
Qed.

Lemma fine_step_calm x y : fine_inv x → fine_step x y → calm x.1 y.1.
Proof.
  intros Hx Hstep. destruct Hstep as [q r s|op s|ev s s' c Hev]; [done|by apply op_calm|].
  by apply quiet_calm, (event_quiet ev).
Qed.

(** The same with the sends to come taken as done. *)
Lemma fine_step_calm_settled x y : fine_inv x → fine_step x y → calm (settled x) (settled y).
Proof.
  intros Hx Hstep. destruct Hstep as [q r s|op s|ev s s' c Hev].
  - by rewrite !settled_quiet_op.
  - destruct (decide (pending (Waiting op) = [] ∧ pending (tcp_op_step op s).1 = [])) as [[Hp Hp']|Hp].
    { rewrite (settled_quiet_op _ _ Hp), (settled_quiet_op _ _ Hp'). by apply op_calm. }
    destruct op as [q|id e|e a|e rest|e rest|e rest|e k|[|t ts] k]; cbn [tcp_op_step fst snd] in *.
    + destruct Hp. split; [done|]. destruct q as [a|a|id|a|]; simpl; try case_match; try done.
      all: try (unfold tcp_bound; case_match; case_match; done). by destruct (map_to_list _).*2.
    + by destruct Hp.
    + by destruct Hp.
    + by destruct Hp.
    + destruct Hp. split; [done|]. by case_match; [case_match|].
    + by destruct Hp.
    + destruct (tr_heap s !! e) as [entry|] eqn:He; cbn [fst snd]; [|by destruct Hp].
      rewrite settled_drain, settled_quiet_op by done. apply quiet_calm, quiet_close.
    + destruct Hp. split; [done|]. destruct k as [|[]]; done.
    + unfold settled. simpl. by rewrite signal_all_cons.
  - apply quiet_calm. by apply (event_quiet ev), (event_settled ev (s, c)).
Qed.

(** The handle of an accept task is taken only to await its end. *)
Definition fine_kept (x : TcpRuntime * TcpNext) : Prop :=
  ∀ e entry, tr_heap x.1 !! e = Some entry →
    accept_kept entry ∨ ∃ rest, x.2 = Waiting (OpAwaitTask e rest).

Lemma quiet_kept s s' :
  quiet s s' → (∀ e entry, tr_heap s !! e = Some entry → accept_kept entry) →
  ∀ e entry, tr_heap s' !! e = Some entry → accept_kept entry.
Proof.
  intros (_ & He & Hnew & _) Hk e entry' He'. destruct (tr_heap s !! e) as [entry|] eqn:Hentry; [|by eapply Hnew].
  destruct (He _ _ Hentry) as (entry2 & H2 & _ & Hkept). assert (entry2 = entry') as -> by congruence.
  eauto.
Qed.

Lemma op_kept op s : fine_inv (s, Waiting op) → fine_kept (s, Waiting op) →
  fine_kept ((tcp_op_step op s).2, (tcp_op_step op s).1).
Proof.
  intros [Hst _ _] Hk.
  assert (∀ s', quiet s s' → (∀ e rest, op ≠ OpAwaitTask e rest) →
    ∀ e entry, tr_heap s' !! e = Some entry → accept_kept entry) as Hq.
  { intros s' Hquiet Hno. apply (quiet_kept s); [done|]. intros e entry He.
    destruct (Hk e entry He) as [?|[rest [= Hop]]]; [done|]. by destruct (Hno e rest). }
  assert (∀ f e s', s' = tr_alter_entry f e s → (∀ x, accept_kept x → accept_kept (f x)) →
    (∀ e rest, op ≠ OpAwaitTask e rest) → ∀ e entry, tr_heap s' !! e = Some entry → accept_kept entry) as Halt.
  { intros f e s' -> Hf Hno e' entry. simpl. rewrite lookup_alter. intros He.
    assert (∃ x, tr_heap s !! e' = Some x ∧ (entry = x ∨ entry = f x)) as (x & Hx & Hor).
    { case_decide; [subst e'; apply fmap_Some in He as (x & ? & ->)|]; eauto. }
    destruct (Hk _ _ Hx) as [Hkx|[rest [= Hop]]]; [|by destruct (Hno e' rest)].
    destruct Hor as [->| ->]; auto. }
  destruct op as [q|id e|e x|e rest|e rest|e rest|e k|[|t ts] k]; cbn [tcp_op_step fst snd];
    intros e' entry He'; cbn [fst snd] in *; [left|left|left|left| | |left|left|left].
  - rewrite settled_quiet_op in Hst by done. by eapply (Hq _ (call_quiet q s Hst)).
  - eapply (Hq s); [reflexivity|done|exact He'].
  - by eapply (Halt (te_set_state x) e).
  - by eapply (Halt te_send_shutdown e).
  - destruct (te_accept_task <$> tr_heap s !! e) as [[]|]; cbn [fst snd] in *;
      [|left; by eapply (Hq s)..].
    destruct (decide (e' = e)) as [->|Hne]; [right; by eexists|left].
    simpl in He'. rewrite lookup_alter_ne in He' by done. by eapply (Hq s).
  - left. simpl in He'. rewrite lookup_alter in He'. case_decide as Hd.
    + subst e'. apply fmap_Some in He' as (x & _ & ->). by intros ?.
    + destruct (Hk _ _ He') as [?|[rest' [= ->]]]; done.
  - destruct (tr_heap s !! e) as [x|]; cbn [fst snd] in *; [by eapply (Halt (te_set_sessions ∅) e)|by eapply (Hq s)].
  - destruct k; [by eapply (Hq s)|]. by eapply (Hq s).
  - eapply (Hq _ (quiet_signal (Some t) s)); [done|exact He'].
Qed.

Lemma fine_step_kept x y : fine_inv x → fine_kept x → fine_step x y → fine_kept y.
Proof.
  intros Hx Hk Hstep. destruct Hstep as [q r s|op s|ev s s' c Hev]; [|by apply op_kept|].
  - intros e entry He. destruct (Hk e entry He) as [?|[rest [=]]]. by left.
  - intros e entry' He'. destruct (event_quiet _ _ _ Hev) as [(_ & He & Hnew & _) _]. simpl in *.
    destruct (tr_heap s !! e) as [entry|] eqn:Hentry; [|left; by eapply Hnew].
    destruct (He _ _ Hentry) as (entry2 & H2 & _ & Hkept). assert (entry2 = entry') as -> by congruence.
    destruct (Hk _ _ Hentry) as [?|?]; [left; auto|by right].
Qed.

Lemma reachable_fine_kept x y : fine_initial x → rtc fine_step x y → fine_kept y.
Proof.
  intros Hi Hr. assert (fine_kept x) as Hk.
  { destruct x as [s c], Hi as [(config & m & b & Hs) _]. simpl in Hs. subst s. intros e entry He.
    simpl in He. by rewrite lookup_empty in He. }
  pose proof (reachable_fine x x Hi ltac:(constructor)) as Hx. clear Hi.
  induction Hr; eauto using fine_step_inv, fine_step_kept.
Qed.

(** The deletion of [id], whose listener is [e], on its way to the sessions. *)
Definition stopping (id : string) (e : nat) (x : TcpRuntime * TcpNext) : Prop :=
  is_Some (tr_heap x.1 !! e) ∧
  match x.2 with
  | Waiting (OpCall (TcpDelete i)) => i = id ∧ tr_entries x.1 !! id = Some e
  | Waiting (OpStop e' []) | Waiting (OpTakeTask e' []) | Waiting (OpAwaitTask e' []) => e' = e
  | Waiting (OpDrain e' (AfterStop [])) => e' = e ∧ ∃ entry, tr_heap x.1 !! e = Some entry ∧ te_accept entry = None
  | _ => False
  end.

(** The accept task has ended, and every session was told or is about to be. *)
Definition stopped (e : nat) (x : TcpRuntime * TcpNext) : Prop :=
  (∃ entry, tr_heap x.1 !! e = Some entry ∧ te_accept entry = None) ∧
  ∀ task t, tr_tasks (settled x) !! t = Some task → ss_entry task = e → ss_signalled task = true.

Lemma calm_stopped e s s' :
  calm s s' → (∃ entry, tr_heap s !! e = Some entry ∧ te_accept entry = None) →
  (∀ task t, tr_tasks s !! t = Some task → ss_entry task = e → ss_signalled task = true) →
  (∃ entry, tr_heap s' !! e = Some entry ∧ te_accept entry = None) ∧
  (∀ task t, tr_tasks s' !! t = Some task → ss_entry task = e → ss_signalled task = true).
Proof.
  intros (_ & He & Ht) (entry & Hentry & Hnone) Hsig. split.
  - destruct (He _ _ Hentry) as (entry' & ? & ?). eauto.
  - intros task t [(task1 & H1 & Hsame & Hs)|[_ Hacc]]%Ht Hee.
    + apply Hs, (Hsig task1 t); [done|congruence].
    + exfalso. apply (Hacc entry); [by rewrite Hee|done].
Qed.

Lemma stopped_step e x y : fine_inv x → stopped e x → fine_step x y → stopped e y.
Proof.
  intros Hx [Hnone Hsig] Hstep.
  by destruct (calm_stopped e _ _ (fine_step_calm_settled x y Hx Hstep) Hnone Hsig).
Qed.

Lemma stopping_op id e op s :
  fine_inv (s, Waiting op) → fine_kept (s, Waiting op) → stopping id e (s, Waiting op) →
  let y := ((tcp_op_step op s).2, (tcp_op_step op s).1) in stopping id e y ∨ stopped e y.
Proof.
  intros [Hst _ _] Hk [[entry He] Hstage]. simpl in Hstage, He.
  destruct op as [q|i e'|e' a|e' rest|e' rest|e' rest|e' k|ts k]; try done.
  - destruct q as [| |i| |]; try done. destruct Hstage as [-> Hid]. left. simpl. rewrite Hid. by split; [eexists|].
  - destruct rest; [|done]. subst e'. left. split; [|done]. simpl. rewrite lookup_alter_eq, He. by eexists.
  - destruct rest; [|done]. subst e'. left. simpl. rewrite He. simpl. destruct (te_accept_task entry) eqn:Htask; simpl.
    + split; [|done]. simpl. rewrite lookup_alter_eq, He. by eexists.
    + split; [by eexists|]. split; [done|]. exists entry. split; [done|].
      destruct (Hk e entry He) as [Hkept|[rest [=]]]. by apply Hkept.
  - destruct rest; [|done]. subst e'. left. simpl. split; simpl; rewrite lookup_alter_eq, He; [by eexists|].
    split; [done|]. by eexists.
  - destruct k as [|[]]; [done| |done]. destruct Hstage as [-> (entry' & He' & Hnone)]. right.
    rewrite settled_quiet_op in Hst by done.
    assert (entry' = entry) as -> by congruence. split.
    + simpl. rewrite He. simpl. rewrite lookup_alter_eq, He. by eexists.
    + cbn [tcp_op_step]. rewrite He. cbn [fst snd]. rewrite settled_drain by done. intros task t Ht Hee.
      destruct (close_sessions_spec e s Hst) as (_ & _ & _ & _ & Hall).
      apply (Hall t (ss_id task)). unfold links. by rewrite lookup_fmap, Ht, <- Hee.
Qed.

Lemma stopping_step id e x y :
  fine_inv x → fine_kept x → stopping id e x → fine_step x y → stopping id e y ∨ stopped e y.
Proof.
  intros Hx Hk Hs Hstep. destruct Hstep as [q r s|op s|ev s s' c Hev]; [by destruct Hs|by apply stopping_op|].
  left. destruct (event_quiet _ _ _ Hev) as [(_ & He & _) _]. destruct (tcp_event_rows _ _ _ Hev) as [HE _].
  destruct Hs as [[entry Hentry] Hstage]. simpl in *.
  destruct (He _ _ Hentry) as (entry' & Hentry' & Hnone & _). split; [by eexists|]. simpl.
  destruct c as [|[[| |i| |]|i e'|e' a|e' rest|e' rest|e' rest|e' [|[]]|ts k]]; try done.
  - by rewrite HE.
  - destruct Hstage as [-> (entry2 & H2 & Hn)]. split; [done|]. exists entry'. split; [done|].
    apply Hnone. congruence.
Qed.

(** A deletion that has returned, whatever came in between. *)
Lemma deletion_returned x y id e r :
  fine_inv x → fine_kept x → stopping id e x ∨ stopped e x → rtc fine_step x y → y.2 = Returned r →
  stopped e y.
Proof.
  intros Hx Hk Hs Hr Hret. induction Hr as [x|x y z Hxy _ IH].
  - destruct Hs as [[_ Hs]|Hs]; [by rewrite Hret in Hs|done].
  - apply IH; [by eapply fine_step_inv|by eapply fine_step_kept| |done].
    destruct Hs as [Hs|Hs]; [by eapply stopping_step|right; by eapply stopped_step].
Qed.

(** C10: once the deletion of a TCP allocation has returned, its listener never serves a
    client again, whatever ran while the deletion was under way. In every later state, in
    the middle of an operation or not, its accept task stays ended and each of its
    sessions, also one that the accept task started during the deletion, has been told to
    stop. *)
Theorem returned_deletion_stays x0 s id e r s1 r1 s2 c2 :
  fine_initial x0 → rtc fine_step x0 (s, Returned r) → tr_entries s !! id = Some e →
  rtc fine_step (s, Waiting (OpCall (TcpDelete id))) (s1, Returned r1) →
  rtc fine_step (s1, Returned r1) (s2, c2) →
  (∃ entry, tr_heap s2 !! e = Some entry ∧ te_accept entry = None) ∧
  (∀ task t, tr_tasks s2 !! t = Some task → ss_entry task = e → ss_signalled task = true).
Proof.
  intros H0 Hr Hid Hdel Hlater.
  assert (rtc fine_step x0 (s, Waiting (OpCall (TcpDelete id)))) as Hcall
    by (eapply rtc_r; [exact Hr|apply fine_call]).
  pose proof (reachable_fine _ _ H0 Hcall) as Hx. pose proof (reachable_fine_kept _ _ H0 Hcall) as Hk.
  assert (is_Some (tr_heap s !! e)) as He.
  { pose proof (fi_structure _ Hx) as Hst. rewrite settled_quiet_op in Hst by done.
    by apply tables_heap, (st_entries _ _ _ _ Hst id). }
  destruct (deletion_returned _ _ id e r1 Hx Hk (or_introl (conj He (conj eq_refl Hid))) Hdel eq_refl) as [Hnone Hsig].
  rewrite settled_quiet_op in Hsig by done. simpl in Hnone.
  assert (calm s1 s2) as Hcalm.
  { change (calm (s1, Returned r1).1 (s2, c2).1).
    assert (fine_inv (s1, Returned r1)) as Hinv by (eapply (reachable_fine x0); [done|by etrans]).
    clear -Hlater Hinv. induction Hlater as [x|x y z Hxy _ IH]; [done|].
    etrans; [by eapply fine_step_calm|]. apply IH. by eapply fine_step_inv. }
  by apply (calm_stopped e s1 s2).
Qed.
