(* ===== verification/TcpFineEnd.v ===== *)
(** The end of TCP sessions (runtime/tcp.rs): [close_sessions] with the sends, and the
    [select!] of the session task that receives them. *)
From stdpp Require Import base gmap strings list relations fin_maps.
From Stdlib Require Import ZArith Lia.
From S2P Require Import Prelude RustStd Model Facade Metrics Account Serving Tcp TcpSpec TcpQuiet TcpAccount.
From S2P Require Import RealServing Views TcpFine TcpFineSpec.
Open Scope Z_scope.

(** An update or a deletion of [id], whose listener is [e], on its way to the drain. *)
Definition closing (id : string) (e : nat) (x : TcpRuntime * TcpNext) : Prop :=
  match x.2 with
  | Waiting (OpCall (TcpDelete i)) => i = id ∧ tr_entries x.1 !! id = Some e
  | Waiting (OpCall (TcpUpdate a)) => al_id a = id ∧ tr_entries x.1 !! id = Some e
  | Waiting (OpSetState e' _) | Waiting (OpStop e' _) | Waiting (OpTakeTask e' _)
  | Waiting (OpAwaitTask e' _) | Waiting (OpDrain e' _) => e' = e
  | _ => False
  end.

(** The sessions of [e] with a reference below [n] were told to stop, or are about to be. *)
Definition told_below (e n : nat) (x : TcpRuntime * TcpNext) : Prop :=
  (n ≤ tr_next x.1)%nat ∧
  ∀ t task, (t < n)%nat → tr_tasks (settled x) !! t = Some task → ss_entry task = e →
    ss_signalled task = true.

Lemma settled_next x : tr_next (settled x) = tr_next x.1.
Proof. done. Qed.

Lemma told_below_step e n x y : fine_inv x → told_below e n x → fine_step x y → told_below e n y.
Proof.
  intros Hx [Hn Ht] Hstep. destruct (fine_step_calm_settled x y Hx Hstep) as (Hle & _ & Hq).
  rewrite !settled_next in Hle. split; [lia|]. intros t task' Hlt Ht' He.
  destruct (Hq _ _ Ht') as [(task & H1 & Hsame & Hsig)|[Hge _]].
  - apply Hsig, (Ht t); [done..|congruence].
  - rewrite settled_next in Hge. lia.
Qed.

Lemma closing_step id e n x y :
  fine_inv x → (n ≤ tr_next x.1)%nat → closing id e x → fine_step x y →
  (n ≤ tr_next y.1)%nat ∧ (closing id e y ∨ told_below e n y).
Proof.
  intros Hx Hn Hc Hstep. destruct (fine_step_calm x y Hx Hstep) as (Hle & _).
  assert (n ≤ tr_next y.1)%nat as Hny by lia. split; [exact Hny|].
  destruct Hstep as [q r s|op s|ev s s' c Hev]; [done| |].
  - destruct op as [q|i e'|e' a|e' rest|e' rest|e' rest|e' k|ts k]; try done; cbn [closing fst snd] in *.
    + left. destruct q as [|a|i| |]; try done; destruct Hc as [<- Hid]; simpl; by rewrite Hid.
    + subst e'. by left.
    + subst e'. by left.
    + subst e'. left. cbn [tcp_op_step]. by destruct (te_accept_task <$> tr_heap s !! e) as [[]|].
    + subst e'. by left.
    + subst e'. right. split; [exact Hny|]. destruct Hx as [Hst _ _]. rewrite settled_quiet_op in Hst by done.
      intros t task _. destruct (close_sessions_spec e s Hst) as (_ & _ & _ & _ & Hall).
      assert (settled ((tcp_op_step (OpDrain e k) s).2, (tcp_op_step (OpDrain e k) s).1)
              = TcpRuntime_close_sessions e s) as ->.
      { cbn [tcp_op_step]. destruct (tr_heap s !! e) as [entry|] eqn:He; cbn [fst snd]; [by apply settled_drain|].
        rewrite settled_quiet_op by done. unfold TcpRuntime_close_sessions. by rewrite He. }
      intros Ht <-. apply (Hall t (ss_id task)). unfold links. by rewrite lookup_fmap, Ht.
  - left. destruct (tcp_event_rows _ _ _ Hev) as [HE _]. unfold closing in *. cbn [fst snd] in *. by rewrite HE.
Qed.

(** All of them were told when the operation returns. *)
Lemma closing_returned id e n x s1 r1 :
  fine_inv x → (n ≤ tr_next x.1)%nat → closing id e x ∨ told_below e n x →
  rtc fine_step x (s1, Returned r1) → told_below e n (s1, Returned r1).
Proof.
  intros Hx Hn Hs Hr. remember (s1, Returned r1) as z eqn:Hz. revert Hx Hn Hs.
  induction Hr as [x|x y z Hxy _ IH]; intros Hx Hn Hs; subst; [by destruct Hs|].
  assert (fine_inv y) as Hy by (by eapply fine_step_inv). destruct Hs as [Hs|Hs].
  - destruct (closing_step id e n x y Hx Hn Hs Hxy). by apply IH.
  - pose proof (told_below_step e n x y Hx Hs Hxy) as Ht. apply IH; [done|done|apply Ht|by right].
Qed.

Lemma told_below_stays e n x y : fine_inv x → told_below e n x → rtc fine_step x y → told_below e n y.
Proof. intros Hx Ht Hr. induction Hr; eauto using fine_step_inv, told_below_step. Qed.

(** A session that was told to stop goes through the shutdown branch of its [select!] and
    removes its handle. *)
Lemma told_ends t s task :
  tr_tasks s !! t = Some task → ss_signalled task = true →
  ∃ s1 s2, (s1 = s ∨ tcp_event (EvCancelled t) s = Some s1) ∧ tcp_event (EvRemoved t) s1 = Some s2 ∧
    tr_tasks s2 !! t = None.
Proof.
  intros Ht Hs.
  assert (∀ s1 task1, tr_tasks s1 !! t = Some task1 → ss_phase task1 = Removing →
    ∃ s2, tcp_event (EvRemoved t) s1 = Some s2 ∧ tr_tasks s2 !! t = None) as Hrm.
  { intros s1 task1 Ht1 Hp. simpl. rewrite Ht1. simpl. rewrite Hp. eexists. split; [done|].
    simpl. apply lookup_delete_eq. }
  assert (∀ s', tr_tasks s' = tr_tasks s → ∃ task1,
    tr_tasks (set_phase t Removing s') !! t = Some task1 ∧ ss_phase task1 = Removing) as Hset.
  { intros s' Hs'. unfold set_phase, tr_alter_task. simpl. rewrite Hs', lookup_alter_eq, Ht. by eexists. }
  destruct (ss_phase task) eqn:Hp.
  4: { destruct (Hrm s task Ht Hp) as (s2 & ? & ?). exists s, s2. auto. }
  all: assert (∃ s1, tcp_event (EvCancelled t) s = Some (set_phase t Removing s1) ∧ tr_tasks s1 = tr_tasks s)
    as (s1 & Hev & Hs1) by (simpl; rewrite Ht; simpl; rewrite Hs, Hp; by eexists).
  all: destruct (Hset s1 Hs1) as (task1 & Ht1 & Hp1); destruct (Hrm _ _ Ht1 Hp1) as (s2 & ? & ?); eauto 10.
Qed.

(** C27: the sessions a TCP listener has when its update or its deletion is called end without
    a word from the network. When the operation has returned, whatever ran in between, and
    in every later state, each of them has ended, or ends by two steps of its task that
    wait for no peer: it takes the shutdown in its [select!] (unless it is past that), and
    removes its handle. *)
Theorem told_session_ends x0 s r0 q id e t task s1 r1 s2 c2 :
  fine_initial x0 → rtc fine_step x0 (s, Returned r0) →
  q = TcpDelete id ∨ (∃ a, q = TcpUpdate a ∧ al_id a = id) → tr_entries s !! id = Some e →
  tr_tasks s !! t = Some task → ss_entry task = e →
  rtc fine_step (s, Waiting (OpCall q)) (s1, Returned r1) → rtc fine_step (s1, Returned r1) (s2, c2) →
  tr_tasks s2 !! t = None ∨
  ∃ s3 s4, (s3 = s2 ∨ tcp_event (EvCancelled t) s2 = Some s3) ∧ tcp_event (EvRemoved t) s3 = Some s4 ∧
    tr_tasks s4 !! t = None.
Proof.
  intros H0 Hr Hq Hid Ht He Hop Hlater.
  assert (fine_inv (s, Waiting (OpCall q))) as Hx
    by (eapply reachable_fine; [exact H0|eapply rtc_r; [exact Hr|apply fine_call]]).
  assert (t < tr_next s)%nat as Hlt.
  { pose proof (fi_structure _ Hx) as Hst. rewrite settled_quiet_op in Hst by done.
    apply (st_task_ref _ _ _ _ Hst). unfold links. rewrite lookup_fmap, Ht. by eexists. }
  assert (told_below e (tr_next s) (s1, Returned r1)) as Hs1.
  { eapply (closing_returned id); [exact Hx|done| |exact Hop]. left. by destruct Hq as [->|(a & -> & ?)]. }
  assert (fine_inv (s1, Returned r1)) as Hx1.
  { clear -Hx Hop. induction Hop; eauto using fine_step_inv. }
  assert (calm s1 s2) as (_ & _ & Hcalm).
  { change (calm (s1, Returned r1).1 (s2, c2).1). clear -Hlater Hx1. induction Hlater as [x|x y z Hxy _ IH]; [done|].
    etrans; [by eapply fine_step_calm|]. apply IH. by eapply fine_step_inv. }
  destruct (tr_tasks s2 !! t) as [task2|] eqn:Ht2; [|by left]. right. apply (told_ends t s2 task2); [done|].
  destruct Hs1 as [Hn1 Htold]. rewrite settled_quiet_op in Htold by done. cbn [fst] in Hn1.
  destruct (Hcalm _ _ Ht2) as [(task1 & Ht1 & Hsame & Hsig)|[Hge _]]; [|lia].
  apply Hsig, (Htold t task1); [done..|].
  assert (calm s s1) as (_ & _ & Hc).
  { change (calm (s, Waiting (OpCall q)).1 (s1, Returned r1).1). clear -Hop Hx. induction Hop as [x|x y z Hxy _ IH]; [done|].
    etrans; [by eapply fine_step_calm|]. apply IH. by eapply fine_step_inv. }
  destruct (Hc _ _ Ht1) as [(task0 & Ht0 & Hsame0 & _)|[Hge _]]; [congruence|lia].
Qed.
