(* ===== verification/TcpFineViews.v ===== *)
(** An operation of the TCP relay in the middle of the relay's tasks returns what it would
    have returned undisturbed, and leaves the same listeners (runtime/tcp.rs). *)
From stdpp Require Import base gmap strings list relations fin_maps.
From Stdlib Require Import ZArith Lia.
From S2P Require Import Prelude RustStd Model Facade Metrics Account Serving.
From S2P Require Import Tcp TcpSpec TcpQuiet TcpAccount RealServing Views TcpFine TcpFineSpec.
Open Scope Z_scope.

(** * What no event touches *)
Definition same_inputs (s s' : TcpRuntime) : Prop :=
  tr_config s' = tr_config s ∧ tr_binds s' = tr_binds s ∧ tr_bind_calls s' = tr_bind_calls s.

Lemma event_inputs ev s s' : tcp_event ev s = Some s' → same_inputs s s'.
Proof.
  destruct ev as [e|e|e|e|e|e|t|t err|t o|t r|t|t]; simpl.
  1-6: destruct (accepting e s) as [[[| | |i h p] entry]|] eqn:Ha; try done.
  1-2, 5: by intros [= <-].
  - destruct (te_shutdown entry); [|done]. by intros [= <-].
  - intros [= <-]. unfold handle_client_read.
    by destruct (ts_effective_host (te_state entry)), (ts_effective_target_port (te_state entry)).
  - intros [= <-]. unfold handle_client_insert. by destruct (te_sessions entry !! i).
  - intros (task & Ht & H')%bind_Some. apply bind_Some in H' as (entry & He & H').
    destruct (ss_phase task); try done. unfold copy_streams_begin in H'.
    destruct (te_force_copy_fallback entry), (te_splice_enabled entry); by injection H' as <-.
  - intros (task & Ht & H')%bind_Some. destruct (ss_phase task); try done. by injection H' as <-.
  - intros (task & Ht & H')%bind_Some. destruct (ss_phase task); try done. unfold copy_streams_spliced in H'.
    destruct o as [|fc fu ce ue]; [by injection H' as <-|]. by destruct (head _); injection H' as <-.
  - intros (task & Ht & H')%bind_Some. destruct (ss_phase task); try done. injection H' as <-. by destruct r as [[]|].
  - intros (task & Ht & H')%bind_Some. destruct (ss_signalled task); [|done].
    destruct (ss_phase task); try done; by injection H' as <-.
  - intros (task & Ht & H')%bind_Some. destruct (ss_phase task); try done. injection H' as <-.
    unfold TcpRuntime_remove_session_handle. destruct (tr_heap s !! ss_entry task) as [entry|]; [|done].
    by destruct (te_sessions entry !! ss_id task).
Qed.

(** What an operation returns. *)
Lemma bind_listener_outcome a failed err s s' id :
  same_inputs s s' →
  ((let! e := bind_listener a failed err in insert_entry id e;; modify (tr_inc runtime_apply_total)) s).1 =
  ((let! e := bind_listener a failed err in insert_entry id e;; modify (tr_inc runtime_apply_total)) s').1.
Proof.
  intros (Hc & Hb & Hn). unfold bind, bind_listener. simpl. rewrite Hb, Hn. by destruct (tr_binds s _ _).
Qed.

Lemma operation_result q s s' :
  same_inputs s s' → tr_entries s' = tr_entries s → (tcp_operation q s').1 = (tcp_operation q s).1.
Proof.
  intros Hin HE. destruct q as [a|a|id|a|]; simpl; [| | | |done].
  - unfold TcpRuntime_create. destruct (negb _); [done|]. unfold TcpRuntime_bind_entry.
    pose proof (bind_listener_outcome a [bind_fail_total] RuntimeCreateFailed s s' (al_id a) Hin) as Hb.
    destruct Hin as (Hc & _). unfold bind, gets, of_result in *. simpl in *. rewrite Hc.
    by destruct (TcpRuntime_bind_addr _ _).
  - unfold TcpRuntime_update, bind, gets, of_result. rewrite HE. destruct (tr_entries s !! al_id a); simpl; [|done].
    by case_bool_decide.
  - unfold TcpRuntime_delete, bind, gets. rewrite HE. by destruct (tr_entries s !! id).
  - unfold TcpRuntime_restore. destruct (negb _); [done|].
    pose proof (bind_listener_outcome a [restore_failures_total; bind_fail_total] RuntimeRestoreFailed s s' (al_id a) Hin) as Hb.
    destruct Hin as (Hc & _). unfold bind, gets, of_result in *. simpl in *. rewrite Hc.
    by destruct (map_err _ _).
Qed.

(** * What an operation leaves *)

(** The view an operation of the facade leaves, as a function of the view it finds. *)
Definition view_after (q : TcpRequest) (r : result unit RuntimeError) (v : gmap string Listener)
    : gmap string Listener :=
  match q with
  | TcpCreate a | TcpRestore a =>
      if bool_decide (al_protocol a = Tcp) && is_ok r then <[al_id a := listener_of a]> v else v
  | TcpUpdate a => alter (λ l, (l.1, al_target a)) (al_id a) v
  | TcpDelete id => delete id v
  | TcpShutdown => ∅
  end.

Lemma stops_rows es s : same_rows s (foldl (λ s e, TcpRuntime_stop_entry e s) s es).
Proof.
  revert s. induction es as [|e es IH]; intros s; simpl; [done|]. etrans; [apply same_rows_stop|apply IH].
Qed.

Lemma operation_view q s :
  tcp_ok s →
  wp (tcp_operation q) (λ r s', refs_inj (tr_entries s') ∧ tcp_view s' = view_after q r (tcp_view s)) s.
Proof.
  intros Hok. destruct q as [a|a|id|a|]; simpl.
  - destruct (decide (al_protocol a = Tcp)) as [Hp|Hp].
    + rewrite bool_decide_true by done. by eapply wp_mono; [apply tcp_create_view|].
    + unfold TcpRuntime_create. rewrite bool_decide_false by done. simpl. split; [apply Hok|done].
  - by eapply wp_mono; [apply tcp_update_view|].
  - by eapply wp_mono; [apply tcp_delete_view|].
  - destruct (decide (al_protocol a = Tcp)) as [Hp|Hp].
    + rewrite bool_decide_true by done. by eapply wp_mono; [apply tcp_restore_view|].
    + unfold TcpRuntime_restore. rewrite bool_decide_false by done. simpl. split; [apply Hok|done].
  - wp_simpl. unfold TcpRuntime_shutdown_all.
    destruct (stops_rows (map_to_list (tr_entries s)).*2 (tr_set_entries ∅ s)) as [HE Hr].
    unfold tcp_view. rewrite HE, Hr. split; [by intros i j e|done].
Qed.

(** The result and the view that an operation in flight is going to leave if nothing else
    comes in. *)
Definition promised (x : TcpRuntime * TcpNext) : result unit RuntimeError * gmap string Listener :=
  match x.2 with
  | Returned r => (r, tcp_view x.1)
  | Waiting (OpCall q) => ((tcp_operation q x.1).1, tcp_view (tcp_operation q x.1).2)
  | Waiting (OpInsert id e) => (Ok tt, tcp_view (tr_set_entries (<[id := e]> (tr_entries x.1)) x.1))
  | Waiting (OpSetState e a) => (Ok tt, tcp_view (tr_alter_entry (te_set_state a) e x.1))
  | Waiting _ => (Ok tt, tcp_view x.1)
  end.

Definition fine_refs (x : TcpRuntime * TcpNext) : Prop :=
  refs_inj (tr_entries x.1) ∧
  match x.2 with Waiting (OpInsert _ e) => ∀ j, tr_entries x.1 !! j ≠ Some e | _ => True end.

Lemma same_rows_view s s' : same_rows s s' → tcp_view s' = tcp_view s.
Proof. intros [HE Hr]. unfold tcp_view. by rewrite HE, Hr. Qed.

Lemma event_promised ev s s' c :
  fine_inv (s, c) → fine_refs (s, c) → tcp_event ev s = Some s' → promised (s', c) = promised (s, c).
Proof.
  intros [Hst _ _] [Hi _] Hev. simpl in Hi. pose proof (tcp_event_rows _ _ _ Hev) as Hrows.
  pose proof (same_rows_view _ _ Hrows) as Hv. destruct (Hrows) as [HE Hr].
  destruct c as [r|[q|id e|e a| | | | | ]]; unfold promised; cbn [fst snd]; try by rewrite Hv.
  - rewrite settled_quiet_op in Hst by done.
    pose proof (operation_result q s s' (event_inputs _ _ _ Hev) HE) as Hres.
    assert (tcp_ok s) as Hok by done.
    assert (tcp_ok s') as Hok' by (split; [by eapply event_structure|by rewrite HE]).
    pose proof (operation_view q s Hok) as Hs. pose proof (operation_view q s' Hok') as Hs'. unfold wp in Hs, Hs'.
    destruct (tcp_operation q s) as [r1 s1], (tcp_operation q s') as [r2 s2]. simpl in *. subst r2.
    destruct Hs as [_ ->], Hs' as [_ ->]. by rewrite Hv.
  - f_equal. unfold tcp_view. change (tcp_rows (tr_set_entries ?E ?s)) with (tcp_rows s). simpl. by rewrite HE, Hr.
  - f_equal. unfold tcp_view. simpl. rewrite HE. f_equal. unfold tcp_rows in *. simpl.
    apply map_eq. intros e'. rewrite !lookup_fmap, !lookup_alter.
    assert (∀ i, tcp_row <$> tr_heap s' !! i = tcp_row <$> tr_heap s !! i) as Hrow
      by (intros i; rewrite <- !lookup_fmap; by rewrite Hr).
    case_decide; [|apply Hrow]. specialize (Hrow e). 
    destruct (tr_heap s' !! e), (tr_heap s !! e); simpl in *; try done.
    unfold tcp_row, tcp_target in *. simpl. congruence.
Qed.

Lemma promised_bound id (m : TcpM nat) s :
  promised ((tcp_bound id (m s)).2, (tcp_bound id (m s)).1) =
  let out := (let! e := m in insert_entry id e;; modify (tr_inc runtime_apply_total)) s in
  (out.1, tcp_view out.2).
Proof. unfold bind, insert_entry, modify. by destruct (m s) as [[e|err] s1]. Qed.

Lemma op_promised op s :
  promised ((tcp_op_step op s).2, (tcp_op_step op s).1) = promised (s, Waiting op).
Proof.
  destruct op as [q|id e|e a|e rest|e rest|e rest|e k|[|t ts] k]; cbn [tcp_op_step].
  - destruct q as [a|a|id|a|]; cbn [tcp_call promised fst snd tcp_operation].
    + unfold TcpRuntime_create. destruct (negb _); [done|]. apply promised_bound.
    + unfold TcpRuntime_update, bind, gets, of_result. destruct (tr_entries s !! al_id a) as [e|]; simpl; [|done].
      case_bool_decide; unfold promised; simpl; f_equal; symmetry;
        (etrans; [|by apply same_rows_view, (same_rows_close e)]); done.
    + unfold TcpRuntime_delete, bind, gets. destruct (tr_entries s !! id) as [e|]; simpl; [|done].
      unfold promised. simpl. f_equal. symmetry. apply same_rows_view, same_rows_stop.
    + unfold TcpRuntime_restore. destruct (negb _); [done|]. rewrite promised_bound.
      unfold bind, gets, of_result. simpl. by destruct (map_err _ _).
    + unfold TcpRuntime_shutdown_all, modify. simpl.
      pose proof (same_rows_view _ _ (stops_rows (map_to_list (tr_entries s)).*2 (tr_set_entries ∅ s))) as ->.
      unfold promised. by destruct (map_to_list _).*2.
  - done.
  - done.
  - unfold promised. simpl. f_equal. by apply same_rows_view, same_rows_alter.
  - destruct (te_accept_task <$> tr_heap s !! e) as [[]|]; [|done..].
    unfold promised. simpl. f_equal. by apply same_rows_view, same_rows_alter.
  - unfold promised. simpl. f_equal. by apply same_rows_view, same_rows_alter.
  - destruct (tr_heap s !! e); [|done].
    unfold promised. simpl. f_equal. by apply same_rows_view, same_rows_alter.
  - destruct k as [|[]]; done.
  - done.
Qed.

Lemma refs_bound id (m : TcpM nat) s :
  tcp_structure s → refs_inj (tr_entries s) →
  wp m (λ r s', tr_entries s' = tr_entries s ∧ ∀ e, r = Ok e → e = tr_next s) s →
  fine_refs ((tcp_bound id (m s)).2, (tcp_bound id (m s)).1).
Proof.
  intros Hst Hi. unfold wp. destruct (m s) as [[e|err] s']; simpl; intros [HE He]; (split; simpl; [by rewrite HE|]).
  - rewrite HE. rewrite (He e) by done. by apply tcp_fresh.
  - done.
Qed.

Lemma bind_refs a failed err s :
  wp (bind_listener a failed err) (λ r s', tr_entries s' = tr_entries s ∧ ∀ e, r = Ok e → e = tr_next s) s.
Proof.
  eapply wp_mono; [apply bind_listener_rows|]. intros [e|e] s'.
  - intros (-> & HE & _). split; [done|]. by intros e' [= ->].
  - intros [HE _]. by split.
Qed.

Lemma fine_step_refs x y : fine_inv x → fine_refs x → fine_step x y → fine_refs y.
Proof.
  intros [Hst _ _] [Hi Hb] Hstep. destruct Hstep as [q r s|op s|ev s s' c Hev]; [done| |].
  - simpl in Hi. destruct op as [q|id e|e a|e rest|e rest|e rest|e k|[|t ts] k]; cbn [tcp_op_step].
    + rewrite settled_quiet_op in Hst by done. destruct q as [a|a|id|a|]; simpl.
      * destruct (negb _); [done|]. apply refs_bound; [done..|]. unfold TcpRuntime_bind_entry. wp_simpl.
        destruct (TcpRuntime_bind_addr _ _); [apply bind_refs|done].
      * destruct (tr_entries s !! al_id a); [|done]. by case_bool_decide.
      * destruct (tr_entries s !! id); [|done]. split; [|done]. simpl.
        eapply refs_inj_subseteq; [exact Hi|apply delete_subseteq].
      * destruct (negb _); [done|]. apply refs_bound; [done..|]. wp_simpl.
        destruct (map_err _ _); simpl; wp_simpl; [apply bind_refs|done].
      * split; [simpl; by intros i j e|]. by destruct (map_to_list _).*2.
    + split; [|done]. simpl. by apply refs_inj_insert.
    + done.
    + done.
    + by destruct (te_accept_task <$> tr_heap s !! e) as [[]|].
    + done.
    + by destruct (tr_heap s !! e).
    + by destruct k as [|[]].
    + done.
  - destruct (tcp_event_rows _ _ _ Hev) as [HE _]. unfold fine_refs in *. simpl in *. rewrite HE.
    by split.
Qed.

(** The steps until the operation in flight has returned, and whatever comes in between. *)
Definition during (x y : TcpRuntime * TcpNext) : Prop := fine_step x y ∧ ∃ op, x.2 = Waiting op.

Lemma during_promised x y :
  fine_inv x → fine_refs x → during x y → promised y = promised x.
Proof.
  intros Hx Hi [Hstep [op Hop]]. destruct Hstep as [q r s|op' s|ev s s' c Hev]; [done|by apply op_promised|].
  by eapply event_promised.
Qed.

Lemma during_keeps x y :
  fine_inv x → fine_refs x → rtc during x y → fine_inv y ∧ fine_refs y ∧ promised y = promised x.
Proof.
  intros Hx Hi Hr. induction Hr as [x|x y z Hxy _ IH]; [done|].
  pose proof (during_promised _ _ Hx Hi Hxy) as <-. destruct Hxy as [Hstep _].
  apply IH; [by eapply fine_step_inv|by eapply fine_step_refs].
Qed.

(** C31: an operation of the facade is not disturbed by the tasks that run while it is under
    way. Called in any state the relay reaches between operations, and with any events
    before each of its steps, it returns what it returns undisturbed, and leaves exactly
    the listeners, with port and target, that it leaves undisturbed. *)
Theorem operation_undisturbed x0 s r0 q s' r :
  fine_initial x0 → rtc fine_step x0 (s, Returned r0) →
  rtc during (s, Waiting (OpCall q)) (s', Returned r) →
  r = (tcp_operation q s).1 ∧ tcp_view s' = tcp_view (tcp_operation q s).2 ∧
  op_runs (Waiting (OpCall q)) s (tcp_operation q s).1 (tcp_operation q s).2.
Proof.
  intros H0 Hr Hq.
  assert (∀ x y, fine_inv x → fine_refs x → rtc fine_step x y → fine_inv y ∧ fine_refs y) as Hreach.
  { intros x y Hx Hi Hxy. induction Hxy; eauto using fine_step_inv, fine_step_refs. }
  assert (fine_inv x0 ∧ fine_refs x0) as [Hx Hi].
  { split; [by apply (reachable_fine x0 x0)|]. destruct x0 as [s0 c0], H0 as [(c & m & b & Hs) Hc]. simpl in *. subst.
    split; [by intros i j e|done]. }
  destruct (Hreach _ _ Hx Hi (rtc_r _ _ _ Hr (fine_call q r0 s))) as [Hcx Hci].
  destruct (during_keeps _ _ Hcx Hci Hq) as (_ & _ & Hp). injection Hp as -> Hv. split_and!; [done|done|apply operation_runs].
Qed.

(** * A race *)
Lemma op_runs_during op s r s' :
  op_runs (Waiting op) s r s' → rtc during (s, Waiting op) (s', Returned r).
Proof.
  intros [n Hn]. revert op s Hn. induction n as [|n IH]; intros op s; simpl; [done|].
  destruct (tcp_op_step op s) as [c1 s1] eqn:Hop. intros Hn.
  assert (during (s, Waiting op) (s1, c1)) as Hd.
  { split; [|by eexists]. pose proof (fine_op op s) as Hf. by rewrite Hop in Hf. }
  destruct c1 as [r1|op1].
  - assert (tcp_op_run n (Returned r1) s1 = (Returned r1, s1)) as He by (by destruct n).
    rewrite He in Hn. injection Hn as -> ->. by apply rtc_once.
  - eapply rtc_l; [exact Hd|by apply IH].
Qed.

Lemma heap_alter f e s : tr_heap (tr_alter_entry f e s) !! e = f <$> tr_heap s !! e.
Proof. apply lookup_alter_eq. Qed.

(** An update may cut off a client of the new target. When the accept task has a client
    whose target it has not read yet, it can read the new target after the update stored it
    and register the session before the update drains the table: the update returns Ok, and
    a session to the new host and port, none of the old ones, has been told to stop. *)
Theorem update_cuts_new_client a s e entry host port :
  tcp_structure s → tr_entries s !! al_id a = Some e → accepting e s = Some (AcceptRead, entry) →
  al_target a = Some (host, port) →
  ∃ s' task, rtc during (s, Waiting (OpCall (TcpUpdate a))) (s', Returned (Ok tt)) ∧
    tr_tasks s !! tr_next s = None ∧ tr_tasks s' !! tr_next s = Some task ∧ ss_entry task = e ∧
    ss_host task = host ∧ ss_target_port task = port ∧ ss_signalled task = true.
Proof.
  intros Hst Hid Ha Hat. apply accepting_Some in Ha as [He Hp].
  assert (TcpRuntime_entry_state_for a =
    {| ts_effective_host := Some host; ts_effective_target_port := Some port;
       ts_runtime_status := Active; ts_error_kind := None; ts_last_error := None |}) as Hstate.
  { unfold al_target in Hat. unfold TcpRuntime_entry_state_for.
    destruct (al_host a), (al_target_port a); try done. by injection Hat as -> ->. }
  set (s2 := tr_alter_entry (te_set_state (TcpRuntime_entry_state_for a)) e s).
  set (entry2 := te_set_state (TcpRuntime_entry_state_for a) entry).
  assert (tr_heap s2 !! e = Some entry2) as He2 by (unfold s2; simpl; by rewrite lookup_alter_eq, He).
  set (i := te_next_session_id entry). set (s3 := handle_client_read e entry2 s2).
  assert (tcp_event (EvReadState e) s2 = Some s3) as Hread.
  { simpl. unfold accepting. rewrite He2. simpl. by rewrite Hp. }
  assert (∃ entry3, tr_heap s3 !! e = Some entry3 ∧ te_accept entry3 = Some (AcceptInsert i host port))
    as (entry3 & He3 & Hp3).
  { unfold s3, handle_client_read, entry2. rewrite Hstate. cbn [te_state te_set_state ts_effective_host ts_effective_target_port].
    rewrite heap_alter, He2. by eexists. }
  assert (tr_next s3 = tr_next s) as Hn3 by (unfold s3, handle_client_read, entry2; by rewrite Hstate).
  assert (tr_tasks s3 = tr_tasks s) as Ht3 by (unfold s3, handle_client_read, entry2; by rewrite Hstate).
  set (s4 := handle_client_insert e entry3 i host port s3).
  assert (tcp_event (EvInsert e) s3 = Some s4) as Hins.
  { simpl. unfold accepting. rewrite He3. simpl. by rewrite Hp3. }
  assert (tcp_structure s4) as Hst4.
  { eapply event_structure; [|exact Hins]. eapply event_structure; [|exact Hread].
    eapply same_structure_inv; [apply same_set_state|done]. }
  set (s5 := TcpRuntime_close_sessions e s4).
  set (new := {| ss_entry := e; ss_id := i; ss_host := host; ss_target_port := port;
                 ss_phase := Connecting; ss_signalled := false |}).
  assert (tr_tasks s4 !! tr_next s = Some new) as Ht4.
  { unfold s4, handle_client_insert. rewrite Hn3. simpl tr_tasks. by rewrite lookup_insert_eq. }
  assert (∃ task, tr_tasks s5 !! tr_next s = Some task ∧ (task = new ∨ task = ss_signal new)) as (task & Ht5 & Htask).
  { unfold s5, TcpRuntime_close_sessions. destruct (tr_heap s4 !! e); [|eauto].
    rewrite signal_all_lookup. change (tr_tasks (tr_alter_entry ?f e s4)) with (tr_tasks s4).
    rewrite Ht4. cbn [fmap option_fmap option_map]. eexists. split; [done|]. unfold told. case_decide; auto. }
  assert (ss_signalled task = true) as Hsig.
  { destruct (close_sessions_spec e s4 Hst4) as (_ & _ & _ & _ & Hall).
    apply (Hall (tr_next s) i). unfold links. rewrite lookup_fmap. fold s5. rewrite Ht5. simpl.
    by destruct Htask as [->| ->]. }
  exists (tr_inc runtime_apply_total s5), task. split_and!; try by destruct Htask as [->| ->].
  - assert (during (s, Waiting (OpCall (TcpUpdate a))) (s, Waiting (OpSetState e (TcpRuntime_entry_state_for a)))) as H1.
    { split; [|by eexists]. pose proof (fine_op (OpCall (TcpUpdate a)) s) as Hf. simpl in Hf. rewrite Hid in Hf.
      rewrite Hstate in Hf |- *. exact Hf. }
    eapply rtc_l; [exact H1|].
    eapply rtc_l; [split; [apply fine_op|by eexists]|].
    eapply rtc_l; [split; [by eapply fine_event, Hread|by eexists]|].
    eapply rtc_l; [split; [by eapply fine_event, Hins|by eexists]|].
    apply op_runs_during. cbn [tcp_op_step fst]. apply op_runs_drain. fold s5.
    by apply op_runs_step, op_runs_returned.
  - destruct (tr_tasks s !! tr_next s) as [x|] eqn:Hx; [|done].
    assert (tr_next s < tr_next s)%nat; [|lia]. apply (st_task_ref _ _ _ _ Hst).
    unfold links. rewrite lookup_fmap, Hx. by eexists.
Qed.
