(* ===== verification/TcpFineWitness.v ===== *)
(** Runs of the TCP relay in which clients come in the middle of operations. *)
From stdpp Require Import base gmap strings list relations.
From Stdlib Require Import ZArith Lia.
From S2P Require Import Prelude RustStd Model Facade Metrics Account Serving Tcp TcpSpec TcpQuiet TcpAccount TcpWitness.
From S2P Require Import RealServing Views TcpFine TcpFineSpec TcpFineViews TcpFineEnd.
Open Scope Z_scope.

Inductive FineAction : Type := FineCall (q : TcpRequest) | FineOp | FineEvent (ev : TcpEvent).

Definition fine_do (a : FineAction) (x : TcpRuntime * TcpNext) : option (TcpRuntime * TcpNext) :=
  match a, x.2 with
  | FineCall q, Returned _ => Some (x.1, Waiting (OpCall q))
  | FineOp, Waiting op => Some ((tcp_op_step op x.1).2, (tcp_op_step op x.1).1)
  | FineEvent ev, c => s ← tcp_event ev x.1; Some (s, c)
  | _, _ => None
  end.

Fixpoint fine_exec (l : list FineAction) (x : TcpRuntime * TcpNext) : option (TcpRuntime * TcpNext) :=
  match l with
  | [] => Some x
  | a :: l' => y ← fine_do a x; fine_exec l' y
  end.

Lemma fine_do_step a x y : fine_do a x = Some y → fine_step x y.
Proof.
  destruct x as [s c], a as [q| |ev], c as [r|op]; simpl; try done.
  - intros [= <-]. constructor.
  - intros [= <-]. constructor.
  - intros (s' & Hev & [= <-])%bind_Some. by eapply fine_event.
  - intros (s' & Hev & [= <-])%bind_Some. by eapply fine_event.
Qed.

Lemma fine_exec_rtc l x y : fine_exec l x = Some y → rtc fine_step x y.
Proof.
  revert x. induction l as [|a l IH]; intros x; simpl; [intros [= <-]; constructor|].
  intros (z & Hz & Hl)%bind_Some. econstructor; [by eapply fine_do_step|by apply IH].
Qed.

(** Without a call everything is part of the operation in flight. *)
Definition in_flight (x : TcpRuntime * TcpNext) : bool := match x.2 with Waiting _ => true | _ => false end.

Fixpoint during_exec (l : list FineAction) (x : TcpRuntime * TcpNext) : option (TcpRuntime * TcpNext) :=
  match l with
  | [] => Some x
  | a :: l' => if in_flight x then y ← fine_do a x; during_exec l' y else None
  end.

Lemma during_exec_rtc l x y : during_exec l x = Some y → rtc during x y.
Proof.
  revert x. induction l as [|a l IH]; intros x; simpl; [intros [= <-]; constructor|].
  destruct (in_flight x) eqn:Hx; [|done]. intros (z & Hz & Hl)%bind_Some.
  econstructor; [|by apply IH]. split; [by eapply fine_do_step|].
  destruct x as [s [r|op]]; [done|by exists op].
Qed.

Definition fine_state0 : TcpRuntime * TcpNext := (tcp_state0, Returned (Ok tt)).

Lemma fine_initial0 : fine_initial fine_state0.
Proof. split; [apply tcp_initial0|done]. Qed.

Definition fine_after (l : list FineAction) : TcpRuntime * TcpNext := default fine_state0 (fine_exec l fine_state0).

Lemma fine_after_reachable l : rtc fine_step fine_state0 (fine_after l).
Proof.
  unfold fine_after. destruct (fine_exec l fine_state0) eqn:Hl; simpl; [by eapply fine_exec_rtc|constructor].
Qed.

(** A listener (reference 0) with a session (reference 1). *)
Definition fine_serving : list FineAction :=
  [FineCall (TcpCreate (tcp_allocation (Some "10.0.0.1"))); FineOp; FineOp;
   FineEvent (EvAccept 0); FineEvent (EvReadState 0); FineEvent (EvInsert 0); FineEvent (EvConnected 1)].

(** The deletion, while the accept task serves one more client (reference 2). *)
Definition fine_deleting : list FineAction :=
  [FineOp; FineEvent (EvAccept 0); FineOp; FineEvent (EvReadState 0); FineOp; FineEvent (EvInsert 0);
   FineOp; FineOp; FineOp; FineOp; FineOp].

Definition fine_deleted : TcpRuntime * TcpNext :=
  default fine_state0 (during_exec fine_deleting ((fine_after fine_serving).1, Waiting (OpCall (TcpDelete "a")))).

Definition returned (x : TcpRuntime * TcpNext) : bool :=
  match x.2 with Returned (Ok _) => true | _ => false end.

Lemma returned_eq x : returned x = true → x = (x.1, Returned (Ok tt)).
Proof. by destruct x as [s [[[]|e]|op]]. Qed.

Lemma during_fine x y : rtc during x y → rtc fine_step x y.
Proof. induction 1 as [|x y z [? _] _ IH]; [done|]. by eapply rtc_l. Qed.

Lemma fine_serving_returned : fine_after fine_serving = ((fine_after fine_serving).1, Returned (Ok tt)).
Proof. apply returned_eq. vm_compute. reflexivity. Qed.

Lemma fine_deleted_during :
  rtc during ((fine_after fine_serving).1, Waiting (OpCall (TcpDelete "a"))) (fine_deleted.1, Returned (Ok tt)).
Proof.
  assert (match during_exec fine_deleting ((fine_after fine_serving).1, Waiting (OpCall (TcpDelete "a")))
          with Some x => returned x | None => false end = true) as Hr by (vm_compute; reflexivity).
  unfold fine_deleted. destruct (during_exec _ _) as [x|] eqn:Hx; [|discriminate Hr]. cbn [default].
  rewrite (returned_eq x Hr) in Hx. by apply during_exec_rtc in Hx.
Qed.

Lemma fine_serving_reachable : rtc fine_step fine_state0 ((fine_after fine_serving).1, Returned (Ok tt)).
Proof. rewrite <- fine_serving_returned. apply fine_after_reachable. Qed.

Lemma fine_counts_exact_witness :
  let s := (fine_after fine_serving).1 in
  size (copying s) = 1%nat ∧
  Gauge_load tcp_active_sessions (tr_metrics s) = wrap (Z.of_nat (size (copying s))) ∧
  ∀ e entry, tr_heap s !! e = Some entry →
    tm_active (te_metrics entry) = wrap (Z.of_nat (size (owned e (copying s)))).
Proof.
  split; [by vm_compute|]. eapply fine_counts_exact. exact fine_serving_reachable.
Defined.

(** Both sessions, the one that came during the deletion included, were told. *)
Lemma returned_deletion_stays_witness :
  let s := fine_deleted.1 in
  size (tr_tasks s) = 2%nat ∧
  (∃ entry, tr_heap s !! 0%nat = Some entry ∧ te_accept entry = None) ∧
  (∀ task t, tr_tasks s !! t = Some task → ss_entry task = 0%nat → ss_signalled task = true).
Proof.
  split; [by vm_compute|].
  apply (returned_deletion_stays fine_state0 (fine_after fine_serving).1 "a" 0 (Ok tt) fine_deleted.1 (Ok tt)
           fine_deleted.1 (Returned (Ok tt)));
    [apply fine_initial0|exact fine_serving_reachable|by vm_compute|apply during_fine, fine_deleted_during|constructor].
Defined.

(** The session that the listener had is told, and ends by itself. *)
Lemma told_session_ends_witness :
  let s := fine_deleted.1 in
  is_Some (tr_tasks s !! 1%nat) ∧
  (tr_tasks s !! 1%nat = None ∨
   ∃ s3 s4, (s3 = s ∨ tcp_event (EvCancelled 1) s = Some s3) ∧ tcp_event (EvRemoved 1) s3 = Some s4 ∧
     tr_tasks s4 !! 1%nat = None).
Proof.
  assert (∃ task, tr_tasks (fine_after fine_serving).1 !! 1%nat = Some task ∧ ss_entry task = 0%nat) as (task & Ht & He)
    by (eexists; split; vm_compute; reflexivity).
  split; [vm_compute; eexists; reflexivity|].
  apply (told_session_ends fine_state0 (fine_after fine_serving).1 (Ok tt) (TcpDelete "a") "a" 0 1 task
           fine_deleted.1 (Ok tt) fine_deleted.1 (Returned (Ok tt)));
    [apply fine_initial0|exact fine_serving_reachable|left; reflexivity|by vm_compute|exact Ht|exact He|
     apply during_fine, fine_deleted_during|constructor].
Defined.

Lemma operation_undisturbed_witness :
  tcp_view fine_deleted.1 = ∅ ∧ Ok tt = (tcp_operation (TcpDelete "a") (fine_after fine_serving).1).1.
Proof.
  destruct (operation_undisturbed fine_state0 (fine_after fine_serving).1 (Ok tt) (TcpDelete "a")
    fine_deleted.1 (Ok tt) fine_initial0 fine_serving_reachable fine_deleted_during) as (Hr & Hv & _).
  split; [|exact Hr]. rewrite Hv. vm_compute. reflexivity.
Defined.

(** A client is accepted, its target not read yet. *)
Definition fine_accepted : list FineAction := fine_serving ++ [FineEvent (EvAccept 0)].

Lemma update_cuts_new_client_witness :
  ∃ s' task,
    rtc during ((fine_after fine_accepted).1, Waiting (OpCall (TcpUpdate (tcp_allocation (Some "10.0.0.2")))))
      (s', Returned (Ok tt)) ∧
    tr_tasks s' !! tr_next (fine_after fine_accepted).1 = Some task ∧
    ss_host task = "10.0.0.2"%string ∧ ss_signalled task = true.
Proof.
  set (s := (fine_after fine_accepted).1).
  assert (tcp_structure s) as Hst.
  { pose proof (fi_structure _ (reachable_fine _ _ fine_initial0 (fine_after_reachable fine_accepted))) as Hst.
    assert (pending (fine_after fine_accepted).2 = []) as Hp by (vm_compute; reflexivity).
    unfold settled in Hst. by rewrite Hp, signal_all_nil in Hst. }
  assert (tr_entries s !! al_id (tcp_allocation (Some "10.0.0.2"%string)) = Some 0%nat) as Hid by (vm_compute; reflexivity).
  assert ((λ p, match p.1 with AcceptRead => true | _ => false end) <$> accepting 0 s = Some true) as Ha
    by (vm_compute; reflexivity).
  apply fmap_Some in Ha as ([p entry] & Ha & Hp). simpl in Hp. destruct p; try discriminate Hp.
  destruct (update_cuts_new_client (tcp_allocation (Some "10.0.0.2"%string)) s 0 entry "10.0.0.2" 80 Hst Hid Ha eq_refl)
    as (s' & task & Hrun & _ & Ht & _ & Hh & _ & Hsig).
  exists s', task. split; [exact Hrun|]. split; [exact Ht|]. split; [exact Hh|exact Hsig].
Defined.
