(* ===== verification/UdpFine.v ===== *)
(** The operations of the UDP relay's facade (runtime/udp.rs) at the grain of the code: one
    step from one lock, send or await to the next, and the relay's tasks run in between.

    As in TcpFine.v an operation in flight is the place where it waits, and the service's
    mutation lock lets one run at a time. The sessions an operation has drained are its own
    until it has closed them, so they are not dropped. *)
From stdpp Require Import base gmap strings list relations.
From Stdlib Require Import ZArith Lia.
From S2P Require Import Prelude RustStd Model Facade Metrics UdpModel Udp UdpSpec UdpSteps.
Open Scope Z_scope.

(** * Where an operation waits *)

(** What [close_sessions] returns to: [update], or [stop_entry] with the listeners that
    [shutdown_all] has left and whether the sessions count as dropped replies. *)
Inductive UdpAfter : Type :=
| UafUpdate
| UafStop (count_as_reply_drop : bool) (rest : list nat).

Definition after_counts (k : UdpAfter) : bool :=
  match k with UafUpdate => true | UafStop count _ => count end.

Inductive UdpOp : Type :=
| UopCall (q : UdpRequest)
| UopInsert (id : string) (e : nat)                       (* create, restore: to lock [entries] *)
| UopSetState (e : nat) (x : UdpEntryState)               (* update: to lock the state *)
| UopStop (e : nat) (count : bool) (rest : list nat)      (* stop_entry *)
| UopTakeReceive (e : nat) (count : bool) (rest : list nat)   (* to lock [receive_task] *)
| UopAwaitReceive (e : nat) (count : bool) (rest : list nat)  (* the aborted receive task *)
| UopTakeCleanup (e : nat) (count : bool) (rest : list nat)   (* to lock [cleanup_task] *)
| UopAwaitCleanup (e : nat) (count : bool) (rest : list nat)  (* the aborted cleanup task *)
| UopDrain (e : nat) (k : UdpAfter)                       (* close_sessions: to lock [sessions] *)
| UopClose (xs : list nat) (e : nat) (k : UdpAfter)       (* to close the drained sessions *)
| UopTakeReply (x : nat) (xs : list nat) (e : nat) (k : UdpAfter)   (* to lock [reply_task] *)
| UopAwaitReply (x : nat) (xs : list nat) (e : nat) (k : UdpAfter). (* the aborted reply task *)

Inductive UdpNext : Type :=
| UdpReturned (r : result unit RuntimeError)
| UdpWaiting (op : UdpOp).

(** The sessions whose [Arc] the operation holds. *)
Definition op_sessions (c : UdpNext) : list nat :=
  match c with
  | UdpWaiting (UopClose xs _ _) => xs
  | UdpWaiting (UopTakeReply x xs _ _) | UdpWaiting (UopAwaitReply x xs _ _) => x :: xs
  | _ => []
  end.

(** * The parts of [stop_entry] *)
Definition ue_take_receive (e : UdpListenerEntry) : UdpListenerEntry :=
  {| ue_port := ue_port e; ue_bind_host := ue_bind_host e; ue_state := ue_state e;
     ue_metrics := ue_metrics e; ue_shutdown := ue_shutdown e; ue_receive := ue_receive e;
     ue_receive_task := false; ue_cleanup := ue_cleanup e;
     ue_cleanup_task := ue_cleanup_task e; ue_buffers := ue_buffers e;
     ue_sessions := ue_sessions e; ue_empty_since := ue_empty_since e;
     ue_generation := ue_generation e; ue_max_sessions := ue_max_sessions e;
     ue_session_ttl := ue_session_ttl e; ue_udp_batch_enabled := ue_udp_batch_enabled e |}.

Definition ue_take_cleanup (e : UdpListenerEntry) : UdpListenerEntry :=
  {| ue_port := ue_port e; ue_bind_host := ue_bind_host e; ue_state := ue_state e;
     ue_metrics := ue_metrics e; ue_shutdown := ue_shutdown e; ue_receive := ue_receive e;
     ue_receive_task := ue_receive_task e; ue_cleanup := ue_cleanup e;
     ue_cleanup_task := false; ue_buffers := ue_buffers e; ue_sessions := ue_sessions e;
     ue_empty_since := ue_empty_since e; ue_generation := ue_generation e;
     ue_max_sessions := ue_max_sessions e; ue_session_ttl := ue_session_ttl e;
     ue_udp_batch_enabled := ue_udp_batch_enabled e |}.

(** * Steps *)
Definition udp_bound (id : string) (r : result nat RuntimeError * UdpRuntime) : UdpNext * UdpRuntime :=
  match r with
  | (Ok e, s) => (UdpWaiting (UopInsert id e), s)
  | (Err error, s) => (UdpReturned (Err error), s)
  end.

(** The next listener of [shutdown_all]. *)
Definition udp_stop_next (es : list nat) : UdpNext :=
  match es with
  | [] => UdpReturned (Ok tt)
  | e :: rest => UdpWaiting (UopStop e false rest)
  end.

Definition udp_call (q : UdpRequest) (s : UdpRuntime) : UdpNext * UdpRuntime :=
  match q with
  | UdpCreate a =>
      if negb (bool_decide (al_protocol a = Udp)) then (UdpReturned (Ok tt), s)
      else udp_bound (al_id a) (UdpRuntime_bind_entry a false s)
  | UdpRestore a =>
      if negb (bool_decide (al_protocol a = Udp)) then (UdpReturned (Ok tt), s)
      else udp_bound (al_id a) (UdpRuntime_bind_entry a true s)
  | UdpUpdate a =>
      match ur_entries s !! al_id a with
      | None => (UdpReturned (Err RuntimeUpdateFailed), s)
      | Some e =>
          let new_state := UdpRuntime_entry_state_for a in
          (UdpWaiting (UopSetState e new_state),
           if bool_decide (us_runtime_status new_state = RejectingNoHost)
           then ur_inc rejected_no_host_total s else s)
      end
  | UdpDelete id =>
      match ur_entries s !! id with
      | None => (UdpReturned (Ok tt), s)
      | Some e => (UdpWaiting (UopStop e true []), ur_set_entries (delete id (ur_entries s)) s)
      end
  | UdpShutdown => (udp_stop_next (map_to_list (ur_entries s)).*2, ur_set_entries ∅ s)
  end.

(** The state under its lock, with the generation after the one it had. *)
Definition next_generation (x : UdpEntryState) (entry : UdpListenerEntry) : UdpListenerEntry :=
  ue_set_state (us_set_generation (u64_saturating_add (us_generation (ue_state entry)) 1) x) entry.

Definition udp_op_act (op : UdpOp) (s : UdpRuntime) : UdpNext * UdpRuntime :=
  match op with
  | UopCall q => udp_call q s
  | UopInsert id e =>
      (UdpReturned (Ok tt), ur_inc runtime_apply_total (ur_set_entries (<[id := e]> (ur_entries s)) s))
  | UopSetState e x => (UdpWaiting (UopDrain e UafUpdate), ur_alter_entry (next_generation x) e s)
  | UopStop e count rest => (UdpWaiting (UopTakeReceive e count rest), ur_alter_entry ue_send_shutdown e s)
  | UopTakeReceive e count rest =>
      match ue_receive_task <$> ur_heap s !! e with
      | Some true => (UdpWaiting (UopAwaitReceive e count rest), ur_alter_entry ue_take_receive e s)
      | _ => (UdpWaiting (UopTakeCleanup e count rest), s)
      end
  | UopAwaitReceive e count rest =>
      (UdpWaiting (UopTakeCleanup e count rest), ur_alter_entry (ue_set_receive None) e s)
  | UopTakeCleanup e count rest =>
      match ue_cleanup_task <$> ur_heap s !! e with
      | Some true => (UdpWaiting (UopAwaitCleanup e count rest), ur_alter_entry ue_take_cleanup e s)
      | _ => (UdpWaiting (UopDrain e (UafStop count rest)), s)
      end
  | UopAwaitCleanup e count rest =>
      (UdpWaiting (UopDrain e (UafStop count rest)), ur_alter_entry ue_end_cleanup e s)
  | UopDrain e k =>
      match ur_heap s !! e with
      | Some entry =>
          (UdpWaiting (UopClose (map_to_list (ue_sessions entry)).*2 e k),
           ur_alter_entry (ue_set_sessions ∅) e s)
      | None => (UdpWaiting (UopClose [] e k), s)
      end
  | UopClose (x :: xs) e k =>
      (UdpWaiting (UopTakeReply x xs e k),
       ur_alter_session (ux_set_closed true) x (if after_counts k then record_removal DropReply s else s))
  | UopTakeReply x xs e k =>
      match ux_handle <$> ur_sessions s !! x with
      | Some true => (UdpWaiting (UopAwaitReply x xs e k), ur_alter_session (ux_set_handle false) x s)
      | _ => (UdpWaiting (UopClose xs e k), s)
      end
  | UopAwaitReply x xs e k => (UdpWaiting (UopClose xs e k), ur_alter_session (ux_set_reply None) x s)
  | UopClose [] e k =>
      let s1 := ur_alter_entry (ue_set_empty_since (Some (ur_now s))) e s in
      match k with
      | UafUpdate => (UdpReturned (Ok tt), ur_inc runtime_apply_total s1)
      | UafStop _ rest => (udp_stop_next rest, s1)
      end
  end.

(** What the step let go of is dropped. *)
Definition udp_op_step (op : UdpOp) (s : UdpRuntime) : UdpNext * UdpRuntime :=
  let '(c, s') := udp_op_act op s in (c, drop_unheld_but (op_sessions c) s').

(** An operation starts when the one before has returned; its steps and the events of the
    tasks interleave. *)
Inductive udp_fine_step : UdpRuntime * UdpNext → UdpRuntime * UdpNext → Prop :=
| udp_fine_call q r s : udp_fine_step (s, UdpReturned r) (s, UdpWaiting (UopCall q))
| udp_fine_op op s : udp_fine_step (s, UdpWaiting op) ((udp_op_step op s).2, (udp_op_step op s).1)
| udp_fine_event ev s s' c :
    udp_task_step ev s = Some s' → udp_fine_step (s, c) (drop_unheld_but (op_sessions c) s', c).

(** Undisturbed, an operation's steps one after the other. *)
Fixpoint udp_op_run (n : nat) (c : UdpNext) (s : UdpRuntime) : UdpNext * UdpRuntime :=
  match n, c with
  | S n', UdpWaiting op => let '(c', s') := udp_op_step op s in udp_op_run n' c' s'
  | _, _ => (c, s)
  end.
