(* ===== verification/UdpFineSpec.v ===== *)
(** The UDP relay under the finest interleaving: the invariant, the counts and what its
    clients are promised, in every state between two steps of an operation. *)
From stdpp Require Import base gmap strings list relations fin_maps.
From Stdlib Require Import ZArith Lia.
From S2P Require Import Prelude RustStd Model Facade Metrics Account.
From S2P Require Import UdpModel Udp UdpSpec UdpSteps UdpProps UdpAccount UdpQuiet UdpFine.
Open Scope Z_scope.

(** * The invariant *)

(** What the operation in flight leaves open. *)
Definition drained (xs : list nat) : Window := {| wn_stale := None; wn_drained := xs |}.

Definition op_window (c : UdpNext) : Window :=
  match c with
  | UdpWaiting (UopDrain e UafUpdate) => stale e
  | UdpWaiting (UopClose xs _ _) | UdpWaiting (UopTakeReply _ xs _ _)
  | UdpWaiting (UopAwaitReply _ xs _ _) => drained xs
  | _ => shut
  end.

Definition all_held_but (l : list nat) (s : UdpRuntime) : Prop :=
  ∀ x y, ur_sessions s !! x = Some y → held s x y = true ∨ x ∈ l.

(** The listener that is about to get its name exists. *)
Definition op_ok (s : UdpRuntime) (c : UdpNext) : Prop :=
  match c with UdpWaiting (UopInsert _ e) => is_Some (ur_heap s !! e) | _ => True end.

Record udp_fine_inv (x : UdpRuntime * UdpNext) : Prop := {
  ufi_inv : inv_within (op_window x.2) x.1;
  ufi_account : udp_account x.1;
  ufi_held : all_held_but (op_sessions x.2) x.1;
  ufi_op : op_ok x.1 x.2;
}.

(** ** Draining and closing *)
Lemma inv_drain w e entry s :
  inv_within w s → wn_drained w = [] → (∀ e', wn_stale w = Some e' → e' = e) →
  ur_heap s !! e = Some entry →
  inv_within (drained (map_to_list (ue_sessions entry)).*2) (ur_alter_entry (ue_set_sessions ∅) e s).
Proof.
  intros (I1 & I2 & I3 & _) Hd Hst He. set (l := (map_to_list (ue_sessions entry)).*2).
  assert (∀ x, x ∈ l ↔ ∃ c, ue_sessions entry !! c = Some x) as Hl.
  { intros x. unfold l. rewrite <- table_value_leaves. unfold leaves. split; [naive_solver|].
    intros [c Hc]. exists c. by rewrite lookup_empty. }
  destruct (I2 _ _ He) as [Helt Hok].
  assert (∀ x y, x ∈ l → ur_sessions s !! x = Some y → ux_entry y = e) as Hown.
  { intros x y [c Hc]%Hl Hy. by destruct (row_session _ _ _ _ _ _ _ Hok Hc Hy). }
  assert (∀ x, x ∈ l → is_Some (ur_sessions s !! x)) as Hthere.
  { intros x [c Hc]%Hl. destruct Hok as (_ & _ & _ & Ht & _). destruct (Ht _ _ Hc) as (_ & y & Hy & _). by eexists. }
  split_and!; simpl.
  - intros id e0 H0. apply I1 in H0 as [entry0 H0]. rewrite lookup_alter. case_decide as Heq; [subst e0|];
      rewrite H0; by eexists.
  - intros e0 entry0. rewrite lookup_alter. case_decide as Heq.
    + subst e0. rewrite He. intros [= <-]. split; [done|].
      destruct Hok as (? & ? & Hsz & Ht & Hph). split_and!; simpl; [done|lia|lia|by left| |].
      * intros c x. simpl. by rewrite lookup_empty.
      * intros ph Hrx. specialize (Hph ph Hrx).
        destruct ph as [|b|p|p|p x|p x|p x|b i gs]; simpl in *; try done.
        -- destruct Hph as (? & ? & Hroom). split_and!; [done|done|]. unfold room in *. simpl.
           rewrite map_size_empty. lia.
        -- destruct Hph as (? & Hroom & ? & [Hno _] & ?). split_and!; try done.
           ++ unfold room in *. simpl. rewrite map_size_empty. lia.
           ++ intros [c Hc]%Hl. by apply (Hno c).
        -- destruct Hph as (? & c & ? & ? & Hrow). split; [done|]. exists c. split_and!; [done..|].
           intros Ho. right. apply Hl. destruct (Hrow Ho) as [?|Hin]; [by eexists|].
           rewrite Hd in Hin. by apply elem_of_nil in Hin.
    + intros H0. destruct (I2 _ _ H0) as [Hlt (? & ? & ? & Ht & Hph)]. split; [done|].
      split_and!; [done|lia|lia|done| |].
      * intros c x Hc. destruct (Ht c x Hc) as (_ & y & Hy & Hye & Hrest & Hg & Hcur & Hop). split.
        -- intros Hx. rewrite (Hown _ _ Hx Hy) in Hye. done.
        -- exists y. split_and!; try done. intros _. apply Hcur. intros Hw%Hst. congruence.
      * intros ph Hrx. specialize (Hph ph Hrx).
        destruct ph as [|b|p|p|p x|p x|p x|b i gs]; simpl in *; try done.
        -- destruct Hph as (? & ? & ? & [? _] & c & ? & Hk). split_and!; try done; [|by exists c].
           intros Hx. destruct Hk as (y & Hy & Hye & _). rewrite (Hown _ _ Hx Hy) in Hye. done.
        -- destruct Hph as (? & c & ? & ? & Hrow). split; [done|]. exists c. split_and!; [done..|].
           intros Ho. destruct (Hrow Ho) as [?|Hin]; [by left|]. rewrite Hd in Hin. by apply elem_of_nil in Hin.
  - intros x y Hx. destruct (I3 _ _ Hx) as [Hlt (entry0 & He0 & Hge & Hr)]. split; [done|].
    unfold session_ok. rewrite lookup_alter, He0.
    assert (live y → ue_sessions entry0 !! ux_client_addr y = Some x) as Hrow.
    { intros Hy. destruct (Hr Hy) as [?|Hin]; [done|]. rewrite Hd in Hin. by apply elem_of_nil in Hin. }
    case_decide as Heq; [subst e|eauto 10]. eexists. split_and!; [by rewrite He0|done|]. intros Hy%Hrow. right.
    assert (entry0 = entry) as -> by congruence. apply Hl. eauto.
  - intros x Hx. destruct (Hthere x Hx) as [y Hy]. by destruct (I3 _ _ Hy).
Qed.

(** One drained session less, as it is closed. *)
Lemma inv_closed x xs s :
  inv_within (drained (x :: xs)) s → (∀ y, ur_sessions s !! x = Some y → ux_closed y = true) →
  inv_within (drained xs) s.
Proof.
  intros (I1 & I2 & I3 & I4) Hcl. simpl in I4.
  assert (∀ x', x' ∉ x :: xs → x' ∉ xs) as Hnin by (intros ? [_ ?]%not_elem_of_cons; done).
  split_and!; [exact I1| | |intros x' Hx'; apply I4; by right].
  - intros e entry He. destruct (I2 _ _ He) as [Hlt (? & ? & ? & Ht & Hph)]. split; [done|].
    split_and!; [done|lia|lia|done| |].
    + intros c x' Hc. destruct (Ht c x' Hc) as (Hno & Hrest). split; [by apply Hnin|exact Hrest].
    + intros ph Hrx. specialize (Hph ph Hrx).
      destruct ph as [|b|p|p|p x'|p x'|p x'|b i gs]; simpl in *; try done.
      * destruct Hph as (? & ? & ? & [? ?] & ?). split_and!; try done. by apply Hnin.
      * destruct Hph as (? & c & ? & ? & Hrow). split; [done|]. exists c. split_and!; [done..|].
        intros Ho. destruct (Hrow Ho) as [?|[->|?]%elem_of_cons]; [by left| |by right].
        exfalso. destruct Ho as (y & Hy & Ho). rewrite (Hcl _ Hy) in Ho. done.
  - intros x' y Hy. destruct (I3 _ _ Hy) as [Hlt (entry & He & Hge & Hr)]. split; [done|]. exists entry.
    split_and!; [done..|]. intros Hl. destruct (Hr Hl) as [?|[->|?]%elem_of_cons]; [by left| |by right].
    exfalso. destruct Hl as [_ Ho]. rewrite (Hcl _ Hy) in Ho. done.
Qed.

Lemma inv_close_one x xs s :
  inv_within (drained (x :: xs)) s → inv_within (drained xs) (ur_alter_session (ux_set_closed true) x s).
Proof.
  intros Hinv. apply (inv_closed x).
  - apply inv_alter_session; [done|]. intros y Hy. split_and!; [done|done|]. intros entry He Hok.
    split; [|by intros [_ ?]]. destruct Hok as (_ & _ & _ & Ht & Hph). intros [[[c Hc] _]|(p & Hp)]; exfalso.
    + destruct (Ht _ _ Hc) as [Hno _]. apply Hno. by left.
    + destruct (Hph _ Hp) as (_ & _ & _ & [_ Hno] & _). apply Hno. by left.
  - intros y. simpl. rewrite lookup_alter_eq. by intros (y0 & _ & ->)%fmap_Some.
Qed.

Lemma inv_same_session w f x s :
  inv_within w s →
  (∀ y, ident (f y) = ident y ∧ ux_closed (f y) = ux_closed y ∧ (is_Some (ux_reply (f y)) → is_Some (ux_reply y))) →
  inv_within w (ur_alter_session f x s).
Proof.
  intros Hinv Hf. apply inv_alter_session; [done|]. intros y Hy. destruct (Hf y) as (? & Hcl & Hr).
  split_and!; [done|by rewrite Hcl|]. intros entry He Hok. split; [done|]. intros [? Hc]. left.
  rewrite Hcl in Hc. by split; [apply Hr|].
Qed.

Lemma inv_same_tables w f e s :
  inv_within w s →
  (∀ x, ue_state (f x) = ue_state x ∧ ue_generation (f x) = ue_generation x ∧
        ue_sessions (f x) = ue_sessions x ∧ ue_max_sessions (f x) = ue_max_sessions x ∧
        (ue_receive (f x) = ue_receive x ∨ ue_receive (f x) = None)) →
  inv_within w (ur_alter_entry f e s).
Proof.
  intros Hinv Hf. apply inv_alter_entry; [done|]. intros entry He (? & ? & ? & Ht & Hph).
  destruct (Hf entry) as (Es & Eg & Et & Em & Er). rewrite Et, Eg. split_and!; [|lia|done].
  unfold entry_ok, table_ok, entry_target. rewrite Es, Eg, Et, Em. split_and!; [done|lia|lia|done|exact Ht|].
  intros ph Hrx. assert (ue_receive entry = Some ph) as Hrx' by (destruct Er; congruence).
  specialize (Hph ph Hrx'). destruct ph; simpl in *; unfold prep_ok, room, entry_target in *;
    rewrite ?Es, ?Eg, ?Et, ?Em; exact Hph.
Qed.

(** ** Steps *)
Lemma stop_next_window es : op_window (udp_stop_next es) = shut ∧ op_sessions (udp_stop_next es) = [].
Proof. by destruct es. Qed.

Lemma udp_call_inv q s :
  udp_inv s →
  inv_within (op_window (udp_call q s).1) (udp_call q s).2 ∧ op_ok (udp_call q s).2 (udp_call q s).1.
Proof.
  intros Hinv.
  assert (∀ id a r, inv_within (op_window (udp_bound id (UdpRuntime_bind_entry a r s)).1)
                      (udp_bound id (UdpRuntime_bind_entry a r s)).2 ∧
                    op_ok (udp_bound id (UdpRuntime_bind_entry a r s)).2
                      (udp_bound id (UdpRuntime_bind_entry a r s)).1) as Hbound.
  { intros id a r. pose proof (bind_entry_inv a r s Hinv) as Hb. unfold wp in Hb.
    destruct (UdpRuntime_bind_entry a r s) as [[e|err] s1]; simpl in *; destruct Hb; auto. }
  destruct q as [a|a|id|a|]; simpl.
  - by destruct (negb _).
  - destruct (ur_entries s !! al_id a); simpl; [|done]. split; [|done].
    case_bool_decide; [|done]. eapply inv_same; [apply udp_same_metric|done].
  - destruct (ur_entries s !! id); simpl; [|done]. split; [|done]. by apply inv_entries, delete_subseteq.
  - by destruct (negb _).
  - destruct (stop_next_window (map_to_list (ur_entries s)).*2) as [-> _].
    split; [by apply inv_entries, map_empty_subseteq|by destruct (map_to_list _).*2].
Qed.

Lemma op_act_inv op s :
  inv_within (op_window (UdpWaiting op)) s → op_ok s (UdpWaiting op) →
  inv_within (op_window (udp_op_act op s).1) (udp_op_act op s).2 ∧ op_ok (udp_op_act op s).2 (udp_op_act op s).1.
Proof.
  intros Hinv Hop.
  destruct op as [q|id e|e x|e b rest|e b rest|e b rest|e b rest|e b rest|e k|[|x xs] e k|x xs e k|x xs e k];
    cbn [udp_op_act].
  - by apply udp_call_inv.
  - split; [|done]. eapply inv_same; [apply udp_same_metric|by apply inv_insert_entry].
  - split; [|done]. simpl in *.
    apply (inv_set_state e (λ y, us_set_generation (u64_saturating_add (us_generation (ue_state y)) 1) x)); [done|by intros].
  - split; [|done]. apply inv_same_tables; [done|]. intros y. by split_and!; [..|left].
  - destruct (ue_receive_task <$> ur_heap s !! e) as [[]|]; (split; [|done]); [|done..].
    apply inv_same_tables; [done|]. intros y. by split_and!; [..|left].
  - split; [|done]. by apply inv_stop_receive.
  - destruct (ue_cleanup_task <$> ur_heap s !! e) as [[]|]; (split; [|done]); [|by destruct b..].
    apply inv_same_tables; [done|]. intros y. by split_and!; [..|left].
  - split; [|done]. apply inv_same_tables; [done|]. intros y. by split_and!; [..|left].
  - assert (wn_drained (op_window (UdpWaiting (UopDrain e k))) = [] ∧
      ∀ e', wn_stale (op_window (UdpWaiting (UopDrain e k))) = Some e' → e' = e) as [Hd Hst]
      by (destruct k; split; [done|by intros e' [= ->]|done|done]).
    destruct (ur_heap s !! e) as [entry|] eqn:He; (split; [|done]); [by eapply inv_drain|].
    destruct k; [|done]. destruct Hinv as (I1 & I2 & I3 & I4). split_and!; [exact I1| |exact I3|exact I4].
    intros e' entry' He'. destruct (I2 _ _ He') as [Hlt (? & ? & ? & Ht & Hph)]. split; [done|].
    split_and!; [done|lia|lia|done| |exact Hph]. intros c x Hc.
    destruct (Ht c x Hc) as (? & y & ? & ? & ? & ? & Hcur & ?). split; [done|]. exists y.
    split_and!; try done. intros _. apply Hcur. simpl. intros [= Heq]. simpl in He'. congruence.
  - assert (udp_inv (ur_alter_entry (ue_set_empty_since (Some (ur_now s))) e s)) as Hs1.
    { apply inv_empty_since; [by eexists|exact Hinv]. }
    destruct k as [|b rest]; cbn [fst snd].
    + split; [|done]. eapply inv_same; [apply udp_same_metric|exact Hs1].
    + destruct (stop_next_window rest) as [-> _]. split; [exact Hs1|by destruct rest].
  - split; [|done]. apply inv_close_one. destruct (after_counts k); [|exact Hinv].
    eapply inv_same; [apply udp_same_metric|exact Hinv].
  - destruct (ux_handle <$> ur_sessions s !! x) as [[]|]; (split; [|done]); [|exact Hinv..].
    by apply inv_same_session.
  - split; [|done]. apply inv_same_session; [done|]. intros y. split_and!; [done|done|by intros [? ?]].
Qed.

Lemma op_act_account op s :
  udp_fine_inv (s, UdpWaiting op) → udp_account (udp_op_act op s).2.
Proof.
  intros [Hinv Hacc _ _]. cbn [fst snd] in *.
  destruct op as [q|id e|e x|e b rest|e b rest|e b rest|e b rest|e b rest|e k|[|x xs] e k|x xs e k|x xs e k];
    cbn [udp_op_act].
  1: { assert (∀ id a r, udp_account (udp_bound id (UdpRuntime_bind_entry a r s)).2) as Hbound.
       { intros id a r. pose proof (udp_bind_account a r s Hinv Hacc) as Hb. unfold wp in Hb.
         by destruct (UdpRuntime_bind_entry a r s) as [[e|err] s1]. }
       destruct q as [a|a|id|a|]; simpl.
       - by destruct (negb _).
       - destruct (ur_entries s !! al_id a); simpl; [|done]. case_bool_decide; [|done].
         eapply same_counts_account; [|exact Hacc]. auto with counts.
       - by destruct (ur_entries s !! id).
       - by destruct (negb _).
       - done. }
  all: eapply same_counts_account; [|exact Hacc]; repeat case_match; cbn [snd]; auto with counts.
Qed.

Lemma drop_unheld_but_held l s : all_held_but l (drop_unheld_but l s).
Proof.
  destruct (drop_unheld_but_spec l s) as (_ & _ & HH & HS). intros x y [Hx [Hheld|?]]%HS; [left|by right].
  by eapply held_metrics.
Qed.

Lemma drop_unheld_but_op l s c : op_ok s c → op_ok (drop_unheld_but l s) c.
Proof.
  destruct c as [|[]]; try done. simpl. intros [entry He].
  destruct (drop_unheld_but_spec l s) as (_ & _ & HH & _). destruct (HH e) as [m ->]. rewrite He. by eexists.
Qed.

Lemma task_step_op ev s s' c : udp_task_step ev s = Some s' → op_ok s c → op_ok s' c.
Proof.
  intros Hev. destruct c as [|[]]; try done. simpl. intros [entry He].
  destruct (task_step_calm _ _ _ Hev) as (Hc & _). destruct (Hc _ _ He) as (entry' & He' & _). by eexists.
Qed.

(** The invariant of the table alone. *)
Definition udp_within (x : UdpRuntime * UdpNext) : Prop := inv_within (op_window x.2) x.1 ∧ op_ok x.1 x.2.

Lemma udp_fine_within x : udp_fine_inv x → udp_within x.
Proof. by intros []. Qed.

Lemma udp_fine_step_within x y : udp_within x → udp_fine_step x y → udp_within y.
Proof.
  intros [Hinv Hop] Hstep. destruct Hstep as [q r s|op s|ev s s' c Hev]; cbn [fst snd] in *.
  - by split.
  - destruct (op_act_inv op s Hinv Hop) as [Hinv' Hop']. unfold udp_op_step. destruct (udp_op_act op s) as [c s'].
    split; cbn [fst snd] in *; [by apply inv_drop_unheld_but|by apply drop_unheld_but_op].
  - split; cbn [fst snd]; [by eapply inv_drop_unheld_but, task_step_inv|by eapply drop_unheld_but_op, task_step_op].
Qed.

Lemma udp_fine_step_inv x y : udp_fine_inv x → udp_fine_step x y → udp_fine_inv y.
Proof.
  intros Hx Hstep. destruct (udp_fine_step_within x y (udp_fine_within x Hx) Hstep) as [Hinv' Hop'].
  split; [exact Hinv'| | |exact Hop']; destruct Hstep as [q r s|op s|ev s s' c Hev]; cbn [fst snd] in *.
  - by destruct Hx.
  - pose proof (op_act_account op s Hx) as Hacc. unfold udp_op_step. destruct (udp_op_act op s) as [c s'].
    by apply account_drop_unheld_but.
  - clear Hinv'. destruct Hx as [Hinv Hacc _ _]. cbn [fst snd] in *. by eapply account_drop_unheld_but, task_step_account.
  - by destruct Hx.
  - unfold udp_op_step. destruct (udp_op_act op s) as [c s']. apply drop_unheld_but_held.
  - apply drop_unheld_but_held.
Qed.

Definition udp_fine_initial (x : UdpRuntime * UdpNext) : Prop :=
  udp_initial x.1 ∧ x.2 = UdpReturned (Ok tt) ∧ Gauge_load udp_active_sessions (ur_metrics x.1) = 0.

Lemma udp_fine_initial_inv x : udp_fine_initial x → udp_fine_inv x.
Proof.
  destruct x as [s c]. unfold udp_fine_initial. cbn [fst snd]. intros (H0 & -> & Hg). split; cbn [fst snd].
  - by apply udp_initial_inv.
  - destruct H0 as (cfg & m & now & b & ->). split; [exact Hg|]. intros e n. unfold udp_actives. simpl.
    by rewrite fmap_empty, lookup_empty.
  - destruct H0 as (cfg & m & now & b & ->). intros x y. simpl. by rewrite lookup_empty.
  - done.
Qed.

Lemma reachable_udp_fine x y : udp_fine_initial x → rtc udp_fine_step x y → udp_fine_inv y.
Proof. intros Hi Hr. apply udp_fine_initial_inv in Hi. induction Hr; eauto using udp_fine_step_inv. Qed.
