(* ===== verification/UdpFineProps.v ===== *)
(** What the UDP relay (runtime/udp.rs) promises its clients under the finest interleaving,
    in the middle of an operation of the facade too, and what an operation has settled when
    it returns. *)
From stdpp Require Import base gmap strings list relations fin_maps.
From Stdlib Require Import ZArith Lia.
From S2P Require Import Prelude RustStd Model Facade Metrics Account UdpModel Udp UdpSpec UdpSteps.
From S2P Require Import UdpProps UdpAccount UdpQuiet RealServing Views UdpFine UdpFineSpec.
Open Scope Z_scope.

(** * Replies and datagrams *)

(** An operation under way has taken the place of the session, and has not closed it yet. *)
Definition unseated (c : UdpNext) (x : nat) (y : UdpSession) : Prop :=
  wn_stale (op_window c) = Some (ux_entry y) ∨ x ∈ wn_drained (op_window c).

(** C5: in the middle of any operation too, a reply reaches a client only from the current
    session of that client. A reply task goes on to send what it received only if its
    session is current, hence connected to the target that the last update set; when it
    then sends, the session is still current, or it was closed and the task ends with this
    one reply, or an operation under way has just taken its place. *)
Theorem fine_replies_from_current_target x0 s c x y :
  udp_fine_initial x0 → rtc udp_fine_step x0 (s, c) → ur_sessions s !! x = Some y →
  (∀ n s' y', udp_task_step (UEvReplyReceived x (Some n)) s = Some s' →
     ur_sessions s' !! x = Some y' → ux_reply y' = Some (ReplySend n) → current_for s x y) ∧
  (∀ r s', udp_task_step (UEvReplySent x r) s = Some s' →
     current_for s x y ∨ unseated c x y ∨
     ux_closed y = true ∧ ∀ y', ur_sessions s' !! x = Some y' → ux_reply y' = None).
Proof.
  intros H0 Hr Hy. destruct (reachable_udp_fine _ _ H0 Hr) as [Hinv _ _ _]. simpl in Hinv. split.
  - intros n s' y'. by eapply reply_accepted.
  - intros r s' Hev. destruct (replying_session _ _ _ _ _ Hy Hev) as [ph Hph].
    destruct (ux_closed y) eqn:Hcl; [do 2 right; split; [done|by eapply reply_closed_ends]|].
    pose proof Hinv as (_ & _ & I3 & _). destruct (I3 _ _ Hy) as [_ (entry & He & _ & Hrow)].
    destruct Hrow as [Hrow|?]; [split; [rewrite Hph; by eexists|done]| |by right; left; right].
    destruct (decide (wn_stale (op_window c) = Some (ux_entry y))) as [Hst|Hst]; [by right; left; left|].
    left. eapply row_current; [exact Hinv|done|done|done|by left].
Qed.


(** C24: a listener never has more sessions than configured, whatever runs in the middle of
    an operation. *)
Theorem fine_session_table_bounded x0 s c e entry :
  udp_fine_initial x0 → rtc udp_fine_step x0 (s, c) → ur_heap s !! e = Some entry →
  0 ≤ ue_max_sessions entry → Z.of_nat (size (ue_sessions entry)) ≤ ue_max_sessions entry.
Proof.
  intros H0 Hr. eapply table_bounded. by apply (ufi_inv _ (reachable_udp_fine _ _ H0 Hr)).
Qed.

(** C16: the UDP session counts are exact at every moment, in the middle of an operation too:
    the gauge of active sessions is the number of sessions that are alive, the count of
    each listener that of its own, both modulo 2^64. When neither an operation nor its
    receive task holds sessions, that is the number of rows of its table: no session
    outlives its row, unless it was closed before the handle of its reply task was stored. *)
Theorem fine_udp_counts_exact x0 s c :
  udp_fine_initial x0 → rtc udp_fine_step x0 (s, c) →
  Gauge_load udp_active_sessions (ur_metrics s) = wrap (Z.of_nat (size (ur_sessions s))) ∧
  ∀ e entry, ur_heap s !! e = Some entry →
    um_active (ue_metrics entry) = wrap (Z.of_nat (size (owned e (alive s)))) ∧
    (op_sessions c = [] → (∀ p, ue_receive entry = Some p → phase_sessions p = []) →
     (∀ x y, ur_sessions s !! x = Some y → ux_entry y = e → ¬ lingers y) →
       size (owned e (alive s)) = size (ue_sessions entry)).
Proof.
  intros H0 Hr. destruct (reachable_udp_fine _ _ H0 Hr) as [Hinv [Hg HA] Hheld _]. cbn [fst snd] in *. split.
  - unfold Gauge_load. fold (udp_gauge s). rewrite Hg. unfold alive. by rewrite map_size_fmap.
  - intros e entry He. split; [apply HA; unfold udp_actives; by rewrite lookup_fmap, He|].
    intros Hop Hidle Hnl. apply (owned_rows (op_window c)); [done| | |done| |exact Hnl].
    + destruct c as [|[| | | | | | | |? []| | | ]]; simpl in *; congruence.
    + intros x y Hx. destruct (Hheld x y Hx) as [?|Hin]; [done|]. rewrite Hop in Hin. by apply elem_of_nil in Hin.
    + intros x (p & Hp & Hx). rewrite (Hidle p Hp) in Hx. by apply elem_of_nil in Hx.
Qed.

(** * What a step keeps *)

(** [calm] of UdpQuiet.v without the handles of the tasks, which an operation takes before
    it awaits the end of the task. *)
Definition calmed (s s' : UdpRuntime) : Prop :=
  (∀ e entry, ur_heap s !! e = Some entry → ∃ entry', ur_heap s' !! e = Some entry' ∧
     (ue_receive entry = None → ue_receive entry' = None ∧ ue_sessions entry' ⊆ ue_sessions entry) ∧
     (ue_cleanup entry = false → ue_cleanup entry' = false) ∧
     ue_generation entry ≤ ue_generation entry') ∧
  (ur_next s ≤ ur_next s')%nat ∧
  (∀ x y', ur_sessions s' !! x = Some y' →
    (∃ y, ur_sessions s !! x = Some y ∧ same_session y y') ∨ (ur_next s ≤ x)%nat).

Lemma calm_calmed s s' : calm s s' → calmed s s'.
Proof.
  intros (He & _ & Hn & Hx). split_and!; [|done|].
  - intros e entry (entry' & ? & ? & ? & _ & ?)%He. eauto 10.
  - intros x y' [?|[? _]]%Hx; auto.
Qed.

#[export] Instance calmed_po : PreOrder calmed.
Proof.
  split; [intros s; apply calm_calmed; reflexivity|].
  intros s1 s2 s3 (He & Hn & Hx) (He' & Hn' & Hx'). split_and!; [|lia|].
  - intros e entry (entry' & (entry'' & ? & Hr' & Hc' & ?)%He' & Hr & Hc & ?)%He. exists entry''.
    split_and!; [done| |auto|lia]. intros [Hn1 Hs1]%Hr. destruct (Hr' Hn1). split; [done|by etrans].
  - intros x y3 [(y2 & H2 & Heq2)|Hlt]%Hx'; [|right; lia].
    apply Hx in H2 as [(y1 & H1 & Heq1)|?]; [left; exists y1; split; [done|by etrans]|by right].
Qed.

Lemma calmed_entry f e s :
  (∀ x, ur_heap s !! e = Some x →
     (ue_receive x = None → ue_receive (f x) = None ∧ ue_sessions (f x) ⊆ ue_sessions x) ∧
     (ue_cleanup x = false → ue_cleanup (f x) = false) ∧ ue_generation x ≤ ue_generation (f x)) →
  calmed s (ur_alter_entry f e s).
Proof.
  intros Hf. split_and!; [|done|simpl; eauto]. simpl. intros e' entry He'. rewrite lookup_alter.
  case_decide; [subst e'; rewrite He'; eexists; split; [done|by apply Hf]|].
  rewrite He'. eexists. split_and!; [done|by intros|by intros|lia].
Qed.

Lemma call_calm q s : udp_inv s → calm s (udp_call q s).2.
Proof.
  intros Hinv.
  assert (∀ id a r, calm s (udp_bound id (UdpRuntime_bind_entry a r s)).2) as Hbound.
  { intros id a r. pose proof (bind_calm a r s Hinv) as Hb. unfold wp in Hb.
    by destruct (UdpRuntime_bind_entry a r s) as [[e|err] s1]. }
  destruct q as [a|a|id|a|]; simpl.
  - destruct (negb _); [apply calm_refl|apply Hbound].
  - destruct (ur_entries s !! al_id a); [|apply calm_refl]. case_bool_decide; simpl; auto with calm.
  - destruct (ur_entries s !! id); simpl; auto with calm.
  - destruct (negb _); [apply calm_refl|apply Hbound].
  - auto with calm.
Qed.

Lemma op_act_calmed op s :
  inv_within (op_window (UdpWaiting op)) s → calmed s (udp_op_act op s).2.
Proof.
  intros Hinv.
  destruct op as [q|id e|e x|e b rest|e b rest|e b rest|e b rest|e b rest|e k|[|x xs] e k|x xs e k|x xs e k];
    cbn [udp_op_act snd].
  - by apply calm_calmed, call_calm.
  - apply calm_calmed. auto with calm.
  - apply calm_calmed. by apply (set_state_calm shut (λ y, us_set_generation (u64_saturating_add (us_generation (ue_state y)) 1) x)).
  - by apply calmed_entry.
  - destruct (ue_receive_task <$> ur_heap s !! e) as [[]|]; [|done..]. by apply calmed_entry.
  - apply calmed_entry. intros y _. by split_and!.
  - destruct (ue_cleanup_task <$> ur_heap s !! e) as [[]|]; [|done..]. by apply calmed_entry.
  - by apply calmed_entry.
  - destruct (ur_heap s !! e); [|done]. apply calmed_entry. intros y _. split_and!; [|by intros|done].
    intros Hn. split; [done|]. apply map_empty_subseteq.
  - assert (calmed s (ur_alter_entry (ue_set_empty_since (Some (ur_now s))) e s)) as Hc by (by apply calmed_entry).
    destruct k; simpl; [|done]. etrans; [exact Hc|]. apply calm_calmed. auto with calm.
  - apply calm_calmed, calm_session; [|done]. destruct (after_counts k); simpl; auto with calm.
  - destruct (ux_handle <$> ur_sessions s !! x) as [[]|]; [|done..]. by apply calm_calmed, calm_session; [apply calm_refl|].
  - by apply calm_calmed, calm_session; [apply calm_refl|].
Qed.

Lemma fine_step_calmed x y : udp_fine_inv x → udp_fine_step x y → calmed x.1 y.1.
Proof.
  intros [Hinv _ _ _] Hstep. destruct Hstep as [q r s|op s|ev s s' c Hev]; cbn [fst snd] in *; [done| |].
  - pose proof (op_act_calmed op s Hinv) as Hc. unfold udp_op_step. destruct (udp_op_act op s) as [c s'].
    simpl in *. etrans; [exact Hc|]. apply calm_calmed, calm_drop_unheld_but, calm_refl.
  - etrans; [by eapply calm_calmed, task_step_calm|]. apply calm_calmed, calm_drop_unheld_but, calm_refl.
Qed.

Lemma fine_steps_calmed x y : udp_fine_inv x → rtc udp_fine_step x y → calmed x.1 y.1.
Proof.
  intros Hx Hr. induction Hr as [x|x y z Hxy _ IH]; [done|].
  etrans; [by eapply fine_step_calmed|]. apply IH. by eapply udp_fine_step_inv.
Qed.
