(* ===== verification/UdpFineCut.v ===== *)
(** What becomes of the reply tasks that an operation of the UDP relay (runtime/udp.rs) aborts:
    a session's row leaves the table only to be closed, with its task aborted if the handle
    is stored; and a task comes to send only as the current one of its client. *)
From stdpp Require Import base gmap strings list relations fin_maps.
From Stdlib Require Import ZArith Lia.
From S2P Require Import Prelude RustStd Model Facade Metrics UdpModel Udp UdpSpec UdpSteps.
From S2P Require Import UdpProps UdpAccount UdpQuiet RealServing Views UdpFine UdpFineSpec UdpFineProps.
Open Scope Z_scope.

(** Its row in its client's place. *)
Definition seated (s : UdpRuntime) (x : nat) (y : UdpSession) : Prop :=
  ∃ entry, ur_heap s !! ux_entry y = Some entry ∧ ue_sessions entry !! ux_client_addr y = Some x.

(** Closed, and its reply task has ended. *)
Definition over (y : UdpSession) : Prop := ux_closed y = true ∧ ux_reply y = None.

Definition sending (y : UdpSession) (n : Z) : Prop := ux_reply y = Some (ReplySend n).

(** * Events *)

Section drift.
(** The sessions whose tasks may come to send. *)
Context (X : nat → Prop).

(** What a task may do to a session. *)
Definition mild (x : nat) (y y' : UdpSession) : Prop :=
  ident y' = ident y ∧ (ux_closed y = true → ux_closed y' = true) ∧
  (ux_handle y = true → ux_handle y' = true ∨ over y') ∧
  (over y → over y') ∧ ∀ n, sending y' n → sending y n ∨ X x.

(** What becomes of the sessions: the row of one whose handle is stored goes with its end. *)
Definition drift (s s' : UdpRuntime) : Prop :=
  (ur_next s ≤ ur_next s')%nat ∧
  ∀ x y', ur_sessions s' !! x = Some y' →
    ((ur_next s ≤ x)%nat ∧ ∀ n, sending y' n → X x) ∨
    ∃ y, ur_sessions s !! x = Some y ∧ mild x y y' ∧
      (ux_handle y = true → seated s x y → seated s' x y' ∨ over y').

Lemma mild_refl x y : mild x y y.
Proof. split_and!; auto. Qed.

#[export] Instance mild_po x : PreOrder (mild x).
Proof.
  split; [intros y; apply mild_refl|]. intros y1 y2 y3 (I1 & C1 & H1 & O1 & S1) (I2 & C2 & H2 & O2 & S2).
  split_and!; [congruence|auto| |auto|]; [|by intros n [?%S1|?]%S2; [|right]].
  intros [?|?]%H1; [auto|right; auto].
Qed.

#[export] Instance drift_po : PreOrder drift.
Proof.
  split.
  - intros s. split; [done|]. intros x y Hy. right. exists y. split_and!; [done|apply mild_refl|by left].
  - intros s1 s2 s3 [N1 H1] [N2 H2]. split; [lia|]. intros x y3 [[Hlt Hs]|(y2 & Hy2 & M2 & R2)]%H2.
    + left. split; [lia|done].
    + destruct M2 as (I2 & C2 & Hh2 & O2 & S2). destruct (H1 _ _ Hy2) as [[Hlt Hs]|(y1 & Hy1 & M1 & R1)].
      * left. split; [done|]. by intros n [?%Hs|?]%S2.
      * right. exists y1. split_and!; [done|etrans; [exact M1|by split_and!]|]. intros Hh Hrow.
        destruct (R1 Hh Hrow) as [Hrow2|?]; [|right; auto].
        destruct M1 as (_ & _ & Hh1 & _). destruct (Hh1 Hh) as [?|?]; [auto|right; auto].
Qed.

Lemma drift_refl s : drift s s.
Proof. reflexivity. Qed.

(** Rows come, and the sessions stay as they are. *)
Lemma drift_tables s s' s'' :
  drift s s' → ur_sessions s'' = ur_sessions s' → (ur_next s' ≤ ur_next s'')%nat →
  (∀ e entry c x, ur_heap s' !! e = Some entry → ue_sessions entry !! c = Some x →
     ∃ entry', ur_heap s'' !! e = Some entry' ∧ ue_sessions entry' !! c = Some x) →
  drift s s''.
Proof.
  intros Hs HS Hn Hrow. etrans; [exact Hs|]. split; [done|]. intros x y. rewrite HS. intros Hy. right.
  exists y. split_and!; [done|apply mild_refl|]. intros _ (entry & He & Hc).
  destruct (Hrow _ _ _ _ He Hc) as (entry' & ? & ?). left. by exists entry'.
Qed.

Lemma drift_assign s s' s'' :
  drift s s' → ur_heap s'' = ur_heap s' → ur_sessions s'' = ur_sessions s' → ur_next s'' = ur_next s' →
  drift s s''.
Proof. intros Hs HH HS Hn. eapply drift_tables; [done|done|by rewrite Hn|]. rewrite HH. eauto. Qed.

Lemma drift_metric s s' f : drift s s' → drift s (ur_metric f s').
Proof. intros Hs. by eapply drift_assign. Qed.

Lemma drift_add s s' c n : drift s s' → drift s (ur_add c n s').
Proof. apply drift_metric. Qed.

Lemma drift_inc s s' c : drift s s' → drift s (ur_inc c s').
Proof. apply drift_metric. Qed.

Lemma drift_entry s s' f e :
  drift s s' → (∀ x, ue_sessions (f x) = ue_sessions x) → drift s (ur_alter_entry f e s').
Proof.
  intros Hs Hf. eapply drift_tables; [exact Hs|done|done|]. simpl. intros e' entry c x He Hc.
  rewrite lookup_alter. case_decide; [subst e'|]; rewrite He; [|by eexists].
  eexists. split; [done|]. by rewrite Hf.
Qed.

(** A session stays the session of its row. *)
Lemma ident_seated s s' x y y' : ident y' = ident y → ur_heap s' = ur_heap s → seated s x y → seated s' x y'.
Proof. intros (He & Hc & _)%ident_same HH. unfold seated. by rewrite HH, He, Hc. Qed.

Lemma drift_session s s' f x :
  drift s s' → (∀ y, ur_sessions s' !! x = Some y → mild x y (f y)) → drift s (ur_alter_session f x s').
Proof.
  intros Hs Hf. etrans; [exact Hs|]. split; [done|]. simpl. intros x' y' Hy'. right.
  destruct (decide (x' = x)) as [->|].
  - rewrite lookup_alter_eq in Hy'. apply fmap_Some in Hy' as (y & Hy & ->). exists y.
    split_and!; [done|by apply Hf|]. intros _ Hrow. left. eapply ident_seated; [|done|done]. by apply Hf.
  - rewrite lookup_alter_ne in Hy' by done. exists y'. split_and!; [done|apply mild_refl|by left].
Qed.

(** What a step does to a session that it neither ends nor starts. *)
Lemma mild_same x y y' :
  ident y' = ident y → (ux_closed y = true → ux_closed y' = true) →
  (ux_handle y = true → ux_handle y' = true) → ux_reply y' = ux_reply y → mild x y y'.
Proof.
  intros Hi Hc Hh Hr. unfold mild, over, sending. rewrite Hr.
  split_and!; [done|done|by left; apply Hh|naive_solver|by left].
Qed.

Lemma mild_closed x y : mild x y (ux_set_closed true y).
Proof. by apply mild_same. Qed.

Lemma closed_over y : ux_handle y = true ∨ over y → over (closed_session y).
Proof.
  destruct (closed_session_spec y) as (_ & Hc & Hn & Hr). intros [Hh|[_ Ho]]; split; auto. destruct Hr; congruence.
Qed.

Lemma mild_close x y : mild x y (closed_session y).
Proof.
  pose proof (closed_over y) as Hover. destruct (closed_session_spec y) as (Hi & Hc & _ & Hr).
  split_and!; [done|done|auto|auto|]. unfold sending. intros n. destruct Hr as [->| ->]; [by left|done].
Qed.

(** A task that goes on, ends or comes to send. *)
Lemma mild_reply x y r :
  (over y → r = None) → (∀ n, r = Some (ReplySend n) → X x) → mild x y (ux_set_reply r y).
Proof.
  intros Ho Hn. split_and!; [done|done|by left| |]; [|intros n Hs; right; by eapply Hn].
  intros Hov. split; [apply Hov|by apply Ho].
Qed.

Lemma drift_record_removal s s' r : drift s s' → drift s (record_removal r s').
Proof. destruct r; simpl; auto using drift_inc. Qed.

(** The row of [c] goes, or is another's, and its session is closed. *)
Lemma drift_unseat s s' s'' e entry entry' c x :
  drift s s' → ur_heap s' !! e = Some entry → ue_sessions entry !! c = Some x →
  ur_heap s'' = <[e := entry']> (ur_heap s') →
  (∀ c', c' ≠ c → ue_sessions entry' !! c' = ue_sessions entry !! c') →
  ur_sessions s'' = alter closed_session x (ur_sessions s') → ur_next s'' = ur_next s' →
  drift s s''.
Proof.
  intros Hs He Hc HH Hother HS Hn. etrans; [exact Hs|]. split; [lia|]. intros x' y'. rewrite HS. intros Hy'. right.
  destruct (decide (x' = x)) as [->|Hne].
  - rewrite lookup_alter_eq in Hy'. apply fmap_Some in Hy' as (y & Hy & ->). exists y.
    split_and!; [done|apply mild_close|]. intros Hh _. right. apply closed_over. by left.
  - rewrite lookup_alter_ne in Hy' by done. exists y'. split_and!; [done|apply mild_refl|].
    intros _ (entry0 & He0 & Hrow). left. unfold seated. rewrite HH.
    destruct (decide (ux_entry y' = e)) as [Heq|]; [|rewrite lookup_insert_ne by done; by exists entry0].
    rewrite Heq in *. rewrite lookup_insert_eq. exists entry'. split; [done|].
    assert (entry0 = entry) as -> by congruence. rewrite Hother; [done|]. intros Hcc. rewrite Hcc in Hrow. congruence.
Qed.

Lemma drift_remove_session s s' e c x r : drift s s' → drift s (remove_session e c x r s').
Proof.
  intros Hs. destruct (ur_heap s' !! e) as [entry|] eqn:He; [|by unfold remove_session; rewrite He].
  destruct (decide (ue_sessions entry !! c = Some x)) as [Hc|Hc];
    [|unfold remove_session; rewrite He; by rewrite decide_False].
  destruct (remove_session_state e c x r s' entry He Hc) as (z & _ & Hn & HH & HS).
  eapply (drift_unseat s s' _ e entry _ c x); [done|done|done|exact HH| |exact HS|exact Hn].
  intros c' Hc'. simpl. by rewrite lookup_delete_ne.
Qed.

Lemma drift_set_receive s s' ph e : drift s s' → drift s (set_receive ph e s').
Proof. intros Hs. by apply drift_entry. Qed.

Lemma drift_batch_done s s' n e : drift s s' → drift s (batch_done n e s').
Proof. intros Hs. by apply drift_set_receive, drift_entry. Qed.

Lemma drift_send_groups s s' b l gs e : drift s s' → drift s (send_groups b l gs e s').
Proof. destruct gs; [apply drift_batch_done|apply drift_set_receive]. Qed.
End drift.

Create HintDb drift.
#[export] Hint Resolve drift_refl drift_metric drift_add drift_inc drift_entry drift_record_removal
  drift_remove_session drift_set_receive drift_batch_done drift_send_groups mild_closed mild_close : drift.
#[export] Hint Extern 1 (mild _ _ _ _) => by apply mild_same : drift.

Section events.
Context (X : nat → Prop) (s : UdpRuntime).

Lemma drift_prepare_end g now seen rest s' :
  drift X s s' → drift X s (prepare_end g now seen rest s').2.
Proof.
  revert seen s'. induction rest as [|[x|] rest IH]; intros seen s' Hs; simpl; [done| |by apply IH].
  destruct (ur_sessions s' !! x); [|by apply IH].
  destruct (negb _ || _); apply IH; [by apply drift_inc, drift_session; auto with drift|].
  case_bool_decide; [done|]. apply drift_session; auto with drift.
Qed.

Lemma drift_closes l s' : drift X s s' → drift X s (foldr (ur_alter_session (ux_set_closed true)) s' l).
Proof. intros Hs. induction l; cbn [foldr]; [done|]. apply drift_session; auto with drift. Qed.

Lemma drift_prepare_next e entry p : drift X s (prepare_next e entry p s).
Proof.
  unfold prepare_next. destruct (pr_batch p !! _) as [d|].
  - destruct (previous_session _ _ _); [|destruct (session_lookup _ _ _ _)]; auto with drift.
  - unfold prepare_finish. destruct (negb _); [by apply drift_batch_done, drift_add, drift_closes, drift_refl|].
    pose proof (drift_prepare_end (pr_generation p) (ur_now s) [] (pr_sessions p) s (drift_refl X s)) as Hs.
    destruct (prepare_end _ _ _ _ _) as [l s']. by apply drift_send_groups.
Qed.

Lemma drift_create e p c connected : drift X s (create_session e p c connected s).
Proof.
  unfold create_session. destruct connected; [|auto with drift]. apply drift_set_receive, drift_entry; [|done].
  apply drift_metric, drift_inc. split; [simpl; lia|]. intros x y. simpl.
  intros [[<- <-]|[_ Hx]]%lookup_insert_Some; [by left|]. right. exists y.
  split_and!; [done|apply mild_refl|by left].
Qed.

Lemma drift_insert e entry p x c : 
  ur_heap s !! e = Some entry → drift X s (session_insert e entry p x c s).
Proof.
  intros He. unfold session_insert. destruct (y ← _; _); [auto with drift|]. destruct (negb _); [auto with drift|].
  set (s1 := set_receive _ _ _).
  set (entry1 := ue_set_receive (Some (RxSpawn p x)) (ue_set_sessions (<[c:=x]> (ue_sessions entry)) (ue_set_empty_since None entry))).
  assert (ur_heap s1 = <[e:=entry1]> (ur_heap s)) as HH.
  { unfold s1, set_receive. rewrite alter_entry_compose. exact (alter_insert _ _ _ _ He). }
  destruct (ue_sessions entry !! c) as [replaced|] eqn:Hc.
  - apply (drift_unseat X s s _ e entry entry1 c replaced); [apply drift_refl|done|done|exact HH| |done|done].
    intros c' Hc'. simpl. by rewrite lookup_insert_ne.
  - apply (drift_tables X s s); [apply drift_refl|done|done|]. intros e' entry' c' x' He' Hc'. rewrite HH.
    destruct (decide (e' = e)) as [->|]; [|rewrite lookup_insert_ne by done; by eexists].
    rewrite lookup_insert_eq. exists entry1. split; [done|]. simpl.
    rewrite lookup_insert_ne; [congruence|]. intros ->. congruence.
Qed.

Lemma drift_spawn e p x y :
  ur_sessions s !! x = Some y → drift X s (session_spawn e p x y s).
Proof.
  intros Hy. unfold session_spawn. destruct (ux_closed y) eqn:Hc; [auto with drift|].
  apply drift_set_receive, drift_session; [apply drift_refl|]. intros y' Hy'. apply mild_reply; [|done].
  intros [? _]. congruence.
Qed.

Lemma drift_store e p x : drift X s (session_store e p x s).
Proof.
  apply drift_set_receive, drift_session; [apply drift_refl|]. intros y _.
  by apply mild_same.
Qed.

Lemma drift_group_sent e b l x idx gs sent : drift X s (group_sent e b l x idx gs sent s).
Proof.
  unfold group_sent. cbv zeta. apply drift_send_groups. destruct sent; [auto with drift|].
  destruct (ur_sessions s !! x); auto with drift.
Qed.

Lemma drift_cleanup e ttl : drift X s (cleanup_tick e ttl s).
Proof.
  unfold cleanup_tick, compact_empty_sessions_after_idle. apply drift_entry.
  - unfold expire_idle_sessions. destruct (ur_heap s !! e) as [entry|]; [|apply drift_refl].
    induction (map_to_list (ue_sessions entry)) as [|row l IH]; cbn [foldr]; [apply drift_refl|].
    unfold expire_idle_session at 1. destruct (ur_sessions _ !! _); [|done]. destruct (_ <? _); auto with drift.
  - intros y. destruct (ue_empty_since y); [|done]. by destruct (_ <? _).
Qed.

(** The task ends. *)
Lemma drift_end x s' : drift X s s' → drift X s (set_reply None x s').
Proof. intros Hs. apply drift_session; [done|]. intros y _. by apply mild_reply. Qed.

Lemma drift_reply_top x y s' :
  (∀ y', ur_sessions s' !! x = Some y' → ux_reply y' ≠ None) → drift X s s' → drift X s (reply_top x y s').
Proof.
  intros Hr Hs. unfold reply_top. destruct (ux_closed y); [by apply drift_end|].
  apply drift_session; [done|]. intros y' Hy'. apply mild_reply; [|done]. intros [_ ?]. by destruct (Hr _ Hy').
Qed.

Lemma drift_reply_received x y r0 r :
  ur_sessions s !! x = Some y → ux_reply y = Some r0 → (session_current s x y = true → X x) →
  drift X s (reply_received x y r s).
Proof.
  intros Hy Hr HX. destruct r as [n|]; simpl; [|by apply drift_end, drift_remove_session, drift_inc, drift_refl].
  destruct (session_current s x y).
  - apply drift_session; [apply drift_refl|]. intros y' Hy'. apply mild_reply; [|by intros; apply HX].
    intros [_ ?]. congruence.
  - apply drift_end, drift_inc, drift_session; [apply drift_refl|auto with drift].
Qed.

Lemma drift_reply_sent x y r0 r :
  ur_sessions s !! x = Some y → ux_reply y = Some r0 → drift X s (reply_sent x y r s).
Proof.
  intros Hy Hr. destruct r as [n|]; simpl; [|by apply drift_end, drift_remove_session, drift_inc, drift_inc, drift_refl].
  apply drift_reply_top.
  - simpl. intros y'. rewrite lookup_alter_eq, Hy. intros [= <-]. simpl. congruence.
  - apply drift_session; [|auto with drift]. apply drift_entry; [auto with drift|done].
Qed.
End events.

(** A task that comes to send has found its session to be the current one. *)
Definition passes (s : UdpRuntime) (x : nat) : Prop :=
  ∃ y, ur_sessions s !! x = Some y ∧ session_current s x y = true.

Lemma task_step_drift ev s s' : udp_task_step ev s = Some s' → drift (passes s) s s'.
Proof.
  destruct ev as [e b|e|e|e|e c|e|e|e|e sent|e|e|e|x|x r|x r|n]; simpl.
  1-10: destruct (receiving e s) as [[ph entry]|] eqn:Hrx; [|done];
    apply receiving_Some in Hrx as [He Hrx]; destruct ph as [|b'|p|p|p x|p x|p x|b' l gs]; try done.
  - case_bool_decide; [|done]. intros [= <-]. unfold received. cbv zeta.
    apply drift_set_receive, drift_entry; [|done]. apply drift_add, drift_add.
    destruct (ue_udp_batch_enabled entry); auto with drift.
  - intros [= <-]. by apply drift_entry; [apply drift_inc, drift_refl|].
  - intros [= <-]. unfold prepare_begin.
    destruct (us_effective_host (ue_state entry)), (us_effective_target_port (ue_state entry)); auto with drift.
  - intros [= <-]. apply drift_prepare_next.
  - intros (client & Hc & [= <-])%bind_Some. apply drift_create.
  - intros (client & Hc & [= <-])%bind_Some. by apply drift_insert.
  - intros (y & Hy & [= <-])%bind_Some. by apply drift_spawn.
  - intros [= <-]. apply drift_store.
  - destruct gs as [|[x idx] gs]; [done|]. destruct sent as [|n]; [intros [= <-]; apply drift_group_sent|].
    case_bool_decide; [|done]. intros [= <-]. apply drift_group_sent.
  - destruct (ue_shutdown entry); [|done]. intros [= <-]. by apply drift_entry; [apply drift_refl|].
  - intros (entry & He & Hif)%bind_Some. destruct (ue_cleanup entry); [|done]. injection Hif as <-. apply drift_cleanup.
  - intros (entry & He & Hif)%bind_Some. destruct (_ && _); [|done]. injection Hif as <-.
    by apply drift_entry; [apply drift_refl|].
  - destruct (replying x s) as [[[| |n] y]|] eqn:Hrep; try done. apply replying_Some in Hrep as [Hy Hr].
    intros [= <-]. apply drift_reply_top; [congruence|apply drift_refl].
  - destruct (replying x s) as [[[| |n] y]|] eqn:Hrep; try done. apply replying_Some in Hrep as [Hy Hr].
    intros [= <-]. eapply drift_reply_received; [done|done|]. intros Hcur. by exists y.
  - destruct (replying x s) as [[[| |n] y]|] eqn:Hrep; try done. apply replying_Some in Hrep as [Hy Hr].
    intros [= <-]. by eapply drift_reply_sent.
  - destruct (0 <=? n); [|done]. intros [= <-]. by eapply drift_assign; [apply drift_refl|..].
Qed.

Lemma drift_drop X kept s s' : drift X s s' → drift X s (drop_unheld_but kept s').
Proof.
  intros Hs. etrans; [exact Hs|]. destruct (drop_unheld_but_spec kept s') as (_ & Hn & HH & HS). split; [by rewrite Hn|].
  intros x y [Hy _]%HS. right. exists y. split_and!; [done|apply mild_refl|].
  intros _ (entry & He & Hrow). left. destruct (HH (ux_entry y)) as [m Hm]. rewrite He in Hm. eexists. by split; [exact Hm|].
Qed.

(** * Operations *)

(** Whose handle the operation is about to take, and the end of whose task it awaits. *)
Definition taking (c : UdpNext) : option nat :=
  match c with UdpWaiting (UopTakeReply x _ _ _) => Some x | _ => None end.

Definition awaited (c : UdpNext) : option nat :=
  match c with UdpWaiting (UopAwaitReply x _ _ _) => Some x | _ => None end.

(** The session [y] of [x] is over, or its reply task is to be aborted: by the operation, which
    has closed the session before it takes the handle, or by what takes its row. *)
Definition hook (x : nat) (s : UdpRuntime) (c : UdpNext) (y : UdpSession) : Prop :=
  (taking c = Some x ∨ awaited c = Some x → ux_closed y = true) ∧
  (over y ∨ awaited c = Some x ∨
   (ux_handle y = true ∧ (seated s x y ∨ x ∈ wn_drained (op_window c) ∨ taking c = Some x))).

Definition hooked (x : nat) (st : UdpRuntime * UdpNext) : Prop :=
  (x < ur_next st.1)%nat ∧ ∀ y, ur_sessions st.1 !! x = Some y → hook x st.1 st.2 y.

Lemma hooked_drift X x s s' c : drift X s s' → hooked x (s, c) → hooked x (s', c).
Proof.
  intros [Hn Hd] [Hlt Hx]. split; [simpl in *; lia|]. cbn [fst snd] in *. intros y' Hy'.
  destruct (Hd _ _ Hy') as [[Hge _]|(y & Hy & (_ & Hc & Hh & Ho & _) & Hrow)]; [lia|].
  destruct (Hx _ Hy) as [Hcl Hor]. split; [auto|]. destruct Hor as [?|[?|[Hhan Hpl]]]; [auto|auto|].
  destruct (Hh Hhan) as [?|?]; [|auto]. destruct Hpl as [[?|?]%Hrow|[?|?]]; auto 10.
Qed.

(** The tables and the sessions stay. *)
Lemma hooked_same x s s' c c' :
  awaited c = None → taking c = None → wn_drained (op_window c) = [] →
  ur_sessions s' = ur_sessions s → (ur_next s ≤ ur_next s')%nat →
  (∀ e entry, ur_heap s !! e = Some entry →
     ∃ entry', ur_heap s' !! e = Some entry' ∧ ue_sessions entry' = ue_sessions entry) →
  taking c' = None → awaited c' = None → hooked x (s, c) → hooked x (s', c').
Proof.
  intros Ha Ht Hw HS Hn HH Ht' Ha' [Hlt Hx]. split; [simpl in *; lia|]. cbn [fst snd] in *. rewrite HS.
  intros y Hy. destruct (Hx _ Hy) as [_ Hor]. rewrite Ha, Ht, Hw in Hor. split; [intros [?|?]; congruence|].
  destruct Hor as [?|[?|[Hhan [(entry & He & Hrow)|[?%elem_of_nil|?]]]]]; [by left|done| |done|done].
  destruct (HH _ _ He) as (entry' & ? & Heq). right; right. split; [done|]. left. exists entry'. by rewrite Heq.
Qed.

Lemma alter_tables f e s :
  (∀ x, ue_sessions (f x) = ue_sessions x) →
  ∀ e' entry, ur_heap s !! e' = Some entry →
    ∃ entry', ur_heap (ur_alter_entry f e s) !! e' = Some entry' ∧ ue_sessions entry' = ue_sessions entry.
Proof.
  intros Hf e' entry He. simpl. rewrite lookup_alter. case_decide; [subst e'|]; rewrite He; eexists; split; auto.
Qed.

Lemma hooked_call x q s :
  udp_inv s → hooked x (s, UdpWaiting (UopCall q)) → hooked x ((udp_call q s).2, (udp_call q s).1).
Proof.
  intros Hinv Hx. assert (∀ s' c', ur_sessions s' = ur_sessions s → ur_heap s' = ur_heap s → ur_next s' = ur_next s →
    taking c' = None → awaited c' = None → hooked x (s', c')) as Hsame.
  { intros s' c' HS HH Hn ? ?. eapply hooked_same; [..|exact Hx]; try done; [by rewrite Hn|]. rewrite HH. eauto. }
  assert (∀ id a r, hooked x ((udp_bound id (UdpRuntime_bind_entry a r s)).2, (udp_bound id (UdpRuntime_bind_entry a r s)).1))
    as Hbound.
  { intros id a r. unfold UdpRuntime_bind_entry, bind, gets, of_result. simpl. destruct (map_err _ _); simpl; [|by apply Hsame].
    unfold udp_bind_socket. destruct (ur_binds _ _ _); simpl; [|destruct r; by apply Hsame].
    eapply hooked_same; [..|exact Hx]; try done; [simpl; lia|]. simpl. intros e entry He. exists entry.
    rewrite lookup_insert_ne; [done|]. destruct Hinv as (_ & I2 & _). destruct (I2 _ _ He). lia. }
  destruct q as [a|a|id|a|]; simpl.
  - destruct (negb _); [by apply Hsame|apply Hbound].
  - destruct (ur_entries s !! al_id a); [case_bool_decide|]; by apply Hsame.
  - destruct (ur_entries s !! id); by apply Hsame.
  - destruct (negb _); [by apply Hsame|apply Hbound].
  - apply Hsame; [done..| |]; by destruct (map_to_list _).*2.
Qed.

(** What is in the table is drained. *)
Lemma hooked_drain x e k s :
  hooked x (s, UdpWaiting (UopDrain e k)) →
  hooked x ((udp_op_act (UopDrain e k) s).2, (udp_op_act (UopDrain e k) s).1).
Proof.
  intros Hx. cbn [udp_op_act]. destruct (ur_heap s !! e) as [entry|] eqn:He; cbn [fst snd];
    [|eapply hooked_same; [..|exact Hx]; try done; [by destruct k|eauto]].
  destruct Hx as [Hlt Hx]. split; [done|]. simpl. intros y Hy. split; [by intros [?|?]|].
  destruct (Hx _ Hy) as [_ [?|[?|[Hhan Hpl]]]]; [by left|done|]. right; right. split; [done|].
  destruct Hpl as [(entry0 & He0 & Hrow)|[Hin|?]]; [|destruct k; by apply elem_of_nil in Hin|done].
  cbn [fst] in He0. destruct (decide (ux_entry y = e)) as [Heq|Hne].
  - right; left. rewrite Heq in He0. assert (entry0 = entry) as -> by congruence.
    apply table_value_leaves. exists (ux_client_addr y). split; [done|apply lookup_empty].
  - left. exists entry0. simpl. by rewrite lookup_alter_ne.
Qed.

(** The steps on one session. *)
Lemma hooked_session x s f t c c' :
  (∀ y, ident (f y) = ident y) →
  (∀ y, hook x s c y → hook x s c' (if decide (t = x) then f y else y)) →
  hooked x (s, c) → hooked x (ur_alter_session f t s, c').
Proof.
  intros Hid Hf [Hlt Hx]. split; [done|]. cbn [fst snd] in *. simpl. intros y' Hy'.
  enough (hook x s c' y') as [Hcl Hor].
  { split; [exact Hcl|]. exact Hor. }
  specialize (Hf). destruct (decide (t = x)) as [->|Hne].
  - rewrite lookup_alter_eq in Hy'. apply fmap_Some in Hy' as (y & Hy & ->). auto.
  - rewrite lookup_alter_ne in Hy' by done. auto.
Qed.

Lemma hooked_close x t xs e k s :
  hooked x (s, UdpWaiting (UopClose (t :: xs) e k)) →
  hooked x ((udp_op_act (UopClose (t :: xs) e k) s).2, (udp_op_act (UopClose (t :: xs) e k) s).1).
Proof.
  intros Hx. cbn [udp_op_act fst snd]. eapply (hooked_session _ _ _ _ (UdpWaiting (UopClose (t :: xs) e k))); [done| |].
  - intros y [_ Hor]. unfold hook in *. simpl in *. destruct (decide (t = x)) as [->|Hne].
    + split; [done|]. destruct Hor as [[? ?]|[?|[Hh _]]]; [by left|done|]. right; right. auto.
    + split; [by intros [[= ?]|?]|]. destruct Hor as [?|[?|[Hh [?|[Hin|?]]]]]; [by left|done|auto 10| |done].
      apply elem_of_cons in Hin as [?|?]; [by subst|auto 10].
  - destruct (after_counts k); [|exact Hx]. by eapply (hooked_drift (λ _, False)); [apply drift_inc, drift_refl|].
Qed.

Lemma hooked_take x t xs e k s :
  hooked x (s, UdpWaiting (UopTakeReply t xs e k)) →
  hooked x ((udp_op_act (UopTakeReply t xs e k) s).2, (udp_op_act (UopTakeReply t xs e k) s).1).
Proof.
  intros Hx. cbn [udp_op_act]. destruct (ux_handle <$> ur_sessions s !! t) as [[]|] eqn:Ht; cbn [fst snd].
  - eapply hooked_session; [done| |exact Hx]. intros y [Hcl Hor]. unfold hook in *. simpl in *.
    destruct (decide (t = x)) as [->|Hne]; [split; [by intros _; apply Hcl; left|by right; left]|].
    split; [by intros [?|[= ?]]|]. destruct Hor as [?|[?|[Hh [?|[Hin|[= ?]]]]]]; auto 10; done.
  - destruct Hx as [Hlt Hx]. split; [done|]. intros y Hy. destruct (Hx _ Hy) as [Hcl Hor]. cbn [fst snd] in *.
    unfold hook in *. simpl in *. split; [by intros [?|?]|].
    destruct Hor as [?|[?|[Hh [?|[Hin|[= ->]]]]]]; auto 10; try done. rewrite Hy in Ht. simpl in Ht. congruence.
  - destruct Hx as [Hlt Hx]. split; [done|]. intros y Hy. destruct (Hx _ Hy) as [Hcl Hor]. cbn [fst snd] in *.
    unfold hook in *. simpl in *. split; [by intros [?|?]|].
    destruct Hor as [?|[?|[Hh [?|[Hin|[= ->]]]]]]; auto 10; try done. rewrite Hy in Ht. done.
Qed.

Lemma hooked_await x t xs e k s :
  hooked x (s, UdpWaiting (UopAwaitReply t xs e k)) →
  hooked x ((udp_op_act (UopAwaitReply t xs e k) s).2, (udp_op_act (UopAwaitReply t xs e k) s).1).
Proof.
  intros Hx. cbn [udp_op_act fst snd]. eapply hooked_session; [done| |exact Hx]. intros y [Hcl Hor].
  unfold hook in *. simpl in *. split; [by intros [?|?]|].
  destruct (decide (t = x)) as [->|Hne]; [left; split; [by apply Hcl; right|done]|].
  destruct Hor as [?|[[= ?]|[Hh [?|[Hin|?]]]]]; auto 10; done.
Qed.

(** An operation's own steps start no sending. *)
Lemma op_act_sessions op s x y' :
  ur_sessions (udp_op_act op s).2 !! x = Some y' →
  ∃ y, ur_sessions s !! x = Some y ∧ (ux_reply y' = ux_reply y ∨ ux_reply y' = None).
Proof.
  assert (∀ f t s1, ur_sessions s1 = ur_sessions s →
    (∀ y, ux_reply (f y) = ux_reply y ∨ ux_reply (f y) = None) →
    ur_sessions (ur_alter_session f t s1) !! x = Some y' →
    ∃ y, ur_sessions s !! x = Some y ∧ (ux_reply y' = ux_reply y ∨ ux_reply y' = None)) as Halter.
  { intros f t s1 HS Hf. simpl. rewrite HS, lookup_alter. case_decide; [|eauto]. intros (y & Hy & ->)%fmap_Some.
    subst. eauto. }
  assert (∀ id a r, ur_sessions (udp_bound id (UdpRuntime_bind_entry a r s)).2 = ur_sessions s) as Hbound.
  { intros id a r. unfold UdpRuntime_bind_entry, bind, gets, of_result. simpl. destruct (map_err _ _); simpl; [|done].
    unfold udp_bind_socket. destruct (ur_binds _ _ _); [done|by destruct r]. }
  destruct op as [q|id e|e z|e b rest|e b rest|e b rest|e b rest|e b rest|e k|[|t xs] e k|t xs e k|t xs e k];
    cbn [udp_op_act snd]; eauto.
  - destruct q as [a|a|id|a|]; simpl; [destruct (negb _)|destruct (ur_entries s !! al_id a); [case_bool_decide|]
      |destruct (ur_entries s !! id)|destruct (negb _)|]; rewrite ?Hbound; eauto.
  - destruct (ue_receive_task <$> ur_heap s !! e) as [[]|]; eauto.
  - destruct (ue_cleanup_task <$> ur_heap s !! e) as [[]|]; eauto.
  - destruct (ur_heap s !! e); eauto.
  - destruct k; eauto.
  - apply Halter; [by destruct (after_counts k)|by left].
  - destruct (ux_handle <$> ur_sessions s !! t) as [[]|]; [|eauto..]. apply Halter; [done|by left].
  - apply Halter; [done|by right].
Qed.

Lemma hooked_act x op s :
  inv_within (op_window (UdpWaiting op)) s → hooked x (s, UdpWaiting op) →
  hooked x ((udp_op_act op s).2, (udp_op_act op s).1).
Proof.
  intros Hinv Hx.
  assert (∀ f e c', awaited (UdpWaiting op) = None → taking (UdpWaiting op) = None →
    wn_drained (op_window (UdpWaiting op)) = [] → (∀ z, ue_sessions (f z) = ue_sessions z) →
    taking c' = None → awaited c' = None → hooked x (ur_alter_entry f e s, c')) as Hentry.
  { intros f e c' ? ? ? Hf ? ?. eapply hooked_same; [..|exact Hx]; try done. by apply alter_tables. }
  assert (∀ c', awaited (UdpWaiting op) = None → taking (UdpWaiting op) = None →
    wn_drained (op_window (UdpWaiting op)) = [] →
    taking c' = None → awaited c' = None → hooked x (s, c')) as Hsame.
  { intros. eapply hooked_same; [..|exact Hx]; try done. eauto. }
  destruct op as [q|id e|e z|e b rest|e b rest|e b rest|e b rest|e b rest|e k|[|t xs] e k|t xs e k|t xs e k].
  - by apply hooked_call.
  - eapply hooked_same; [..|exact Hx]; try done. simpl. eauto.
  - by apply Hentry.
  - by apply Hentry.
  - cbn [udp_op_act]. destruct (ue_receive_task <$> ur_heap s !! e) as [[]|]; cbn [fst snd]; auto.
  - by apply Hentry.
  - cbn [udp_op_act]. destruct (ue_cleanup_task <$> ur_heap s !! e) as [[]|]; cbn [fst snd]; auto.
  - by apply Hentry.
  - by apply hooked_drain.
  - cbn [udp_op_act]. destruct k as [|b rest]; cbn [fst snd]; [|by apply Hentry; destruct rest].
    eapply (hooked_drift (λ _, False)); [apply drift_inc, drift_refl|by apply Hentry].
  - apply hooked_close, Hx.
  - apply hooked_take, Hx.
  - apply hooked_await, Hx.
Qed.

Lemma hooked_step x st st' : udp_fine_inv st → hooked x st → udp_fine_step st st' → hooked x st'.
Proof.
  intros [Hinv _ _ _] Hx Hstep. destruct Hstep as [q r s|op s|ev s s' c Hev]; cbn [fst snd] in *.
  - eapply hooked_same; [..|exact Hx]; try done. eauto.
  - unfold udp_op_step. pose proof (hooked_act x op s Hinv Hx) as Hx'. destruct (udp_op_act op s) as [c s'].
    cbn [fst snd] in *. eapply (hooked_drift (λ _, False)); [apply drift_drop, drift_refl|exact Hx'].
  - eapply hooked_drift; [apply drift_drop; by eapply task_step_drift|exact Hx].
Qed.

Lemma hooked_steps x st st' : udp_fine_inv st → hooked x st → rtc udp_fine_step st st' → hooked x st'.
Proof. intros Hst Hx Hr. induction Hr; eauto using udp_fine_step_inv, hooked_step. Qed.

(** Between the operations the reply task of an open session runs only in its row. *)
Lemma live_hooked x y s r :
  udp_inv s → ur_sessions s !! x = Some y → live y → ux_handle y = true → hooked x (s, UdpReturned r).
Proof.
  intros (_ & _ & I3 & _) Hy Hl Hh. destruct (I3 _ _ Hy) as [Hlt (entry & He & _ & Hrow)]. split; [done|].
  cbn [fst snd]. intros y' Hy'. assert (y' = y) as -> by congruence. split; [by intros [?|?]|].
  right; right. split; [done|]. left.
  destruct (Hrow Hl) as [?|?%elem_of_nil]; [by exists entry|done].
Qed.

(** ** What was sending goes on to *)

(** Whatever comes to send was the current session of its client at that moment. *)
Lemma fine_step_sending st st' x y' n :
  udp_fine_inv st → udp_fine_step st st' → ur_sessions st'.1 !! x = Some y' → sending y' n →
  ∃ y, ur_sessions st.1 !! x = Some y ∧ (sending y n ∨ current_for st.1 x y).
Proof.
  intros [Hinv _ _ _] Hstep Hy' Hs. destruct Hstep as [q r s|op s|ev s s' c Hev]; cbn [fst snd] in *; [eauto| |].
  - pose proof (op_act_sessions op s x) as Hop. unfold udp_op_step in Hy'. destruct (udp_op_act op s) as [c s'].
    cbn [fst snd] in *. destruct (drop_unheld_but_spec (op_sessions c) s') as (_ & _ & _ & HS).
    apply HS in Hy' as [Hy' _]. destruct (Hop _ Hy') as (y & Hy & [Hr|Hr]); unfold sending in *; [|congruence].
    exists y. split; [done|]. left. congruence.
  - destruct (task_step_drift _ _ _ Hev) as [_ Hd]. 
    destruct (drop_unheld_but_spec (op_sessions c) s') as (_ & _ & _ & HS). apply HS in Hy' as [Hy' _].
    assert (∀ y, ur_sessions s !! x = Some y → passes s x → current_for s x y) as Hpass.
    { intros y Hy (y0 & Hy0 & Hcur). assert (y0 = y) as -> by congruence. unfold session_current in Hcur.
      destruct (ur_heap s !! ux_entry y) as [entry|] eqn:He; [|done].
      apply andb_true_iff in Hcur as [Hrow%bool_decide_eq_true Hg%Z.eqb_eq].
      eapply row_current; [done|done|done|done|by right]. }
    destruct (Hd _ _ Hy') as [[Hge HX]|(y & Hy & (_ & _ & _ & _ & HX) & _)].
    + exfalso. destruct (HX _ Hs) as (y & Hy & _). destruct Hinv as (_ & _ & I3 & _). destruct (I3 _ _ Hy). lia.
    + exists y. split; [done|]. destruct (HX _ Hs) as [?|?]; [by left|right; auto].
Qed.

Lemma fine_steps_inv st st' : udp_fine_inv st → rtc udp_fine_step st st' → udp_fine_inv st'.
Proof. intros Hst Hr. induction Hr; eauto using udp_fine_step_inv. Qed.

Lemma fine_step_over st st' x y y' :
  udp_fine_inv st → udp_fine_step st st' → ur_sessions st.1 !! x = Some y → over y →
  ur_sessions st'.1 !! x = Some y' → over y'.
Proof.
  intros Hst Hstep Hy [Hc Hr] Hy'. pose proof (fine_step_calmed _ _ Hst Hstep) as (_ & _ & Hs).
  destruct Hst as [(_ & _ & I3 & _) _ _ _]. destruct (I3 _ _ Hy) as [Hlt _].
  destruct (Hs _ _ Hy') as [(z & Hz & _ & Hcl)|?]; [|lia]. assert (z = y) as -> by congruence.
  split; [auto|]. destruct Hstep as [q r s|op s|ev s s' c Hev]; cbn [fst snd] in *; [congruence| |].
  - pose proof (op_act_sessions op s x) as Hop. unfold udp_op_step in Hy'. destruct (udp_op_act op s) as [c s'].
    cbn [fst snd] in *. destruct (drop_unheld_but_spec (op_sessions c) s') as (_ & _ & _ & HS).
    apply HS in Hy' as [Hy' _]. destruct (Hop _ Hy') as (y1 & Hy1 & [?|?]); congruence.
  - destruct (drift_drop _ (op_sessions c) _ _ (task_step_drift _ _ _ Hev)) as [_ Hd].
    destruct (Hd _ _ Hy') as [[? _]|(y1 & Hy1 & (_ & _ & _ & Ho & _) & _)]; [lia|].
    assert (y1 = y) as -> by congruence. by apply Ho.
Qed.

Lemma fine_steps_over st st' x y y' :
  udp_fine_inv st → rtc udp_fine_step st st' → ur_sessions st.1 !! x = Some y → over y →
  ur_sessions st'.1 !! x = Some y' → over y'.
Proof.
  intros Hst Hr. revert y Hst. induction Hr as [st|st1 st2 st3 H12 H23 IH]; intros y Hst Hy Ho Hy'; [congruence|].
  pose proof (udp_fine_step_inv _ _ Hst H12) as Hst2.
  pose proof Hst as [(_ & _ & I3 & _) _ _ _]. destruct (I3 _ _ Hy) as [Hlt _].
  destruct (fine_step_calmed _ _ Hst H12) as (_ & Hn & _).
  destruct (fine_steps_calmed _ _ Hst2 H23) as (_ & _ & Hs).
  destruct (Hs _ _ Hy') as [(y2 & Hy2 & _)|?]; [|lia]. eapply IH; [done|exact Hy2| |done].
  exact (fine_step_over _ _ _ _ _ Hst H12 Hy Ho Hy2).
Qed.

(** * After an operation has returned *)
Section returned.
Context (s1 s2 : UdpRuntime) (r1 : result unit RuntimeError) (c2 : UdpNext) (x : nat) (y : UdpSession).
Context (Hinv : udp_fine_inv (s1, UdpReturned r1)).
Context (Hlater : rtc udp_fine_step (s1, UdpReturned r1) (s2, c2)).
Context (Hy : ur_sessions s2 !! x = Some y).
(** The session [x] is never the current one again. *)
Context (Hnever : ∀ st z, rtc udp_fine_step (s1, UdpReturned r1) st → ur_sessions st.1 !! x = Some z →
  ident z = ident y → ¬ current_for st.1 x z).

(** It is what it was. *)
Lemma session_before st :
  rtc udp_fine_step (s1, UdpReturned r1) st → rtc udp_fine_step st (s2, c2) → (x < ur_next st.1)%nat →
  ∃ z, ur_sessions st.1 !! x = Some z ∧ ident z = ident y ∧ (ux_closed z = true → ux_closed y = true).
Proof.
  intros H1 H2 Hlt. assert (udp_fine_inv st) as Hst by (by eapply fine_steps_inv).
  destruct (fine_steps_calmed _ _ Hst H2) as (_ & _ & Hs).
  destruct (Hs _ _ Hy) as [(z & Hz & Hid & Hc)|Hge]; [|cbn [fst] in *; lia]. by exists z.
Qed.

(** What sends was sending when the operation returned, and was closed then. *)
Lemma sending_before st n :
  rtc udp_fine_step st (s2, c2) → rtc udp_fine_step (s1, UdpReturned r1) st → sending y n →
  ∃ z, ur_sessions st.1 !! x = Some z ∧ ident z = ident y ∧ sending z n.
Proof.
  intros H2. remember (s2, c2) as st2 eqn:Heq.
  induction H2 as [st|st st' st2 Hstep H2 IH]; intros H1 Hs; subst; [by exists y|].
  destruct (IH eq_refl Hlater (rtc_r _ _ _ H1 Hstep) Hs) as (z' & Hz' & Hid' & Hs').
  assert (udp_fine_inv st) as Hst by (by eapply fine_steps_inv).
  destruct (fine_step_sending _ _ _ _ _ Hst Hstep Hz' Hs') as (z & Hz & Hor). exists z. split; [done|].
  assert (ident z = ident y) as Hid.
  { destruct (fine_step_calmed _ _ Hst Hstep) as (_ & _ & Hc). destruct (Hc _ _ Hz') as [(z0 & Hz0 & Hid0 & _)|Hge];
      [congruence|]. destruct Hst as [(_ & _ & I3 & _) _ _ _]. destruct (I3 _ _ Hz). lia. }
  split; [done|]. destruct Hor as [?|Hcur]; [done|]. by destruct (Hnever st z H1 Hz Hid).
Qed.

Lemma straggler n :
  sending y n → ux_closed y = true ∧ ∃ y1, ur_sessions s1 !! x = Some y1 ∧ sending y1 n.
Proof.
  intros Hs. destruct (sending_before _ n Hlater (rtc_refl _ _) Hs) as (y1 & Hy1 & Hid & Hs1). cbn [fst] in Hy1.
  split; [|by exists y1]. destruct Hinv as [Hinv1 _ _ _]. cbn [fst snd] in *.
  pose proof Hinv1 as (_ & _ & I3 & _). destruct (I3 _ _ Hy1) as [Hlt (entry & He & _ & Hrow)].
  destruct (session_before _ (rtc_refl _ _) Hlater Hlt) as (z & Hz & _ & Hc). cbn [fst] in Hz.
  assert (z = y1) as -> by congruence. destruct (ux_closed y1) eqn:Hcl; [auto|].
  destruct Hrow as [Hrow|?%elem_of_nil]; [split; [rewrite Hs1; by eexists|done]| |done].
  exfalso. apply (Hnever (s1, UdpReturned r1) y1 (rtc_refl _ _) Hy1 Hid). eapply row_current; [exact Hinv1|done|done|done|by left].
Qed.

(** The reply task that the operation could abort has ended. *)
Lemma aborted s q y0 :
  udp_fine_inv (s, UdpWaiting (UopCall q)) → rtc udp_fine_step (s, UdpWaiting (UopCall q)) (s1, UdpReturned r1) →
  ur_sessions s !! x = Some y0 → live y0 → ux_handle y0 = true → ux_reply y = None.
Proof.
  intros Hs Hop Hy0 Hl Hh. pose proof Hs as [Hinv0 _ _ _]. cbn [fst snd] in *.
  assert (hooked x (s, UdpWaiting (UopCall q))) as Hk.
  { eapply hooked_same; [..|by eapply (live_hooked x y0 s (Ok tt))]; try done. eauto. }
  destruct (hooked_steps _ _ _ Hs Hk Hop) as [Hlt Hx]. cbn [fst snd] in *.
  destruct (session_before _ (rtc_refl _ _) Hlater Hlt) as (y1 & Hy1 & Hid & Hc). cbn [fst] in *.
  destruct (Hx _ Hy1) as [_ [Ho|[?|[Hhan [(entry & He & Hrow)|[?%elem_of_nil|?]]]]]]; try done.
  - by destruct (fine_steps_over _ _ x y1 y Hinv Hlater Hy1 Ho Hy).
  - exfalso. apply (Hnever (s1, UdpReturned r1) y1 (rtc_refl _ _) Hy1 Hid). destruct Hinv as [Hinv1 _ _ _].
    eapply row_current; [exact Hinv1|done|done|done|by left].
Qed.
End returned.

(** What is left of a session [x] whose task an operation stopped, called in [s] and returned
    in [s1], in a later state [s2]: if its reply task was running at the call, with its handle
    stored, it has ended. Otherwise it may have been sending when the operation returned; it
    still sends that one reply, and ends. *)
Definition cut_off (s s1 s2 : UdpRuntime) (x : nat) (y : UdpSession) : Prop :=
  (∀ y0, ur_sessions s !! x = Some y0 → live y0 → ux_handle y0 = true → ux_reply y = None) ∧
  (∀ n, ux_reply y = Some (ReplySend n) →
     (∃ y1, ur_sessions s1 !! x = Some y1 ∧ ux_reply y1 = Some (ReplySend n)) ∧
     ∀ r s3 y3, udp_task_step (UEvReplySent x r) s2 = Some s3 → ur_sessions s3 !! x = Some y3 →
       ux_reply y3 = None).

Lemma returned_cut_off s q s1 r1 s2 c2 x y :
  udp_fine_inv (s, UdpWaiting (UopCall q)) → rtc udp_fine_step (s, UdpWaiting (UopCall q)) (s1, UdpReturned r1) →
  rtc udp_fine_step (s1, UdpReturned r1) (s2, c2) → ur_sessions s2 !! x = Some y →
  (∀ st z, rtc udp_fine_step (s1, UdpReturned r1) st → ur_sessions st.1 !! x = Some z →
     ident z = ident y → ¬ current_for st.1 x z) →
  cut_off s s1 s2 x y.
Proof.
  intros Hs Hop Hlater Hy Hnever.
  assert (udp_fine_inv (s1, UdpReturned r1)) as Hinv by (by eapply fine_steps_inv).
  split.
  - intros y0 Hy0 Hl Hh. by eapply aborted.
  - intros n Hn. destruct (straggler _ _ _ _ _ _ Hinv Hlater Hy Hnever n Hn) as [Hcl Hy1]. split; [exact Hy1|].
    intros r s3 y3 Hev. by eapply reply_closed_ends.
Qed.
