(* ===== verification/UdpFineStop.v ===== *)
(** What an operation of the UDP relay (runtime/udp.rs) has settled when it returns,
    whatever ran while it was under way: an update cuts off the sessions of the target
    before, and a deleted listener stays gone. *)
From stdpp Require Import base gmap strings list relations fin_maps.
From Stdlib Require Import ZArith Lia.
From S2P Require Import Prelude RustStd Model Facade Metrics UdpModel Udp UdpSpec UdpSteps.
From S2P Require Import UdpProps UdpAccount UdpQuiet RealServing Views UdpFine UdpFineSpec UdpFineProps UdpFineCut.
Open Scope Z_scope.

(** * Updates *)













(** ** What an update closes *)
Definition closed_in (x : nat) (s : UdpRuntime) : Prop :=
  ∀ y, ur_sessions s !! x = Some y → ux_closed y = true.

(** An operation is still to close [x], or it is closed. *)
Definition doomed (x : nat) (st : UdpRuntime * UdpNext) : Prop :=
  (x < ur_next st.1)%nat ∧ (x ∈ wn_drained (op_window st.2) ∨ closed_in x st.1).

Lemma calmed_doomed x st st' :
  calmed st.1 st'.1 →
  (x ∈ wn_drained (op_window st.2) → x ∈ wn_drained (op_window st'.2) ∨ closed_in x st'.1) →
  doomed x st → doomed x st'.
Proof.
  intros (_ & Hn & Hs) Hd [Hx Hor]. split; [lia|]. destruct Hor as [?|Hcl]; [auto|].
  right. intros y' Hy'. destruct (Hs _ _ Hy') as [(y & Hy & _ & Hmono)|?]; [|lia]. eauto.
Qed.

Lemma closing_closes t xs e k s : closed_in t (udp_op_step (UopClose (t :: xs) e k) s).2.
Proof.
  intros y'. unfold udp_op_step. cbn [udp_op_act snd op_sessions].
  match goal with |- context [drop_unheld_but ?l ?s'] => destruct (drop_unheld_but_spec l s') as (_ & _ & _ & HS) end.
  intros [Hy' _]%HS. simpl in Hy'. rewrite lookup_alter_eq in Hy'. by apply fmap_Some in Hy' as (y0 & _ & ->).
Qed.

Lemma doomed_step x st st' : udp_fine_inv st → doomed x st → udp_fine_step st st' → doomed x st'.
Proof.
  intros Hst Hx Hstep. eapply calmed_doomed; [by eapply fine_step_calmed| |exact Hx]. clear Hx.
  destruct Hstep as [q r s|op s|ev s s' c Hev]; cbn [fst snd]; [by intros ?%elem_of_nil| |by left].
  destruct op as [q|id e|e a|e b rest|e b rest|e b rest|e b rest|e b rest|e [|]|[|t xs] e k|t xs e k|t xs e k];
    try by intros ?%elem_of_nil.
  - intros [->|?]%elem_of_cons; [right; apply closing_closes|by left].
  - left. unfold udp_op_step. cbn [udp_op_act]. by destruct (ux_handle <$> ur_sessions s !! t) as [[]|].
  - by left.
Qed.

Lemma doomed_returned x st s1 r1 :
  udp_fine_inv st → doomed x st → rtc udp_fine_step st (s1, UdpReturned r1) → closed_in x s1.
Proof.
  intros Hst Hx Hr. remember (s1, UdpReturned r1) as z eqn:Hz.
  induction Hr as [st|st st' z Hstep _ IH]; subst.
  - destruct Hx as [_ [Hin|?]]; [by apply elem_of_nil in Hin|done].
  - apply IH; [by eapply udp_fine_step_inv|by eapply doomed_step|done].
Qed.

(** An update also cuts off the new target's first clients. It lets go of the lock of
    the state before it drains the table, and the receive task runs in between; whatever
    session is current when the update comes to drain the table, though it is connected to
    the target just set, is closed when the update returns. *)
Theorem update_cuts_new_udp_client x0 s e x y s1 r1 :
  udp_fine_initial x0 → rtc udp_fine_step x0 (s, UdpWaiting (UopDrain e UafUpdate)) →
  ur_sessions s !! x = Some y → ux_entry y = e → current_for s x y →
  rtc udp_fine_step ((udp_op_step (UopDrain e UafUpdate) s).2, (udp_op_step (UopDrain e UafUpdate) s).1)
    (s1, UdpReturned r1) →
  ∀ y1, ur_sessions s1 !! x = Some y1 → ux_closed y1 = true.
Proof.
  intros H0 Hr Hy <- (entry & He & Hrow & _) Hret. pose proof (reachable_udp_fine _ _ H0 Hr) as Hs.
  assert (udp_fine_step (s, UdpWaiting (UopDrain (ux_entry y) UafUpdate))
    ((udp_op_step (UopDrain (ux_entry y) UafUpdate) s).2, (udp_op_step (UopDrain (ux_entry y) UafUpdate) s).1)) as Hstep
    by constructor.
  eapply doomed_returned; [by eapply udp_fine_step_inv| |exact Hret]. split.
  - destruct (fine_step_calmed _ _ Hs Hstep) as (_ & Hn & _). destruct Hs as [(_ & _ & I3 & _) _ _ _].
    destruct (I3 _ _ Hy). cbn [fst] in *. lia.
  - left. unfold udp_op_step. cbn [udp_op_act]. rewrite He. cbn [fst snd op_window drained wn_drained].
    apply table_value_leaves. exists (ux_client_addr y). split; [done|apply lookup_empty].
Qed.

(** * Deletions *)

























