(* ===== verification/UdpFineViews.v ===== *)
(** An operation of the UDP relay in the middle of the relay's tasks returns what it would
    have returned undisturbed, and leaves the same listeners (runtime/udp.rs). *)
From stdpp Require Import base gmap strings list relations fin_maps.
From Stdlib Require Import ZArith Lia.
From S2P Require Import Prelude RustStd Model Facade Metrics Serving UdpModel Udp UdpSpec UdpSteps.
From S2P Require Import UdpAccount UdpQuiet RealServing Views UdpFine UdpFineSpec.
Open Scope Z_scope.

(** * What an operation returns and leaves *)

(** An operation of the facade with its result, in one step. *)
Definition udp_operation (q : UdpRequest) : UdpM unit :=
  match q with
  | UdpCreate a => UdpRuntime_create a 0
  | UdpUpdate a => UdpRuntime_update a 0
  | UdpDelete id => UdpRuntime_delete id 0
  | UdpRestore a => UdpRuntime_restore a 0
  | UdpShutdown => modify UdpRuntime_shutdown_all
  end.

Lemma udp_track_result a restore s s' :
  udp_shape s' = udp_shape s → (udp_track a restore s').1 = (udp_track a restore s).1.
Proof.
  intros Hs%shape_inputs. unfold udp_inputs in Hs. injection Hs as Hc Hb Hn.
  unfold udp_track. destruct (negb _); [done|]. unfold UdpRuntime_bind_entry, bind, gets, of_result. rewrite Hc.
  destruct (map_err _ _); [|done]. unfold udp_bind_socket. simpl. rewrite Hb, Hn.
  by destruct (ur_binds s _ _), restore.
Qed.

Lemma udp_operation_result q s s' :
  udp_shape s' = udp_shape s → (udp_operation q s').1 = (udp_operation q s).1.
Proof.
  intros Hs. destruct (shape_parts _ _ Hs) as [HE _]. destruct q as [a|a|id|a|]; simpl; [| | | |done].
  - by apply udp_track_result.
  - unfold UdpRuntime_update, bind, gets, of_result. rewrite HE. destruct (ur_entries s !! al_id a); simpl; [|done].
    by case_bool_decide.
  - unfold UdpRuntime_delete, bind, gets. rewrite HE. by destruct (ur_entries s !! id).
  - by apply udp_track_result.
Qed.

(** The view an operation leaves, as a function of the view it finds. *)
Definition udp_view_after (q : UdpRequest) (r : result unit RuntimeError) (v : gmap string Listener)
    : gmap string Listener :=
  match q with
  | UdpCreate a | UdpRestore a =>
      if bool_decide (al_protocol a = Udp) && is_ok r then <[al_id a := listener_of a]> v else v
  | UdpUpdate a => alter (λ l, (l.1, al_target a)) (al_id a) v
  | UdpDelete id => delete id v
  | UdpShutdown => ∅
  end.

Lemma shape_stops b es s : udp_shape (foldr (UdpRuntime_stop_entry b) s es) = udp_shape s.
Proof. induction es as [|e es IH]; cbn [foldr]; [done|]. by rewrite shape_stop. Qed.

Lemma udp_track_after a restore s :
  udp_ok s →
  wp (udp_track a restore) (λ r s', refs_inj (ur_entries s') ∧
    udp_view s' = if bool_decide (al_protocol a = Udp) && is_ok r
                  then <[al_id a := listener_of a]> (udp_view s) else udp_view s) s.
Proof.
  intros Hok. destruct (decide (al_protocol a = Udp)) as [Hp|Hp].
  - rewrite bool_decide_true by done. by eapply wp_mono; [apply udp_track_view|].
  - unfold udp_track. rewrite bool_decide_false by done. simpl. split; [apply Hok|done].
Qed.

Lemma udp_operation_view q s :
  udp_ok s →
  wp (udp_operation q) (λ r s', refs_inj (ur_entries s') ∧ udp_view s' = udp_view_after q r (udp_view s)) s.
Proof.
  intros Hok. destruct q as [a|a|id|a|]; simpl.
  - by apply udp_track_after.
  - by eapply wp_mono; [apply udp_update_view|].
  - by eapply wp_mono; [apply udp_delete_view|].
  - by apply udp_track_after.
  - wp_simpl. unfold UdpRuntime_shutdown_all.
    set (l := (map_to_list (ur_entries s)).*2).
    assert (udp_shape (drop_unheld (foldr (UdpRuntime_stop_entry false) (ur_set_entries ∅ s) l)) =
      udp_shape (ur_set_entries ∅ s)) as [HE Hr]%shape_parts by (by rewrite shape_unheld, shape_stops).
    unfold udp_view. rewrite HE, Hr. split; [by intros i j e|done].
Qed.

(** The result and the view that an operation in flight is going to leave if nothing else
    comes in. *)
Definition udp_promised (x : UdpRuntime * UdpNext) : result unit RuntimeError * gmap string Listener :=
  match x.2 with
  | UdpReturned r => (r, udp_view x.1)
  | UdpWaiting (UopCall q) => ((udp_operation q x.1).1, udp_view (udp_operation q x.1).2)
  | UdpWaiting (UopInsert id e) => (Ok tt, udp_view (ur_set_entries (<[id := e]> (ur_entries x.1)) x.1))
  | UdpWaiting (UopSetState e a) => (Ok tt, udp_view (ur_alter_entry (next_generation a) e x.1))
  | UdpWaiting _ => (Ok tt, udp_view x.1)
  end.

Definition udp_fine_refs (x : UdpRuntime * UdpNext) : Prop :=
  refs_inj (ur_entries x.1) ∧
  match x.2 with UdpWaiting (UopInsert _ e) => ∀ j, ur_entries x.1 !! j ≠ Some e | _ => True end.

Lemma shape_view s s' : udp_shape s' = udp_shape s → udp_view s' = udp_view s.
Proof. intros [HE Hr]%shape_parts. unfold udp_view. by rewrite HE, Hr. Qed.

(** The promise depends on the shape only. *)
Lemma shape_promised s s' c :
  (∀ q, c = UdpWaiting (UopCall q) → udp_ok s ∧ udp_ok s') →
  udp_shape s' = udp_shape s → udp_promised (s', c) = udp_promised (s, c).
Proof.
  intros Hok Hs. pose proof (shape_view _ _ Hs) as Hv. destruct (shape_parts _ _ Hs) as [HE Hr].
  destruct c as [r|[q|id e|e a| | | | | | | | | ]]; unfold udp_promised; cbn [fst snd]; try by rewrite Hv.
  - destruct (Hok q eq_refl) as [Hok1 Hok2]. pose proof (udp_operation_result q s s' Hs) as Hres.
    pose proof (udp_operation_view q s Hok1) as H1. pose proof (udp_operation_view q s' Hok2) as H2. unfold wp in H1, H2.
    destruct (udp_operation q s) as [r1 s1], (udp_operation q s') as [r2 s2]. simpl in *. subst r2.
    destruct H1 as [_ ->], H2 as [_ ->]. by rewrite Hv.
  - f_equal. unfold udp_view. change (udp_rows (ur_set_entries ?E ?s)) with (udp_rows s). simpl. by rewrite HE, Hr.
  - f_equal. unfold udp_view. simpl. rewrite HE. f_equal. unfold udp_rows in *. simpl.
    apply map_eq. intros e'. rewrite !lookup_fmap, !lookup_alter.
    assert (∀ i, udp_row <$> ur_heap s' !! i = udp_row <$> ur_heap s !! i) as Hrow
      by (intros i; rewrite <- !lookup_fmap; by rewrite Hr).
    case_decide; [|apply Hrow]. specialize (Hrow e).
    destruct (ur_heap s' !! e), (ur_heap s !! e); simpl in *; try done.
    unfold udp_row, entry_target in *. simpl. congruence.
Qed.

(** * What a step leaves of the promise *)
Lemma track_promised a restore s :
  udp_promised ((udp_bound (al_id a) (UdpRuntime_bind_entry a restore s)).2,
                (udp_bound (al_id a) (UdpRuntime_bind_entry a restore s)).1) =
  let out := (let! entry := UdpRuntime_bind_entry a restore in
              modify (λ s, ur_set_entries (<[al_id a := entry]> (ur_entries s)) s);;
              modify (ur_inc runtime_apply_total)) s in
  (out.1, udp_view out.2).
Proof. unfold bind, modify. by destruct (UdpRuntime_bind_entry a restore s) as [[e|err] s1]. Qed.

Lemma stop_next_promised es s : udp_promised (s, udp_stop_next es) = (Ok tt, udp_view s).
Proof. by destruct es. Qed.

Lemma call_promised q s :
  udp_promised ((udp_call q s).2, (udp_call q s).1) = udp_promised (s, UdpWaiting (UopCall q)).
Proof.
  destruct q as [a|a|id|a|]; cbn [udp_call udp_promised fst snd udp_operation].
  - unfold UdpRuntime_create, udp_track. destruct (negb _); [done|]. apply track_promised.
  - unfold UdpRuntime_update, bind, gets, of_result. destruct (ur_entries s !! al_id a) as [e|]; simpl; [|done].
    assert (∀ s1, udp_view (ur_inc runtime_apply_total (drop_unheld (UdpRuntime_close_sessions e true
      (ur_alter_entry (next_generation (UdpRuntime_entry_state_for a)) e s1)))) =
      udp_view (ur_alter_entry (next_generation (UdpRuntime_entry_state_for a)) e s1)) as Hv.
    { intros s1. apply shape_view. rewrite shape_inc, shape_unheld. apply shape_sessions_closed. }
    case_bool_decide; unfold udp_promised; simpl; f_equal; symmetry; apply Hv.
  - unfold UdpRuntime_delete, bind, gets. destruct (ur_entries s !! id) as [e|]; simpl; [|done].
    unfold udp_promised. simpl. f_equal. symmetry. apply shape_view. rewrite shape_unheld. apply shape_stop.
  - unfold UdpRuntime_restore, udp_track. destruct (negb _); [done|]. apply track_promised.
  - rewrite stop_next_promised. unfold UdpRuntime_shutdown_all, modify. simpl. f_equal. symmetry.
    apply shape_view. by rewrite shape_unheld, shape_stops.
Qed.

Lemma op_act_promised op s :
  udp_promised ((udp_op_act op s).2, (udp_op_act op s).1) = udp_promised (s, UdpWaiting op).
Proof.
  assert (∀ f e s1 (r : result unit RuntimeError), (∀ x, udp_row (f x) = udp_row x) →
    (r, udp_view (ur_alter_entry f e s1)) = (r, udp_view s1)) as Halt.
  { intros f e s1 r Hf. f_equal. by apply shape_view, shape_alter. }
  destruct op as [q|id e|e x|e b rest|e b rest|e b rest|e b rest|e b rest|e k|[|x xs] e k|x xs e k|x xs e k];
    cbn [udp_op_act fst snd].
  - apply call_promised.
  - done.
  - done.
  - by apply Halt.
  - destruct (ue_receive_task <$> ur_heap s !! e) as [[]|]; [by apply Halt|done..].
  - by apply Halt.
  - by destruct (ue_cleanup_task <$> ur_heap s !! e) as [[]|]; [apply Halt|..].
  - by apply Halt.
  - destruct (ur_heap s !! e); [by apply Halt|done].
  - destruct k as [|b rest]; cbn [fst snd]; [by apply Halt|]. rewrite stop_next_promised. by apply Halt.
  - unfold udp_promised. cbn [fst snd]. f_equal. apply shape_view. rewrite shape_session.
    by destruct (after_counts k).
  - by destruct (ux_handle <$> ur_sessions s !! x) as [[]|].
  - done.
Qed.

Lemma act_not_call op s q : (udp_op_act op s).1 ≠ UdpWaiting (UopCall q).
Proof.
  destruct op as [q'|id e|e x|e b rest|e b rest|e b rest|e b rest|e b rest|e k|[|x xs] e k|x xs e k|x xs e k];
    cbn [udp_op_act fst snd]; try done.
  - destruct q'; simpl; [destruct (negb _); [done|]|by destruct (ur_entries s !! _)|by destruct (ur_entries s !! _)
      |destruct (negb _); [done|]|by destruct (map_to_list _).*2];
      unfold udp_bound; by destruct (UdpRuntime_bind_entry _ _ s) as [[] ?].
  - by destruct (ue_receive_task <$> ur_heap s !! e) as [[]|].
  - by destruct (ue_cleanup_task <$> ur_heap s !! e) as [[]|].
  - by destruct (ur_heap s !! e).
  - by destruct k as [|? []].
  - by destruct (ux_handle <$> ur_sessions s !! x) as [[]|].
Qed.

Lemma udp_op_promised op s :
  udp_promised ((udp_op_step op s).2, (udp_op_step op s).1) = udp_promised (s, UdpWaiting op).
Proof.
  rewrite <- op_act_promised. pose proof (act_not_call op s) as Hno. unfold udp_op_step.
  destruct (udp_op_act op s) as [c s']. cbn [fst snd] in *. apply shape_promised; [|apply shape_unheld_but].
  intros q ->. by destruct (Hno q).
Qed.

Lemma udp_event_promised ev s s' c :
  udp_within (s, c) → udp_fine_refs (s, c) → udp_task_step ev s = Some s' →
  udp_promised (drop_unheld_but (op_sessions c) s', c) = udp_promised (s, c).
Proof.
  intros [Hinv _] [Hi _] Hev. pose proof (udp_task_shape _ _ _ Hev) as Hs.
  assert (udp_shape (drop_unheld_but (op_sessions c) s') = udp_shape s) as Hs' by (by rewrite shape_unheld_but).
  apply shape_promised; [|done]. intros q ->. cbn [fst snd] in *. destruct (shape_parts _ _ Hs') as [HE _].
  split; (split; [|by rewrite ?HE]); [exact Hinv|]. by eapply inv_drop_unheld_but, task_step_inv.
Qed.

Lemma udp_bind_refs a restore s :
  wp (UdpRuntime_bind_entry a restore)
    (λ r s', ur_entries s' = ur_entries s ∧ ∀ e, r = Ok e → e = ur_next s) s.
Proof.
  unfold UdpRuntime_bind_entry. wp_simpl. destruct (map_err _ _); [|done].
  unfold udp_bind_socket, wp. simpl. destruct (ur_binds _ _ _); simpl; [|by destruct restore].
  split; [done|]. by intros e [= ->].
Qed.

Lemma act_refs op s :
  inv_within (op_window (UdpWaiting op)) s → udp_fine_refs (s, UdpWaiting op) →
  udp_fine_refs ((udp_op_act op s).2, (udp_op_act op s).1).
Proof.
  intros Hinv [Hi Hb]. cbn [fst snd] in *.
  destruct op as [q|id e|e x|e b rest|e b rest|e b rest|e b rest|e b rest|e k|[|x xs] e k|x xs e k|x xs e k];
    cbn [udp_op_act fst snd].
  - assert (∀ id a r, udp_fine_refs ((udp_bound id (UdpRuntime_bind_entry a r s)).2,
                                     (udp_bound id (UdpRuntime_bind_entry a r s)).1)) as Hbound.
    { intros id a r. pose proof (udp_bind_refs a r s) as Hr. unfold wp in Hr.
      destruct (UdpRuntime_bind_entry a r s) as [[e|err] s1]; cbn [fst snd] in Hr;
        destruct Hr as [HE He]; (split; cbn [udp_bound fst snd]; [by rewrite HE|]); [|done].
      rewrite HE, (He e) by done. by apply udp_fresh. }
    destruct q as [a|a|id|a|]; cbn [udp_call].
    + destruct (negb _); [by split|apply Hbound].
    + destruct (ur_entries s !! al_id a); [|by split]. by case_bool_decide; split.
    + destruct (ur_entries s !! id); [|by split]. split; [|done]. simpl.
      eapply refs_inj_subseteq; [exact Hi|apply delete_subseteq].
    + destruct (negb _); [by split|apply Hbound].
    + split; [by intros i j e|]. by destruct (map_to_list _).*2.
  - split; [|done]. simpl. by apply refs_inj_insert.
  - by split.
  - by split.
  - by destruct (ue_receive_task <$> ur_heap s !! e) as [[]|]; split.
  - by split.
  - by destruct (ue_cleanup_task <$> ur_heap s !! e) as [[]|]; split.
  - by split.
  - by destruct (ur_heap s !! e); split.
  - destruct k as [|b rest]; split; try done; by destruct rest.
  - split; [|done]. simpl. by destruct (after_counts k).
  - by destruct (ux_handle <$> ur_sessions s !! x) as [[]|]; split.
  - by split.
Qed.

Lemma udp_fine_step_refs x y : udp_within x → udp_fine_refs x → udp_fine_step x y → udp_fine_refs y.
Proof.
  assert (∀ l s c, udp_fine_refs (s, c) → udp_fine_refs (drop_unheld_but l s, c)) as Hdrop.
  { intros l s c. unfold udp_fine_refs. cbn [fst snd].
    by destruct (shape_parts _ _ (shape_unheld_but l s)) as [-> _]. }
  intros [Hinv _] Hrefs Hstep. destruct Hstep as [q r s|op s|ev s s' c Hev]; [by destruct Hrefs; split| |].
  - pose proof (act_refs op s Hinv Hrefs) as Hact. unfold udp_op_step. destruct (udp_op_act op s) as [c s'].
    cbn [fst snd] in *. by apply Hdrop.
  - apply Hdrop. destruct (shape_parts _ _ (udp_task_shape _ _ _ Hev)) as [HE _].
    unfold udp_fine_refs in *. cbn [fst snd] in *. by rewrite HE.
Qed.

(** * Undisturbed *)

(** The steps until the operation in flight has returned, and whatever comes in between. *)
Definition udp_during (x y : UdpRuntime * UdpNext) : Prop := udp_fine_step x y ∧ ∃ op, x.2 = UdpWaiting op.

Lemma udp_during_promised x y :
  udp_within x → udp_fine_refs x → udp_during x y → udp_promised y = udp_promised x.
Proof.
  intros Hx Hi [Hstep [op Hop]]. destruct Hstep as [q r s|op' s|ev s s' c Hev]; [done|by apply udp_op_promised|].
  by eapply udp_event_promised.
Qed.

Lemma udp_during_keeps x y :
  udp_within x → udp_fine_refs x → rtc udp_during x y →
  udp_within y ∧ udp_fine_refs y ∧ udp_promised y = udp_promised x.
Proof.
  intros Hx Hi Hr. induction Hr as [x|x y z Hxy _ IH]; [done|].
  pose proof (udp_during_promised _ _ Hx Hi Hxy) as <-. destruct Hxy as [Hstep _].
  apply IH; [by eapply udp_fine_step_within|by eapply udp_fine_step_refs].
Qed.

Lemma udp_op_run_during n op s r s' :
  udp_op_run n (UdpWaiting op) s = (UdpReturned r, s') → rtc udp_during (s, UdpWaiting op) (s', UdpReturned r).
Proof.
  revert op s. induction n as [|n IH]; intros op s; simpl; [done|].
  destruct (udp_op_step op s) as [c1 s1] eqn:Hop. intros Hn.
  assert (udp_during (s, UdpWaiting op) (s1, c1)) as Hd.
  { split; [|by eexists]. pose proof (udp_fine_op op s) as Hf. by rewrite Hop in Hf. }
  destruct c1 as [r1|op1].
  - assert (udp_op_run n (UdpReturned r1) s1 = (UdpReturned r1, s1)) as He by (by destruct n).
    rewrite He in Hn. injection Hn as -> ->. by apply rtc_once.
  - eapply rtc_l; [exact Hd|by apply IH].
Qed.

Lemma reachable_udp_refs x0 x :
  udp_fine_initial x0 → rtc udp_fine_step x0 x → udp_fine_inv x ∧ udp_fine_refs x.
Proof.
  intros H0 Hr. assert (udp_fine_inv x0 ∧ udp_fine_refs x0) as [Hx0 Hi0].
  { split; [by apply udp_fine_initial_inv|]. destruct x0 as [s0 c0]. destruct H0 as ((c & m & now & b & Hs) & Hc & _).
    cbn [fst snd] in *. subst. split; [by intros i j e|done]. }
  clear H0. induction Hr; eauto using udp_fine_step_inv, udp_fine_step_refs, udp_fine_within.
Qed.

Lemma udp_during_fine_steps x y : rtc udp_during x y → rtc udp_fine_step x y.
Proof. induction 1 as [|x y z [? _] _ IH]; [done|]. by eapply rtc_l. Qed.
