(* ===== verification/UdpFineRun.v ===== *)
(** An operation of the UDP relay at the grain of single locks (UdpFine.v) that is let run
    is the operation of Udp.v in one step (runtime/udp.rs).

    The steps of UdpFine.v drop a session as soon as nothing holds it, the operations of
    Udp.v at their end. So both are compared with the run that drops nothing: it is the
    operation but for the drop, and what the drops on the way take away is what the one at
    the end takes away. *)
From stdpp Require Import base gmap strings list relations fin_maps.
From Stdlib Require Import ZArith Lia.
From S2P Require Import Prelude RustStd Model Facade Metrics Account Serving UdpModel Udp UdpSpec UdpSteps.
From S2P Require Import UdpAccount UdpQuiet RealServing Views UdpFine UdpFineSpec UdpFineViews.
Open Scope Z_scope.

(** * The run that drops nothing *)
Definition undropped_step (x y : UdpNext * UdpRuntime) : Prop :=
  ∃ op, x.1 = UdpWaiting op ∧ y = udp_op_act op x.2.

Notation undropped := (rtc undropped_step).

Lemma undropped_act op s z : undropped (udp_op_act op s) z → undropped (UdpWaiting op, s) z.
Proof. intros Hz. eapply rtc_l; [|exact Hz]. by exists op. Qed.

(** ** Closing *)
Lemma close_drained_commute b x y s :
  close_drained b x (close_drained b y s) = close_drained b y (close_drained b x s).
Proof.
  destruct (decide (x = y)) as [->|Hxy]; [done|].
  unfold close_drained, close_session, ur_alter_session, ur_set_sessions.
  destruct b; simpl; f_equal; by apply alter_alter_ne.
Qed.

(** Closing step by step: the flag, the handle, the task. *)
Lemma close_in_steps f g h x (m : gmap nat UdpSession) :
  (∀ y, h y = if ux_handle (f y) then g (f y) else f y) →
  alter h x m = match ux_handle <$> alter f x m !! x with Some true => alter g x (alter f x m) | _ => alter f x m end.
Proof.
  intros Hh. rewrite lookup_alter_eq. destruct (m !! x) as [y|] eqn:Hy; simpl.
  - destruct (ux_handle (f y)) eqn:Hf.
    + rewrite alter_alter_eq. apply alter_ext. intros y' Hy'. assert (y' = y) as -> by congruence.
      simpl. by rewrite Hh, Hf.
    + apply alter_ext. intros y' Hy'. assert (y' = y) as -> by congruence. by rewrite Hh, Hf.
  - by rewrite !alter_id by congruence.
Qed.

Lemma undropped_close xs e k s :
  undropped (UdpWaiting (UopClose xs e k), s)
    (UdpWaiting (UopClose [] e k), foldr (close_drained (after_counts k)) s xs).
Proof.
  revert s. induction xs as [|x xs IH]; intros s; [done|]. cbn [foldr].
  rewrite <- foldr_comm_acc by (intros; apply close_drained_commute).
  apply undropped_act. cbn [udp_op_act]. set (s1 := if after_counts k then _ else s). apply undropped_act. cbn [udp_op_act].
  assert (close_drained (after_counts k) x s =
    ur_set_sessions (match ux_handle <$> alter (ux_set_closed true) x (ur_sessions s1) !! x with
      | Some true => alter (ux_set_reply None ∘ ux_set_handle false) x (alter (ux_set_closed true) x (ur_sessions s1))
      | _ => alter (ux_set_closed true) x (ur_sessions s1) end) s1) as ->.
  { unfold close_drained, close_session, ur_alter_session. fold s1. f_equal. apply close_in_steps.
    intros y. unfold abort_reply_task. by destruct (ux_handle _). }
  unfold ur_alter_session at 1. cbn [ur_sessions ur_set_sessions].
  destruct (ux_handle <$> alter (ux_set_closed true) x (ur_sessions s1) !! x) as [[]|]; [|apply IH..].
  apply undropped_act. cbn [udp_op_act]. unfold ur_alter_session. cbn [ur_sessions ur_set_sessions].
  rewrite alter_alter_eq. apply IH.
Qed.

(** ** Stopping *)
Lemma close_drained_same b s xs :
  let s' := foldr (close_drained b) s xs in ur_now s' = ur_now s ∧ ur_heap s' = ur_heap s.
Proof. cbv zeta. induction xs as [|x xs [IHn IHh]]; cbn [foldr]; [done|]. by destruct b. Qed.

(** What follows when the drained sessions are closed. *)
Definition closed_then (e : nat) (k : UdpAfter) (s : UdpRuntime) : UdpNext * UdpRuntime :=
  match k with
  | UafUpdate => (UdpReturned (Ok tt), ur_inc runtime_apply_total (UdpRuntime_close_sessions e true s))
  | UafStop b rest => (udp_stop_next rest, UdpRuntime_close_sessions e b s)
  end.

Lemma undropped_drain e k s :
  is_Some (ur_heap s !! e) → undropped (UdpWaiting (UopDrain e k), s) (closed_then e k s).
Proof.
  intros [entry He]. apply undropped_act. cbn [udp_op_act]. rewrite He.
  etrans; [apply undropped_close|]. apply undropped_act. cbn [udp_op_act].
  set (s1 := foldr _ _ _).
  assert (ur_alter_entry (ue_set_empty_since (Some (ur_now s1))) e s1 =
    UdpRuntime_close_sessions e (after_counts k) s) as ->.
  { unfold UdpRuntime_close_sessions. rewrite He. fold s1. unfold s1.
    by rewrite (proj1 (close_drained_same _ _ _)). }
  by destruct k.
Qed.

Lemma ur_alter_alter f g e s : ur_alter_entry f e (ur_alter_entry g e s) = ur_alter_entry (f ∘ g) e s.
Proof. unfold ur_alter_entry, ur_set_heap. simpl. by rewrite alter_alter_eq. Qed.

Lemma ur_alter_same f g e s entry :
  ur_heap s !! e = Some entry → f entry = g entry → ur_alter_entry f e s = ur_alter_entry g e s.
Proof.
  intros He Hf. unfold ur_alter_entry. f_equal. apply alter_ext. intros x Hx. by assert (x = entry) as -> by congruence.
Qed.

(** A task is taken and ends, or there is none. *)
Lemma receive_in_steps x : ue_receive_task x = true → ue_set_receive None (ue_take_receive x) = ue_stop_receive x.
Proof. unfold ue_stop_receive. by intros ->. Qed.

Lemma receive_absent x : ue_receive_task x = false → ue_stop_receive x = x.
Proof. destruct x. unfold ue_stop_receive. simpl. by intros ->. Qed.

Lemma cleanup_in_steps x : ue_cleanup_task x = true → ue_end_cleanup (ue_take_cleanup x) = ue_stop_cleanup x.
Proof. unfold ue_stop_cleanup. by intros ->. Qed.

Lemma cleanup_absent x : ue_cleanup_task x = false → ue_stop_cleanup x = x.
Proof. destruct x. unfold ue_stop_cleanup. simpl. by intros ->. Qed.

Lemma undropped_stop e b rest s :
  is_Some (ur_heap s !! e) →
  undropped (UdpWaiting (UopStop e b rest), s) (udp_stop_next rest, UdpRuntime_stop_entry b e s).
Proof.
  intros [entry He].
  assert (∀ f, is_Some (ur_heap (ur_alter_entry f e s) !! e)) as Hsome by (intros f; simpl; by rewrite lookup_alter_eq, He).
  assert (∀ f, ur_heap (ur_alter_entry f e s) !! e = Some (f entry)) as Hget by (intros f; simpl; by rewrite lookup_alter_eq, He).
  assert (∀ f, f entry = stopped entry →
    undropped (UdpWaiting (UopDrain e (UafStop b rest)), ur_alter_entry f e s)
      (udp_stop_next rest, UdpRuntime_stop_entry b e s)) as Hdrain.
  { intros f Hf. rewrite (ur_alter_same f stopped e s entry He Hf). by apply (undropped_drain e (UafStop b rest)). }
  assert (∀ f, f entry = ue_stop_receive (ue_send_shutdown entry) →
    undropped (UdpWaiting (UopTakeCleanup e b rest), ur_alter_entry f e s)
      (udp_stop_next rest, UdpRuntime_stop_entry b e s)) as Hclean.
  { intros f Hf. apply undropped_act. cbn [udp_op_act]. rewrite Hget. cbn [fmap option_fmap option_map].
    destruct (ue_cleanup_task (f entry)) eqn:Htask.
    - apply undropped_act. cbn [udp_op_act]. rewrite !ur_alter_alter. apply Hdrain. simpl.
      rewrite Hf in Htask |- *. by apply cleanup_in_steps.
    - apply Hdrain. rewrite Hf in Htask |- *. by symmetry; apply cleanup_absent. }
  apply undropped_act. cbn [udp_op_act]. apply undropped_act. cbn [udp_op_act]. rewrite Hget.
  cbn [fmap option_fmap option_map]. destruct (ue_receive_task (ue_send_shutdown entry)) eqn:Htask.
  - apply undropped_act. cbn [udp_op_act]. rewrite !ur_alter_alter. apply Hclean. simpl.
    by apply receive_in_steps.
  - apply Hclean. by symmetry; apply receive_absent.
Qed.

(** ** Shutting down *)
Definition cut (y : UdpSession) : UdpSession := abort_reply_task (ux_set_closed true y).
Definition shut_down (now : Z) (x : UdpListenerEntry) : UdpListenerEntry :=
  ue_set_empty_since (Some now) (ue_set_sessions ∅ (stopped x)).

Lemma close_drained_cut s xs :
  foldr (close_drained false) s xs = ur_set_sessions (foldr (alter cut) (ur_sessions s) xs) s.
Proof. induction xs as [|x xs IH]; cbn [foldr]; [by destruct s|]. by rewrite IH. Qed.

Lemma stop_effect e entry s :
  ur_heap s !! e = Some entry →
  UdpRuntime_stop_entry false e s =
  ur_set_heap (alter (shut_down (ur_now s)) e (ur_heap s))
    (ur_set_sessions (foldr (alter cut) (ur_sessions s) (map_to_list (ue_sessions entry)).*2) s).
Proof.
  intros He. unfold UdpRuntime_stop_entry, UdpRuntime_close_sessions. simpl. rewrite lookup_alter_eq, He.
  cbn [fmap option_fmap option_map]. rewrite close_drained_cut.
  unfold ur_alter_entry, ur_set_heap, ur_set_sessions. simpl. by rewrite !alter_alter_eq.
Qed.

Lemma stop_absent e s : ur_heap s !! e = None → UdpRuntime_stop_entry false e s = s.
Proof.
  intros He. unfold UdpRuntime_stop_entry, UdpRuntime_close_sessions. simpl. rewrite lookup_alter_eq, He. simpl.
  unfold ur_alter_entry. rewrite alter_id by congruence. by destruct s.
Qed.

Lemma cuts_commute (xs xs' : list nat) (m : gmap nat UdpSession) :
  foldr (alter cut) (foldr (alter cut) m xs) xs' = foldr (alter cut) (foldr (alter cut) m xs') xs.
Proof.
  assert (∀ (x y : nat) (m : gmap nat UdpSession), alter cut x (alter cut y m) = alter cut y (alter cut x m)) as Hc.
  { intros x y m0. destruct (decide (x = y)) as [->|]; [done|by apply alter_alter_ne]. }
  apply (foldr_comm_acc (alter cut) (λ m, foldr (alter cut) m xs)). intros x m0.
  symmetry. apply foldr_comm_acc. intros y m1. apply Hc.
Qed.

Lemma stops_commute e e' s :
  UdpRuntime_stop_entry false e (UdpRuntime_stop_entry false e' s) =
  UdpRuntime_stop_entry false e' (UdpRuntime_stop_entry false e s).
Proof.
  destruct (decide (e = e')) as [->|Hne]; [done|].
  destruct (ur_heap s !! e) as [x|] eqn:He, (ur_heap s !! e') as [x'|] eqn:He'.
  - rewrite (stop_effect e x s), (stop_effect e' x' s) by done.
    rewrite (stop_effect e x), (stop_effect e' x') by (simpl; by rewrite lookup_alter_ne).
    unfold ur_set_heap, ur_set_sessions. simpl. f_equal; [by apply alter_alter_ne|apply cuts_commute].
  - rewrite (stop_absent e' s), (stop_effect e x s) by done.
    by rewrite (stop_absent e') by (simpl; by rewrite lookup_alter_ne).
  - rewrite (stop_absent e s), (stop_effect e' x' s) by done.
    by rewrite (stop_absent e) by (simpl; by rewrite lookup_alter_ne).
  - by rewrite !(stop_absent e' s), !(stop_absent e s), (stop_absent e' s) by done.
Qed.

Lemma undropped_stops es s :
  (∀ e, e ∈ es → is_Some (ur_heap s !! e)) →
  undropped (udp_stop_next es, s) (UdpReturned (Ok tt), foldr (UdpRuntime_stop_entry false) s es).
Proof.
  revert s. induction es as [|e es IH]; intros s Hes; [done|]. cbn [foldr].
  rewrite <- foldr_comm_acc by (intros; apply stops_commute).
  destruct (Hes e) as [entry He]; [by left|]. etrans; [by apply undropped_stop|]. apply IH.
  intros e' He'. rewrite (stop_effect e entry s He). simpl. rewrite lookup_alter.
  destruct (Hes e') as [entry' Hentry']; [by right|].
  case_decide; [subst e'; rewrite He|rewrite Hentry']; by eexists.
Qed.

(** ** Operations *)

(** The operation without the drop at its end. *)
Definition undropped_operation (q : UdpRequest) (s : UdpRuntime) : UdpRuntime :=
  match q with
  | UdpCreate _ | UdpRestore _ => (udp_operation q s).2
  | UdpUpdate a =>
      match ur_entries s !! al_id a with
      | None => s
      | Some e =>
          ur_inc runtime_apply_total (UdpRuntime_close_sessions e true
            (ur_alter_entry (next_generation (UdpRuntime_entry_state_for a)) e
              (if bool_decide (us_runtime_status (UdpRuntime_entry_state_for a) = RejectingNoHost)
               then ur_inc rejected_no_host_total s else s)))
      end
  | UdpDelete id =>
      match ur_entries s !! id with
      | None => s
      | Some e => UdpRuntime_stop_entry true e (ur_set_entries (delete id (ur_entries s)) s)
      end
  | UdpShutdown => foldr (UdpRuntime_stop_entry false) (ur_set_entries ∅ s) (map_to_list (ur_entries s)).*2
  end.

Lemma undropped_call q s :
  udp_inv s → undropped (UdpWaiting (UopCall q), s) (UdpReturned (udp_operation q s).1, undropped_operation q s).
Proof.
  intros (I1 & _). apply undropped_act. cbn [udp_op_act].
  assert (∀ a restore,
    undropped (if negb (bool_decide (al_protocol a = Udp)) then (UdpReturned (Ok tt), s)
               else udp_bound (al_id a) (UdpRuntime_bind_entry a restore s))
      (UdpReturned (udp_track a restore s).1, (udp_track a restore s).2)) as Htrack.
  { intros a restore. unfold udp_track. destruct (negb _); [done|]. unfold bind, modify.
    destruct (UdpRuntime_bind_entry a restore s) as [[e|err] s1]; simpl; [|done]. by apply undropped_act. }
  destruct q as [a|a|id|a|]; cbn [udp_call udp_operation undropped_operation].
  - apply Htrack.
  - unfold UdpRuntime_update, bind, gets, of_result. destruct (ur_entries s !! al_id a) as [e|] eqn:Hid; simpl; [|done].
    set (s1 := if bool_decide _ then _ else s). apply undropped_act. cbn [udp_op_act].
    assert (∀ r : result unit RuntimeError, r = Ok tt → ∀ z, undropped (UdpWaiting (UopDrain e UafUpdate), z)
      (closed_then e UafUpdate z) → undropped (UdpWaiting (UopDrain e UafUpdate), z)
      (UdpReturned r, ur_inc runtime_apply_total (UdpRuntime_close_sessions e true z))) as Hz by (by intros r ->).
    apply Hz; [by case_bool_decide|]. apply undropped_drain.
    simpl. rewrite lookup_alter_eq. unfold s1. destruct (I1 _ _ Hid) as [entry He]. case_bool_decide; simpl; rewrite He; by eexists.
  - unfold UdpRuntime_delete, bind, gets. destruct (ur_entries s !! id) as [e|] eqn:Hid; simpl; [|done].
    apply (undropped_stop e true []). simpl. by eapply I1.
  - apply Htrack.
  - apply undropped_stops. intros e ([id e'] & -> & Hin)%list_elem_of_fmap. simpl.
    apply elem_of_map_to_list in Hin. by eapply I1.
Qed.

(** * What the drops on the way take away *)

(** Equal but for the sessions and the counts of them. *)
Definition uncounted (x : UdpListenerEntry) : UdpListenerEntry :=
  ue_set_metrics {| um_active := 0; um_rx := um_rx (ue_metrics x); um_tx := um_tx (ue_metrics x) |} x.

Definition udp_fields (s : UdpRuntime) :=
  (ur_config s, ur_entries s, ur_next s, ur_now s, (ur_binds s, ur_bind_calls s)).

Record alike (s u : UdpRuntime) : Prop := {
  alk_fields : udp_fields s = udp_fields u;
  alk_heap : uncounted <$> ur_heap s = uncounted <$> ur_heap u;
  alk_metrics : ∀ c, c ≠ udp_active_sessions → ur_metrics s c = ur_metrics u c;
}.

#[export] Instance alike_equiv : Equivalence alike.
Proof.
  split; [by intros s|intros s u []; split; [done|done|]; intros; symmetry; auto|].
  intros s u v [] []. split; [congruence|congruence|]. intros c Hc. etrans; auto.
Qed.

Lemma alike_lookup {A} (g : UdpListenerEntry → A) s u e :
  (∀ x, g (uncounted x) = g x) → alike s u → g <$> ur_heap s !! e = g <$> ur_heap u !! e.
Proof.
  intros Hg [_ HH _].
  assert (uncounted <$> ur_heap s !! e = uncounted <$> ur_heap u !! e) as He by (by rewrite <- !lookup_fmap, HH).
  destruct (ur_heap s !! e) as [x|], (ur_heap u !! e) as [x'|]; cbn [fmap option_fmap option_map] in *; [|done..].
  apply (inj Some) in He. f_equal. by rewrite <- (Hg x), He, Hg.
Qed.

(** ** What holds a session *)
Lemma held_iff s x y :
  held s x y = true ↔ is_Some (ux_reply y) ∨ ∃ e entry, ur_heap s !! e = Some entry ∧ holds entry x.
Proof.
  split; [apply held_elim|]. intros [Hr|(e & entry & He & Hh)]; [|by eapply holds_held].
  unfold held. by rewrite bool_decide_true.
Qed.

Lemma alike_entry s u e entry :
  alike s u → ur_heap s !! e = Some entry →
  ∃ entry', ur_heap u !! e = Some entry' ∧ uncounted entry = uncounted entry'.
Proof.
  intros [_ HH _] He. assert (uncounted <$> ur_heap u !! e = Some (uncounted entry)) as Hu
    by (by rewrite <- lookup_fmap, <- HH, lookup_fmap, He).
  apply fmap_Some in Hu as (entry' & ? & ?). eauto.
Qed.

Lemma uncounted_holds entry entry' x : uncounted entry = uncounted entry' → holds entry x → holds entry' x.
Proof.
  intros Heq. assert (ue_sessions entry = ue_sessions entry' ∧ ue_receive entry = ue_receive entry') as [Hs Hr]
    by (by injection Heq). unfold holds, local. by rewrite Hs, Hr.
Qed.

Lemma alike_held s u x y : alike s u → held s x y = true → held u x y = true.
Proof.
  intros Ha. rewrite !held_iff. intros [?|(e & entry & He & Hh)]; [by left|right].
  destruct (alike_entry _ _ _ _ Ha He) as (entry' & He' & Heq). exists e, entry'.
  split; [done|by eapply uncounted_holds].
Qed.

(** ** Dropping *)
Lemma drop_session_alike x s : alike (drop_session x s) s.
Proof.
  unfold drop_session. destruct (ur_sessions s !! x) as [y|]; [|done]. split; [done| |].
  - simpl. apply map_eq. intros e. rewrite !lookup_fmap, lookup_alter. case_decide; [subst|done].
    by destruct (ur_heap s !! ux_entry y).
  - intros c Hc. simpl. unfold Gauge_dec, fetch_sub. by rewrite decide_False.
Qed.

Lemma drop_unheld_but_alike l s : alike (drop_unheld_but l s) s.
Proof.
  unfold drop_unheld_but. induction (filter _ _).*1 as [|x xs IH]; cbn [foldr]; [done|].
  etrans; [apply drop_session_alike|exact IH].
Qed.

(** [s] is [u] without some of the sessions that neither [u] nor the operation holds. *)
Record trimmed (l : list nat) (s u : UdpRuntime) : Prop := {
  tri_alike : alike s u;
  tri_from : ∀ x y, ur_sessions s !! x = Some y → ur_sessions u !! x = Some y;
  tri_held : ∀ x y, ur_sessions u !! x = Some y → held u x y = true ∨ x ∈ l → ur_sessions s !! x = Some y;
}.

Lemma trimmed_refl l s : trimmed l s s.
Proof. by split. Qed.

Lemma trimmed_sub l l' s u : (∀ x, x ∈ l' → x ∈ l) → trimmed l s u → trimmed l' s u.
Proof. intros Hl [Ha Hf Hh]. split; [done|done|]. intros x y Hx [?|?]; auto. Qed.

Lemma trimmed_drop l s u : trimmed l s u → trimmed l (drop_unheld_but l s) u.
Proof.
  intros [Ha Hf Hh]. destruct (drop_unheld_but_spec l s) as (_ & _ & _ & HS). split.
  - etrans; [apply drop_unheld_but_alike|exact Ha].
  - intros x y [Hx _]%HS. auto.
  - intros x y Hx Hor. apply HS. split; [auto|]. destruct Hor as [Hor|]; [left|by right].
    by eapply alike_held.
Qed.

(** Without anything unheld nothing is left to trim. *)
Lemma trimmed_exact l s s' u :
  trimmed l s u → trimmed l s' u → all_held_but l s → ur_sessions s ⊆ ur_sessions s'.
Proof.
  intros [Ha Hf _] [_ _ Hh'] Hall. apply map_subseteq_spec. intros x y Hx. apply Hh'; [by apply Hf|].
  destruct (Hall _ _ Hx) as [Hheld|?]; [left|by right]. by eapply alike_held.
Qed.

(** ** One more assignment *)
Lemma trimmed_metric l s u f :
  (∀ m m' : Metrics, (∀ c, c ≠ udp_active_sessions → m c = m' c) → ∀ c, c ≠ udp_active_sessions → f m c = f m' c) →
  trimmed l s u → trimmed l (ur_metric f s) (ur_metric f u).
Proof.
  intros Hf [[Hfl HH Hm] Hfrom Hh]. split; [split; [exact Hfl|exact HH|simpl; auto]|exact Hfrom|exact Hh].
Qed.

Lemma trimmed_inc l s u c : trimmed l s u → trimmed l (ur_inc c s) (ur_inc c u).
Proof.
  apply trimmed_metric. intros m m' Hm c' Hc'. unfold Counter_inc, Counter_add, fetch_add.
  by case_decide; rewrite Hm.
Qed.

Lemma trimmed_set_entries l s u E : trimmed l s u → trimmed l (ur_set_entries E s) (ur_set_entries E u).
Proof.
  intros [[Hfl HH Hm] Hfrom Hh]. split; [split; [|exact HH|exact Hm]|exact Hfrom|exact Hh].
  unfold udp_fields in *. simpl in *. congruence.
Qed.

(** An assignment that is blind to the counts and lets nothing in. *)
Lemma trimmed_entry l s u f e :
  (∀ x, uncounted (f x) = f (uncounted x)) → (∀ x z, holds (f x) z → holds x z) →
  trimmed l s u → trimmed l (ur_alter_entry f e s) (ur_alter_entry f e u).
Proof.
  intros Hf Hshed [[Hfl HH Hm] Hfrom Hh].
  assert (∀ h : gmap nat UdpListenerEntry, uncounted <$> alter f e h = alter f e (uncounted <$> h)) as Halter.
  { intros h. apply map_eq. intros i. rewrite !lookup_fmap, !lookup_alter, !lookup_fmap.
    case_decide; [|done]. destruct (h !! e); simpl; [by rewrite Hf|done]. }
  split; [split; [exact Hfl|simpl; by rewrite !Halter, HH|exact Hm]|exact Hfrom|].
  intros x y Hx Hor. apply Hh; [exact Hx|]. destruct Hor as [Hor|]; [left|by right]. revert Hor. rewrite !held_iff.
  intros [?|(e' & entry & He & Hz)]; [by left|right]. simpl in He. rewrite lookup_alter in He.
  case_decide; [subst e'|eauto]. apply fmap_Some in He as (entry0 & He & ->). eauto.
Qed.

(** An assignment that starts no reply task. *)
Lemma trimmed_session l s u f x :
  (∀ y, is_Some (ux_reply (f y)) → is_Some (ux_reply y)) →
  trimmed l s u → trimmed l (ur_alter_session f x s) (ur_alter_session f x u).
Proof.
  intros Hf [[Hfl HH Hm] Hfrom Hh]. split; [by split| |]; simpl; intros z y; rewrite !lookup_alter; case_decide; auto.
  - intros (y0 & Hy & ->)%fmap_Some. subst z. by rewrite (Hfrom _ _ Hy).
  - intros (y0 & Hy & ->)%fmap_Some Hor. subst z. rewrite (Hh x y0); [done|done|].
    destruct Hor as [Hor|]; [left|by right]. revert Hor. rewrite !held_iff. intros [?|?]; [left; auto|by right].
Qed.

(** ** The steps of an operation *)
Lemma trimmed_drained s u e entry :
  trimmed [] s u → ur_heap u !! e = Some entry → trimmed (map_to_list (ue_sessions entry)).*2 s u.
Proof.
  intros [Ha Hf Hh] He. split; [done|done|]. intros x y Hx [?|Hin]; apply Hh; [done|by left|done|left].
  apply held_iff. right. exists e, entry. split; [done|]. left.
  apply table_value_leaves in Hin as [c [Hc _]]. by exists c.
Qed.

Lemma bind_trimmed a restore s u :
  trimmed [] s u →
  (UdpRuntime_bind_entry a restore s).1 = (UdpRuntime_bind_entry a restore u).1 ∧
  trimmed [] (UdpRuntime_bind_entry a restore s).2 (UdpRuntime_bind_entry a restore u).2.
Proof.
  intros Ht. pose proof Ht as [[Hfl HH Hm] Hf Hh]. unfold udp_fields in Hfl. injection Hfl as Hc HE Hn Hnow Hb Hbc.
  assert (trimmed [] (ur_count_bind s) (ur_count_bind u)) as Ht1.
  { split; [split; [|exact HH|exact Hm]|exact Hf|exact Hh]. unfold udp_fields. simpl. congruence. }
  unfold UdpRuntime_bind_entry, bind, gets, of_result. rewrite Hc. destruct (map_err _ _); [|done].
  unfold udp_bind_socket. rewrite Hb, Hbc, Hn, Hc. destruct (ur_binds u _ _); simpl.
  - split; [done|]. split; [split; [unfold udp_fields; simpl; congruence| |exact Hm]|exact Hf|].
    + simpl. by rewrite !fmap_insert, HH.
    + intros x y Hx Hor. apply Hh; [exact Hx|]. destruct Hor as [Hor|]; [left|by right]. revert Hor. rewrite !held_iff.
      intros [?|(e & entry & He & Hz)]; [by left|right]. simpl in He.
      apply lookup_insert_Some in He as [[_ <-]|[_ He]]; [|eauto]. exfalso.
      destruct Hz as [[c Hz]|(ph & [= <-] & Hz)]; [simpl in Hz; by rewrite lookup_empty in Hz|by apply elem_of_nil in Hz].
  - by destruct restore; (split; [done|]); repeat apply trimmed_inc.
Qed.

Lemma call_trimmed q s u :
  trimmed [] s u →
  (udp_call q s).1 = (udp_call q u).1 ∧ trimmed (op_sessions (udp_call q u).1) (udp_call q s).2 (udp_call q u).2.
Proof.
  intros Ht. assert (ur_entries s = ur_entries u) as HE.
  { destruct Ht as [[Hfl _ _] _ _]. unfold udp_fields in Hfl. by injection Hfl. }
  assert (∀ id a r, (udp_bound id (UdpRuntime_bind_entry a r s)).1 = (udp_bound id (UdpRuntime_bind_entry a r u)).1 ∧
    trimmed (op_sessions (udp_bound id (UdpRuntime_bind_entry a r u)).1) (udp_bound id (UdpRuntime_bind_entry a r s)).2
      (udp_bound id (UdpRuntime_bind_entry a r u)).2) as Hb.
  { intros id a r. destruct (bind_trimmed a r s u Ht) as [Hr Ht'].
    destruct (UdpRuntime_bind_entry a r s) as [o s1], (UdpRuntime_bind_entry a r u) as [o' u1]. simpl in *. subst o'.
    by destruct o. }
  destruct q as [a|a|id|a|]; cbn [udp_call]; rewrite ?HE.
  - destruct (negb _); [by split|apply Hb].
  - destruct (ur_entries u !! al_id a); [|by split]. simpl. split; [done|].
    case_bool_decide; [by apply trimmed_inc|done].
  - destruct (ur_entries u !! id); [|by split]. split; [done|]. by apply trimmed_set_entries.
  - destruct (negb _); [by split|apply Hb].
  - split; [done|]. destruct (map_to_list _).*2; by apply trimmed_set_entries.
Qed.

Ltac blind := solve [done | intros; done | intros ? ? ?; done].

Lemma act_trimmed op s u :
  trimmed (op_sessions (UdpWaiting op)) s u →
  (udp_op_act op s).1 = (udp_op_act op u).1 ∧
  trimmed (op_sessions (udp_op_act op u).1) (udp_op_act op s).2 (udp_op_act op u).2.
Proof.
  intros Ht. pose proof Ht as [Ha Hf Hh]. pose proof (λ A g e, alike_lookup (A := A) g s u e) as Hlook.
  assert (ur_entries s = ur_entries u ∧ ur_now s = ur_now u) as [HE Hnow].
  { destruct Ha as [Hfl _ _]. unfold udp_fields in Hfl. by injection Hfl. }
  destruct op as [q|id e|e x|e b rest|e b rest|e b rest|e b rest|e b rest|e k|[|x xs] e k|x xs e k|x xs e k];
    cbn [udp_op_act fst snd op_sessions] in *.
  - by apply call_trimmed.
  - split; [done|]. rewrite HE. by apply trimmed_inc, trimmed_set_entries.
  - split; [done|]. by apply trimmed_entry; [blind..|].
  - split; [done|]. by apply trimmed_entry; [blind..|].
  - rewrite (Hlook _ ue_receive_task e) by done.
    destruct (ue_receive_task <$> ur_heap u !! e) as [[]|]; (split; [done|]); try done.
    by apply trimmed_entry; [blind..|].
  - split; [done|]. apply trimmed_entry; [blind| |done]. intros x z [?|(p & Hp & _)]; [by left|done].
  - rewrite (Hlook _ ue_cleanup_task e) by done.
    destruct (ue_cleanup_task <$> ur_heap u !! e) as [[]|]; (split; [done|]); try done.
    by apply trimmed_entry; [blind..|].
  - split; [done|]. by apply trimmed_entry; [blind..|].
  - pose proof (Hlook _ ue_sessions e) as He. specialize (He ltac:(done) Ha).
    destruct (ur_heap s !! e) as [entry|], (ur_heap u !! e) as [entry'|] eqn:Hu; try done.
    cbn [fmap option_fmap option_map] in He. apply (inj Some) in He. rewrite He. split; [done|].
    apply trimmed_entry; [blind| |by eapply trimmed_drained].
    intros x z [[c Hc]|?]; [simpl in Hc; by rewrite lookup_empty in Hc|by right].
  - rewrite Hnow. assert (trimmed [] (ur_alter_entry (ue_set_empty_since (Some (ur_now u))) e s)
      (ur_alter_entry (ue_set_empty_since (Some (ur_now u))) e u)) as He by (by apply trimmed_entry; [blind..|]).
    destruct k as [|b rest]; (split; [done|]); [by apply trimmed_inc|by destruct rest].
  - split; [done|]. apply trimmed_session; [by intros|]. destruct (after_counts k); [by apply trimmed_inc|done].
  - assert (ux_handle <$> ur_sessions s !! x = ux_handle <$> ur_sessions u !! x) as ->.
    { destruct (ur_sessions u !! x) as [y|] eqn:Hu; [by rewrite (Hh x y Hu) by (right; by left)|].
      destruct (ur_sessions s !! x) as [y|] eqn:Hs; [|done]. by rewrite (Hf _ _ Hs) in Hu. }
    assert (trimmed xs s u) as Hxs by (eapply trimmed_sub, Ht; by right).
    destruct (ux_handle <$> ur_sessions u !! x) as [[]|]; (split; [done|]); [|done..].
    by apply trimmed_session; [by intros|].
  - split; [done|]. apply trimmed_session; [by intros y []|]. eapply trimmed_sub, Ht. by right.
Qed.

(** The steps with their drops keep up with the run that drops nothing. *)
Lemma undropped_followed c u r u' s :
  undropped (c, u) (UdpReturned r, u') → trimmed (op_sessions c) s u →
  ∃ n s', udp_op_run n c s = (UdpReturned r, s') ∧ trimmed [] s' u'.
Proof.
  intros Hr. remember (c, u) as x eqn:Hx. remember (UdpReturned r, u') as z eqn:Hz. revert c u s Hx.
  induction Hr as [x|x y z [op [Hop Hy]] _ IH]; intros c u s Hx Ht; subst.
  - simplify_eq. by exists 0%nat, s.
  - cbn [fst snd] in Hop. subst c. destruct (act_trimmed op s u Ht) as [Hc Ht']. cbn [snd] in IH.
    destruct (udp_op_act op u) as [c1 u1] eqn:Hu. cbn [fst snd] in *.
    destruct (IH eq_refl c1 u1 (udp_op_step op s).2 eq_refl) as (n & s' & Hn & Hs').
    { unfold udp_op_step. destruct (udp_op_act op s) as [c s1]. simpl in *. subst c. by apply trimmed_drop. }
    exists (S n), s'. split; [|done]. cbn [udp_op_run]. unfold udp_op_step in *.
    destruct (udp_op_act op s) as [c s1]. simpl in *. by subst c.
Qed.

(** * An operation that is let run *)

(** Equal in everything that can be observed. *)
Record same_state (s t : UdpRuntime) : Prop := {
  sst_fields : udp_fields s = udp_fields t;
  sst_heap : ur_heap s = ur_heap t;
  sst_sessions : ur_sessions s = ur_sessions t;
  sst_metrics : ∀ c, ur_metrics s c = ur_metrics t c;
}.

Lemma trimmed_same s t u :
  trimmed [] s u → trimmed [] t u → all_held s → all_held t → udp_account s → udp_account t → same_state s t.
Proof.
  intros Hs Ht Hhs Hht [Hgs HAs] [Hgt HAt].
  assert (ur_sessions s = ur_sessions t) as Heq.
  { apply (anti_symm (⊆)); (eapply trimmed_exact; [by eauto..|]); intros x y Hx; left; eauto. }
  assert (alive s = alive t) as Halive by (unfold alive; by rewrite Heq). rewrite Halive in Hgs, HAs.
  pose proof (tri_alike _ _ _ Hs) as As. pose proof (tri_alike _ _ _ Ht) as At. symmetry in At.
  assert (alike s t) as [Hfl HH Hm] by (by etrans). split; [done| |done|].
  - apply map_eq. intros e.
    assert (uncounted <$> ur_heap s !! e = uncounted <$> ur_heap t !! e) as He by (by rewrite <- !lookup_fmap, HH).
    specialize (HAs e). specialize (HAt e). unfold udp_actives in HAs, HAt. rewrite lookup_fmap in HAs, HAt.
    destruct (ur_heap s !! e) as [x|], (ur_heap t !! e) as [x'|]; cbn [fmap option_fmap option_map] in *; [|done..].
    assert (um_active (ue_metrics x) = um_active (ue_metrics x')) as Ha by (by rewrite (HAs _ eq_refl), (HAt _ eq_refl)).
    destruct x as [? ? ? []], x' as [? ? ? []]. simpl in *. unfold uncounted in He. simpl in He. by injection He; intros; subst.
  - intros c. destruct (decide (c = udp_active_sessions)) as [->|Hc]; [|by apply Hm].
    unfold udp_gauge in *. congruence.
Qed.

(** The drop at the operation's end trims. *)
Lemma operation_trimmed q s : trimmed [] (udp_operation q s).2 (undropped_operation q s).
Proof.
  destruct q as [a|a|id|a|]; cbn [udp_operation undropped_operation].
  - apply trimmed_refl.
  - unfold UdpRuntime_update, bind, gets, of_result, modify. destruct (ur_entries s !! al_id a) as [e|]; [|apply trimmed_refl].
    simpl. case_bool_decide; apply trimmed_inc, trimmed_drop, trimmed_refl.
  - unfold UdpRuntime_delete, bind, gets, modify. destruct (ur_entries s !! id) as [e|]; [|apply trimmed_refl].
    apply trimmed_drop, trimmed_refl.
  - apply trimmed_refl.
  - apply trimmed_drop, trimmed_refl.
Qed.

Lemma operation_run q s : (udp_operation q s).2 = run_udp q s.
Proof. by destruct q. Qed.

(** C37: an operation of the UDP facade is not disturbed by the tasks that run while it is
    under way, and it ends. Called in any state the relay reaches between operations, with
    any events before each of its steps it returns what it returns in one step, and leaves
    exactly the listeners, with port and target, that it leaves in one step. Without any
    event it returns after some number of its steps, and the state is the one it leaves in
    one step, all listeners, sessions and counters included. *)
Theorem udp_operation_undisturbed x0 s r0 q :
  udp_fine_initial x0 → rtc udp_fine_step x0 (s, UdpReturned r0) →
  (∀ s' r, rtc udp_during (s, UdpWaiting (UopCall q)) (s', UdpReturned r) →
     r = (udp_operation q s).1 ∧ udp_view s' = udp_view (udp_operation q s).2) ∧
  ∃ n s', udp_op_run n (UdpWaiting (UopCall q)) s = (UdpReturned (udp_operation q s).1, s') ∧
    same_state s' (udp_operation q s).2.
Proof.
  intros H0 Hr.
  assert (rtc udp_fine_step x0 (s, UdpWaiting (UopCall q))) as Hcall by (eapply rtc_r; [exact Hr|apply udp_fine_call]).
  destruct (reachable_udp_refs _ _ H0 Hcall) as [Hx Hi]. split.
  - intros s' r Hq. destruct (udp_during_keeps _ _ (udp_fine_within _ Hx) Hi Hq) as (_ & _ & Hp). by injection Hp as -> Hv.
  - pose proof Hx as [Hinv Hacc Hheld _]. cbn [fst snd op_window] in *.
    destruct (undropped_followed _ _ _ _ s (undropped_call q s Hinv) (trimmed_refl _ s)) as (n & s' & Hn & Ht).
    exists n, s'. split; [exact Hn|].
    assert (udp_fine_inv (s', UdpReturned (udp_operation q s).1)) as [_ Hacc' Hheld' _].
    { eapply (reachable_udp_fine x0); [done|]. etrans; [exact Hcall|]. by eapply udp_during_fine_steps, udp_op_run_during. }
    assert (∀ s1, all_held_but [] s1 → all_held s1) as Hall.
    { intros s1 H1 x y Hy. destruct (H1 x y Hy) as [?|Hin]; [done|by apply elem_of_nil in Hin]. }
    eapply trimmed_same; [exact Ht|apply operation_trimmed|by apply Hall| |exact Hacc'|]; rewrite operation_run.
    + eapply udp_step_held; [exact Hinv|by apply Hall|constructor].
    + by apply udp_request_account.
Qed.
