(* ===== verification/UdpFineWitness.v ===== *)
(** Runs of the UDP relay in which datagrams come in the middle of operations. *)
From stdpp Require Import base gmap strings list relations.
From Stdlib Require Import ZArith Lia.
From S2P Require Import Prelude RustStd Model Facade Metrics Account Serving UdpModel Udp UdpSpec UdpSteps.
From S2P Require Import UdpProps UdpAccount UdpQuiet UdpWitness RealServing Views.
From S2P Require Import UdpFine UdpFineSpec UdpFineProps UdpFineCut UdpFineStop UdpFineViews UdpFineRun.
Open Scope Z_scope.

Inductive UdpFineAction : Type := UdpCalled (q : UdpRequest) | UdpOwn | UdpTask (ev : UdpEvent).

Definition udp_fine_do (a : UdpFineAction) (x : UdpRuntime * UdpNext) : option (UdpRuntime * UdpNext) :=
  match a, x.2 with
  | UdpCalled q, UdpReturned _ => Some (x.1, UdpWaiting (UopCall q))
  | UdpOwn, UdpWaiting op => Some ((udp_op_step op x.1).2, (udp_op_step op x.1).1)
  | UdpTask ev, c => s ← udp_task_step ev x.1; Some (drop_unheld_but (op_sessions c) s, c)
  | _, _ => None
  end.

Fixpoint udp_fine_exec (l : list UdpFineAction) (x : UdpRuntime * UdpNext) : option (UdpRuntime * UdpNext) :=
  match l with
  | [] => Some x
  | a :: l' => y ← udp_fine_do a x; udp_fine_exec l' y
  end.

Lemma udp_fine_do_step a x y : udp_fine_do a x = Some y → udp_fine_step x y.
Proof.
  destruct x as [s c], a as [q| |ev], c as [r|op]; simpl; try done.
  1-2: intros [= <-]; constructor.
  all: intros (s' & Hev & [= <-])%bind_Some; by eapply udp_fine_event.
Qed.

Lemma udp_fine_exec_rtc l x y : udp_fine_exec l x = Some y → rtc udp_fine_step x y.
Proof.
  revert x. induction l as [|a l IH]; intros x; simpl; [intros [= <-]; constructor|].
  intros (z & Hz & Hl)%bind_Some. econstructor; [by eapply udp_fine_do_step|by apply IH].
Qed.

(** Without a call everything is part of the operation in flight. *)
Definition udp_in_flight (x : UdpRuntime * UdpNext) : bool := match x.2 with UdpWaiting _ => true | _ => false end.

Fixpoint udp_during_exec (l : list UdpFineAction) (x : UdpRuntime * UdpNext) : option (UdpRuntime * UdpNext) :=
  match l with
  | [] => Some x
  | a :: l' => if udp_in_flight x then y ← udp_fine_do a x; udp_during_exec l' y else None
  end.

Lemma udp_during_exec_rtc l x y : udp_during_exec l x = Some y → rtc udp_during x y.
Proof.
  revert x. induction l as [|a l IH]; intros x; simpl; [intros [= <-]; constructor|].
  destruct (udp_in_flight x) eqn:Hx; [|done]. intros (z & Hz & Hl)%bind_Some.
  econstructor; [|by apply IH]. split; [by eapply udp_fine_do_step|].
  destruct x as [s [r|op]]; [done|by exists op].
Qed.

Definition udp_fine_state0 : UdpRuntime * UdpNext := (udp_state0, UdpReturned (Ok tt)).

Definition udp_fine_after (l : list UdpFineAction) : UdpRuntime * UdpNext :=
  default udp_fine_state0 (udp_fine_exec l udp_fine_state0).

Lemma udp_fine_initial0 : udp_fine_initial udp_fine_state0.
Proof. repeat eexists. Qed.

Lemma udp_fine_after_reachable l : rtc udp_fine_step udp_fine_state0 (udp_fine_after l).
Proof.
  unfold udp_fine_after. destruct (udp_fine_exec l udp_fine_state0) eqn:Hl; simpl; [by eapply udp_fine_exec_rtc|constructor].
Qed.

(** ** The runs *)

(** A client's first datagram, until its session's handle is stored. *)
Definition udp_admit (n : Z) : list UdpFineAction :=
  UdpTask <$> [UEvReceived 0 [datagram n]; UEvReadState 0; UEvNext 0; UEvCreated 0 true; UEvInsert 0;
               UEvSpawn 0; UEvStore 0].

Definition udp_created : list UdpFineAction :=
  [UdpCalled (UdpCreate (udp_allocation (Some "10.1.0.1"))); UdpOwn; UdpOwn].

(** Listener 0 with session 1, whose datagram is not sent yet; and sent. *)
Definition udp_admitted : list UdpFineAction := udp_created ++ udp_admit 1.
Definition udp_served : list UdpFineAction :=
  udp_admitted ++ (UdpTask <$> [UEvNext 0; UEvGroupSent 0 (Ok tt)]).

(** An update to another target has set the state. *)
Definition udp_retarget : UdpRequest := UdpUpdate (udp_allocation (Some "10.1.0.2")).
Definition udp_retargeting : list UdpFineAction := [UdpCalled udp_retarget; UdpOwn; UdpOwn].

(** Session 1 is about to send a reply when the update comes. *)
Definition udp_unseating : list UdpFineAction :=
  udp_served ++ (UdpTask <$> [UEvReplyTop 1; UEvReplyReceived 1 (Some 20)]) ++ udp_retargeting.


(** A client comes (session 2) before the update drains the table. *)
Definition udp_racing : list UdpFineAction := udp_served ++ udp_retargeting ++ udp_admit 2.

(** Its deletion, while a second client's session (2) is made; the handle of its reply task
    is not stored any more. *)
Definition udp_deleting : list UdpFineAction :=
  [UdpOwn; UdpTask (UEvReceived 0 [datagram 2]); UdpTask (UEvReadState 0); UdpTask (UEvNext 0);
   UdpOwn; UdpTask (UEvCreated 0 true); UdpTask (UEvInsert 0); UdpOwn; UdpTask (UEvSpawn 0);
   UdpOwn; UdpOwn; UdpOwn; UdpOwn; UdpOwn; UdpTask (UEvReplyTop 2);
   UdpOwn; UdpOwn; UdpOwn; UdpOwn; UdpOwn].

Definition udp_during_after (l : list UdpFineAction) (x : UdpRuntime * UdpNext) : UdpRuntime * UdpNext :=
  default udp_fine_state0 (udp_during_exec l x).

Definition udp_returned (x : UdpRuntime * UdpNext) : bool :=
  match x.2 with UdpReturned (Ok _) => true | _ => false end.

Lemma udp_returned_eq x : udp_returned x = true → x = (x.1, UdpReturned (Ok tt)).
Proof. by destruct x as [s [[[]|e]|op]]. Qed.

(** Runs of an operation from its call to its return. *)
Lemma udp_during_returns l x :
  match udp_during_exec l x with Some y => udp_returned y | None => false end = true →
  rtc udp_during x ((udp_during_after l x).1, UdpReturned (Ok tt)).
Proof.
  unfold udp_during_after. destruct (udp_during_exec l x) as [y|] eqn:Hl; [|done]. cbn [default].
  intros Hy%udp_returned_eq. rewrite Hy in Hl. by apply udp_during_exec_rtc in Hl.
Qed.

Lemma udp_during_fine x y : rtc udp_during x y → rtc udp_fine_step x y.
Proof. induction 1 as [|x y z [? _] _ IH]; [done|]. by eapply rtc_l. Qed.

Lemma udp_after_returned l :
  udp_returned (udp_fine_after l) = true →
  rtc udp_fine_step udp_fine_state0 ((udp_fine_after l).1, UdpReturned (Ok tt)).
Proof. intros <-%udp_returned_eq. apply udp_fine_after_reachable. Qed.

Lemma udp_after_waiting l op :
  (udp_fine_after l).2 = UdpWaiting op →
  rtc udp_fine_step udp_fine_state0 ((udp_fine_after l).1, UdpWaiting op).
Proof. intros <-. rewrite <- surjective_pairing. apply udp_fine_after_reachable. Qed.

Definition fine_entry_after (l : list UdpFineAction) : UdpListenerEntry :=
  default (udp_new_entry UdpRuntimeConfig_loopback (udp_allocation None)) (ur_heap (udp_fine_after l).1 !! 0%nat).

(** ** In the middle of an operation *)

(** The update has taken the session's place: it may still send the reply it has. *)
Lemma fine_replies_from_current_target_witness :
  let s := (udp_fine_after udp_unseating).1 in
  ∃ y, ur_sessions s !! 1%nat = Some y ∧ ux_closed y = false ∧
    (current_for s 1 y ∨ unseated (UdpWaiting (UopDrain 0 UafUpdate)) 1 y).
Proof.
  cbv zeta. assert (ux_closed <$> ur_sessions (udp_fine_after udp_unseating).1 !! 1%nat = Some false) as Hc by (by vm_compute).
  destruct (ur_sessions (udp_fine_after udp_unseating).1 !! 1%nat) as [y|] eqn:Hy; [|discriminate Hc].
  injection Hc as Hc. exists y. split; [reflexivity|]. split; [exact Hc|].
  destruct (fine_replies_from_current_target udp_fine_state0 (udp_fine_after udp_unseating).1
    (UdpWaiting (UopDrain 0 UafUpdate)) 1 y udp_fine_initial0) as [_ Hsent];
    [apply udp_after_waiting; by vm_compute|exact Hy|].
  destruct (Hsent (Some 20) (default udp_state0 (udp_task_step (UEvReplySent 1 (Some 20)) (udp_fine_after udp_unseating).1)))
    as [Hcur|[Hun|[Hcl _]]]; [apply udp_ran; by vm_compute|by left|by right|congruence].
Defined.


Lemma fine_session_table_bounded_witness :
  size (ue_sessions (fine_entry_after udp_racing)) = 2%nat ∧
  Z.of_nat (size (ue_sessions (fine_entry_after udp_racing))) ≤ ue_max_sessions (fine_entry_after udp_racing).
Proof.
  split; [by vm_compute|].
  apply (fine_session_table_bounded udp_fine_state0 (udp_fine_after udp_racing).1
    (UdpWaiting (UopDrain 0 UafUpdate)) 0);
    [apply udp_fine_initial0|apply udp_after_waiting; by vm_compute|by vm_compute|by vm_compute].
Defined.

Lemma fine_udp_counts_exact_witness :
  let s := (udp_fine_after udp_racing).1 in
  size (ur_sessions s) = 2%nat ∧
  Gauge_load udp_active_sessions (ur_metrics s) = wrap (Z.of_nat (size (ur_sessions s))) ∧
  ∀ e entry, ur_heap s !! e = Some entry →
    um_active (ue_metrics entry) = wrap (Z.of_nat (size (owned e (alive s)))) ∧
    (op_sessions (UdpWaiting (UopDrain 0 UafUpdate)) = [] →
     (∀ p, ue_receive entry = Some p → phase_sessions p = []) →
     (∀ x y, ur_sessions s !! x = Some y → ux_entry y = e → ¬ lingers y) →
       size (owned e (alive s)) = size (ue_sessions entry)).
Proof.
  split; [by vm_compute|]. apply (fine_udp_counts_exact udp_fine_state0); [apply udp_fine_initial0|].
  apply udp_after_waiting. by vm_compute.
Defined.

(** ** When an operation has returned *)




(** Session 1's reply task is sending when an update, or a deletion, comes, and the receive
    task has not stored its handle yet. *)
Definition udp_straggling : list UdpFineAction :=
  udp_created ++ (UdpTask <$> [UEvReceived 0 [datagram 1]; UEvReadState 0; UEvNext 0; UEvCreated 0 true;
    UEvInsert 0; UEvSpawn 0; UEvReplyTop 1; UEvReplyReceived 1 (Some 20)]).

Definition udp_straggled (q : UdpRequest) (n : nat) : list UdpFineAction :=
  udp_straggling ++ UdpCalled q :: replicate n UdpOwn.

(** The operation returns, and then the client gets the old target's reply, once. *)
Definition straggler_replies (q : UdpRequest) (n : nat) : Prop :=
  let x := udp_fine_after (udp_straggled q n) in
  x.2 = UdpReturned (Ok tt) ∧ ur_metrics x.1 udp_reply_primary_total = 0 ∧
  ∃ s, udp_task_step (UEvReplySent 1 (Some 20)) x.1 = Some s ∧ ur_metrics s udp_reply_primary_total = 1 ∧
    ∀ r, udp_task_step (UEvReplySent 1 r) s = None.

Lemma straggler_replies_after q n :
  match udp_fine_exec (udp_straggled q n) udp_fine_state0 with
  | Some (s, UdpReturned (Ok _)) =>
      match udp_task_step (UEvReplySent 1 (Some 20)) s with
      | Some s' => (ur_metrics s udp_reply_primary_total =? 0) && (ur_metrics s' udp_reply_primary_total =? 1) &&
          match ur_sessions s' !! 1%nat with Some y => match ux_reply y with None => true | _ => false end | None => false end
      | None => false
      end
  | _ => false
  end = true → straggler_replies q n.
Proof.
  unfold straggler_replies, udp_fine_after. destruct (udp_fine_exec _ _) as [[s [[[]|]|]]|]; try done.
  cbn [default fst snd]. destruct (udp_task_step _ s) as [s'|] eqn:Hev; [|done].
  intros [[H1%Z.eqb_eq H2%Z.eqb_eq]%andb_true_iff H3]%andb_true_iff.
  split_and!; [done|done|]. exists s'. split_and!; [done|done|]. intros r. simpl. unfold replying.
  destruct (ur_sessions s' !! 1%nat) as [y|]; [|done]. simpl. by destruct (ux_reply y).
Qed.

Lemma straggler_replies_after_update : straggler_replies udp_retarget 6.
Proof. apply straggler_replies_after. by vm_compute. Qed.

Lemma straggler_replies_after_deletion : straggler_replies (UdpDelete "a") 10.
Proof. apply straggler_replies_after. by vm_compute. Qed.

(** The update drains both sessions; the receive task holds the new one. *)
Definition udp_raced : UdpRuntime * UdpNext :=
  udp_during_after (replicate 7 UdpOwn)
    ((udp_op_step (UopDrain 0 UafUpdate) (udp_fine_after udp_racing).1).2,
     (udp_op_step (UopDrain 0 UafUpdate) (udp_fine_after udp_racing).1).1).

Lemma update_cuts_new_udp_client_witness :
  let s := (udp_fine_after udp_racing).1 in
  ∃ y y1, ur_sessions s !! 2%nat = Some y ∧ ux_upstream y = ("10.1.0.2", 53)%string ∧ ux_closed y = false ∧
    ur_sessions udp_raced.1 !! 2%nat = Some y1 ∧ ux_closed y1 = true.
Proof.
  cbv zeta.
  assert ((λ y, (ux_entry y, ux_upstream y, ux_closed y)) <$> ur_sessions (udp_fine_after udp_racing).1 !! 2%nat
    = Some (0%nat, ("10.1.0.2", 53)%string, false)) as Hc by (by vm_compute).
  assert (ux_client_addr <$> ur_sessions udp_raced.1 !! 2%nat = Some (peer 2)) as Hc1 by (by vm_compute).
  destruct (ur_sessions (udp_fine_after udp_racing).1 !! 2%nat) as [y|] eqn:Hy; [|discriminate Hc].
  destruct (ur_sessions udp_raced.1 !! 2%nat) as [y1|] eqn:Hy1; [|discriminate Hc1].
  injection Hc as He Hu Hcl. exists y, y1. split; [reflexivity|]. split; [exact Hu|]. split; [exact Hcl|].
  split; [reflexivity|].
  apply (update_cuts_new_udp_client udp_fine_state0 (udp_fine_after udp_racing).1 0 2 y udp_raced.1 (Ok tt));
    [apply udp_fine_initial0|apply udp_after_waiting; by vm_compute|exact Hy|exact He| |
     apply udp_during_fine, udp_during_returns; by vm_compute|exact Hy1].
  assert (match ur_heap (udp_fine_after udp_racing).1 !! 0%nat, ur_sessions (udp_fine_after udp_racing).1 !! 2%nat with
    | Some entry, Some y0 => bool_decide (ue_sessions entry !! ux_client_addr y0 = Some 2%nat ∧
        ux_generation y0 = ue_generation entry ∧ entry_target entry = Some (ux_upstream y0))
    | _, _ => false end = true) as Hcur by (by vm_compute).
  rewrite Hy in Hcur. unfold current_for. rewrite He.
  destruct (ur_heap (udp_fine_after udp_racing).1 !! 0%nat) as [entry|]; [|discriminate Hcur].
  apply bool_decide_eq_true in Hcur as (H1 & H2 & H3). exists entry. by split_and!.
Defined.

Definition udp_deleted : UdpRuntime * UdpNext :=
  udp_during_after udp_deleting ((udp_fine_after udp_served).1, UdpWaiting (UopCall (UdpDelete "a"))).

Lemma udp_deletion_returns :
  rtc udp_during ((udp_fine_after udp_served).1, UdpWaiting (UopCall (UdpDelete "a")))
    (udp_deleted.1, UdpReturned (Ok tt)).
Proof. apply udp_during_returns. by vm_compute. Qed.


Lemma udp_operation_undisturbed_witness :
  udp_view udp_deleted.1 = ∅ ∧ Ok tt = (udp_operation (UdpDelete "a") (udp_fine_after udp_served).1).1.
Proof.
  destruct (udp_operation_undisturbed udp_fine_state0 (udp_fine_after udp_served).1 (Ok tt) (UdpDelete "a")
    udp_fine_initial0) as [Hv _]; [apply udp_after_returned; by vm_compute|].
  destruct (Hv udp_deleted.1 (Ok tt) udp_deletion_returns) as (Hr & Hview).
  split; [|exact Hr]. rewrite Hview. vm_compute. reflexivity.
Defined.
