(* ===== verification/Interrupted.v ===== *)
(** Operations of a relay's facade with interruptions: an operation of several steps as one
    function, while a schedule says which tasks run before each step.

    [operate] lets a machine of steps run to the operation's end. A relay with such
    operations ([Busy]) keeps the laws of the relay with operations of one step if it
    returns the same results and leaves the same listeners ([Interruptible]), so that all
    that is built on the laws holds for it too. It keeps a record of the events so far, in
    terms of which [it_serves] says that its listeners' tasks run. *)
From stdpp Require Import base gmap strings list relations.
From Stdlib Require Import ZArith Lia.
From S2P Require Import Prelude RustStd Model Facade Serving Real RealServing.
Open Scope Z_scope.

(** A relay, the events of its tasks before each of the coming steps of operations, and
    those that have happened. *)
Record Busy (S E : Type) : Type := { by_relay : S; by_schedule : list (list E); by_past : list E }.
Arguments by_relay {S E} _.
Arguments by_schedule {S E} _.
Arguments by_past {S E} _.
Arguments Build_Busy {S E} _ _ _.

(** * Machines *)
Section machine.
Context {S Op E : Type}.

(** An operation has returned or is at one of its steps. *)
Abbreviation Next := (result unit RuntimeError + Op)%type.

(** A step of the operation, and an event that comes while it waits. *)
Context (own : Op → S → Next * S) (task : E → Op → S → option S).

(** Events that cannot happen do not. *)
Fixpoint interrupt (evs : list E) (op : Op) (x : S * list E) : S * list E :=
  match evs with
  | [] => x
  | ev :: evs' =>
      interrupt evs' op (match task ev op x.1 with Some s' => (s', ev :: x.2) | None => x end)
  end.

(** Up to [n] steps, each after the events that are scheduled for it. *)
Fixpoint advance (n : nat) (c : Next) (b : Busy S E) : Next * Busy S E :=
  match n, c with
  | Datatypes.S n', inr op =>
      let '(s, past) := interrupt (default [] (head (by_schedule b))) op (by_relay b, by_past b) in
      let '(c', s') := own op s in
      advance n' c' (Build_Busy s' (tail (by_schedule b)) past)
  | _, _ => (c, b)
  end.

(** An operation goes through sections of bounded length: [rank] tells how many are left,
    and [budget] bounds the steps left in the present one. *)
Context (rank budget : Next → nat).

Fixpoint finish (k : nat) (c : Next) (b : Busy S E) : Next * Busy S E :=
  match k with
  | O => (c, b)
  | Datatypes.S k' => let '(c', b') := advance (budget c) c b in finish k' c' b'
  end.

(** The operation, from its call to its return. *)
Definition operate (op : Op) : M (Busy S E) RuntimeError unit := λ b,
  let '(c, b1) := advance 1 (inr op) b in
  match finish (rank c) c b1 with
  | (inl r, b') => (r, b')
  | (inr _, b') => (Err RuntimeUpdateFailed, b')      (* never, by [operate_run] *)
  end.

(** The steps of an operation and the events while it is under way, which are recorded. *)
Inductive underway : S * list E * Next → S * list E * Next → Prop :=
| underway_own op s past : underway (s, past, inr op) ((own op s).2, past, (own op s).1)
| underway_task ev op s s' past :
    task ev op s = Some s' → underway (s, past, inr op) (s', ev :: past, inr op).

Definition returned (c : Next) : Prop := ∃ r, c = inl r.
Definition waits (c : Next) : Prop := returned c ∨ (0 < rank c)%nat.

Context (Hrank : ∀ r, rank (inl r) = 0%nat).
Context (Hbudget : ∀ op, (0 < budget (inr op))%nat).
Context (Hwaits : ∀ op s, waits (own op s).1).
Context (Hprogress : ∀ op s, (0 < rank (inr op))%nat →
  let c := (own op s).1 in
  returned c ∨ (rank c < rank (inr op))%nat ∨ (rank c = rank (inr op) ∧ budget c < budget (inr op))%nat).

Lemma advance_returned n r b : advance n (inl r) b = (inl r, b).
Proof. by destruct n. Qed.

Lemma advance_rank n c b :
  waits c →
  let c' := (advance n c b).1 in waits c' ∧ (returned c' ∨ (rank c' ≤ rank c)%nat).
Proof.
  cbv zeta. revert c b. induction n as [|n IH]; intros [r|op] b Hc; simpl; [by auto..|eauto|].
  destruct (interrupt _ _ _) as [s past].
  pose proof (Hwaits op s) as Hw. pose proof (Hprogress op s) as Hp. cbv zeta in Hp.
  destruct (own op s) as [c' s']. cbn [fst] in *.
  destruct (IH c' (Build_Busy s' (tail (by_schedule b)) past) Hw) as [Hw' Hr]. split; [exact Hw'|].
  destruct Hc as [[r ?]|Hc]; [done|]. destruct Hr as [?|Hr]; [by left|].
  destruct (Hp Hc) as [[r ->]|?]; [|right; lia]. rewrite advance_returned. left. by exists r.
Qed.

Lemma advance_progress n c b :
  waits c → (budget c ≤ n)%nat →
  let c' := (advance n c b).1 in returned c' ∨ (rank c' < rank c)%nat.
Proof.
  cbv zeta. revert c b. induction n as [|n IH]; intros [r|op] b Hc Hn; simpl; [by left; exists r| |by left; exists r|].
  { specialize (Hbudget op). lia. }
  destruct (interrupt _ _ _) as [s past].
  pose proof (Hwaits op s) as Hw. pose proof (Hprogress op s) as Hp. cbv zeta in Hp.
  destruct (own op s) as [c' s']. cbn [fst] in *. set (b' := Build_Busy s' (tail (by_schedule b)) past).
  destruct Hc as [[r ?]|Hc]; [done|]. destruct (Hp Hc) as [[r ->]|[Hlt|[Heq Hlt]]].
  - rewrite advance_returned. left. by exists r.
  - destruct (advance_rank n c' b' Hw) as [_ [?|?]]; [by left|right; lia].
  - destruct (IH c' b' Hw) as [?|?]; [lia|by left|right; lia].
Qed.

Lemma finish_returns k c b : waits c → (rank c ≤ k)%nat → returned (finish k c b).1.
Proof.
  revert c b. induction k as [|k IH]; intros c b Hc Hk; simpl; [destruct Hc as [?|?]; [done|lia]|].
  pose proof (advance_progress (budget c) c b Hc) as Hp. destruct (advance_rank (budget c) c b Hc) as [Hw _].
  cbv zeta in Hp, Hw. destruct (advance (budget c) c b) as [c' b']. cbn [fst] in *. apply IH; [done|].
  destruct Hp as [[r ->]|?]; [done|rewrite Hrank; lia|lia].
Qed.

(** ** Every step is one of the operation or of a task *)
Lemma interrupt_underway evs op x :
  rtc underway (x, inr op) (interrupt evs op x, inr op).
Proof.
  revert x. induction evs as [|ev evs IH]; intros [s past]; simpl; [done|].
  destruct (task ev op s) as [s'|] eqn:Hev; simpl; [|apply IH]. eapply rtc_l; [by eapply underway_task|apply IH].
Qed.

(** Where a relay and its record are. *)
Definition situation (b : Busy S E) : S * list E := (by_relay b, by_past b).

Lemma advance_underway n c b : rtc underway (situation b, c) (situation (advance n c b).2, (advance n c b).1).
Proof.
  revert c b. induction n as [|n IH]; intros [r|op] b; simpl; try done.
  pose proof (interrupt_underway (default [] (head (by_schedule b))) op (situation b)) as Hint.
  unfold situation in Hint at 2. destruct (interrupt _ _ _) as [s past].
  pose proof (underway_own op s past) as Hown. destruct (own op s) as [c' s']. cbn [fst snd] in *.
  etrans; [exact Hint|]. eapply rtc_l; [exact Hown|].
  apply (IH c' (Build_Busy s' (tail (by_schedule b)) past)).
Qed.

Lemma finish_underway k c b : rtc underway (situation b, c) (situation (finish k c b).2, (finish k c b).1).
Proof.
  revert c b. induction k as [|k IH]; intros c b; simpl; [done|].
  pose proof (advance_underway (budget c) c b) as Ha. destruct (advance (budget c) c b) as [c' b'].
  etrans; [exact Ha|]. apply IH.
Qed.

(** An operation returns, after a run of its steps and of events. *)
Lemma operate_run op b :
  ∃ r b', operate op b = (r, b') ∧ rtc underway (situation b, inr op) (situation b', inl r).
Proof.
  unfold operate. pose proof (advance_underway 1 (inr op) b) as H1. cbn [advance] in *.
  destruct (interrupt _ _ _) as [s past]. pose proof (Hwaits op s) as Hw.
  destruct (own op s) as [c s']. cbn [fst snd] in *.
  set (b1 := Build_Busy s' _ past) in *. destruct (finish_returns (rank c) c b1 Hw) as [r Hr]; [done|].
  pose proof (finish_underway (rank c) c b1) as Hf. destruct (finish (rank c) c b1) as [c' b']. cbn [fst snd] in *.
  subst c'. exists r, b'. split; [done|]. by etrans.
Qed.
End machine.

(** * Relays with interruptions *)

(** An operation of one step, and the same with interruptions: the same result, and the
    same listeners, whose tasks [serves] keeps. *)
Definition matches {p S E} `{ListenerView p S} (serves : list E → S → Prop)
    (m' : M (Busy S E) RuntimeError unit) (m : M S RuntimeError unit) : Prop :=
  ∀ b, ls_ok (by_relay b) → serves (by_past b) (by_relay b) →
    wp m' (λ r b', (ls_ok (by_relay b') ∧ serves (by_past b') (by_relay b')) ∧ r = (m (by_relay b)).1 ∧
      lv_view (by_relay b') = lv_view (m (by_relay b)).2) b.

(** What the tasks of a relay may do to its operations; [it_serves] says of a relay, after
    the given events, that the listeners it has are served by their tasks. *)
Class Interruptible (p : Protocol) (S E : Type) `{ListenerView p S} : Type := {
  it_create : Allocation → Z → M (Busy S E) RuntimeError unit;
  it_restore : Allocation → Z → M (Busy S E) RuntimeError unit;
  it_update : Allocation → Z → M (Busy S E) RuntimeError unit;
  it_delete : string → Z → M (Busy S E) RuntimeError unit;
  it_serves : list E → S → Prop;
  it_create_matches a t : al_protocol a = p → matches it_serves (it_create a t) (rt_create a t);
  it_restore_matches a t : al_protocol a = p → matches it_serves (it_restore a t) (rt_restore a t);
  it_update_matches a t : matches it_serves (it_update a t) (rt_update a t);
  it_delete_matches i t : matches it_serves (it_delete i t) (rt_delete i t);
  it_tracks s i : ls_ok s → ls_tracks s i ↔ is_Some (lv_view s !! i);
}.

Section relay.
Context {p : Protocol} {S E : Type} `{HI : Interruptible p S E}.

Definition set_relay (s : S) (b : Busy S E) : Busy S E := Build_Busy s (by_schedule b) (by_past b).

(** The invariant of the relay, and its tasks at work. *)
Definition busy_ok (b : Busy S E) : Prop := ls_ok (by_relay b) ∧ it_serves (by_past b) (by_relay b).

(** An operation of one step: nothing comes in between. *)
Definition at_once {A} (m : M S RuntimeError A) : M (Busy S E) RuntimeError A := zoom by_relay set_relay id m.

#[export] Instance Busy_facade : RuntimeFacade (Busy S E) := {|
  rt_initialize := λ t, at_once (rt_initialize t);
  rt_create := it_create;
  rt_update := it_update;
  rt_delete := it_delete;
  rt_restore := it_restore;
  rt_snapshot := λ i, at_once (rt_snapshot i);
  rt_snapshot_listener_metrics := at_once rt_snapshot_listener_metrics;
|}.

Lemma wp_at_once {A} (m : M S RuntimeError A) Q b :
  wp m (λ r s', s' = by_relay b ∧ Q r) (by_relay b) → wp (at_once m) (λ r b', b' = b ∧ Q r) b.
Proof.
  unfold wp, at_once, zoom. destruct (m (by_relay b)) as [r s']. simpl. intros [-> Hq].
  destruct b. by destruct r.
Qed.

(** What the operation of one step promises of the result and the listeners. *)
Lemma matches_view (m' : M (Busy S E) RuntimeError unit) (m : M S RuntimeError unit) (P : result unit RuntimeError → gmap string Listener → Prop) b :
  matches it_serves m' m → busy_ok b → wp m (λ r s', ls_ok s' ∧ P r (lv_view s')) (by_relay b) →
  wp m' (λ r b', busy_ok b' ∧ P r (lv_view (by_relay b'))) b.
Proof.
  intros Hm Hok Hp. eapply wp_mono; [by apply Hm; apply Hok|]. intros r b' (Hok' & -> & ->). split; [exact Hok'|].
  unfold wp in Hp. destruct (m (by_relay b)) as [r s']. apply Hp.
Qed.

(** The same, when it is said of what is tracked. *)
Lemma matches_tracks (m' : M (Busy S E) RuntimeError unit) (m : M S RuntimeError unit) (P : result unit RuntimeError → (string → Prop) → Prop) b :
  (∀ r T T', (∀ i, T i ↔ T' i) → P r T → P r T') →
  matches it_serves m' m → busy_ok b → wp m (λ r s', ls_ok s' ∧ P r (ls_tracks s')) (by_relay b) →
  wp m' (λ r b', busy_ok b' ∧ P r (ls_tracks (by_relay b'))) b.
Proof.
  intros HP Hm Hok Hw. eapply wp_mono.
  - apply (matches_view m' m (λ r v, P r (λ i, is_Some (v !! i)))); [done|done|].
    eapply wp_mono; [exact Hw|]. intros r s' [Hok' Hp]. split; [done|].
    eapply HP, Hp. intros i. by apply it_tracks.
  - intros r b' [Hok' Hp]. split; [done|]. eapply HP, Hp. intros i. symmetry. by apply it_tracks, Hok'.
Qed.

#[export] Program Instance Busy_laws : ListenerLaws p (Busy S E) := {|
  ls_ok := busy_ok;
  ls_tracks := λ b, ls_tracks (by_relay b);
|}.
Next Obligation.
  intros a t b Hok Hp. apply (matches_tracks _ (rt_create a t) (λ r T, ∀ id, T id ↔ ls_tracks (by_relay b) id ∨ (is_ok r = true ∧ id = al_id a)));
    [|by apply it_create_matches|done|apply ls_create_spec; [apply Hok|done]].
  intros r T T' HT H' i. by rewrite <- HT.
Qed.
Next Obligation.
  intros a t b Hok Hp. apply (matches_tracks _ (rt_restore a t) (λ r T, ∀ id, T id ↔ ls_tracks (by_relay b) id ∨ (is_ok r = true ∧ id = al_id a)));
    [|by apply it_restore_matches|done|apply ls_restore_spec; [apply Hok|done]].
  intros r T T' HT H' i. by rewrite <- HT.
Qed.
Next Obligation.
  intros a t b Hok. apply (matches_tracks _ (rt_update a t) (λ r T, (∀ id, T id ↔ ls_tracks (by_relay b) id) ∧
    (is_ok r = true ↔ ls_tracks (by_relay b) (al_id a)))); [|by apply it_update_matches|done|apply ls_update_spec, Hok].
  intros r T T' HT [H' ?]. split; [|done]. intros i. by rewrite <- HT.
Qed.
Next Obligation.
  intros i t b Hok. apply (matches_tracks _ (rt_delete i t) (λ r T, r = Ok tt ∧ ∀ id, T id ↔ ls_tracks (by_relay b) id ∧ id ≠ i));
    [|by apply it_delete_matches|done|apply ls_delete_spec, Hok].
  intros r T T' HT [? H']. split; [done|]. intros j. by rewrite <- HT.
Qed.
Next Obligation. intros i b Hok. apply wp_at_once. apply ls_snapshot_spec, Hok. Qed.
Next Obligation. intros b Hok. apply wp_at_once. apply ls_metrics_spec, Hok. Qed.

#[export] Program Instance Busy_view : ListenerView p (Busy S E) := {| lv_view := λ b, lv_view (by_relay b) |}.
Next Obligation.
  intros a t b Hok Hp. eapply wp_mono.
  - apply (matches_view _ (rt_create a t) (λ r v, v = if is_ok r then <[al_id a := listener_of a]> (lv_view (by_relay b)) else lv_view (by_relay b)));
      [by apply it_create_matches|done|]. apply wp_and; [|apply lv_create; [apply Hok|done]].
    eapply wp_mono; [apply ls_create_spec; [apply Hok|done]|]. by intros r s' [? _].
  - by intros r b' [_ ?].
Qed.
Next Obligation.
  intros a t b Hok Hp. eapply wp_mono.
  - apply (matches_view _ (rt_restore a t) (λ r v, v = if is_ok r then <[al_id a := listener_of a]> (lv_view (by_relay b)) else lv_view (by_relay b)));
      [by apply it_restore_matches|done|]. apply wp_and; [|apply lv_restore; [apply Hok|done]].
    eapply wp_mono; [apply ls_restore_spec; [apply Hok|done]|]. by intros r s' [? _].
  - by intros r b' [_ ?].
Qed.
Next Obligation.
  intros a t b Hok. eapply wp_mono.
  - apply (matches_view _ (rt_update a t) (λ r v, v = alter (λ l, (l.1, al_target a)) (al_id a) (lv_view (by_relay b))));
      [by apply it_update_matches|done|]. apply wp_and; [|apply lv_update, Hok].
    eapply wp_mono; [apply ls_update_spec, Hok|]. by intros r s' [? _].
  - by intros r b' [_ ?].
Qed.
Next Obligation.
  intros i t b Hok. eapply wp_mono.
  - apply (matches_view _ (rt_delete i t) (λ r v, v = delete i (lv_view (by_relay b))));
      [by apply it_delete_matches|done|]. apply wp_and; [|apply lv_delete, Hok].
    eapply wp_mono; [apply ls_delete_spec, Hok|]. by intros r s' [? _].
  - by intros r b' [_ ?].
Qed.
End relay.
