(* ===== verification/Attended.v ===== *)
(** The tasks that serve a listener (runtime/tcp.rs, runtime/udp.rs): as long as it has its
    name they run, whatever operations are under way, but for an error of the socket, after
    which they end by themselves. *)
From stdpp Require Import base gmap strings list relations fin_maps.
From Stdlib Require Import ZArith Lia.
From S2P Require Import Prelude RustStd Model Facade Metrics Account Serving.
From S2P Require Import Tcp TcpSpec UdpModel Udp UdpSpec UdpSteps RealServing Views.
From S2P Require Import TcpFine TcpFineSpec TcpFineViews UdpFine UdpFineSpec UdpFineViews.
Open Scope Z_scope.

(** * The TCP relay *)

(** After the events [past], the accept task of [e] runs: it was not told to stop, its
    handle is stored, and it did not end with an error of accept. *)
Definition attended (past : list TcpEvent) (s : TcpRuntime) (e : nat) : Prop :=
  ∃ entry, tr_heap s !! e = Some entry ∧ te_shutdown entry = false ∧ te_accept_task entry = true ∧
    (EvAcceptError e ∈ past ∨ is_Some (te_accept entry)).

Definition tcp_attended (past : list TcpEvent) (s : TcpRuntime) : Prop :=
  ∀ id e, tr_entries s !! id = Some e → attended past s e.

(** One entry changes. *)
Lemma attended_alter past s f e e' :
  (∀ x, e = e' → te_shutdown (f x) = te_shutdown x ∧ te_accept_task (f x) = te_accept_task x ∧
    (is_Some (te_accept x) → is_Some (te_accept (f x)))) →
  attended past s e' → attended past (tr_alter_entry f e s) e'.
Proof.
  intros Hf (entry & He & Hs & Ht & Ha). unfold attended. simpl. rewrite lookup_alter.
  case_decide as Heq; [|by exists entry]. destruct (Hf entry Heq) as (Hs' & Ht' & Ha').
  exists (f entry). rewrite Heq, He, Hs', Ht'. split_and!; [done..|]. destruct Ha; auto.
Qed.

Lemma attended_heap past s s' e : tr_heap s' = tr_heap s → attended past s e → attended past s' e.
Proof. unfold attended. by intros ->. Qed.

Lemma attended_event ev past s s' e :
  tcp_event ev s = Some s' → attended past s e → attended (ev :: past) s' e.
Proof.
  intros Hev Ha. assert (attended (ev :: past) s e) as Hp.
  { destruct Ha as (entry & ? & ? & ? & Ha). exists entry. split_and!; [done..|].
    destruct Ha; [left; by right|by right]. }
  clear Ha. revert Hev. destruct ev as [e0|e0|e0|e0|e0|e0|t|t err|t o|t r|t|t]; simpl.
  1-6: destruct (accepting e0 s) as [[ph entry]|] eqn:Hacc; [|done]; apply accepting_Some in Hacc as [He Hph];
    destruct ph as [| | |i h p]; try done.
  - intros [= <-]. apply (attended_heap _ (tr_alter_entry (te_set_accept (Some AcceptRead)) e0 s)); [done|].
    apply attended_alter; [|done]. intros x _. split_and!; [done|done|by eexists].
  - intros [= <-]. destruct (decide (e0 = e)) as [->|Hne]; [|by apply attended_alter].
    destruct Hp as (x & Hx & ? & ? & _). exists (te_set_accept None x). simpl.
    rewrite lookup_alter_eq, Hx. split_and!; [done..|]. left. by left.
  - destruct (te_shutdown entry) eqn:Hs; [|done]. intros [= <-]. apply attended_alter; [|done].
    intros x ->. destruct Hp as (x' & ? & ? & _). congruence.
  - intros [= <-]. unfold handle_client_read.
    assert (∀ ph s1, tr_heap s1 = tr_heap s → attended (EvReadState e0 :: past) (tr_alter_entry (te_set_accept (Some ph)) e0 s1) e) as Hset.
    { intros ph s1 HH. apply attended_alter; [|by eapply attended_heap]. intros x _. split_and!; [done|done|by eexists]. }
    destruct (ts_effective_host (te_state entry)) as [h|]; [destruct (ts_effective_target_port (te_state entry)) as [q|]|].
    + apply attended_alter; [|done]. intros x _. split_and!; [done|done|by eexists].
    + by eapply attended_heap, Hset.
    + by eapply attended_heap, Hset.
  - intros [= <-]. apply attended_alter; [|done]. intros x _. split_and!; [done|done|by eexists].
  - intros [= <-]. unfold handle_client_insert.
    set (s2 := tr_alter_entry _ _ _). apply (attended_heap _ s2); [done|]. apply attended_alter.
    + intros x _. split_and!; [done|done|by eexists].
    + apply (attended_heap _ s); [|done]. by destruct (te_sessions entry !! i).
  - intros (task & Ht & H')%bind_Some. apply bind_Some in H' as (entry & He & H').
    destruct (ss_phase task); try done. unfold copy_streams_begin in H'.
    destruct (te_force_copy_fallback entry), (te_splice_enabled entry); injection H' as <-;
      (eapply attended_heap; [|apply (attended_alter _ s); [|exact Hp]]; [reflexivity|done]).
  - intros (task & Ht & H')%bind_Some. destruct (ss_phase task); try done. injection H' as <-.
    eapply attended_heap; [|apply (attended_alter _ s); [|exact Hp]]; [reflexivity|done].
  - intros (task & Ht & H')%bind_Some. destruct (ss_phase task); try done.
    unfold copy_streams_spliced, copied in H'. destruct o as [|fc fu ce ue]; [injection H' as <-; by eapply attended_heap|].
    destruct (head _); injection H' as <-;
      (eapply attended_heap; [|apply attended_alter; [|apply (attended_alter _ s); [|exact Hp]]]; [reflexivity|done|done]).
  - intros (task & Ht & H')%bind_Some. destruct (ss_phase task); try done. injection H' as <-. unfold copied.
    destruct r as [[fc fu]|err];
      (eapply attended_heap; [|apply attended_alter; [|apply (attended_alter _ s); [|exact Hp]]]; [reflexivity|done|done]).
  - intros (task & Ht & H')%bind_Some. destruct (ss_signalled task); [|done].
    destruct (ss_phase task); try done; injection H' as <-; [by eapply attended_heap|..];
      (eapply attended_heap; [|apply (attended_alter _ s); [|exact Hp]]; [reflexivity|done]).
  - intros (task & Ht & H')%bind_Some. destruct (ss_phase task); try done. injection H' as <-.
    unfold TcpRuntime_remove_session_handle. destruct (tr_heap s !! ss_entry task) as [entry|]; [|by apply (attended_heap _ s)].
    apply (attended_heap _ (tr_alter_entry (te_set_sessions (delete (ss_id task) (te_sessions entry))) (ss_entry task) s));
      [by destruct (te_sessions entry !! ss_id task)|by apply attended_alter].
Qed.

(** The listeners an operation is stopping. *)
Definition op_stopping (c : TcpNext) : list nat :=
  match c with
  | Waiting (OpStop e rest) | Waiting (OpTakeTask e rest) | Waiting (OpAwaitTask e rest)
  | Waiting (OpDrain e (AfterStop rest)) => e :: rest
  | Waiting (OpSend _ (AfterStop rest)) => rest
  | _ => []
  end.

(** The one that is about to get its name. *)
Definition op_naming (c : TcpNext) : option nat :=
  match c with Waiting (OpInsert _ e) => Some e | _ => None end.

Definition fine_attended (past : list TcpEvent) (x : TcpRuntime * TcpNext) : Prop :=
  tcp_attended past x.1 ∧ (∀ e, op_naming x.2 = Some e → attended past x.1 e) ∧
  (∀ id e, tr_entries x.1 !! id = Some e → e ∉ op_stopping x.2).

Lemma fine_attended_event ev past s s' c :
  tcp_event ev s = Some s' → fine_attended past (s, c) → fine_attended (ev :: past) (s', c).
Proof.
  intros Hev (Ha & Hn & Hs). destruct (tcp_event_rows _ _ _ Hev) as [HE _]. unfold fine_attended, tcp_attended in *. cbn [fst snd] in *. rewrite HE.
  split_and!; [|intros e He|exact Hs]; eauto using attended_event.
Qed.

(** A bind. *)
Lemma bind_listener_attended past a failed err s id :
  tcp_structure s → tcp_attended past s →
  wp (bind_listener a failed err) (λ r s', fine_attended past ((tcp_bound id (r, s')).2, (tcp_bound id (r, s')).1)) s.
Proof.
  intros Hst Ha. pose proof (tcp_fresh s Hst) as Hfresh. unfold wp, bind_listener. destruct (tr_binds _ _ _); simpl.
  - assert (∀ e, attended past s e → attended past (tr_count_ref (tr_set_heap (<[tr_next s := new_entry (tr_config s) a]>
      (tr_heap s)) (tr_count_bind s))) e) as Hother.
    { intros e (entry & He & ?). unfold attended. simpl. destruct (decide (e = tr_next s)) as [->|Hne].
      - exfalso. assert (tr_next s < tr_next s)%nat; [|lia]. apply (st_entry_ref _ _ _ _ Hst).
        rewrite tables_lookup, He. by eexists.
      - rewrite lookup_insert_ne by done. by exists entry. }
    split_and!; simpl.
    + intros i e He. by eapply Hother, Ha.
    + intros e [= <-]. exists (new_entry (tr_config s) a). simpl. rewrite lookup_insert_eq.
      split_and!; [done..|]. right. by eexists.
    + intros i e _. apply not_elem_of_nil.
  - assert (∀ l, tr_heap (foldr tr_inc (tr_count_bind s) l) = tr_heap s ∧
      tr_entries (foldr tr_inc (tr_count_bind s) l) = tr_entries s) as Hl
      by (intros l; induction l as [|m l [IH1 IH2]]; simpl; [done|by rewrite IH1, IH2]).
    destruct (Hl failed) as [HH HE]. split_and!; simpl; [|done|by intros; apply not_elem_of_nil].
    intros i e. rewrite HE. intros He. eapply attended_heap; [exact HH|]. by eapply Ha.
Qed.

Lemma call_attended past q s :
  tcp_structure s → refs_inj (tr_entries s) → tcp_attended past s →
  fine_attended past ((tcp_call q s).2, (tcp_call q s).1).
Proof.
  intros Hst Hi Ha.
  assert (∀ r, fine_attended past (s, Returned r)) as Hsame
    by (intros r; split_and!; [done|done|by intros; apply not_elem_of_nil]).
  assert (∀ id a failed err, fine_attended past ((tcp_bound id (bind_listener a failed err s)).2,
    (tcp_bound id (bind_listener a failed err s)).1)) as Hbind.
  { intros id a failed err. pose proof (bind_listener_attended past a failed err s id Hst Ha) as Hb.
    unfold wp in Hb. by destruct (bind_listener a failed err s). }
  destruct q as [a|a|id|a|]; cbn [tcp_call].
  - destruct (negb _); [apply Hsame|]. unfold TcpRuntime_bind_entry, bind, gets, of_result. simpl.
    destruct (TcpRuntime_bind_addr _ _); [apply Hbind|apply Hsame].
  - destruct (tr_entries s !! al_id a) as [e|]; [|apply Hsame].
    case_bool_decide; (split_and!; [by apply Ha|done|by intros; apply not_elem_of_nil]).
  - destruct (tr_entries s !! id) as [e|] eqn:He; [|apply Hsame]. split_and!; simpl.
    + intros i e'. simpl. intros [_ Hi']%lookup_delete_Some. by eapply Ha.
    + done.
    + intros i e'. simpl. intros [Hne Hi']%lookup_delete_Some. rewrite list_elem_of_singleton. intros ->. by destruct (Hi i id e).
  - destruct (negb _); [apply Hsame|]. unfold bind, gets, of_result. simpl.
    destruct (map_err _ _); [apply Hbind|apply Hsame].
  - split_and!; simpl; [intros i e; simpl; by rewrite lookup_empty| |intros i e; simpl; by rewrite lookup_empty].
    by destruct (map_to_list _).*2.
Qed.

(** The entries that have a name are not those that an operation stops. *)
Lemma fine_attended_op past op s :
  fine_inv (s, Waiting op) → fine_refs (s, Waiting op) → fine_attended past (s, Waiting op) →
  fine_attended past ((tcp_op_step op s).2, (tcp_op_step op s).1).
Proof.
  intros [Hst _ _] [Hi _] (Ha & Hn & Hs). cbn [fst snd] in *.
  assert (∀ f e c, (∀ x, te_shutdown (f x) = te_shutdown x ∧ te_accept_task (f x) = te_accept_task x ∧
      (is_Some (te_accept x) → is_Some (te_accept (f x)))) ∨ e ∈ op_stopping (Waiting op) →
    op_naming c = None → op_stopping c ⊆ op_stopping (Waiting op) →
    fine_attended past (tr_alter_entry f e s, c)) as Hentry.
  { intros f e c Hf Hc Hsub. split_and!; [|intros e' He'; cbn in He'; congruence|].
    - intros id e' He'. apply attended_alter; [|by eapply Ha]. intros x ->. destruct Hf as [Hf|Hin]; [apply Hf|].
      by destruct (Hs id e').
    - intros id e' He' Hin. by eapply (Hs id e' He'), Hsub. }
  assert (∀ c s', tr_heap s' = tr_heap s → tr_entries s' = tr_entries s → op_naming c = None →
    op_stopping c ⊆ op_stopping (Waiting op) → fine_attended past (s', c)) as Hsame.
  { intros c s' HH HE Hc Hsub. split_and!; cbn [fst snd]; [|by rewrite Hc|].
    - intros id e'. rewrite HE. intros He'. eapply attended_heap; [exact HH|by eapply Ha].
    - intros id e'. rewrite HE. intros He' Hin. by eapply (Hs id e' He'), Hsub. }
  destruct op as [q|id e|e x|e rest|e rest|e rest|e k|[|t ts] k]; cbn [tcp_op_step fst snd].
  - rewrite settled_quiet_op in Hst by done. by apply call_attended.
  - split_and!; simpl; [|done|by intros; apply not_elem_of_nil].
    intros i e'. simpl. intros [[<- <-]|[_ He']]%lookup_insert_Some; [by apply (Hn e)|by apply (Ha i)].
  - apply Hentry; [by left|done|done].
  - apply Hentry; [right; simpl; set_solver|done|done].
  - destruct (te_accept_task <$> tr_heap s !! e) as [[]|]; cbn [fst snd]; [|by apply Hsame..].
    apply Hentry; [right; simpl; set_solver|done|done].
  - apply Hentry; [right; simpl; set_solver|done|done].
  - destruct (tr_heap s !! e); cbn [fst snd]; [apply Hentry; [by left|done|]|apply Hsame; [done..|]]; destruct k; simpl; set_solver.
  - destruct k as [|rest]; cbn [fst snd]; [by apply Hsame|]. apply Hsame; [done|done|by destruct rest|by destruct rest].
  - apply Hsame; [done|done|done|by destruct k].
Qed.

(** ** The next client *)

(** The accept task goes on until it is in its [select!]. *)
Definition accept_settle (e : nat) (s : TcpRuntime) : TcpRuntime :=
  let s1 := default s (tcp_event (EvReadState e) s) in
  let s2 := default s1 (tcp_event (EvRejected e) s1) in
  default s2 (tcp_event (EvInsert e) s2).

(** What happens to the client accepted next if nothing comes in between: the session made
    for it, or [None] when it is turned away; without an accept task there is no answer. *)
Definition next_client (e : nat) (s : TcpRuntime) : option (option (string * Z)) :=
  s1 ← tcp_event (EvAccept e) (accept_settle e s);
  s2 ← tcp_event (EvReadState e) s1;
  match tcp_event (EvInsert e) s2 with
  | Some s3 =>
      task ← tr_tasks s3 !! tr_next s2;
      if bool_decide (ss_entry task = e) then Some (Some (ss_host task, ss_target_port task)) else None
  | None => _ ← tcp_event (EvRejected e) s2; Some None
  end.

(** The accept task of [e] is in phase [ph], for the target [x]. *)
Definition accept_at (ph : AcceptPhase) (x : option (string * Z)) (e : nat) (s : TcpRuntime) : Prop :=
  ∃ entry, tr_heap s !! e = Some entry ∧ te_accept entry = Some ph ∧ tcp_target entry = x.

Lemma accept_at_accepting ph x e s :
  accept_at ph x e s → ∃ entry, accepting e s = Some (ph, entry) ∧ tr_heap s !! e = Some entry ∧ tcp_target entry = x.
Proof.
  intros (entry & He & Hp & Hx). exists entry. split_and!; [|done|done]. unfold accepting. rewrite He. simpl. by rewrite Hp.
Qed.

Lemma accept_at_alter ph ph' x f e s :
  accept_at ph x e s → (∀ entry, te_accept (f entry) = Some ph' ∧ te_state (f entry) = te_state entry) →
  accept_at ph' x e (tr_alter_entry f e s).
Proof.
  intros (entry & He & _ & Hx) Hf. destruct (Hf entry) as [Hp Hst]. exists (f entry). simpl.
  rewrite lookup_alter_eq, He. split_and!; [done|done|]. unfold tcp_target in *. by rewrite Hst.
Qed.

Lemma accept_at_heap ph x e s s' : tr_heap s' = tr_heap s → accept_at ph x e s → accept_at ph x e s'.
Proof. unfold accept_at. by intros ->. Qed.

Lemma accept_at_read x e s :
  accept_at AcceptRead x e s →
  ∃ s', tcp_event (EvReadState e) s = Some s' ∧
    match x with
    | Some (h, q) => ∃ i, accept_at (AcceptInsert i h q) x e s'
    | None => accept_at AcceptReject x e s'
    end.
Proof.
  intros Ha. destruct (accept_at_accepting _ _ _ _ Ha) as (entry & Hacc & He & Hx). simpl. rewrite Hacc.
  eexists. split; [done|]. unfold handle_client_read. unfold tcp_target in Hx.
  assert (∀ s1, tr_heap s1 = tr_heap s → accept_at AcceptReject x e (tr_alter_entry (te_set_accept (Some AcceptReject)) e s1)) as Hrej.
  { intros s1 HH. eapply accept_at_alter; [by eapply accept_at_heap|by intros]. }
  destruct (ts_effective_host (te_state entry)) as [h|]; [destruct (ts_effective_target_port (te_state entry)) as [q|]|]; subst x.
  - exists (te_next_session_id entry). exists (te_set_accept (Some (AcceptInsert (te_next_session_id entry) h q))
      (te_set_next_session_id (u64_wrapping_add (te_next_session_id entry) 1) entry)). simpl.
    rewrite lookup_alter_eq, He. split_and!; [done|done|]. by destruct Ha as (entry' & He' & _ & <-); replace entry' with entry by congruence.
  - by apply (accept_at_heap _ _ _ (tr_alter_entry (te_set_accept (Some AcceptReject)) e s)), Hrej.
  - by apply (accept_at_heap _ _ _ (tr_alter_entry (te_set_accept (Some AcceptReject)) e s)), Hrej.
Qed.

Lemma accept_at_insert i h q x e s :
  accept_at (AcceptInsert i h q) x e s →
  ∃ s', tcp_event (EvInsert e) s = Some s' ∧ accept_at AcceptIdle x e s' ∧
    ∃ task, tr_tasks s' !! tr_next s = Some task ∧ ss_entry task = e ∧ ss_host task = h ∧ ss_target_port task = q.
Proof.
  intros Ha. destruct (accept_at_accepting _ _ _ _ Ha) as (entry & Hacc & He & Hx). simpl. rewrite Hacc.
  eexists. split; [done|]. unfold handle_client_insert. set (s1 := signal_sender _ s).
  assert (tr_heap s1 = tr_heap s) as HH by (unfold s1; by destruct (te_sessions entry !! i)). split.
  - set (s2 := tr_alter_entry _ e s1). apply (accept_at_heap _ _ _ s2); [done|].
    eapply accept_at_alter; [by eapply accept_at_heap|by intros].
  - simpl. rewrite lookup_insert_eq. eexists. by split_and!.
Qed.

Lemma accept_at_reject x e s :
  accept_at AcceptReject x e s → ∃ s', tcp_event (EvRejected e) s = Some s' ∧ accept_at AcceptIdle x e s'.
Proof.
  intros Ha. destruct (accept_at_accepting _ _ _ _ Ha) as (entry & Hacc & _). simpl. rewrite Hacc.
  eexists. split; [done|]. by eapply accept_at_alter.
Qed.

(** The events for other phases do not happen. *)
Lemma accept_at_others ph x e s :
  accept_at ph x e s →
  (ph ≠ AcceptRead → tcp_event (EvReadState e) s = None) ∧ (ph ≠ AcceptReject → tcp_event (EvRejected e) s = None) ∧
  ((∀ i h q, ph ≠ AcceptInsert i h q) → tcp_event (EvInsert e) s = None).
Proof.
  intros (entry & Hacc & _)%accept_at_accepting. simpl. rewrite Hacc. split_and!; destruct ph; try done.
  intros Hne. by destruct (Hne session_id host target_port).
Qed.

Lemma accept_settle_idle ph x e s : accept_at ph x e s → accept_at AcceptIdle x e (accept_settle e s).
Proof.
  intros Ha. unfold accept_settle. cbv zeta. destruct ph as [| | |i h q].
  - destruct (accept_at_others _ _ _ _ Ha) as (-> & Hj & Hi); [|done]. cbn [default from_option id]. rewrite Hj by done. cbn [default from_option id].
    by rewrite Hi.
  - destruct (accept_at_read _ _ _ Ha) as (s1 & -> & H1). cbn [default from_option id]. destruct x as [[h q]|].
    + destruct H1 as [i H1]. destruct (accept_at_others _ _ _ _ H1) as (_ & -> & _); [|done]. cbn [default from_option id].
      by destruct (accept_at_insert _ _ _ _ _ _ H1) as (s2 & -> & H2 & _).
    + destruct (accept_at_reject _ _ _ H1) as (s2 & -> & H2). cbn [default from_option id].
      by destruct (accept_at_others _ _ _ _ H2) as (_ & _ & ->).
  - destruct (accept_at_others _ _ _ _ Ha) as (-> & _ & _); [|done]. cbn [default from_option id].
    destruct (accept_at_reject _ _ _ Ha) as (s2 & -> & H2). cbn [default from_option id].
    by destruct (accept_at_others _ _ _ _ H2) as (_ & _ & ->).
  - destruct (accept_at_others _ _ _ _ Ha) as (-> & Hj & _); [|done]. cbn [default from_option id]. rewrite Hj by done. cbn [default from_option id].
    by destruct (accept_at_insert _ _ _ _ _ _ Ha) as (s2 & -> & H2 & _).
Qed.

(** A running accept task sends its next client to the listener's target. *)
Lemma next_client_served e s entry :
  tr_heap s !! e = Some entry → is_Some (te_accept entry) → next_client e s = Some (tcp_target entry).
Proof.
  intros He [ph Hph]. assert (accept_at ph (tcp_target entry) e s) as Ha by (by exists entry).
  apply accept_settle_idle in Ha. unfold next_client.
  destruct (accept_at_accepting _ _ _ _ Ha) as (entry1 & Hacc & _). cbn [tcp_event]. rewrite Hacc. simpl.
  set (s1 := tr_inc _ _). assert (accept_at AcceptRead (tcp_target entry) e s1) as H1.
  { apply (accept_at_heap _ _ _ (tr_alter_entry (te_set_accept (Some AcceptRead)) e (accept_settle e s))); [done|].
    by eapply accept_at_alter. }
  destruct (accept_at_read _ _ _ H1) as (s2 & Hs2 & H2). cbn [tcp_event] in Hs2. rewrite Hs2. simpl.
  destruct (tcp_target entry) as [[h q]|].
  - destruct H2 as [i H2]. destruct (accept_at_insert _ _ _ _ _ _ H2) as (s3 & Hs3 & _ & task & Htask & Hte & <- & <-).
    cbn [tcp_event] in Hs3. rewrite Hs3. rewrite Htask. simpl. by rewrite bool_decide_true.
  - destruct (accept_at_others _ _ _ _ H2) as (_ & _ & Hno). cbn [tcp_event] in Hno. rewrite Hno by done.
    destruct (accept_at_reject _ _ _ H2) as (s3 & Hs3 & _). cbn [tcp_event] in Hs3. by rewrite Hs3.
Qed.

(** * The UDP relay *)

(** What a step keeps of a listener that is not told to stop, and not its receive task's end. *)
Definition steadily (x x' : UdpListenerEntry) : Prop :=
  ue_shutdown x' = ue_shutdown x ∧ ue_receive_task x' = ue_receive_task x ∧
  ue_cleanup_task x' = ue_cleanup_task x ∧ ue_cleanup x' = ue_cleanup x ∧
  (is_Some (ue_receive x) → is_Some (ue_receive x')).

#[export] Instance steadily_po : PreOrder steadily.
Proof.
  split; [by intros x; split_and!|]. intros x y z (? & ? & ? & ? & ?) (? & ? & ? & ? & ?).
  split_and!; [congruence..|auto].
Qed.

Definition steady (s s' : UdpRuntime) : Prop :=
  ∀ e x, ur_heap s !! e = Some x → ∃ x', ur_heap s' !! e = Some x' ∧ steadily x x'.

#[export] Instance steady_po : PreOrder steady.
Proof.
  split; [intros s e x Hx; by exists x|]. intros s1 s2 s3 H12 H23 e x Hx.
  destruct (H12 _ _ Hx) as (y & Hy & ?). destruct (H23 _ _ Hy) as (z & ? & ?). exists z. split; [done|by etrans].
Qed.

Lemma steady_refl s : steady s s.
Proof. reflexivity. Qed.

Lemma steady_heap s s' s'' : ur_heap s'' = ur_heap s' → steady s s' → steady s s''.
Proof. intros HH. unfold steady. by rewrite HH. Qed.

Lemma steady_entry s s' f e :
  (∀ x, steadily x (f x)) → steady s s' → steady s (ur_alter_entry f e s').
Proof.
  intros Hf Hs. etrans; [exact Hs|]. intros e' x Hx. simpl. rewrite lookup_alter.
  case_decide; [subst e'|]; rewrite Hx; eexists; split; [done|apply Hf|done|done].
Qed.

Lemma steady_session s s' f x : steady s s' → steady s (ur_alter_session f x s').
Proof. by apply steady_heap. Qed.

Lemma steady_add s s' c n : steady s s' → steady s (ur_add c n s').
Proof. by apply steady_heap. Qed.

Lemma steady_inc s s' c : steady s s' → steady s (ur_inc c s').
Proof. by apply steady_heap. Qed.

Lemma steady_set_receive s s' ph e : steady s s' → steady s (set_receive ph e s').
Proof. apply steady_entry. intros x. by split_and!; [..|by eexists]. Qed.

Lemma steady_batch_done s s' n e : steady s s' → steady s (batch_done n e s').
Proof. intros Hs. apply steady_set_receive, steady_entry; [|done]. intros x. by split_and!. Qed.

Lemma steady_send_groups s s' b l gs e : steady s s' → steady s (send_groups b l gs e s').
Proof. destruct gs; [apply steady_batch_done|apply steady_set_receive]. Qed.

Lemma steady_record_removal s s' r : steady s s' → steady s (record_removal r s').
Proof. destruct r; simpl; auto using steady_inc. Qed.

Lemma steady_remove_session s s' e c x r : steady s s' → steady s (remove_session e c x r s').
Proof.
  intros Hs. unfold remove_session. destruct (ur_heap s' !! e) as [entry|] eqn:He; [|done]. case_decide; [|done].
  unfold record_empty_since_if_empty. apply steady_entry; [intros y; case_bool_decide; by split_and!|].
  apply steady_session, steady_record_removal, steady_entry; [intros y; by split_and!|done].
Qed.

Lemma steady_closes s s' l : steady s s' → steady s (foldr (ur_alter_session (ux_set_closed true)) s' l).
Proof. intros Hs. induction l; cbn [foldr]; [done|by apply steady_session]. Qed.

Lemma steady_prepare_end s s' g now seen rest : steady s s' → steady s (prepare_end g now seen rest s').2.
Proof.
  revert seen s'. induction rest as [|[x|] rest IH]; intros seen s' Hs; simpl; [done| |by apply IH].
  destruct (ur_sessions s' !! x); [|by apply IH].
  destruct (negb _ || _); apply IH; [by apply steady_inc, steady_session|].
  case_bool_decide; [done|by apply steady_session].
Qed.

#[local] Hint Resolve steady_refl steady_session steady_add steady_inc steady_set_receive steady_batch_done
  steady_send_groups steady_record_removal steady_remove_session steady_closes steady_prepare_end : steady.
#[local] Hint Extern 1 (∀ x, steadily x _) => intros; by split_and! : steady.
#[local] Hint Resolve steady_entry | 5 : steady.

Lemma steady_prepare_next s e entry p : steady s (prepare_next e entry p s).
Proof.
  unfold prepare_next. destruct (pr_batch p !! _) as [d|].
  - destruct (previous_session _ _ _); [|destruct (session_lookup _ _ _ _)]; auto with steady.
  - unfold prepare_finish. destruct (negb _); [auto with steady|].
    pose proof (steady_prepare_end s s (pr_generation p) (ur_now s) [] (pr_sessions p) (steady_refl s)) as Hs.
    destruct (prepare_end _ _ _ _ _) as [l s']. auto with steady.
Qed.

Lemma steady_session_insert s e entry p x c : steady s (session_insert e entry p x c s).
Proof.
  unfold session_insert. destruct (y ← _; _); [auto with steady|]. destruct (negb _); [auto with steady|].
  assert (steady s (set_receive (RxSpawn p x) e (ur_alter_entry (λ y, ue_set_sessions (<[c:=x]> (ue_sessions y))
            (ue_set_empty_since None y)) e s))) as Hs by auto with steady.
  destruct (ue_sessions entry !! c); [|done]. by apply steady_session, steady_inc.
Qed.

Lemma steady_create s e p c connected : steady s (create_session e p c connected s).
Proof.
  unfold create_session. destruct connected; [|auto with steady].
  apply steady_set_receive. unfold SessionGuard_new. apply steady_entry; [intros; by split_and!|]. by apply (steady_heap _ s).
Qed.

Lemma steady_group_sent s e b l x idx gs sent : steady s (group_sent e b l x idx gs sent s).
Proof.
  unfold group_sent. cbv zeta. apply steady_send_groups. destruct sent; [apply steady_refl|].
  destruct (ur_sessions s !! x); auto with steady.
Qed.

Lemma steady_cleanup s e ttl : steady s (cleanup_tick e ttl s).
Proof.
  unfold cleanup_tick, compact_empty_sessions_after_idle. apply steady_entry.
  - intros y. destruct (ue_empty_since y); [|done]. destruct (_ <? _); by split_and!.
  - unfold expire_idle_sessions. destruct (ur_heap s !! e) as [entry|]; [|apply steady_refl].
    induction (map_to_list (ue_sessions entry)) as [|row l IH]; cbn [foldr]; [apply steady_refl|].
    unfold expire_idle_session at 1. destruct (ur_sessions _ !! _); [|done]. destruct (_ <? _); auto with steady.
Qed.

Lemma steady_reply_sent s x y r : steady s (reply_sent x y r s).
Proof.
  destruct r; simpl; unfold reply_top, set_reply; [|auto 6 with steady].
  apply steady_session, steady_session, steady_entry; [intros; by split_and!|auto 6 with steady].
Qed.

(** The tasks end only with an error of the socket, or when they see that they are to stop. *)
Lemma task_step_steady ev s s' :
  udp_task_step ev s = Some s' →
  (∀ e, ev ≠ UEvReceiveError e) → (∀ e, ev ≠ UEvReceiveShutdown e) → (∀ e, ev ≠ UEvCleanupShutdown e) → steady s s'.
Proof.
  intros Hev H1 H2 H3. revert Hev. destruct ev as [e b|e|e|e|e c|e|e|e|e sent|e|e|e|x|x r|x r|n]; simpl;
    [|by destruct (H1 e)| | | | | | | |by destruct (H2 e)| |by destruct (H3 e)| | | |].
  1-8: destruct (receiving e s) as [[ph entry]|] eqn:Hrx; [|done];
    apply receiving_Some in Hrx as [He Hrx]; destruct ph as [|b'|p|p|p x|p x|p x|b' l gs]; try done.
  - case_bool_decide; [|done]. intros [= <-]. unfold received. cbv zeta.
    apply steady_set_receive, steady_entry; [intros; by split_and!|]. apply steady_add, steady_add.
    destruct (ue_udp_batch_enabled entry); auto with steady.
  - intros [= <-]. unfold prepare_begin.
    destruct (us_effective_host (ue_state entry)), (us_effective_target_port (ue_state entry)); auto with steady.
  - intros [= <-]. apply steady_prepare_next.
  - intros (client & Hc & [= <-])%bind_Some. apply steady_create.
  - intros (client & Hc & [= <-])%bind_Some. apply steady_session_insert.
  - intros (y & Hy & [= <-])%bind_Some. unfold session_spawn. destruct (ux_closed y); auto with steady.
  - intros [= <-]. unfold session_store. auto with steady.
  - destruct gs as [|[x idx] gs]; [done|]. destruct sent as [|n]; [intros [= <-]; apply steady_group_sent|].
    case_bool_decide; [|done]. intros [= <-]. apply steady_group_sent.
  - intros (entry & He & Hif)%bind_Some. destruct (ue_cleanup entry); [|done]. injection Hif as <-. apply steady_cleanup.
  - destruct (replying x s) as [[[| |n] y]|]; try done. intros [= <-]. unfold reply_top, set_reply. auto with steady.
  - destruct (replying x s) as [[[| |n] y]|]; try done. intros [= <-].
    destruct r; simpl; unfold set_reply; [|auto with steady]. destruct (session_current s x y); auto with steady.
  - destruct (replying x s) as [[[| |n] y]|]; try done. intros [= <-]. apply steady_reply_sent.
  - destruct (0 <=? n); [|done]. intros [= <-]. by apply (steady_heap _ s).
Qed.

(** After the events [past], the receive and the cleanup task of [e] run, but for an error
    of the receiving socket. *)
Definition received_for (past : list UdpEvent) (s : UdpRuntime) (e : nat) : Prop :=
  ∃ entry, ur_heap s !! e = Some entry ∧ ue_shutdown entry = false ∧ ue_receive_task entry = true ∧
    ue_cleanup_task entry = true ∧ ue_cleanup entry = true ∧
    (UEvReceiveError e ∈ past ∨ is_Some (ue_receive entry)).

Definition udp_attended (past : list UdpEvent) (s : UdpRuntime) : Prop :=
  ∀ id e, ur_entries s !! id = Some e → received_for past s e.

Lemma received_for_steady past s s' e : steady s s' → received_for past s e → received_for past s' e.
Proof.
  intros Hs (entry & He & ? & ? & ? & ? & Hr). destruct (Hs _ _ He) as (x & Hx & ? & ? & ? & ? & Hrx).
  exists x. split_and!; [done|congruence..|]. destruct Hr; auto.
Qed.

Lemma received_for_other past s f e e' :
  e ≠ e' → received_for past s e' → received_for past (ur_alter_entry f e s) e'.
Proof. intros Hne (entry & He & ?). exists entry. simpl. by rewrite lookup_alter_ne. Qed.

Lemma received_for_event ev past s s' e :
  udp_task_step ev s = Some s' → received_for past s e → received_for (ev :: past) s' e.
Proof.
  intros Hev Hp. assert (received_for (ev :: past) s e) as Hr.
  { destruct Hp as (entry & He & ? & ? & ? & ? & Hr). exists entry. split_and!; [done..|].
    destruct Hr; [left; by right|by right]. }
  clear Hp. pose proof (task_step_steady ev s s' Hev) as Hst. destruct ev as [e0 b|e0|e0|e0|e0 c|e0|e0|e0|e0 sent|e0|e0|e0|x|x r|x r|n];
    try (by eapply received_for_steady; [apply Hst|]); clear Hst; simpl in Hev.
  - destruct (receiving e0 s) as [[[] entry]|]; try done. injection Hev as <-.
    destruct (decide (e0 = e)) as [->|]; [|by apply received_for_other].
    destruct Hr as (x & Hx & ? & ? & ? & ? & _). exists (ue_set_receive None x). simpl.
    rewrite lookup_alter_eq, Hx. split_and!; [done..|]. left. by left.
  - destruct (receiving e0 s) as [[ph entry]|] eqn:Hrx; [|done]. apply receiving_Some in Hrx as [He _].
    destruct ph; try done. destruct (ue_shutdown entry) eqn:Hs; [|done]. injection Hev as <-.
    destruct (decide (e0 = e)) as [->|]; [|by apply received_for_other].
    destruct Hr as (x & Hx & ? & _). congruence.
  - apply bind_Some in Hev as (entry & He & Hif). destruct (ue_cleanup entry && ue_shutdown entry) eqn:Hs; [|done].
    injection Hif as <-. apply andb_true_iff in Hs as [_ Hs]. destruct (decide (e0 = e)) as [->|]; [|by apply received_for_other].
    destruct Hr as (x & Hx & ? & _). congruence.
Qed.

Definition uop_stopping (c : UdpNext) : list nat :=
  match c with
  | UdpWaiting (UopStop e _ rest) | UdpWaiting (UopTakeReceive e _ rest) | UdpWaiting (UopAwaitReceive e _ rest)
  | UdpWaiting (UopTakeCleanup e _ rest) | UdpWaiting (UopAwaitCleanup e _ rest)
  | UdpWaiting (UopDrain e (UafStop _ rest)) => e :: rest
  | UdpWaiting (UopClose _ _ (UafStop _ rest)) | UdpWaiting (UopTakeReply _ _ _ (UafStop _ rest))
  | UdpWaiting (UopAwaitReply _ _ _ (UafStop _ rest)) => rest
  | _ => []
  end.

Definition uop_naming (c : UdpNext) : option nat :=
  match c with UdpWaiting (UopInsert _ e) => Some e | _ => None end.

Definition udp_fine_attended (past : list UdpEvent) (x : UdpRuntime * UdpNext) : Prop :=
  udp_attended past x.1 ∧ (∀ e, uop_naming x.2 = Some e → received_for past x.1 e) ∧
  (∀ id e, ur_entries x.1 !! id = Some e → e ∉ uop_stopping x.2).

Lemma steady_attended past s s' c :
  steady s s' → ur_entries s' = ur_entries s → udp_fine_attended past (s, c) → udp_fine_attended past (s', c).
Proof.
  intros Hs HE (Ha & Hn & Hst). unfold udp_fine_attended, udp_attended in *. cbn [fst snd] in *. rewrite HE.
  split_and!; [|intros e He|exact Hst]; eauto using received_for_steady.
Qed.

Lemma steady_drop l s : steady s (drop_unheld_but l s).
Proof.
  destruct (drop_unheld_but_spec l s) as (_ & _ & HH & _). intros e x Hx. destruct (HH e) as [m Hm].
  rewrite Hx in Hm. eexists. split; [exact Hm|]. by split_and!.
Qed.

Lemma drop_attended past l s c :
  udp_fine_attended past (s, c) → udp_fine_attended past (drop_unheld_but l s, c).
Proof. apply steady_attended; [apply steady_drop|by destruct (drop_unheld_but_spec l s)]. Qed.

Lemma udp_fine_attended_event ev past s s' c l :
  udp_task_step ev s = Some s' → udp_fine_attended past (s, c) →
  udp_fine_attended (ev :: past) (drop_unheld_but l s', c).
Proof.
  intros Hev (Ha & Hn & Hs). apply drop_attended.
  destruct (shape_parts _ _ (udp_task_shape _ _ _ Hev)) as [HE _].
  unfold udp_fine_attended, udp_attended in *. cbn [fst snd] in *. rewrite HE.
  split_and!; [|intros e He|exact Hs]; eauto using received_for_event.
Qed.

Lemma udp_bind_attended past a restore s id :
  udp_inv s → udp_attended past s →
  udp_fine_attended past ((udp_bound id (UdpRuntime_bind_entry a restore s)).2,
                          (udp_bound id (UdpRuntime_bind_entry a restore s)).1).
Proof.
  intros (_ & I2 & _) Ha.
  assert (∀ s' r, ur_heap s' = ur_heap s → ur_entries s' = ur_entries s → udp_fine_attended past (s', UdpReturned r)) as Hsame.
  { intros s' r HH HE. split_and!; [|done|by intros; apply not_elem_of_nil]. intros i e. cbn [fst]. rewrite HE.
    intros He. eapply received_for_steady; [|by eapply Ha]. by apply (steady_heap _ s). }
  unfold UdpRuntime_bind_entry, bind, gets, of_result. simpl. destruct (map_err _ _); [|by apply Hsame].
  unfold udp_bind_socket. destruct (ur_binds _ _ _); [|destruct restore; by apply Hsame]. split_and!; simpl.
  - intros i e He. destruct (Ha i e He) as (entry & Hentry & Hrest). exists entry. split; [|exact Hrest]. simpl.
    rewrite lookup_insert_ne; [done|]. destruct (I2 _ _ Hentry). lia.
  - intros e [= <-]. eexists. simpl. rewrite lookup_insert_eq. split_and!; [done..|]. right. by eexists.
  - intros i e _. apply not_elem_of_nil.
Qed.

Lemma udp_call_attended past q s :
  udp_inv s → refs_inj (ur_entries s) → udp_attended past s →
  udp_fine_attended past ((udp_call q s).2, (udp_call q s).1).
Proof.
  intros Hinv Hi Ha.
  assert (∀ r, udp_fine_attended past (s, UdpReturned r)) as Hsame
    by (intros r; split_and!; [done|done|by intros; apply not_elem_of_nil]).
  destruct q as [a|a|id|a|]; cbn [udp_call].
  - destruct (negb _); [apply Hsame|by apply udp_bind_attended].
  - destruct (ur_entries s !! al_id a) as [e|]; [|apply Hsame].
    case_bool_decide; (split_and!; [by apply Ha|done|by intros; apply not_elem_of_nil]).
  - destruct (ur_entries s !! id) as [e|] eqn:He; [|apply Hsame]. split_and!; simpl.
    + intros i e'. simpl. intros [_ Hi']%lookup_delete_Some. by eapply Ha.
    + done.
    + intros i e'. simpl. intros [Hne Hi']%lookup_delete_Some. rewrite list_elem_of_singleton. intros ->. by destruct (Hi i id e).
  - destruct (negb _); [apply Hsame|by apply udp_bind_attended].
  - split_and!; simpl; [intros i e; simpl; by rewrite lookup_empty| |intros i e; simpl; by rewrite lookup_empty].
    by destruct (map_to_list _).*2.
Qed.

Lemma udp_act_attended past op s :
  inv_within (op_window (UdpWaiting op)) s → udp_fine_refs (s, UdpWaiting op) →
  udp_fine_attended past (s, UdpWaiting op) →
  udp_fine_attended past ((udp_op_act op s).2, (udp_op_act op s).1).
Proof.
  intros Hinv [Hi _] (Ha & Hn & Hs). cbn [fst snd] in *.
  assert (∀ s' c, steady s s' → ur_entries s' = ur_entries s → uop_naming c = None →
    uop_stopping c ⊆ uop_stopping (UdpWaiting op) → udp_fine_attended past (s', c)) as Hsame.
  { intros s' c Hst HE Hc Hsub. split_and!; cbn [fst snd]; [|by rewrite Hc|].
    - intros id e'. rewrite HE. intros He'. eapply received_for_steady; [exact Hst|by eapply Ha].
    - intros id e'. rewrite HE. intros He' Hin. by eapply (Hs id e' He'), Hsub. }
  assert (∀ f e c, e ∈ uop_stopping (UdpWaiting op) → uop_naming c = None →
    uop_stopping c ⊆ uop_stopping (UdpWaiting op) → udp_fine_attended past (ur_alter_entry f e s, c)) as Hstop.
  { intros f e c Hin Hc Hsub. split_and!; cbn [fst snd]; [|by rewrite Hc|].
    - intros id e' He'. apply received_for_other; [|by eapply Ha]. intros ->. by destruct (Hs id e').
    - intros id e' He' Hin'. by eapply (Hs id e' He'), Hsub. }
  destruct op as [q|id e|e x|e b rest|e b rest|e b rest|e b rest|e b rest|e k|[|x xs] e k|x xs e k|x xs e k];
    cbn [udp_op_act fst snd].
  - by apply udp_call_attended.
  - split_and!; simpl; [|done|by intros; apply not_elem_of_nil].
    intros i e'. simpl. intros [[<- <-]|[_ He']]%lookup_insert_Some; [by apply (Hn e)|by apply (Ha i)].
  - apply Hsame; [|done..]. apply steady_entry; [intros y; by split_and!|apply steady_refl].
  - apply Hstop; [simpl; set_solver|done|done].
  - destruct (ue_receive_task <$> ur_heap s !! e) as [[]|]; cbn [fst snd]; [|by apply Hsame..].
    apply Hstop; [simpl; set_solver|done|done].
  - apply Hstop; [simpl; set_solver|done|done].
  - destruct (ue_cleanup_task <$> ur_heap s !! e) as [[]|]; cbn [fst snd]; [|by apply Hsame..].
    apply Hstop; [simpl; set_solver|done|done].
  - apply Hstop; [simpl; set_solver|done|done].
  - destruct (ur_heap s !! e); cbn [fst snd]; (apply Hsame; [|done|done|destruct k; simpl; set_solver]); [|done].
    apply steady_entry; [intros y; by split_and!|apply steady_refl].
  - assert (steady s (ur_alter_entry (ue_set_empty_since (Some (ur_now s))) e s)) as Hst
      by (apply steady_entry; [intros y; by split_and!|apply steady_refl]).
    destruct k as [|b rest]; cbn [fst snd]; (apply Hsame; [by apply (steady_heap _ _ _ eq_refl Hst)|done|..]); [done|done|..];
      by destruct rest.
  - apply Hsame; [|by destruct (after_counts k)|done|by destruct k]. apply steady_session.
    destruct (after_counts k); [by apply steady_inc|apply steady_refl].
  - destruct (ux_handle <$> ur_sessions s !! x) as [[]|]; cbn [fst snd]; (apply Hsame; [|done|done|by destruct k]); [|done..].
    by apply steady_session.
  - apply Hsame; [by apply steady_session|done|done|by destruct k].
Qed.

Lemma udp_fine_attended_op past op s :
  udp_within (s, UdpWaiting op) → udp_fine_refs (s, UdpWaiting op) → udp_fine_attended past (s, UdpWaiting op) →
  udp_fine_attended past ((udp_op_step op s).2, (udp_op_step op s).1).
Proof.
  intros [Hinv _] Hi Ha. pose proof (udp_act_attended past op s Hinv Hi Ha) as Hact. unfold udp_op_step.
  destruct (udp_op_act op s) as [c s']. by apply drop_attended.
Qed.

(** ** The next datagrams *)

(** What happens to the datagrams received next if nothing comes in between: the target for
    which they are prepared, or [None] when they are dropped. *)
Definition next_batch (e : nat) (batch : list UdpDatagram) (s : UdpRuntime) : option (option (string * Z)) :=
  s1 ← udp_task_step (UEvReceived e batch) s;
  s2 ← udp_task_step (UEvReadState e) s1;
  match receiving e s2 with
  | Some (RxLookup p, _) => Some (Some (prep_target p))
  | Some (RxIdle, _) => Some None
  | _ => None
  end.

Lemma next_batch_served e batch s s1 entry :
  ur_heap s !! e = Some entry → udp_task_step (UEvReceived e batch) s = Some s1 →
  next_batch e batch s = Some (entry_target entry).
Proof.
  intros He Hev. unfold next_batch. rewrite Hev. cbn [mbind option_bind]. simpl in Hev.
  destruct (receiving e s) as [[[] entry0]|] eqn:Hrx; try done. apply receiving_Some in Hrx as [He0 _].
  assert (entry0 = entry) as -> by congruence. case_bool_decide; [|done]. injection Hev as <-.
  unfold received. cbv zeta. set (s0 := ur_add udp_bytes_in_total _ _).
  assert (ur_heap s0 = ur_heap s) as HH by (unfold s0; by destruct (ue_udp_batch_enabled entry)).
  set (m := λ x : UdpListenerEntry, _).
  assert (receiving e (set_receive (RxRead batch) e (ur_alter_entry m e s0)) =
    Some (RxRead batch, ue_set_receive (Some (RxRead batch)) (m entry))) as Hread.
  { unfold receiving, set_receive. clearbody s0. simpl. rewrite !lookup_alter_eq. by rewrite HH, He. }
  cbn [udp_task_step]. rewrite Hread. cbn [mbind option_bind]. unfold prepare_begin.
  set (s2 := set_receive (RxRead batch) e _) in *.
  apply receiving_Some in Hread as [Hs2 _].
  assert (∀ ph s3, ur_heap s3 = ur_heap s2 → ∃ x, receiving e (set_receive ph e s3) = Some (ph, x)) as Hset.
  { intros ph s3 H3. unfold receiving. simpl. rewrite lookup_alter_eq, H3, Hs2. simpl. by eexists. }
  unfold entry_target. cbn [ue_state ue_set_receive].
  assert (ue_state (m entry) = ue_state entry) as -> by done.
  assert (∀ n s3, ur_heap s3 = ur_heap s2 → ∃ x, receiving e (batch_done n e s3) = Some (RxIdle, x)) as Hdone.
  { intros n s3 H3. unfold batch_done, receiving. simpl. rewrite !lookup_alter_eq, H3, Hs2. simpl. by eexists. }
  destruct (us_effective_host (ue_state entry)) as [h|]; [destruct (us_effective_target_port (ue_state entry)) as [q|]|].
  - match goal with |- context [set_receive (RxLookup ?p) e s2] => destruct (Hset (RxLookup p) s2 eq_refl) as [x ->] end. done.
  - match goal with |- context [batch_done ?n e ?s3] => destruct (Hdone n s3 eq_refl) as [x ->] end. done.
  - match goal with |- context [batch_done ?n e ?s3] => destruct (Hdone n s3 eq_refl) as [x ->] end. done.
Qed.
