(* ===== verification/RelaysInterrupted.v ===== *)
(** The relays of runtime/tcp.rs and runtime/udp.rs with operations step by step (TcpFine.v,
    UdpFine.v) and tasks in between: what runtime/real.rs relies on still holds, and the
    listeners' tasks run on (Attended.v). *)
From stdpp Require Import base gmap strings list relations.
From Stdlib Require Import ZArith Lia.
From S2P Require Import Prelude RustStd Model Facade Metrics Serving Tcp TcpSpec UdpModel Udp UdpSpec UdpSteps.
From S2P Require Import Real RealServing Views Relays Interrupted.
From S2P Require Import TcpFine TcpFineSpec TcpFineViews UdpFine UdpFineSpec UdpFineViews Attended.
Open Scope Z_scope.

Lemma view_of_is_Some E rows i :
  (∀ e, E !! i = Some e → is_Some (rows !! e)) → is_Some (E !! i) ↔ is_Some (view_of E rows !! i).
Proof.
  intros Hrows. unfold view_of. rewrite lookup_omap. destruct (E !! i) as [e|]; simpl; [|by split; intros [? ?]].
  split; [intros _; by apply Hrows|eauto].
Qed.

(** * The TCP relay *)
Definition tcp_next (c : TcpNext) : result unit RuntimeError + TcpOp :=
  match c with Returned r => inl r | Waiting op => inr op end.

Definition tcp_own (op : TcpOp) (s : TcpRuntime) : (result unit RuntimeError + TcpOp) * TcpRuntime :=
  let '(c, s') := tcp_op_step op s in (tcp_next c, s').

Definition tcp_task (ev : TcpEvent) (_ : TcpOp) (s : TcpRuntime) : option TcpRuntime := tcp_event ev s.

(** Twice the listeners that are left to stop, and one more until the table is drained. *)
Definition tcp_rank (c : result unit RuntimeError + TcpOp) : nat :=
  match c with
  | inl _ | inr (OpCall _) => 0
  | inr (OpInsert _ _) => 1
  | inr (OpSetState _ _) | inr (OpDrain _ AfterUpdate) => 2
  | inr (OpSend _ AfterUpdate) => 1
  | inr (OpStop _ rest) | inr (OpTakeTask _ rest) | inr (OpAwaitTask _ rest)
  | inr (OpDrain _ (AfterStop rest)) => 2 * length rest + 2
  | inr (OpSend _ (AfterStop rest)) => 2 * length rest + 1
  end.

Definition tcp_budget (c : result unit RuntimeError + TcpOp) : nat :=
  match c with
  | inl _ => 0
  | inr (OpStop _ _) => 4
  | inr (OpTakeTask _ _) => 3
  | inr (OpSetState _ _) | inr (OpAwaitTask _ _) => 2
  | inr (OpCall _) | inr (OpInsert _ _) | inr (OpDrain _ _) => 1
  | inr (OpSend ts _) => length ts + 1
  end.

Lemma tcp_call_next q s c :
  (tcp_call q s).1 = c → (∃ r, c = Returned r) ∨ (∃ id e, c = Waiting (OpInsert id e)) ∨
    (∃ e x, c = Waiting (OpSetState e x)) ∨ ∃ e rest, c = Waiting (OpStop e rest).
Proof.
  assert (∀ id r, (∃ x, (tcp_bound id r).1 = Returned x) ∨ (∃ i e, (tcp_bound id r).1 = Waiting (OpInsert i e))) as Hb
    by (intros id [[e|err] s1]; [right|left]; simpl; eauto).
  intros <-. destruct q as [a|a|id|a|]; simpl.
  - destruct (negb _); [simpl; eauto|]. destruct (Hb (al_id a) (TcpRuntime_bind_entry a s)); eauto.
  - destruct (tr_entries s !! al_id a); simpl; eauto 10.
  - destruct (tr_entries s !! id); simpl; eauto 10.
  - destruct (negb _); [simpl; eauto|]. match goal with |- context [tcp_bound ?i ?m] => destruct (Hb i m) end; eauto.
  - destruct (map_to_list _).*2; simpl; eauto 10.
Qed.

Lemma tcp_stop_next_rank rest : tcp_rank (tcp_next (tcp_stop_next rest)) = (2 * length rest)%nat.
Proof. destruct rest as [|e rest]; simpl; lia. Qed.

Lemma tcp_own_waits op s : waits tcp_rank (tcp_own op s).1.
Proof.
  unfold tcp_own, waits, returned.
  destruct op as [q|id e|e x|e rest|e rest|e rest|e k|[|t ts] k]; cbn [tcp_op_step].
  - destruct (tcp_call q s) as [c s'] eqn:Hc. simpl.
    destruct (tcp_call_next q s c) as [[r ->]|[(id & e & ->)|[(e & x & ->)|(e & rest & ->)]]]; [by rewrite Hc|simpl..];
      [by left; exists r|right; lia..].
  - left. by eexists.
  - right. simpl. lia.
  - right. simpl. lia.
  - right. destruct (te_accept_task <$> tr_heap s !! e) as [[]|]; simpl; lia.
  - right. simpl. lia.
  - right. destruct (tr_heap s !! e), k; simpl; lia.
  - destruct k as [|[|e' rest]]; simpl; [left; by eexists|left; by eexists|right; lia].
  - right. destruct k; simpl; lia.
Qed.

Lemma tcp_own_progress op s :
  (0 < tcp_rank (inr op))%nat →
  let c := (tcp_own op s).1 in
  returned c ∨ (tcp_rank c < tcp_rank (inr op))%nat ∨
  (tcp_rank c = tcp_rank (inr op) ∧ tcp_budget c < tcp_budget (inr op))%nat.
Proof.
  cbv zeta. unfold tcp_own, returned.
  destruct op as [q|id e|e x|e rest|e rest|e rest|e k|[|t ts] k]; cbn [tcp_op_step]; intros Hr.
  - simpl in Hr. lia.
  - left. by eexists.
  - right. right. simpl. lia.
  - right. right. simpl. lia.
  - right. right. destruct (te_accept_task <$> tr_heap s !! e) as [[]|]; simpl; lia.
  - right. right. simpl. lia.
  - right. left. destruct (tr_heap s !! e), k; simpl; lia.
  - destruct k as [|rest]; [left; by eexists|]. right. left. cbn [fst]. rewrite tcp_stop_next_rank. simpl. lia.
  - right. right. destruct k; simpl; lia.
Qed.

(** The operations, with interruptions. *)
Definition tcp_interrupted (q : TcpRequest) : M (Busy TcpRuntime TcpEvent) RuntimeError unit :=
  operate tcp_own tcp_task tcp_rank tcp_budget (OpCall q).

Lemma tcp_underway s past c y :
  underway tcp_own tcp_task (s, past, tcp_next c) y → ∃ c', y.2 = tcp_next c' ∧ during (s, c) (y.1.1, c') ∧
    (fine_inv (s, c) → fine_refs (s, c) → fine_attended past (s, c) → fine_attended y.1.2 (y.1.1, c')).
Proof.
  remember (s, past, tcp_next c) as x eqn:Hx. intros Hstep.
  destruct Hstep as [op s0 l|ev op s0 s' l Hev]; destruct c as [r|op']; simplify_eq/=.
  - exists (tcp_op_step op' s).1. unfold tcp_own. pose proof (fine_op op' s) as Hf.
    pose proof (fine_attended_op past op' s) as Hat.
    destruct (tcp_op_step op' s) as [c' s']. split; [done|]. split; [|exact Hat]. split; [exact Hf|by eexists].
  - exists (Waiting op'). split; [done|]. split; [|intros _ _; by apply fine_attended_event].
    split; [by eapply fine_event|by eexists].
Qed.

Lemma tcp_underways s past c s' past' c' :
  rtc (underway tcp_own tcp_task) (s, past, tcp_next c) (s', past', tcp_next c') →
  rtc during (s, c) (s', c') ∧
  (fine_inv (s, c) → fine_refs (s, c) → fine_attended past (s, c) → fine_attended past' (s', c')).
Proof.
  intros Hr. remember (s, past, tcp_next c) as x eqn:Hx. remember (s', past', tcp_next c') as z eqn:Hz.
  revert s past c Hx. induction Hr as [x|x y z Hxy _ IH]; intros s past c ->.
  - injection Hz as -> -> Heq. assert (c = c') as -> by (destruct c, c'; simplify_eq/=; done). done.
  - destruct (tcp_underway _ _ _ _ Hxy) as (c1 & Hc1 & Hd & Hat). destruct y as [[s1 past1] x1]. simpl in *. subst x1.
    destruct (IH Hz s1 past1 c1 eq_refl) as [Hr Hat']. split; [by eapply rtc_l|].
    intros Hinv Hrefs Ha. destruct Hd as [Hstep _].
    apply Hat'; [by eapply fine_step_inv|by eapply fine_step_refs|by apply Hat].
Qed.

Lemma tcp_interrupted_matches q b :
  tcp_ok (by_relay b) → tcp_attended (by_past b) (by_relay b) →
  wp (tcp_interrupted q) (λ r b', (tcp_ok (by_relay b') ∧ tcp_attended (by_past b') (by_relay b')) ∧
    r = (tcp_operation q (by_relay b)).1 ∧ tcp_view (by_relay b') = tcp_view (tcp_operation q (by_relay b)).2) b.
Proof.
  intros [Hst Hi] Ha. unfold wp, tcp_interrupted.
  destruct (operate_run tcp_own tcp_task tcp_rank tcp_budget) with (op := OpCall q) (b := b)
    as (r & b' & -> & Hr); [done|by destruct op; simpl; lia|apply tcp_own_waits|apply tcp_own_progress|].
  apply (tcp_underways _ _ (Waiting (OpCall q)) _ _ (Returned r)) in Hr as [Hr Hat].
  pose proof (fine_inv_simple (by_relay b) (Waiting (OpCall q)) eq_refl Hst I) as Hinv.
  assert (fine_refs (by_relay b, Waiting (OpCall q))) as Hrefs by (by split).
  destruct Hat as [Ha' _]; [exact Hinv|exact Hrefs|by split_and!; [|done|intros; apply not_elem_of_nil]|].
  destruct (during_keeps _ _ Hinv Hrefs Hr) as ([Hst' _ _] & [Hi' _] & Hp).
  rewrite settled_quiet_op in Hst' by done. simpl in *. by injection Hp as -> Hv.
Qed.

#[export] Program Instance TcpRuntime_interruptible : Interruptible Tcp TcpRuntime TcpEvent := {|
  it_create := λ a _, tcp_interrupted (TcpCreate a);
  it_restore := λ a _, tcp_interrupted (TcpRestore a);
  it_update := λ a _, tcp_interrupted (TcpUpdate a);
  it_delete := λ i _, tcp_interrupted (TcpDelete i);
  it_serves := tcp_attended;
|}.
Next Obligation. intros a t _ b Hok Ha. by apply (tcp_interrupted_matches (TcpCreate a)). Qed.
Next Obligation. intros a t _ b Hok Ha. by apply (tcp_interrupted_matches (TcpRestore a)). Qed.
Next Obligation. intros a t b Hok Ha. by apply (tcp_interrupted_matches (TcpUpdate a)). Qed.
Next Obligation. intros i t b Hok Ha. by apply (tcp_interrupted_matches (TcpDelete i)). Qed.
Next Obligation.
  intros s i [Hst _]. apply view_of_is_Some. intros e He. unfold tcp_rows. rewrite lookup_fmap.
  destruct (st_entries _ _ _ _ Hst _ _ He) as [tbl Htbl]. rewrite tables_lookup in Htbl.
  destruct (tr_heap s !! e); [by eexists|done].
Qed.

(** * The UDP relay *)
Definition udp_next (c : UdpNext) : result unit RuntimeError + UdpOp :=
  match c with UdpReturned r => inl r | UdpWaiting op => inr op end.

Definition udp_own (op : UdpOp) (s : UdpRuntime) : (result unit RuntimeError + UdpOp) * UdpRuntime :=
  let '(c, s') := udp_op_step op s in (udp_next c, s').

(** The sessions that the operation holds are not dropped. *)
Definition udp_task (ev : UdpEvent) (op : UdpOp) (s : UdpRuntime) : option UdpRuntime :=
  drop_unheld_but (op_sessions (UdpWaiting op)) <$> udp_task_step ev s.

Definition udp_rank (c : result unit RuntimeError + UdpOp) : nat :=
  match c with
  | inl _ | inr (UopCall _) => 0
  | inr (UopInsert _ _) => 1
  | inr (UopSetState _ _) | inr (UopDrain _ UafUpdate) => 2
  | inr (UopClose _ _ UafUpdate) | inr (UopTakeReply _ _ _ UafUpdate) | inr (UopAwaitReply _ _ _ UafUpdate) => 1
  | inr (UopStop _ _ rest) | inr (UopTakeReceive _ _ rest) | inr (UopAwaitReceive _ _ rest)
  | inr (UopTakeCleanup _ _ rest) | inr (UopAwaitCleanup _ _ rest) | inr (UopDrain _ (UafStop _ rest)) =>
      2 * length rest + 2
  | inr (UopClose _ _ (UafStop _ rest)) | inr (UopTakeReply _ _ _ (UafStop _ rest))
  | inr (UopAwaitReply _ _ _ (UafStop _ rest)) => 2 * length rest + 1
  end.

Definition udp_budget (c : result unit RuntimeError + UdpOp) : nat :=
  match c with
  | inl _ => 0
  | inr (UopStop _ _ _) => 6
  | inr (UopTakeReceive _ _ _) => 5
  | inr (UopAwaitReceive _ _ _) => 4
  | inr (UopTakeCleanup _ _ _) => 3
  | inr (UopSetState _ _) | inr (UopAwaitCleanup _ _ _) => 2
  | inr (UopCall _) | inr (UopInsert _ _) | inr (UopDrain _ _) => 1
  | inr (UopClose xs _ _) => 3 * length xs + 1
  | inr (UopTakeReply _ xs _ _) => 3 * length xs + 3
  | inr (UopAwaitReply _ xs _ _) => 3 * length xs + 2
  end.

Lemma udp_call_next q s c :
  (udp_call q s).1 = c → (∃ r, c = UdpReturned r) ∨ (∃ id e, c = UdpWaiting (UopInsert id e)) ∨
    (∃ e x, c = UdpWaiting (UopSetState e x)) ∨ ∃ e b rest, c = UdpWaiting (UopStop e b rest).
Proof.
  assert (∀ id r, (∃ x, (udp_bound id r).1 = UdpReturned x) ∨ (∃ i e, (udp_bound id r).1 = UdpWaiting (UopInsert i e))) as Hb
    by (intros id [[e|err] s1]; [right|left]; simpl; eauto).
  intros <-. destruct q as [a|a|id|a|]; simpl.
  - destruct (negb _); [simpl; eauto|]. destruct (Hb (al_id a) (UdpRuntime_bind_entry a false s)); eauto.
  - destruct (ur_entries s !! al_id a); simpl; eauto 10.
  - destruct (ur_entries s !! id); simpl; eauto 10.
  - destruct (negb _); [simpl; eauto|]. destruct (Hb (al_id a) (UdpRuntime_bind_entry a true s)); eauto.
  - destruct (map_to_list _).*2; simpl; eauto 10.
Qed.

Lemma udp_stop_next_rank rest : udp_rank (udp_next (udp_stop_next rest)) = (2 * length rest)%nat.
Proof. destruct rest as [|e rest]; simpl; lia. Qed.

Lemma udp_own_next op s : (udp_own op s).1 = udp_next (udp_op_act op s).1.
Proof. unfold udp_own, udp_op_step. by destruct (udp_op_act op s). Qed.

Lemma udp_own_waits op s : waits udp_rank (udp_own op s).1.
Proof.
  rewrite udp_own_next. unfold waits, returned.
  destruct op as [q|id e|e x|e b rest|e b rest|e b rest|e b rest|e b rest|e k|[|x xs] e k|x xs e k|x xs e k];
    cbn [udp_op_act fst].
  - destruct (udp_call_next q s _ eq_refl) as [[r Hc]|[(id & e & Hc)|[(e & x & Hc)|(e & b & rest & Hc)]]]; rewrite Hc; simpl;
      [by left; exists r|right; lia..].
  - left. by eexists.
  - right. simpl. lia.
  - right. simpl. lia.
  - right. destruct (ue_receive_task <$> ur_heap s !! e) as [[]|]; simpl; lia.
  - right. simpl. lia.
  - right. destruct (ue_cleanup_task <$> ur_heap s !! e) as [[]|]; simpl; lia.
  - right. simpl. lia.
  - right. destruct (ur_heap s !! e), k; simpl; lia.
  - destruct k as [|b [|e' rest]]; simpl; [left; by eexists|left; by eexists|right; lia].
  - right. destruct k; simpl; lia.
  - right. destruct (ux_handle <$> ur_sessions s !! x) as [[]|], k; simpl; lia.
  - right. destruct k; simpl; lia.
Qed.

Lemma udp_own_progress op s :
  (0 < udp_rank (inr op))%nat →
  let c := (udp_own op s).1 in
  returned c ∨ (udp_rank c < udp_rank (inr op))%nat ∨
  (udp_rank c = udp_rank (inr op) ∧ udp_budget c < udp_budget (inr op))%nat.
Proof.
  cbv zeta. rewrite udp_own_next. unfold returned.
  destruct op as [q|id e|e x|e b rest|e b rest|e b rest|e b rest|e b rest|e k|[|x xs] e k|x xs e k|x xs e k];
    cbn [udp_op_act fst]; intros Hr.
  - simpl in Hr. lia.
  - left. by eexists.
  - right. right. simpl. lia.
  - right. right. simpl. lia.
  - right. right. destruct (ue_receive_task <$> ur_heap s !! e) as [[]|]; simpl; lia.
  - right. right. simpl. lia.
  - right. right. destruct (ue_cleanup_task <$> ur_heap s !! e) as [[]|]; simpl; lia.
  - right. right. simpl. lia.
  - right. left. destruct (ur_heap s !! e), k; simpl; lia.
  - destruct k as [|b rest]; [left; by eexists|]. right. left. cbn [fst]. rewrite udp_stop_next_rank. simpl. lia.
  - right. right. destruct k; simpl; lia.
  - right. right. destruct (ux_handle <$> ur_sessions s !! x) as [[]|], k; simpl; lia.
  - right. right. destruct k; simpl; lia.
Qed.

Definition udp_interrupted (q : UdpRequest) : M (Busy UdpRuntime UdpEvent) RuntimeError unit :=
  operate udp_own udp_task udp_rank udp_budget (UopCall q).

Lemma udp_underway s past c y :
  underway udp_own udp_task (s, past, udp_next c) y → ∃ c', y.2 = udp_next c' ∧ udp_during (s, c) (y.1.1, c') ∧
    (udp_within (s, c) → udp_fine_refs (s, c) → udp_fine_attended past (s, c) → udp_fine_attended y.1.2 (y.1.1, c')).
Proof.
  remember (s, past, udp_next c) as x eqn:Hx. intros Hstep.
  destruct Hstep as [op s0 l|ev op s0 s' l Hev]; destruct c as [r|op']; simplify_eq/=.
  - exists (udp_op_step op' s).1. unfold udp_own. pose proof (udp_fine_op op' s) as Hf.
    pose proof (udp_fine_attended_op past op' s) as Hat.
    destruct (udp_op_step op' s) as [c' s']. split; [done|]. split; [|exact Hat]. split; [exact Hf|by eexists].
  - unfold udp_task in Hev. apply fmap_Some in Hev as (s1 & Hev & ->).
    exists (UdpWaiting op'). split; [done|]. split; [|intros _ _; by apply udp_fine_attended_event].
    split; [by eapply udp_fine_event|by eexists].
Qed.

Lemma udp_underways s past c s' past' c' :
  rtc (underway udp_own udp_task) (s, past, udp_next c) (s', past', udp_next c') →
  rtc udp_during (s, c) (s', c') ∧
  (udp_within (s, c) → udp_fine_refs (s, c) → udp_fine_attended past (s, c) → udp_fine_attended past' (s', c')).
Proof.
  intros Hr. remember (s, past, udp_next c) as x eqn:Hx. remember (s', past', udp_next c') as z eqn:Hz.
  revert s past c Hx. induction Hr as [x|x y z Hxy _ IH]; intros s past c ->.
  - injection Hz as -> -> Heq. assert (c = c') as -> by (destruct c, c'; simplify_eq/=; done). done.
  - destruct (udp_underway _ _ _ _ Hxy) as (c1 & Hc1 & Hd & Hat). destruct y as [[s1 past1] x1]. simpl in *. subst x1.
    destruct (IH Hz s1 past1 c1 eq_refl) as [Hr Hat']. split; [by eapply rtc_l|].
    intros Hinv Hrefs Ha. destruct Hd as [Hstep _].
    apply Hat'; [by eapply udp_fine_step_within|by eapply udp_fine_step_refs|by apply Hat].
Qed.

Lemma udp_interrupted_matches q b :
  udp_ok (by_relay b) → udp_attended (by_past b) (by_relay b) →
  wp (udp_interrupted q) (λ r b', (udp_ok (by_relay b') ∧ udp_attended (by_past b') (by_relay b')) ∧
    r = (udp_operation q (by_relay b)).1 ∧ udp_view (by_relay b') = udp_view (udp_operation q (by_relay b)).2) b.
Proof.
  intros [Hinv Hi] Ha. unfold wp, udp_interrupted.
  destruct (operate_run udp_own udp_task udp_rank udp_budget) with (op := UopCall q) (b := b)
    as (r & b' & -> & Hr); [done|by destruct op; simpl; lia|apply udp_own_waits|apply udp_own_progress|].
  apply (udp_underways _ _ (UdpWaiting (UopCall q)) _ _ (UdpReturned r)) in Hr as [Hr Hat].
  assert (udp_within (by_relay b, UdpWaiting (UopCall q))) as Hw by (by split).
  assert (udp_fine_refs (by_relay b, UdpWaiting (UopCall q))) as Hrefs by (by split).
  destruct Hat as [Ha' _]; [exact Hw|exact Hrefs|by split_and!; [|done|intros; apply not_elem_of_nil]|].
  destruct (udp_during_keeps _ _ Hw Hrefs Hr) as ([Hinv' _] & [Hi' _] & Hp). simpl in *. by injection Hp as -> Hv.
Qed.

#[export] Program Instance UdpRuntime_interruptible : Interruptible Udp UdpRuntime UdpEvent := {|
  it_create := λ a _, udp_interrupted (UdpCreate a);
  it_restore := λ a _, udp_interrupted (UdpRestore a);
  it_update := λ a _, udp_interrupted (UdpUpdate a);
  it_delete := λ i _, udp_interrupted (UdpDelete i);
  it_serves := udp_attended;
|}.
Next Obligation. intros a t _ b Hok Ha. by apply (udp_interrupted_matches (UdpCreate a)). Qed.
Next Obligation. intros a t _ b Hok Ha. by apply (udp_interrupted_matches (UdpRestore a)). Qed.
Next Obligation. intros a t b Hok Ha. by apply (udp_interrupted_matches (UdpUpdate a)). Qed.
Next Obligation. intros i t b Hok Ha. by apply (udp_interrupted_matches (UdpDelete i)). Qed.
Next Obligation.
  intros s i [(I1 & _) _]. apply view_of_is_Some. intros e He. unfold udp_rows. rewrite lookup_fmap.
  destruct (I1 _ _ He) as [entry ->]. by eexists.
Qed.
