(* ===== verification/Daemon.v ===== *)
(** bin/relayd.rs: the options of the command line, and the start of the daemon up to
    the point where it serves requests.

    The options are those clap parsed; its parser, logging, the HTTP server's loop and the
    signal that stops it are outside. What the operating system answers (the bind of
    the control plane, the sockets of the relays) and whether the nftables backend was
    compiled in are parameters. *)
From stdpp Require Import base gmap strings list.
From Stdlib Require Import ZArith Lia.
From S2P Require Import Prelude RustStd Model Config ConfigSpec Facade Sqlite SqliteSpec SqliteOpen Store.
From S2P Require Import AllocationService ServiceSpec ServiceInv Metrics Netlink NetlinkSpec.
From S2P Require Import Tcp UdpModel Udp Real Relays Prometheus ControlPlane.
Open Scope Z_scope.

(** * The command line *)
Record Cli : Type := {
  cli_http_listen : option string;
  cli_proxy_listen_host : option string;
  cli_port_range : option string;
  cli_auth_token : option string;
  cli_sqlite_path : option string;
  cli_runtime_mode : option string;
  cli_nftables_table : option string;
  cli_nftables_chain : option string;
  cli_runtime_apply_timeout_ms : option string;
  cli_restore_sweep_timeout_ms : option string;
  cli_tcp_session_model_enabled : bool;
  cli_tcp_session_model_workers : option string;
  cli_tcp_session_model_accept_balanced : bool;
  cli_tcp_session_model_sharded_accept : bool;
  cli_tcp_session_model_max_active : option string;
  cli_tcp_splice_enabled : bool;
  cli_force_tcp_copy_fallback : bool;
  cli_udp_session_workers : option string;
  cli_udp_max_sessions : option string;
  cli_udp_batch_enabled : option bool;
  cli_udp_io_uring_enabled : bool;
  cli_udp_gro_enabled : bool;
  cli_udp_dataplane_redesign_enabled : bool;
  cli_udp_fast_path_enabled : bool;
  cli_udp_fast_path_segment_size : option string;
  cli_udp_fast_path_gso_burst : option string;
  cli_udp_socket_rcvbuf_bytes : option string;
  cli_udp_socket_sndbuf_bytes : option string;
}.

Definition bool_to_string (b : bool) : string := if b then "true" else "false".

Definition insert_if_present (name : string) (value : option string) (env : gmap string string)
    : gmap string string :=
  match value with Some value => <[name := value]> env | None => env end.

Definition insert_flag (name : string) (enabled : bool) (env : gmap string string)
    : gmap string string :=
  if enabled then <[name := "true"%string]> env else env.

Definition insert_optional_flag (name : string) (enabled : option bool) (env : gmap string string)
    : gmap string string :=
  match enabled with Some enabled => <[name := bool_to_string enabled]> env | None => env end.

(** [Cli::apply_to_env]. *)
Definition Cli_apply_to_env (cli : Cli) (env : gmap string string) : gmap string string :=
  let env := insert_if_present "HTTP_LISTEN" (cli_http_listen cli) env in
  let env := insert_if_present "PROXY_LISTEN_HOST" (cli_proxy_listen_host cli) env in
  let env := insert_if_present "PORT_RANGE" (cli_port_range cli) env in
  let env := insert_if_present "AUTH_TOKEN" (cli_auth_token cli) env in
  let env := insert_if_present "SQLITE_PATH" (cli_sqlite_path cli) env in
  let env := insert_if_present "RELAYD_RUNTIME_MODE" (cli_runtime_mode cli) env in
  let env := insert_if_present "RELAYD_NFTABLES_TABLE" (cli_nftables_table cli) env in
  let env := insert_if_present "RELAYD_NFTABLES_CHAIN" (cli_nftables_chain cli) env in
  let env := insert_if_present "RUNTIME_APPLY_TIMEOUT_MS" (cli_runtime_apply_timeout_ms cli) env in
  let env := insert_if_present "RESTORE_SWEEP_TIMEOUT_MS" (cli_restore_sweep_timeout_ms cli) env in
  let env := insert_flag "TCP_SESSION_MODEL_ENABLED" (cli_tcp_session_model_enabled cli) env in
  let env := insert_if_present "TCP_SESSION_MODEL_WORKERS" (cli_tcp_session_model_workers cli) env in
  let env := insert_flag "TCP_SESSION_MODEL_ACCEPT_BALANCED" (cli_tcp_session_model_accept_balanced cli) env in
  let env := insert_flag "TCP_SESSION_MODEL_SHARDED_ACCEPT" (cli_tcp_session_model_sharded_accept cli) env in
  let env := insert_if_present "TCP_SESSION_MODEL_MAX_ACTIVE" (cli_tcp_session_model_max_active cli) env in
  let env := insert_flag "TCP_SPLICE_ENABLED" (cli_tcp_splice_enabled cli) env in
  let env := insert_flag "FORCE_TCP_COPY_FALLBACK" (cli_force_tcp_copy_fallback cli) env in
  let env := insert_if_present "UDP_SESSION_WORKERS" (cli_udp_session_workers cli) env in
  let env := insert_if_present "UDP_MAX_SESSIONS" (cli_udp_max_sessions cli) env in
  let env := insert_optional_flag "UDP_BATCH_ENABLED" (cli_udp_batch_enabled cli) env in
  let env := insert_flag "UDP_IO_URING_ENABLED" (cli_udp_io_uring_enabled cli) env in
  let env := insert_flag "UDP_GRO_ENABLED" (cli_udp_gro_enabled cli) env in
  let env := insert_flag "UDP_DATAPLANE_REDESIGN_ENABLED" (cli_udp_dataplane_redesign_enabled cli) env in
  let env := insert_flag "UDP_FAST_PATH_ENABLED" (cli_udp_fast_path_enabled cli) env in
  let env := insert_if_present "UDP_FAST_PATH_SEGMENT_SIZE" (cli_udp_fast_path_segment_size cli) env in
  let env := insert_if_present "UDP_FAST_PATH_GSO_BURST" (cli_udp_fast_path_gso_burst cli) env in
  let env := insert_if_present "UDP_SOCKET_RCVBUF_BYTES" (cli_udp_socket_rcvbuf_bytes cli) env in
  let env := insert_if_present "UDP_SOCKET_SNDBUF_BYTES" (cli_udp_socket_sndbuf_bytes cli) env in
  env.

Definition config_from_cli_and_env (cli : Cli) (env : gmap string string) (target_os_linux : bool)
    : result Config ConfigError :=
  Config_from_env_map (Cli_apply_to_env cli env) target_os_linux.

Definition real_runtime_config_from_config (c : Config) : RealRuntimeConfig :=
  with_force_tcp_copy_fallback (force_tcp_copy_fallback c)
    (with_tcp_splice_enabled (tcp_splice_enabled c)
      (with_udp_batch_enabled (udp_batch_enabled c)
        (with_udp_max_sessions (udp_max_sessions c)
          (RealRuntimeConfig_with_bind_host (proxy_listen_host c))))).

Definition netlink_runtime_config_from_config (c : Config) : NetlinkRuntimeConfig :=
  NetlinkRuntimeConfig_new (nftables_table c) (nftables_chain c).

(** * The start *)
Inductive StartError : Type :=
| StartConfig (e : ConfigError)
| StartBind                           (* the control plane's address *)
| StartRepository (e : RepositoryError)
| StartBackend (e : NftBackendError)
| StartRestore (e : ServiceError).

(** The persisted allocations are restored; only then there is something to serve. *)
Definition run_with_runtime {R} `{RuntimeFacade R} (c : Config) (metrics : Metrics)
    (repo : Repository) (runtime : R) : result (AppState R) StartError :=
  let service := Service_new repo runtime (port_range c) (runtime_apply_timeout_ms c) in
  let '(restored, service) := Service_restore_all (restore_sweep_timeout_ms c) service in
  let? _restored := map_err StartRestore restored in
  Ok (AppState_new service metrics (auth_token c)).

(** Every operation of the relays is one step. *)
Definition in_one_step (runtime : RealRuntime TcpRuntime UdpRuntime) : RealRuntime TcpRuntime UdpRuntime := runtime.

Section start.
  (* how the operations of the relays run *)
  Context {P : Type} `{RuntimeFacade P} (attach : RealRuntime TcpRuntime UdpRuntime → P).
  (* the nftables backend, or the error of a build without it *)
  Context {B : Type} `{NftBackend B} (backend : result B NftBackendError).
  Context (binds : IpAddr * Z → bool).                   (* the control plane's address *)
  Context (tcp_binds udp_binds : nat → Z → bool) (now : Z).
  Context (unix : bool) (io_denied : string → bool).
  Context (connect : gmap string Z → bool * gmap string Z) (engine_files : gmap string Z → gmap string Z).

Inductive Running : Type :=
| RunningProxy (state : AppState P)
| RunningNetlink (state : AppState (NetlinkRuntime B)).

Definition run_with_listener (c : Config) : M World StartError Running :=
  let metrics := Metrics_default in
  let! repo := zoom (λ w : World, w) (λ w _, w) StartRepository
                 (Repository_open unix io_denied connect engine_files (db_path c)) in
  match runtime_mode c with
  | Proxy =>
      let runtime := attach (RealRuntime_new (real_runtime_config_from_config c) metrics now tcp_binds udp_binds) in
      let! state := of_result (run_with_runtime c metrics repo runtime) in
      ret (RunningProxy state)
  | Netlink =>
      let! backend := of_result (map_err StartBackend backend) in
      let runtime := NetlinkRuntime_new (netlink_runtime_config_from_config c) backend in
      let! state := of_result (run_with_runtime c metrics repo runtime) in
      ret (RunningNetlink state)
  end.

Definition run_with_config (c : Config) : M World StartError Running :=
  let! host := of_result (ok_or (StartConfig InvalidHttpListen) (IpAddr_from_str (http_listen_host c))) in
  let addr := (host, http_listen_port c) in
  if binds addr then run_with_listener c else fail StartBind.

Definition run (cli : Cli) (env : gmap string string) (target_os_linux : bool) : M World StartError Running :=
  let! config := of_result (map_err StartConfig (config_from_cli_and_env cli env target_os_linux)) in
  run_with_config config.
End start.

(** * The command line overrides the environment *)

(** What the option for an environment variable says. *)
Definition flag_value (enabled : bool) : option string :=
  if enabled then Some "true"%string else None.

Definition cli_values (cli : Cli) : list (string * option string) := [
  ("HTTP_LISTEN", cli_http_listen cli);
  ("PROXY_LISTEN_HOST", cli_proxy_listen_host cli);
  ("PORT_RANGE", cli_port_range cli);
  ("AUTH_TOKEN", cli_auth_token cli);
  ("SQLITE_PATH", cli_sqlite_path cli);
  ("RELAYD_RUNTIME_MODE", cli_runtime_mode cli);
  ("RELAYD_NFTABLES_TABLE", cli_nftables_table cli);
  ("RELAYD_NFTABLES_CHAIN", cli_nftables_chain cli);
  ("RUNTIME_APPLY_TIMEOUT_MS", cli_runtime_apply_timeout_ms cli);
  ("RESTORE_SWEEP_TIMEOUT_MS", cli_restore_sweep_timeout_ms cli);
  ("TCP_SESSION_MODEL_ENABLED", flag_value (cli_tcp_session_model_enabled cli));
  ("TCP_SESSION_MODEL_WORKERS", cli_tcp_session_model_workers cli);
  ("TCP_SESSION_MODEL_ACCEPT_BALANCED", flag_value (cli_tcp_session_model_accept_balanced cli));
  ("TCP_SESSION_MODEL_SHARDED_ACCEPT", flag_value (cli_tcp_session_model_sharded_accept cli));
  ("TCP_SESSION_MODEL_MAX_ACTIVE", cli_tcp_session_model_max_active cli);
  ("TCP_SPLICE_ENABLED", flag_value (cli_tcp_splice_enabled cli));
  ("FORCE_TCP_COPY_FALLBACK", flag_value (cli_force_tcp_copy_fallback cli));
  ("UDP_SESSION_WORKERS", cli_udp_session_workers cli);
  ("UDP_MAX_SESSIONS", cli_udp_max_sessions cli);
  ("UDP_BATCH_ENABLED", bool_to_string <$> cli_udp_batch_enabled cli);
  ("UDP_IO_URING_ENABLED", flag_value (cli_udp_io_uring_enabled cli));
  ("UDP_GRO_ENABLED", flag_value (cli_udp_gro_enabled cli));
  ("UDP_DATAPLANE_REDESIGN_ENABLED", flag_value (cli_udp_dataplane_redesign_enabled cli));
  ("UDP_FAST_PATH_ENABLED", flag_value (cli_udp_fast_path_enabled cli));
  ("UDP_FAST_PATH_SEGMENT_SIZE", cli_udp_fast_path_segment_size cli);
  ("UDP_FAST_PATH_GSO_BURST", cli_udp_fast_path_gso_burst cli);
  ("UDP_SOCKET_RCVBUF_BYTES", cli_udp_socket_rcvbuf_bytes cli);
  ("UDP_SOCKET_SNDBUF_BYTES", cli_udp_socket_sndbuf_bytes cli)
].

Definition cli_value (cli : Cli) (name : string) : option string :=
  mjoin ((list_to_map (cli_values cli) : gmap string (option string)) !! name).

Lemma insert_values l (env : gmap string string) name :
  NoDup l.*1 →
  foldl (λ env p, insert_if_present p.1 p.2 env) env l !! name =
  match mjoin ((list_to_map l : gmap string (option string)) !! name) with
  | Some v => Some v
  | None => env !! name
  end.
Proof.
  revert env. induction l as [|[n v] l IH]; intros env; [done|]. simpl.
  intros [Hn Hl]%NoDup_cons. rewrite IH by done.
  destruct (decide (name = n)) as [->|Hne].
  - rewrite lookup_insert_eq. assert ((list_to_map l : gmap string (option string)) !! n = None) as ->
      by (by apply not_elem_of_list_to_map). simpl.
    destruct v; simpl; [by rewrite lookup_insert_eq|done].
  - rewrite lookup_insert_ne by done. destruct (mjoin _); [done|].
    destruct v; simpl; [by rewrite lookup_insert_ne|done].
Qed.

Lemma flag_as_value name enabled env :
  insert_flag name enabled env = insert_if_present name (flag_value enabled) env.
Proof. by destruct enabled. Qed.

Lemma optional_as_value name enabled env :
  insert_optional_flag name enabled env = insert_if_present name (bool_to_string <$> enabled) env.
Proof. by destruct enabled. Qed.

(** An option of the command line overrides its environment variable, and an option
    that is not given leaves the variable alone; no other variable is touched. *)
Theorem cli_overrides_env cli env name :
  Cli_apply_to_env cli env !! name =
  match cli_value cli name with Some v => Some v | None => env !! name end.
Proof.
  replace (Cli_apply_to_env cli env) with
    (foldl (λ env p, insert_if_present p.1 p.2 env) env (cli_values cli)).
  - apply insert_values. apply (bool_decide_unpack _). by vm_compute.
  - unfold Cli_apply_to_env. cbv zeta. by rewrite !flag_as_value, !optional_as_value.
Qed.

(** * The start restores what is persisted *)
Lemma run_with_runtime_restores {R} `{RuntimeFacadeLaws R} c metrics repo (runtime : R) state :
  tables_wf (repo_tables repo) → rt_ok runtime →
  run_with_runtime c metrics repo runtime = Ok state →
  as_auth_token state = auth_token c ∧
  sv_tables (as_service state) = repo_tables repo ∧
  rt_ok (sv_runtime (as_service state)) ∧ tracked (as_service state).
Proof.
  intros Hwf Hok. unfold run_with_runtime. set (service := Service_new _ _ _ _).
  destruct (Service_restore_all _ service) as [r s'] eqn:Hrun.
  destruct (wp_elim _ _ _ _ _ (restore_all_tracks (restore_sweep_timeout_ms c) service Hwf Hok) Hrun)
    as (_ & _ & Ht & Hok' & _ & Htr).
  destruct r as [x|e]; simpl; [|done]. intros [= <-]. by split_and!; [..|by apply Htr].
Qed.

(** What a start that gets as far as serving requests went through. *)
Lemma run_starts {P} `{RuntimeFacade P} {attach : RealRuntime TcpRuntime UdpRuntime → P}
    {B} `{NftBackend B} backend binds tcp_binds udp_binds now
    unix io_denied connect engine_files cli env linux w running w' :
  run attach (B := B) backend binds tcp_binds udp_binds now unix io_denied connect engine_files cli env linux w
    = (Ok running, w') →
  ∃ c repo, config_from_cli_and_env cli env linux = Ok c ∧
    repo_tables repo = migrated (db_tables (w_database w)) ∧
    match running with
    | RunningProxy state =>
        runtime_mode c = Proxy ∧
        run_with_runtime c Metrics_default repo
          (attach (RealRuntime_new (real_runtime_config_from_config c) Metrics_default now tcp_binds udp_binds))
          = Ok state
    | RunningNetlink state =>
        runtime_mode c = Netlink ∧
        ∃ b, backend = Ok b ∧ run_with_runtime c Metrics_default repo
          (NetlinkRuntime_new (netlink_runtime_config_from_config c) b) = Ok state
    end.
Proof.
  unfold run, bind at 1, of_result.
  destruct (config_from_cli_and_env cli env linux) as [c|e] eqn:Hc; simpl; [|done].
  unfold run_with_config, bind at 1, of_result.
  destruct (IpAddr_from_str (http_listen_host c)) as [host|]; simpl; [|done].
  destruct (binds _); [|done]. unfold run_with_listener, bind at 1, zoom.
  destruct (Repository_open _ _ _ _ _ w) as [[repo|e] w1] eqn:Hopen; simpl; [|done].
  destruct (wp_elim _ _ _ _ _ (open_spec _ _ _ _ _ w) Hopen repo eq_refl) as (Ht & _).
  intros Hrun. exists c, repo. split_and!; [done..|]. destruct (runtime_mode c) eqn:Hm.
  - unfold bind, of_result in Hrun.
    destruct (run_with_runtime c Metrics_default repo _) as [state|e] eqn:Hst; simpl in Hrun; [|done].
    by injection Hrun as <- <-.
  - unfold bind, of_result in Hrun. destruct backend as [b|e]; simpl in Hrun; [|done].
    destruct (run_with_runtime c Metrics_default repo _) as [state|e] eqn:Hst; simpl in Hrun; [|done].
    injection Hrun as <- <-. eauto.
Qed.

(** C6: when the daemon starts, it serves every allocation of its database: whatever
    options, environment, database and sockets it finds, if it gets as far as serving
    requests then under the token it was configured with, over the tables of the
    database with its legacy rows migrated, and with every persisted allocation tracked
    by the runtime of the configured mode. *)
Theorem start_restores_everything {B} `{NftBackend B} backend binds tcp_binds udp_binds now
    unix io_denied connect engine_files cli env linux w running w' :
  tables_wf (migrated (db_tables (w_database w))) →
  run in_one_step (B := B) backend binds tcp_binds udp_binds now unix io_denied connect engine_files cli env linux w
    = (Ok running, w') →
  ∃ c, config_from_cli_and_env cli env linux = Ok c ∧
    match running with
    | RunningProxy state =>
        runtime_mode c = Proxy ∧ as_auth_token state = auth_token c ∧
        sv_tables (as_service state) = migrated (db_tables (w_database w)) ∧
        ∀ id, is_Some (t_allocations (sv_tables (as_service state)) !! id) →
          real_tracks (sv_runtime (as_service state)) id
    | RunningNetlink state =>
        runtime_mode c = Netlink ∧ as_auth_token state = auth_token c ∧
        sv_tables (as_service state) = migrated (db_tables (w_database w)) ∧
        ∀ id, is_Some (t_allocations (sv_tables (as_service state)) !! id) →
          nl_tracks (sv_runtime (as_service state)) id
    end.
Proof.
  intros Hwf Hrun. destruct (run_starts _ _ _ _ _ _ _ _ _ _ _ _ _ _ _ Hrun) as (c & repo & Hc & Ht & Hst).
  rewrite <- Ht in Hwf |- *. exists c. split; [done|]. destruct running as [state|state].
  - destruct Hst as [Hm Hst]. split; [done|].
    eapply run_with_runtime_restores in Hst as (? & ? & _ & ?); [|done|apply RealRuntime_new_ok]. done.
  - destruct Hst as (Hm & b & _ & Hst). split; [done|].
    eapply run_with_runtime_restores in Hst as (? & ? & _ & ?); [|done|apply NetlinkRuntime_new_ok]. done.
Qed.
