(* ===== verification/DaemonWitness.v ===== *)
(** The daemon's start over a legacy database with one bound TCP allocation. *)
From stdpp Require Import base gmap strings list.
From Stdlib Require Import ZArith Lia.
From S2P Require Import Prelude RustStd Model Config Facade Sqlite SqliteSpec SqliteOpen Store.
From S2P Require Import AllocationService Netlink NetlinkSpec NetlinkWitness Tcp UdpModel Udp Real Relays.
From S2P Require Import ControlPlane Daemon.
Open Scope Z_scope.

(** Only the token, the database and an address of the control plane are given. *)
Definition start_cli : Cli := {|
  cli_http_listen := Some "127.0.0.1:8080"%string; cli_proxy_listen_host := None;
  cli_port_range := None; cli_auth_token := Some "secret"%string;
  cli_sqlite_path := Some "db"%string; cli_runtime_mode := None; cli_nftables_table := None;
  cli_nftables_chain := None; cli_runtime_apply_timeout_ms := None;
  cli_restore_sweep_timeout_ms := None; cli_tcp_session_model_enabled := false;
  cli_tcp_session_model_workers := None; cli_tcp_session_model_accept_balanced := false;
  cli_tcp_session_model_sharded_accept := false; cli_tcp_session_model_max_active := None;
  cli_tcp_splice_enabled := false; cli_force_tcp_copy_fallback := false;
  cli_udp_session_workers := None; cli_udp_max_sessions := None; cli_udp_batch_enabled := None;
  cli_udp_io_uring_enabled := false; cli_udp_gro_enabled := false;
  cli_udp_dataplane_redesign_enabled := false; cli_udp_fast_path_enabled := false;
  cli_udp_fast_path_segment_size := None; cli_udp_fast_path_gso_burst := None;
  cli_udp_socket_rcvbuf_bytes := None; cli_udp_socket_sndbuf_bytes := None |}.

Definition start_row : AllocationRow := {|
  ro_id := "a"; ro_protocol := "tcp"; ro_port := 5001; ro_target_port := 80;
  ro_host := Some "10.0.0.1"%string; ro_created_at_ms := 1; ro_updated_at_ms := 2 |}.

Definition start_world : World := {|
  w_modes := ∅;
  w_database := {| db_allocations := Some {["a"%string := start_row]};
                   db_bindings := None; db_unique_index := false; db_port_index := false |};
  w_faults := [] |}.

Definition start_run : result (Running (P := RealRuntime TcpRuntime UdpRuntime) (B := ExBackend)) StartError * World :=
  run in_one_step (Err (Apply "not built in")) (λ _, true) (λ _ _, true) (λ _ _, true) 0 true (λ _, false)
    (λ m, (true, m)) (λ m, m) start_cli ∅ true start_world.

Lemma start_tables_wf : tables_wf (migrated (SqliteOpen.db_tables (w_database start_world))).
Proof.
  split.
  - intros id r. destruct (decide (id = "a"%string)) as [->|Hne].
    + intros [= <-]. change (migrated _ : Tables) with
        {| t_allocations := {["a"%string := start_row]};
           t_bindings := ∅ ∪ omap legacy_binding {["a"%string := start_row]} |}. simpl.
      split; [done|]. split; [by exists Tcp|]. split; [done|]. by vm_compute.
    + simpl. by rewrite lookup_singleton_ne.
  - intros id. destruct (decide (id = "a"%string)) as [->|Hne]; [by eexists|].
    intros Hid. exfalso. revert Hid. simpl. rewrite lookup_union, lookup_empty, lookup_omap.
    rewrite lookup_singleton_ne by done. by intros [? ?].
  - intros i j r1 r2. simpl. intros [-> <-]%lookup_singleton_Some [-> <-]%lookup_singleton_Some. done.
Qed.

Definition proxy_state (r : result (Running (P := RealRuntime TcpRuntime UdpRuntime) (B := ExBackend)) StartError * World)
    : option (AppState (RealRuntime TcpRuntime UdpRuntime)) :=
  match r.1 with Ok (RunningProxy state) => Some state | _ => None end.

Lemma start_restores_everything_witness :
  ∃ state, proxy_state start_run = Some state ∧ as_auth_token state = "secret"%string ∧
    real_tracks (sv_runtime (as_service state)) "a".
Proof.
  destruct start_run as [[[state|state]|e] w'] eqn:Hrun.
  - destruct (start_restores_everything _ _ _ _ _ _ _ _ _ _ _ _ _ _ _ start_tables_wf Hrun)
      as (c & Hc & _ & Htoken & Ht & Hall).
    exists state. split; [reflexivity|]. split.
    + rewrite Htoken. assert (auth_token <$> result_ok (config_from_cli_and_env start_cli ∅ true) =
        Some "secret"%string) as Hs by (vm_compute; reflexivity).
      rewrite Hc in Hs. simpl in Hs. by injection Hs.
    + apply Hall. rewrite Ht. by eexists.
  - exfalso. assert (match start_run.1 with Ok (RunningNetlink _) => true | _ => false end = false) as Hf
      by (vm_compute; reflexivity). by rewrite Hrun in Hf.
  - exfalso. assert (is_ok start_run.1 = true) as Hf by (vm_compute; reflexivity). by rewrite Hrun in Hf.
Defined.
