(* ===== verification/System.v ===== *)
(** The program as a whole: the daemon's start, the requests to the allocation service and,
    in proxy mode, the tasks of the relays between them.

    A request is one step here and so is an event of a task; service, runtime and relays
    are those of the other files, put together as bin/relayd.rs does. *)
From stdpp Require Import base gmap strings list fin_maps relations.
From Stdlib Require Import ZArith Lia.
From S2P Require Import Prelude RustStd Model Config ConfigSpec Facade Sqlite SqliteSpec SqliteOpen Store.
From S2P Require Import AllocationService ServiceSpec ServiceInv Serving Metrics.
From S2P Require Import Netlink NetlinkSpec NetlinkServing.
From S2P Require Import Tcp TcpSpec UdpModel Udp UdpSpec UdpSteps Real RealServing Views Relays.
From S2P Require Import Prometheus ControlPlane Daemon.
Open Scope Z_scope.

Abbreviation Relaying := (Service (RealRuntime TcpRuntime UdpRuntime)).

(** Listeners by their entries. *)
Lemma view_of_Some E rows i l :
  view_of E rows !! i = Some l → ∃ e, E !! i = Some e ∧ rows !! e = Some l.
Proof. unfold view_of. rewrite lookup_omap. intros (e & He & Hl)%bind_Some. eauto. Qed.

Lemma tcp_view_listener (s : TcpRuntime) i port target (P : Prop) :
  fst <$> tcp_view s !! i = Some port → (P → tcp_view s !! i = Some (port, target)) →
  ∃ e entry, tr_entries s !! i = Some e ∧ tr_heap s !! e = Some entry ∧
    te_port entry = port ∧ (P → tcp_target entry = target).
Proof.
  intros ([port' target'] & Hl & ->)%fmap_Some Hv.
  destruct (view_of_Some _ _ _ _ Hl) as (e & He & (entry & Hrow & Hentry)%lookup_fmap_Some).
  exists e, entry. injection Hrow as Hp Ht. split_and!; [done..|]. intros HP. apply Hv in HP. congruence.
Qed.

Lemma udp_view_listener (s : UdpRuntime) i port target (P : Prop) :
  fst <$> udp_view s !! i = Some port → (P → udp_view s !! i = Some (port, target)) →
  ∃ e entry, ur_entries s !! i = Some e ∧ ur_heap s !! e = Some entry ∧
    ue_port entry = port ∧ (P → entry_target entry = target).
Proof.
  intros ([port' target'] & Hl & ->)%fmap_Some Hv.
  destruct (view_of_Some _ _ _ _ Hl) as (e & He & (entry & Hrow & Hentry)%lookup_fmap_Some).
  exists e, entry. injection Hrow as Hp Ht. split_and!; [done..|]. intros HP. apply Hv in HP. congruence.
Qed.

(** * The start *)

(** Over any runtime that serves its allocations, service and runtime agree at the start. *)
Lemma start_agrees {R} `{RuntimeServes R} id_generator c metrics repo (runtime : R) state :
  tables_wf (repo_tables repo) → rt_ok runtime → (∀ id, ¬ rt_tracks runtime id) →
  0 ≤ pr_start (port_range c) ∧ pr_end (port_range c) ≤ u16_max →
  (∀ n, t_allocations (repo_tables repo) !! id_generator n = None) →
  run_with_runtime c metrics repo runtime = Ok state →
  (tracked_inv id_generator (as_service state) ∧ served ∅ (as_service state)) ∧
  sv_failpoints (as_service state) = Failpoints_default.
Proof.
  intros Hwf Hok Hnone Hrange Hfresh. unfold run_with_runtime. set (service := Service_new _ _ _ _).
  destruct (Service_restore_all _ service) as [r s'] eqn:Hrun.
  pose proof (wp_elim _ _ _ _ _ (restore_served (restore_sweep_timeout_ms c) service Hwf Hok) Hrun) as Hs.
  destruct (wp_elim _ _ _ _ _ (restore_all_tracks (restore_sweep_timeout_ms c) service Hwf Hok) Hrun)
    as (Hset & Hids & Ht & Hok' & Hne & Htr).
  destruct r as [x|e]; simpl; [|done]. intros [= <-]. simpl.
  split; [|by destruct Hset as (_ & _ & -> & _)]. split; [|by apply Hs]. split; [by rewrite Ht| |done| |by apply Htr].
  - destruct Hset as (Hpr & _). unfold range_u16. by rewrite Hpr.
  - intros n _. rewrite Ht. split; [apply Hfresh|].
    rewrite Hne by (simpl; rewrite Hfresh; by intros [? ?]). apply Hnone.
Qed.

(** * The service's turns *)
Section turns.
  Context {R : Type} `{RuntimeServes R}.
  Context (clock : nat → Z) (id_generator : nat → string).
  Context (Hinj : ∀ m n, id_generator m = id_generator n → m = n).

(** The engine's faults and the clock aside, nothing happened: what a read leaves. *)
Definition unchanged (s s' : Service R) : Prop :=
  sv_tables s' = sv_tables s ∧ sv_runtime s' = sv_runtime s ∧ sv_port_range s' = sv_port_range s ∧
  sv_apply_timeout_ms s' = sv_apply_timeout_ms s ∧ sv_failpoints s' = sv_failpoints s ∧ sv_ids s' = sv_ids s.

(** The second component collects the allocations whose last stored change the service
    reported as not applied. Faults of the engine and failpoints may come and go. *)
Inductive turn : Service R * gset string → Service R * gset string → Prop :=
| turn_request q s D :
    request_typed q → keeps_runtime q s →
    turn (s, D)
      ((run_request clock id_generator q s).2, unapplied q (run_request clock id_generator q s).1 D)
| turn_quiet s s' D : unchanged s s' → turn (s, D) (s', D)
| turn_failpoints f s D :
    turn (s, D) ((Service_set_failpoints f s).2, D).

Definition agrees (x : Service R * gset string) : Prop :=
  tracked_inv id_generator x.1 ∧ served x.2 x.1.

Lemma unchanged_agrees s s' D : unchanged s s' → agrees (s, D) → agrees (s', D).
Proof.
  intros (Ht & Hr & Hp & _ & _ & Hi) [[Hwf Hrange Hok Hf Htr] Hs]. simpl in *.
  split; simpl; [|by apply (served_same D s)]. unfold range_u16, ids_fresh, tracked in *.
  split; unfold range_u16, ids_fresh, tracked; by rewrite ?Ht, ?Hr, ?Hp, ?Hi.
Qed.

Lemma turn_agrees x y : agrees x → turn x y → agrees y.
Proof.
  intros Hx Hturn. destruct Hturn as [q s D Htyped Hkeeps|s s' D Hq|f s D].
  - destruct Hx as [Hinv Hs].
    split; [exact (request_tracked clock id_generator Hinj q s Hinv Htyped Hkeeps)|].
    exact (request_served clock id_generator D q s Hinv Htyped Hkeeps Hs).
  - by eapply unchanged_agrees.
  - destruct Hx as [[Hwf Hrange Hok Hf Htr] Hs]. by split.
Qed.

Lemma turns_agree x y : agrees x → rtc turn x y → agrees y.
Proof. intros Hx. induction 1; eauto using turn_agrees. Qed.
End turns.

(** * The daemon's start *)
Lemma attached_starts {P} `{RuntimeServes P} {attach : RealRuntime TcpRuntime UdpRuntime → P}
    {B} `{NftBackend B} id_generator backend binds tcp_binds udp_binds now
    unix io_denied connect engine_files cli env linux w state w' :
  (∀ c, let runtime := attach (RealRuntime_new c Metrics_default now tcp_binds udp_binds) in
     rt_ok runtime ∧ ∀ id, ¬ rt_tracks runtime id) →
  tables_wf (migrated (db_tables (w_database w))) →
  (∀ n, t_allocations (migrated (db_tables (w_database w))) !! id_generator n = None) →
  run attach (B := B) backend binds tcp_binds udp_binds now unix io_denied connect engine_files
    cli env linux w = (Ok (RunningProxy state), w') →
  agrees id_generator (as_service state, ∅) ∧ sv_failpoints (as_service state) = Failpoints_default.
Proof.
  intros Hattach Hwf Hfresh Hrun.
  destruct (run_starts _ _ _ _ _ _ _ _ _ _ _ _ _ _ _ Hrun) as (c & repo & Hc & Ht & _ & Hst).
  rewrite <- Ht in Hwf, Hfresh.
  eapply (start_agrees id_generator); [done|apply Hattach|apply Hattach| |done|exact Hst].
  destruct (Config_port_range _ _ _ Hc) as ([? _] & [_ ?] & _). lia.
Qed.

Lemma proxy_starts {B} `{NftBackend B} id_generator backend binds tcp_binds udp_binds now
    unix io_denied connect engine_files cli env linux w state w' :
  tables_wf (migrated (db_tables (w_database w))) →
  (∀ n, t_allocations (migrated (db_tables (w_database w))) !! id_generator n = None) →
  run in_one_step (B := B) backend binds tcp_binds udp_binds now unix io_denied connect engine_files
    cli env linux w = (Ok (RunningProxy state), w') →
  agrees id_generator (as_service state, ∅) ∧ sv_failpoints (as_service state) = Failpoints_default.
Proof.
  apply attached_starts. intros c. split; [apply RealRuntime_new_ok|apply RealRuntime_new_tracks].
Qed.

Lemma netlink_starts {B} `{NftBackendLaws B} id_generator backend binds tcp_binds udp_binds now
    unix io_denied connect engine_files cli env linux w state w' :
  tables_wf (migrated (db_tables (w_database w))) →
  (∀ n, t_allocations (migrated (db_tables (w_database w))) !! id_generator n = None) →
  run in_one_step (B := B) backend binds tcp_binds udp_binds now unix io_denied connect engine_files
    cli env linux w = (Ok (RunningNetlink state), w') →
  agrees id_generator (as_service state, ∅) ∧ sv_failpoints (as_service state) = Failpoints_default.
Proof.
  intros Hwf Hfresh Hrun.
  destruct (run_starts _ _ _ _ _ _ _ _ _ _ _ _ _ _ _ Hrun) as (c & repo & Hc & Ht & _ & b & _ & Hst).
  rewrite <- Ht in Hwf, Hfresh.
  eapply (start_agrees id_generator); [done|apply NetlinkRuntime_new_ok|by intros i [? ?]| |done|exact Hst].
  destruct (Config_port_range _ _ _ Hc) as ([? _] & [_ ?] & _). lia.
Qed.

(** * The tasks do not get in the way *)
Section listeners.
  Context {T U : Type} `{FT : RuntimeFacade T} `{FU : RuntimeFacade U}.
  Context `{LT : !ListenerLaws Tcp T} `{LU : !ListenerLaws Udp U}.
  Context `{VT : !ListenerView Tcp T} `{VU : !ListenerView Udp U}.

(** [y] listens to the same ports for the same targets. *)
Definition same_listeners (x y : RealRuntime T U) : Prop :=
  real_ok y ∧ rr_protocols y = rr_protocols x ∧
  (∀ id, ls_tracks (rr_tcp y) id ↔ ls_tracks (rr_tcp x) id) ∧
  (∀ id, ls_tracks (rr_udp y) id ↔ ls_tracks (rr_udp x) id) ∧
  lv_view (rr_tcp y) = lv_view (rr_tcp x) ∧ lv_view (rr_udp y) = lv_view (rr_udp x).

Lemma same_listeners_inv id_generator x (s : Service (RealRuntime T U)) D :
  same_listeners (sv_runtime s) x → agrees id_generator (s, D) → agrees id_generator (set_runtime x s, D).
Proof.
  intros (Hok & Hp & Htt & Hut & Ht & Hu) [[Hwf Hrange _ Hf Htr] Hs].
  assert (∀ id, rt_tracks x id ↔ rt_tracks (sv_runtime s) id) as Htracks
    by (intros id; simpl; unfold real_tracks; by rewrite Hp; destruct (rr_protocols (sv_runtime s) !! id) as [[]|];
      rewrite ?Htt, ?Hut).
  split; [split; [done|done|done| |]|].
  - intros n Hn. destruct (Hf n Hn) as [Hno Hnt]. split; [exact Hno|]. intros Hx. by apply Hnt, Htracks.
  - intros id Hid. apply Htracks. by apply Htr.
  - intros id a ob Ha. destruct (Hs id a ob Ha) as [Hl Hv]. simpl in *.
    unfold real_listens, real_serves, on_sides in *. simpl in *. by rewrite Hp, Ht, Hu.
Qed.

(** What one relay does that leaves its listeners alone. *)
Lemma tcp_side_listeners (x : T) (s : RealRuntime T U) :
  real_ok s → ls_ok x → (∀ id, ls_tracks x id ↔ ls_tracks (rr_tcp s) id) → lv_view x = lv_view (rr_tcp s) →
  same_listeners s (rr_set_tcp x s).
Proof. intros [_ Hu] Hx Ht Hv. by split_and!. Qed.

Lemma udp_side_listeners (x : U) (s : RealRuntime T U) :
  real_ok s → ls_ok x → (∀ id, ls_tracks x id ↔ ls_tracks (rr_udp s) id) → lv_view x = lv_view (rr_udp s) →
  same_listeners s (rr_set_udp x s).
Proof. intros [Ht _] Hx Hu Hv. by split_and!. Qed.
End listeners.

(** An event of a task leaves its relay's listeners alone. *)
Lemma tcp_event_listeners ev x s :
  tcp_ok s → tcp_event ev s = Some x →
  tcp_ok x ∧ (∀ id, tcp_tracks x id ↔ tcp_tracks s id) ∧ tcp_view x = tcp_view s.
Proof.
  intros [Hst Hi] Hev. destruct (tcp_event_rows _ _ _ Hev) as [HE Hr]. split_and!.
  - split; [by eapply event_structure|]. by rewrite HE.
  - intros id. unfold tcp_tracks. by rewrite HE.
  - unfold tcp_view. by rewrite HE, Hr.
Qed.

Lemma udp_event_listeners ev x s :
  udp_ok s → udp_event ev s = Some x →
  udp_ok x ∧ (∀ id, udp_tracks x id ↔ udp_tracks s id) ∧ udp_view x = udp_view s.
Proof.
  intros [Hinv Hi] Hev. destruct (shape_parts _ _ (udp_event_shape _ _ _ Hev)) as [HE Hr]. split_and!.
  - split; [|by rewrite HE]. eapply (udp_step_inv s); [done|]. by eapply udp_step_event.
  - intros id. unfold udp_tracks. by rewrite HE.
  - unfold udp_view. by rewrite HE, Hr.
Qed.

(** * The proxy: turns of the service and events of the relays' tasks *)
Section system.
  Context (clock : nat → Z) (id_generator : nat → string).

Inductive system_step : Relaying * gset string → Relaying * gset string → Prop :=
| system_turn x y : turn clock id_generator x y → system_step x y
| system_tcp ev x s D :
    tcp_event ev (rr_tcp (sv_runtime s)) = Some x →
    system_step (s, D) (set_runtime (rr_set_tcp x (sv_runtime s)) s, D)
| system_udp ev x s D :
    udp_event ev (rr_udp (sv_runtime s)) = Some x →
    system_step (s, D) (set_runtime (rr_set_udp x (sv_runtime s)) s, D).

Context (Hinj : ∀ m n, id_generator m = id_generator n → m = n).

Lemma system_step_inv x y : agrees id_generator x → system_step x y → agrees id_generator y.
Proof.
  intros Hx Hstep. destruct Hstep as [x y Hturn|ev z s D Hev|ev z s D Hev].
  - by eapply turn_agrees.
  - destruct (tcp_event_listeners _ _ _ (proj1 (ti_ok _ _ (proj1 Hx))) Hev) as (? & ? & ?).
    eapply same_listeners_inv, Hx. by apply tcp_side_listeners; [apply Hx|..].
  - destruct (udp_event_listeners _ _ _ (proj2 (ti_ok _ _ (proj1 Hx))) Hev) as (? & ? & ?).
    eapply same_listeners_inv, Hx. by apply udp_side_listeners; [apply Hx|..].
Qed.

Lemma system_inv_reachable x y :
  agrees id_generator x → rtc system_step x y → agrees id_generator y.
Proof. intros Hx. induction 1; eauto using system_step_inv. Qed.

(** What is stored is what is forwarded, in every state the daemon can reach. Started in
    proxy mode over any well-formed database, whatever the operating system answers, and
    after any sequence of requests and steps of the relays' tasks, each stored allocation
    has, for each of its protocols, a listener bound to its port; and this listener sends
    to the stored target (none: it rejects) unless the service reported for the last
    change of the allocation that it was stored but not applied. Excluded are interrupted
    deletions. *)
Theorem persisted_targets_served {B} `{NftBackend B} backend binds tcp_binds udp_binds now
    unix io_denied connect engine_files cli env linux w state w' s D id a ob
    (Hwf : tables_wf (migrated (db_tables (w_database w))))
    (Hfresh : ∀ n, t_allocations (migrated (db_tables (w_database w))) !! id_generator n = None)
    (Hrun : run in_one_step (B := B) backend binds tcp_binds udp_binds now unix io_denied connect engine_files
              cli env linux w = (Ok (RunningProxy state), w'))
    (Hreach : rtc system_step (as_service state, ∅) (s, D))
    (Hstored : sv_store s !! id = Some (a, ob)) :
  (al_protocol a ≠ Udp →
     ∃ e entry, tr_entries (rr_tcp (sv_runtime s)) !! id = Some e ∧
       tr_heap (rr_tcp (sv_runtime s)) !! e = Some entry ∧
       te_port entry = al_port a ∧ (id ∉ D → tcp_target entry = al_target a)) ∧
  (al_protocol a ≠ Tcp →
     ∃ e entry, ur_entries (rr_udp (sv_runtime s)) !! id = Some e ∧
       ur_heap (rr_udp (sv_runtime s)) !! e = Some entry ∧
       ue_port entry = al_port a ∧ (id ∉ D → entry_target entry = al_target a)).
Proof.
  pose proof (proj1 (proxy_starts _ _ _ _ _ _ _ _ _ _ _ _ _ _ _ _ Hwf Hfresh Hrun)) as Hinv.
  apply (system_inv_reachable _ _ Hinv) in Hreach as [Hinv' Hs].
  destruct (Hs id a ob Hstored) as [Hl Hv]. rewrite <- (store_id s id a ob (ti_wf _ _ Hinv') Hstored) in *.
  split; intros Hp.
  - apply tcp_view_listener; [by apply Hl|]. intros Hn. by apply Hv.
  - apply udp_view_listener; [by apply Hl|]. intros Hn. by apply Hv.
Qed.

(** In netlink mode the kernel forwards what is stored. Started in this mode over any
    well-formed database and a backend whose batches are transactions, after any sequence
    of requests: when the runtime reports no failed application, the installed ruleset
    has for each stored allocation exactly the rules of its stored protocols, port and
    target (none without a target), but for those whose last stored change the service
    reported as not applied. Excluded are interrupted deletions. *)
Theorem persisted_rules_installed {B} `{NftBackendLaws B} backend binds tcp_binds udp_binds now
    unix io_denied connect engine_files cli env linux w state w' s D id a ob
    (Hwf : tables_wf (migrated (db_tables (w_database w))))
    (Hfresh : ∀ n, t_allocations (migrated (db_tables (w_database w))) !! id_generator n = None)
    (Hrun : run in_one_step (B := B) backend binds tcp_binds udp_binds now unix io_denied connect engine_files
              cli env linux w = (Ok (RunningNetlink state), w'))
    (Hreach : rtc (turn clock id_generator) (as_service state, ∅) (s, D))
    (Hclean : fresh (sv_runtime s))
    (Hstored : sv_store s !! id = Some (a, ob)) (Happlied : id ∉ D) :
  ∃ rules, installed (nl_backend (sv_runtime s)) = Some rules ∧
    ∀ r, nr_allocation_id r = id → r ∈ rules ↔ r ∈ rules_of a.
Proof.
  pose proof (proj1 (netlink_starts _ _ _ _ _ _ _ _ _ _ _ _ _ _ _ _ Hwf Hfresh Hrun)) as Hinv.
  apply (turns_agree clock id_generator Hinj _ _ Hinv) in Hreach as [Hinv' Hs].
  destruct (Hs id a ob Hstored) as [_ Hv].
  rewrite <- (store_id s id a ob (ti_wf _ _ Hinv') Hstored) in *.
  apply served_rules; [apply Hinv'|done|by apply Hv].
Qed.
End system.
