(* ===== verification/SystemWitness.v ===== *)
(** The daemon started over a database with one allocation; its target is changed and the
    relay accepts a client. *)
From stdpp Require Import base gmap strings list relations.
From Stdlib Require Import ZArith Lia.
From S2P Require Import Prelude RustStd Model Config Facade Sqlite SqliteOpen Store AllocationService.
From S2P Require Import ServiceSpec ServiceInv Serving ServiceWitness Tcp UdpModel Udp Real Views Relays.
From S2P Require Import Netlink NetlinkSpec NetlinkWitness RelaysWitness ControlPlane Daemon DaemonWitness System.
Open Scope Z_scope.

Definition started : Relaying :=
  match start_run.1 with
  | Ok (RunningProxy state) => as_service state
  | _ => Service_new {| repo_tables := {| t_allocations := ∅; t_bindings := ∅ |}; repo_faults := [] |}
           (relays true) {| pr_start := 1; pr_end := 1 |} 0
  end.

Definition retarget : Request := ReqUpdate "a" (Some 8080) None.

Definition retargeted : Relaying := (run_request ex_clock ex_id retarget started).2.

(** The first listener accepts. *)
Definition accepted_client : TcpRuntime :=
  default (rr_tcp (sv_runtime retargeted)) (tcp_event (EvAccept 0) (rr_tcp (sv_runtime retargeted))).

Definition serving_client : Relaying :=
  set_runtime (rr_set_tcp accepted_client (sv_runtime retargeted)) retargeted.

Lemma start_ids_fresh n :
  t_allocations (migrated (db_tables (w_database start_world))) !! ex_id n = None.
Proof. simpl. apply lookup_singleton_ne. destruct n; discriminate. Qed.

Lemma retarget_applied : unapplied retarget (run_request ex_clock ex_id retarget started).1 ∅ = ∅.
Proof.
  assert (is_ok (run_request ex_clock ex_id retarget started).1 = true) as Hok by (vm_compute; reflexivity).
  destruct ((run_request ex_clock ex_id retarget started).1) as [[]|e]; [|discriminate Hok].
  cbn [unapplied retarget after_update]. set_solver.
Qed.

Lemma client_accepted :
  tcp_event (EvAccept 0) (rr_tcp (sv_runtime retargeted)) = Some accepted_client.
Proof.
  assert (match tcp_event (EvAccept 0) (rr_tcp (sv_runtime retargeted)) with Some _ => true | None => false end
    = true) as Hs by (vm_compute; reflexivity).
  unfold accepted_client. destruct (tcp_event _ _); [reflexivity|discriminate Hs].
Qed.

Lemma retarget_typed : request_typed retarget.
Proof. apply (bool_decide_unpack _). vm_compute. exact I. Qed.

Lemma serving_client_reachable : rtc (system_step ex_clock ex_id) (started, ∅) (serving_client, ∅).
Proof.
  pose proof (turn_request ex_clock ex_id retarget started ∅ retarget_typed I) as H1.
  rewrite retarget_applied in H1.
  pose proof (system_tcp ex_clock ex_id (EvAccept 0) accepted_client retargeted ∅ client_accepted) as H2.
  exact (rtc_l _ _ _ _ (system_turn _ _ _ _ H1) (rtc_l _ _ _ _ H2 (rtc_refl _ _))).
Qed.

Lemma persisted_targets_served_witness :
  ∃ a e entry, sv_store serving_client !! "a"%string ≫= (λ p, Some p.1) = Some a ∧
    (al_port a, al_target a) = (5001, Some ("10.0.0.1"%string, 8080)) ∧
    tr_heap (rr_tcp (sv_runtime serving_client)) !! e = Some entry ∧
    te_port entry = 5001 ∧ tcp_target entry = Some ("10.0.0.1"%string, 8080).
Proof.
  destruct start_run as [[[state|state]|e] w'] eqn:Hrun.
  2: { exfalso. assert (match start_run.1 with Ok (RunningNetlink _) => true | _ => false end = false) as Hf
         by (vm_compute; reflexivity). by rewrite Hrun in Hf. }
  2: { exfalso. assert (is_ok start_run.1 = true) as Hf by (vm_compute; reflexivity). by rewrite Hrun in Hf. }
  assert (started = as_service state) as Hst by (unfold started; by rewrite Hrun).
  assert (option_map (λ p, (al_protocol p.1, al_port p.1, al_target p.1)) (sv_store serving_client !! "a"%string)
    = Some (Tcp, 5001, Some ("10.0.0.1"%string, 8080))) as Hs by (vm_compute; reflexivity).
  destruct (sv_store serving_client !! "a"%string) as [[a ob]|] eqn:Ha; [|done]. injection Hs as Hp Hport Ht.
  pose proof serving_client_reachable as Hreach. rewrite Hst in Hreach.
  destruct (persisted_targets_served ex_clock ex_id ex_id_inj _ _ _ _ _ _ _ _ _ _ _ _ _ _ _ _ _ _ _ _
    start_tables_wf start_ids_fresh Hrun Hreach Ha) as [(e & entry & _ & He & Hpe & Hte) _]; [by rewrite Hp|].
  pose proof (Hte (not_elem_of_empty _)) as Hte'. exists a, e, entry.
  split; [reflexivity|]. split; [by rewrite Hport, Ht|]. split; [exact He|].
  split; [by rewrite Hpe|by rewrite Hte'].
Defined.

(** * The same database in netlink mode *)
Abbreviation Routing := (Service (NetlinkRuntime ExBackend)).

Definition netlink_run : result (Running (P := RealRuntime TcpRuntime UdpRuntime) (B := ExBackend)) StartError * World :=
  run in_one_step (Ok {| eb_rules := None; eb_failures := [] |}) (λ _, true) (λ _ _, true) (λ _ _, true) 0 true
    (λ _, false) (λ m, (true, m)) (λ m, m) start_cli {["RELAYD_RUNTIME_MODE" := "netlink"]}%string true
    start_world.

Definition routing : Routing :=
  match netlink_run.1 with
  | Ok (RunningNetlink state) => as_service state
  | _ => Service_new {| repo_tables := {| t_allocations := ∅; t_bindings := ∅ |}; repo_faults := [] |}
           ex_runtime {| pr_start := 1; pr_end := 1 |} 0
  end.

Definition rerouted : Routing := (run_request ex_clock ex_id retarget routing).2.

Lemma reroute_applied : unapplied retarget (run_request ex_clock ex_id retarget routing).1 ∅ = ∅.
Proof.
  assert (is_ok (run_request ex_clock ex_id retarget routing).1 = true) as Hok by (vm_compute; reflexivity).
  destruct ((run_request ex_clock ex_id retarget routing).1) as [[]|e]; [|discriminate Hok].
  cbn [unapplied retarget after_update]. set_solver.
Qed.

Lemma rerouted_reachable : rtc (turn ex_clock ex_id) (routing, ∅) (rerouted, ∅).
Proof.
  pose proof (turn_request ex_clock ex_id retarget routing ∅ retarget_typed I) as H1.
  rewrite reroute_applied in H1. exact (rtc_once _ _ H1).
Qed.

Lemma rerouted_fresh : fresh (sv_runtime rerouted).
Proof. split; vm_compute; reflexivity. Qed.

(** One rule of the new target. *)
Lemma persisted_rules_installed_witness :
  ∃ a rules, installed (nl_backend (sv_runtime rerouted)) = Some rules ∧
    rules_of a = [{| nr_allocation_id := "a"; nr_protocol := Tcp; nr_in_port := 5001;
                     nr_out_host := V4 10 0 0 1; nr_out_port := 8080 |}] ∧
    ∀ r, nr_allocation_id r = "a"%string → r ∈ rules ↔ r ∈ rules_of a.
Proof.
  destruct netlink_run as [[[state|state]|e] w'] eqn:Hrun.
  1: { exfalso. assert (match netlink_run.1 with Ok (RunningProxy _) => true | _ => false end = false) as Hf
         by (vm_compute; reflexivity). by rewrite Hrun in Hf. }
  2: { exfalso. assert (is_ok netlink_run.1 = true) as Hf by (vm_compute; reflexivity). by rewrite Hrun in Hf. }
  assert (routing = as_service state) as Hst by (unfold routing; by rewrite Hrun).
  assert (option_map (λ p, rules_of p.1) (sv_store rerouted !! "a"%string)
    = Some [{| nr_allocation_id := "a"; nr_protocol := Tcp; nr_in_port := 5001;
               nr_out_host := V4 10 0 0 1; nr_out_port := 8080 |}]) as Hs by (vm_compute; reflexivity).
  destruct (sv_store rerouted !! "a"%string) as [[a ob]|] eqn:Ha; [|done]. injection Hs as Hr.
  pose proof rerouted_reachable as Hreach. rewrite Hst in Hreach.
  destruct (persisted_rules_installed ex_clock ex_id ex_id_inj _ _ _ _ _ _ _ _ _ _ _ _ _ _ _ _ _ _ _ _
    start_tables_wf start_ids_fresh Hrun Hreach rerouted_fresh Ha (not_elem_of_empty _)) as (rules & Hi & Hrules).
  exists a, rules. split; [exact Hi|]. split; [exact Hr|exact Hrules].
Defined.
