(* ===== verification/HttpSystem.v ===== *)
(** The daemon seen from the network: HTTP requests drive the service, and what a client
    reads off the answers is enough to know what is forwarded.

    A request to the control plane is one step. It is a turn of the service ([System.turn])
    or none, and in proxy mode the relays' tasks run in between. *)
From stdpp Require Import base gmap strings list fin_maps relations.
From Stdlib Require Import ZArith Lia.
From S2P Require Import Prelude RustStd Model Config ConfigSpec Facade Sqlite SqliteSpec SqliteOpen Store.
From S2P Require Import AllocationService ServiceSpec ServiceInv Serving Netlink NetlinkSpec NetlinkServing.
From S2P Require Import Metrics Prometheus ControlPlane ControlPlaneSpec ControlPlaneInv.
From S2P Require Import Tcp TcpSpec UdpModel Udp UdpSpec UdpSteps Real RealServing Views Relays Daemon System.
Open Scope Z_scope.

(** * Answers and errors *)
Lemma service_error_unavailable e :
  rp_status (service_error_response e) = SERVICE_UNAVAILABLE ↔ e = Timeout ∨ ∃ e', e = SvcRuntime e'.
Proof.
  split; [|intros [->|[e' ->]]; [done|by destruct e']].
  destruct e as [x|x| | | | |]; try (by vm_compute); eauto.
Qed.

Lemma service_error_internal e :
  rp_status (service_error_response e) = INTERNAL_SERVER_ERROR ↔
  e = DeletePersistenceFailed ∨ ∃ e', e = SvcRepository e'.
Proof.
  split; [|intros [->|[e' ->]]; done].
  destruct e as [x|[]| | | | |]; try (by vm_compute); eauto.
Qed.

Definition succeeded (y : Response) : bool := (200 <=? rp_status y) && (rp_status y <? 300).

Lemma success_succeeded y : rp_status y ∈ [OK; CREATED; NO_CONTENT] → succeeded y = true.
Proof. unfold succeeded. set_unfold. by intros [->|[->|[->|[]]]]. Qed.

Lemma service_error_failed e : succeeded (service_error_response e) = false.
Proof. by destruct e as [x|[]| | | | |]. Qed.

Section http_turns.
  Context {R : Type} `{RuntimeServes R}.
  Context (clock : nat → Z) (id_generator : nat → string).
  Context {Body : Type} (to_bytes : Body → Z → option string) (serde : Decoders).
  Context (header_to_str : string → option string).
  Context (matchit : list string → string → option nat).
  Context (path_param : string → result string Response).

Abbreviation http := (router (R := R) clock id_generator to_bytes serde header_to_str matchit path_param).
Abbreviation route_table := (routes (R := R) clock id_generator to_bytes serde path_param).

(** The operation a request commands, if it is authorized. *)
Definition commanded (rq : HttpRequest Body) : option Request :=
  i ← matchit route_table.*1 (rq_path rq); route ← route_table !! i;
  c ← http_command to_bytes serde path_param route.1 rq; result_ok c.

(** A client's books: the allocations whose last change was answered with 503 and has not
    been repeated with success. *)
Definition unconfirmed (rq : HttpRequest Body) (y : Response) (D : gset string) : gset string :=
  match commanded rq with
  | Some (ReqPutBinding id _ _) | Some (ReqDeleteBinding id) | Some (ReqUpdate id _ _) =>
      if rp_status y =? SERVICE_UNAVAILABLE then {[id]} ∪ D
      else if succeeded y then D ∖ {[id]} else D
  | _ => D
  end.

(** A deletion that was not broken off by the engine. *)
Definition deletion_answered (rq : HttpRequest Body) (y : Response) : Prop :=
  match commanded rq with
  | Some (ReqDelete _) => rp_status y ≠ INTERNAL_SERVER_ERROR
  | _ => True
  end.

Inductive http_turn : AppState R * gset string → AppState R * gset string → Prop :=
| http_request rq s D :
    deletion_answered rq (http rq s).1 →
    http_turn (s, D) ((http rq s).2, unconfirmed rq (http rq s).1 D)
| http_outside faults m s D :
    http_turn (s, D)
      ({| as_service := set_repo {| repo_tables := sv_tables (as_service s); repo_faults := faults |} (as_service s);
          as_metrics := m; as_auth_token := as_auth_token s;
          as_prometheus_rates := as_prometheus_rates s |}, D).

Lemma http_request_books rq s D D' :
  deletion_answered rq (http rq s).1 → unconfirmed rq (http rq s).1 D = D' →
  http_turn (s, D) ((http rq s).2, D').
Proof. intros Hd <-. by apply http_request. Qed.

(** * What is commanded *)
Lemma http_command_typed pattern rq q :
  http_command to_bytes serde path_param pattern rq = Some (Ok q) →
  request_typed q ∧ match q with ReqRestore _ => False | _ => True end.
Proof.
  unfold http_command. destruct (rq_method rq); try done; repeat case_decide; try done; intros [= Hq];
    repeat match goal with
    | H : rbind ?x _ = Ok _ |- _ => destruct x eqn:?; simpl in H; [|discriminate H]
    | H : match ?x with Some _ => _ | None => _ end = Ok _ |- _ => destruct x
    | H : respond (parse_request_port ?p) = Ok _ |- _ =>
        destruct (parse_request_port p) eqn:?; [injection H as <-|discriminate H]
    | H : parse_request_port _ = Ok _ |- _ => apply parse_request_port_u16 in H
    end; simplify_eq; simpl; auto.
Qed.

Lemma commanded_spec rq q :
  commanded rq = Some q →
  ∃ i pattern mr, matchit route_table.*1 (rq_path rq) = Some i ∧ route_table !! i = Some (pattern, mr) ∧
    http_command to_bytes serde path_param pattern rq = Some (Ok q).
Proof.
  unfold commanded. intros (i & Hi & ([pattern mr] & Hroute & (c & Hc & Hq)%bind_Some)%bind_Some)%bind_Some.
  exists i, pattern, mr. split_and!; [done..|]. simpl in Hc. rewrite Hc. by destruct c; simplify_eq/=.
Qed.

(** A request that commands nothing reads, or is refused. *)
Lemma uncommanded_cases rq :
  commanded rq = None →
  rq_method rq = GET ∨ rq_method rq = HEAD ∨
  select_handler (R := R) clock id_generator to_bytes serde matchit path_param rq = not_found ∨
  ∃ i pattern mr y, matchit route_table.*1 (rq_path rq) = Some i ∧ route_table !! i = Some (pattern, mr) ∧
    http_command to_bytes serde path_param pattern rq = Some (Err y).
Proof.
  unfold commanded, select_handler. destruct (matchit _ _) as [i|]; simpl; [|by auto].
  destruct (route_table !! i) as [[pattern mr]|] eqn:Hroute; simpl; [|by auto].
  intros Hc. destruct (http_command to_bytes serde path_param pattern rq) as [[q|y]|] eqn:Hcmd.
  - done.
  - do 3 right. exists i, pattern, mr, y. by rewrite Hroute.
  - clear Hc. apply list_elem_of_lookup_2 in Hroute. unfold routes in Hroute.
    repeat (apply elem_of_cons in Hroute as [[= -> ->]|Hroute]); [..|by apply elem_of_nil in Hroute].
    all: unfold http_command in Hcmd; destruct (rq_method rq); simpl in Hcmd |- *; try done; auto.
Qed.

Lemma unchanged_refl (v : Service R) : unchanged v v.
Proof. by split_and!. Qed.

(** A read leaves the service, the engine's faults and the clock aside. *)
Lemma reads_unchanged (v : Service R) :
  rt_ok (sv_runtime v) → service_preserves_reads clock (unchanged v).
Proof.
  intros Hok.
  assert (∀ A (m : M R RuntimeError A) w, unchanged v w →
    (∀ rt, rt_ok rt → wp m (λ _ rt', rt' = rt) rt) → wp (runtime_call m) (λ _ w', unchanged v w') w) as Hrt.
  { intros A m w (Ht & Hr & Hs) Hm. apply wp_runtime_call. intros r rt Hrun.
    rewrite Hr in Hrun. pose proof (wp_elim _ _ _ _ _ (Hm _ Hok) Hrun) as Hrt'. simpl in Hrt'. subst rt.
    split_and!; [done|done|apply Hs..]. }
  apply reads_preserve.
  - intros B m q Hm w (Ht & Hr & Hs). eapply wp_mono; [by apply (repo_query_spec m q (λ x, x))|].
    intros r w' (repo' & -> & _ & Ht' & _). split_and!; [by etrans|done|apply Hs..].
  - intros id w Hw. apply Hrt; [done|]. intros rt Hrt'.
    eapply wp_mono; [by apply rt_snapshot_spec|]. by intros r s' [-> _].
  - intros w Hw. apply Hrt; [done|]. intros rt Hrt'.
    eapply wp_mono; [by apply rt_metrics_spec|]. by intros r s' ->.
  - intros w (Ht & Hr & Hs). split_and!; [done|done|apply Hs..].
Qed.

Lemma uncommanded_unchanged rq s :
  path_rejects path_param → rt_ok (sv_runtime (as_service s)) → commanded rq = None →
  unchanged (as_service s) (as_service (http rq s).2).
Proof.
  intros Hpath Hok Hc.
  assert (keeps (unchanged (as_service s)) answer_ok
            (select_handler clock id_generator to_bytes serde matchit path_param rq rq) →
          unchanged (as_service s) (as_service (http rq s).2)) as Hkeeps.
  { intros Hk. by eapply router_keeps, unchanged_refl. }
  destruct (uncommanded_cases rq Hc) as [Hm|[Hm|[Hnf|(i & pattern & mr & y & Hi & Hroute & Hcmd)]]].
  - apply Hkeeps, read_handler_keeps; [by apply reads_unchanged|by apply Hpath|by left].
  - apply Hkeeps, read_handler_keeps; [by apply reads_unchanged|by apply Hpath|by right].
  - apply Hkeeps. rewrite Hnf. by apply keeps_ret.
  - destruct (Authed_spec header_to_str rq s) as [[Ha _]|[Ha _]].
    + pose proof (http_performs clock id_generator to_bytes serde header_to_str matchit path_param
        rq s i pattern mr _ Ha Hi Hroute Hcmd) as Hp. simpl in Hp. rewrite Hp. apply unchanged_refl.
    + rewrite router_unauthorized by done. apply unchanged_refl.
Qed.

(** * The client's books are the service's *)
Lemma unconfirmed_error rq q e D :
  commanded rq = Some q →
  unconfirmed rq (service_error_response e) D = unapplied q (Err e) D.
Proof.
  intros Hq. unfold unconfirmed. rewrite Hq, service_error_failed.
  assert (∀ id, (if rp_status (service_error_response e) =? SERVICE_UNAVAILABLE then {[id]} ∪ D else D)
    = after_update id (Err (A := unit) e) D) as Hid.
  { intros id. by destruct e as [x|[]| | | | |]. }
  destruct q; simpl; try apply Hid; done.
Qed.

Lemma unconfirmed_success rq q y D :
  commanded rq = Some q → (∀ t, q ≠ ReqRestore t) → rp_status y ∈ [OK; CREATED; NO_CONTENT] →
  unconfirmed rq y D = unapplied q (Ok tt) D.
Proof.
  intros Hq Hn Hy. unfold unconfirmed. rewrite Hq, (success_succeeded y) by done.
  destruct (Z.eqb_spec (rp_status y) SERVICE_UNAVAILABLE) as [He|_].
  { rewrite He in Hy. set_unfold in Hy. by destruct Hy as [?|[?|[?|[]]]]. }
  destruct q; try done. by destruct (Hn timeout_ms).
Qed.

Lemma unconfirmed_refused rq y D :
  rp_status y ≠ SERVICE_UNAVAILABLE → succeeded y = false → unconfirmed rq y D = D.
Proof.
  intros Hu%Z.eqb_neq Hf. unfold unconfirmed. rewrite Hu, Hf. by destruct (commanded rq) as [[]|].
Qed.

Context (Hinj : ∀ m n, id_generator m = id_generator n → m = n).

Lemma commanded_keeps rq q s :
  commanded rq = Some q → sv_failpoints (as_service s) = Failpoints_default →
  deletion_answered rq (http rq s).1 → performs clock id_generator (Ok q) s (http rq s) →
  keeps_runtime q (as_service s).
Proof.
  intros Hq Hf Hd Hp. destruct (commanded_spec _ _ Hq) as (i & pattern & mr & _ & _ & Hcmd).
  destruct (http_command_typed _ _ _ Hcmd) as [_ Hr].
  destruct q as [p tp|id host tp|id|id tp host|id|t]; try done. simpl. rewrite Hf. split; [|done].
  unfold deletion_answered in Hd. rewrite Hq in Hd. simpl in Hp.
  destruct (Service_delete_allocation id (as_service s)) as [[x|e] v]; simpl; [done|].
  rewrite Hp in Hd. simpl in Hd. destruct e as [e| | | | | |]; try done. 
Qed.

Lemma commanded_turn rq q s D :
  agrees id_generator (as_service s, D) → sv_failpoints (as_service s) = Failpoints_default →
  authorized header_to_str rq (as_auth_token s) → commanded rq = Some q →
  deletion_answered rq (http rq s).1 →
  turn clock id_generator (as_service s, D) (as_service (http rq s).2, unconfirmed rq (http rq s).1 D) ∧
  sv_failpoints (as_service (http rq s).2) = Failpoints_default.
Proof.
  intros [Hinv Hs] Hf Ha Hq Hd. destruct (commanded_spec _ _ Hq) as (i & pattern & mr & Hi & Hroute & Hcmd).
  pose proof (http_performs clock id_generator to_bytes serde header_to_str matchit path_param
    rq s i pattern mr _ Ha Hi Hroute Hcmd) as Hp.
  assert (keeps_runtime q (as_service s)) as Hkeeps by (by eapply commanded_keeps).
  destruct (http_command_typed _ _ _ Hcmd) as [Htyped Hr].
  assert (∀ t, q ≠ ReqRestore t) as Hn by (by intros t ->).
  pose proof (turn_request clock id_generator q (as_service s) D Htyped Hkeeps) as Hturn.
  pose proof (request_tracked clock id_generator Hinj q _ Hinv Htyped Hkeeps) as Hinv'.
  destruct (run_request_tables clock id_generator q (as_service s)) as [_ (_ & _ & Hfp & _)]; [apply Hinv..|done|].
  unfold performs in Hp.
  destruct (run_request clock id_generator q (as_service s)) as [[[]|e] v] eqn:Hrun; simpl in Hturn, Hfp;
    apply (wp_elim _ _ _ _ _ Hinv') in Hrun as Hinv''.
  - assert (as_service (http rq s).2 = v ∧ rp_status (http rq s).1 ∈ [OK; CREATED; NO_CONTENT]) as [-> Hy].
    { destruct Hp as [Hp|[id Hp]]; [done|].
      pose proof (rt_snapshot_spec id (sv_runtime v) (ti_ok _ _ Hinv'')) as Hsnap. unfold wp in Hsnap.
      destruct (rt_snapshot id (sv_runtime v)) as [o rt]. simpl in Hsnap. destruct Hsnap as (-> & x & -> & _).
      destruct Hp as [-> Hy]. by destruct v. }
    erewrite unconfirmed_success by done. split; [done|congruence].
  - rewrite Hp. simpl. erewrite unconfirmed_error by done. split; [done|congruence].
Qed.

(** Service and runtime agree, and no failpoint is set: only tests set any. *)
Definition ready (x : AppState R * gset string) : Prop :=
  agrees id_generator (as_service x.1, x.2) ∧ sv_failpoints (as_service x.1) = Failpoints_default.

(** Over HTTP nothing happens to the service but its turns, and the client's books are
    the service's own. *)
Lemma http_turn_turn x y :
  path_rejects path_param → ready x → http_turn x y →
  turn clock id_generator (as_service x.1, x.2) (as_service y.1, y.2) ∧ ready y.
Proof.
  intros Hpath [Hx Hf] Hstep.
  enough (turn clock id_generator (as_service x.1, x.2) (as_service y.1, y.2) ∧
          sv_failpoints (as_service y.1) = Failpoints_default) as [Hturn Hf'].
  { split; [done|]. split; [by eapply turn_agrees|done]. }
  destruct Hstep as [rq s D Hd|faults m s D]; simpl in *.
  - destruct (Authed_spec header_to_str rq s) as [[Ha _]|[Ha _]].
    + destruct (commanded rq) as [q|] eqn:Hq; [by eapply commanded_turn|].
      pose proof (uncommanded_unchanged rq s Hpath (ti_ok _ _ (proj1 Hx)) Hq) as Hu.
      assert (unconfirmed rq (http rq s).1 D = D) as -> by (unfold unconfirmed; by rewrite Hq).
      split; [by constructor|]. destruct Hu as (_ & _ & _ & _ & Hfp & _). congruence.
    + rewrite router_unauthorized, unconfirmed_refused by done. split; [|done].
      constructor. apply unchanged_refl.
  - split; [|done]. constructor. by split_and!.
Qed.

End http_turns.

(** * The daemon over HTTP *)
Section daemon.
  Context (clock : nat → Z) (id_generator : nat → string).
  Context {Body : Type} (to_bytes : Body → Z → option string) (serde : Decoders).
  Context (header_to_str : string → option string).
  Context (matchit : list string → string → option nat).
  Context (path_param : string → result string Response).
  Context (Hinj : ∀ m n, id_generator m = id_generator n → m = n) (Hpath : path_rejects path_param).

Abbreviation turn_of R := (http_turn (R := R) clock id_generator to_bytes serde header_to_str matchit path_param).
Abbreviation ProxyState := (AppState (RealRuntime TcpRuntime UdpRuntime)).

(** In proxy mode: requests, and events of the relays' tasks. *)
Inductive http_system_step : ProxyState * gset string → ProxyState * gset string → Prop :=
| http_system_turn x y : turn_of _ x y → http_system_step x y
| http_system_tcp ev x s D :
    tcp_event ev (rr_tcp (sv_runtime (as_service s))) = Some x →
    http_system_step (s, D)
      (set_service (set_runtime (rr_set_tcp x (sv_runtime (as_service s))) (as_service s)) s, D)
| http_system_udp ev x s D :
    udp_event ev (rr_udp (sv_runtime (as_service s))) = Some x →
    http_system_step (s, D)
      (set_service (set_runtime (rr_set_udp x (sv_runtime (as_service s))) (as_service s)) s, D).

Lemma http_system_simulated x y :
  ready id_generator x → rtc http_system_step x y →
  rtc (system_step clock id_generator) (as_service x.1, x.2) (as_service y.1, y.2).
Proof.
  intros Hx Hsteps. revert Hx. induction Hsteps as [x|x y z Hstep _ IH]; intros Hx; [done|].
  enough (system_step clock id_generator (as_service x.1, x.2) (as_service y.1, y.2) ∧
          sv_failpoints (as_service y.1) = Failpoints_default) as [Hsys Hf].
  { eapply rtc_l; [exact Hsys|]. apply IH. split; [|done].
    eapply (system_step_inv clock id_generator Hinj); [apply Hx|exact Hsys]. }
  destruct Hstep as [x y Hturn|ev r s D Hev|ev r s D Hev].
  - destruct (http_turn_turn _ _ _ _ _ _ _ Hinj x y Hpath Hx Hturn) as [? [_ ?]].
    split; [by apply system_turn|done].
  - split; [by eapply system_tcp|apply Hx].
  - split; [by eapply system_udp|apply Hx].
Qed.

(** What is stored is what is forwarded, seen from the network. Started in proxy mode
    over any well-formed database, whatever the operating system answers, and after any
    sequence of HTTP requests (authorized or not, well-formed or not), faults of the engine
    and steps of the relays' tasks, each stored allocation has, for each of its protocols,
    a listener bound to its port; and this listener sends to the stored target (none: it
    rejects) unless the last answer to a change of the allocation was 503. Excluded are
    deletions answered with 500. *)
Theorem http_targets_served {B} `{NftBackend B} backend binds tcp_binds udp_binds now
    unix io_denied connect engine_files cli env linux w state w' s D id a ob
    (Hwf : tables_wf (migrated (db_tables (w_database w))))
    (Hfresh : ∀ n, t_allocations (migrated (db_tables (w_database w))) !! id_generator n = None)
    (Hrun : run in_one_step (B := B) backend binds tcp_binds udp_binds now unix io_denied connect engine_files
              cli env linux w = (Ok (RunningProxy state), w'))
    (Hreach : rtc http_system_step (state, ∅) (s, D))
    (Hstored : sv_store (as_service s) !! id = Some (a, ob)) :
  (al_protocol a ≠ Udp →
     ∃ e entry, tr_entries (rr_tcp (sv_runtime (as_service s))) !! id = Some e ∧
       tr_heap (rr_tcp (sv_runtime (as_service s))) !! e = Some entry ∧
       te_port entry = al_port a ∧ (id ∉ D → tcp_target entry = al_target a)) ∧
  (al_protocol a ≠ Tcp →
     ∃ e entry, ur_entries (rr_udp (sv_runtime (as_service s))) !! id = Some e ∧
       ur_heap (rr_udp (sv_runtime (as_service s))) !! e = Some entry ∧
       ue_port entry = al_port a ∧ (id ∉ D → entry_target entry = al_target a)).
Proof.
  pose proof (proxy_starts _ _ _ _ _ _ _ _ _ _ _ _ _ _ _ _ Hwf Hfresh Hrun) as Hstart.
  eapply (persisted_targets_served clock id_generator Hinj); [done|done|done| |done].
  exact (http_system_simulated (state, ∅) (s, D) Hstart Hreach).
Qed.

End daemon.
