(* ===== verification/HttpSystemWitness.v ===== *)
(** The daemon of SystemWitness.v over HTTP: a request binds the allocation to another
    target and the relay accepts a client; in netlink mode the same request changes the
    rules. *)
From stdpp Require Import base gmap strings list relations.
From Stdlib Require Import ZArith Lia.
From S2P Require Import Prelude RustStd Model Config Facade Sqlite SqliteOpen Store AllocationService.
From S2P Require Import ServiceSpec ServiceInv Serving ServiceWitness Metrics Prometheus ControlPlane ControlPlaneSpec.
From S2P Require Import ControlPlaneInv HttpWitness Tcp UdpModel Udp Real Views Relays Netlink NetlinkSpec NetlinkWitness.
From S2P Require Import RelaysWitness Daemon DaemonWitness System SystemWitness HttpSystem.
Open Scope Z_scope.

Definition id_a (path : string) : result string Response := Ok "a"%string.

Lemma id_a_rejects : path_rejects id_a.
Proof. intros p e. discriminate. Qed.

(** The toy decoder takes the body for the host and binds to port 80. *)
Definition rebind : HttpRequest string :=
  ex_request PUT "/v1/allocations/{id}/binding" (Some "Bearer secret"%string) "10.0.0.9".

Abbreviation http_over R := (router (R := R) ex_clock ex_id ex_to_bytes ex_serde Some ex_matchit id_a).

(** * Proxy mode *)
Abbreviation ProxyApp := (AppState (RealRuntime TcpRuntime UdpRuntime)).

Definition proxy_app : ProxyApp :=
  match start_run.1 with
  | Ok (RunningProxy state) => state
  | _ => AppState_new started Metrics_default ""
  end.

Definition rebound : ProxyApp := (http_over _ rebind proxy_app).2.

Definition rebound_client : TcpRuntime :=
  default (rr_tcp (sv_runtime (as_service rebound)))
    (tcp_event (EvAccept 0) (rr_tcp (sv_runtime (as_service rebound)))).

Definition rebound_serving : ProxyApp :=
  set_service (set_runtime (rr_set_tcp rebound_client (sv_runtime (as_service rebound))) (as_service rebound)) rebound.

Lemma rebind_answered : rp_status (http_over _ rebind proxy_app).1 = OK.
Proof. vm_compute. reflexivity. Qed.

Lemma rebound_accepts :
  tcp_event (EvAccept 0) (rr_tcp (sv_runtime (as_service rebound))) = Some rebound_client.
Proof.
  assert (match tcp_event (EvAccept 0) (rr_tcp (sv_runtime (as_service rebound))) with Some _ => true | None => false end
    = true) as Hs by (vm_compute; reflexivity).
  unfold rebound_client. destruct (tcp_event _ _); [reflexivity|discriminate Hs].
Qed.

(** Over either runtime the request commands the same. *)
Lemma rebind_commands {R} `{RuntimeFacade R} :
  commanded (R := R) ex_clock ex_id ex_to_bytes ex_serde ex_matchit id_a rebind
  = Some (ReqPutBinding "a" "10.0.0.9" 80).
Proof. reflexivity. Qed.

(** A success is confirmed. *)
Lemma rebind_confirmed {R} `{RuntimeFacade R} y :
  rp_status y = OK →
  unconfirmed (R := R) ex_clock ex_id ex_to_bytes ex_serde ex_matchit id_a rebind y ∅ = ∅.
Proof.
  intros Hy. unfold unconfirmed. rewrite rebind_commands. unfold succeeded. rewrite Hy. simpl. set_solver.
Qed.

Lemma rebind_no_deletion {R} `{RuntimeFacade R} y :
  deletion_answered (R := R) ex_clock ex_id ex_to_bytes ex_serde ex_matchit id_a rebind y.
Proof. unfold deletion_answered. by rewrite rebind_commands. Qed.

Lemma rebound_reachable :
  rtc (http_system_step ex_clock ex_id ex_to_bytes ex_serde Some ex_matchit id_a)
    (proxy_app, ∅) (rebound_serving, ∅).
Proof.
  pose proof (http_request_books ex_clock ex_id ex_to_bytes ex_serde Some ex_matchit id_a rebind proxy_app ∅ ∅
    (rebind_no_deletion _) (rebind_confirmed _ rebind_answered)) as Hreq.
  pose proof (http_system_tcp ex_clock ex_id ex_to_bytes ex_serde Some ex_matchit id_a (EvAccept 0)
    rebound_client rebound ∅ rebound_accepts) as Hacc.
  exact (rtc_l _ _ _ _ (http_system_turn _ _ _ _ _ _ _ _ _ Hreq) (rtc_l _ _ _ _ Hacc (rtc_refl _ _))).
Qed.

Lemma http_targets_served_witness :
  ∃ a e entry, sv_store (as_service rebound_serving) !! "a"%string ≫= (λ p, Some p.1) = Some a ∧
    (al_port a, al_target a) = (5001, Some ("10.0.0.9"%string, 80)) ∧
    tr_heap (rr_tcp (sv_runtime (as_service rebound_serving))) !! e = Some entry ∧
    te_port entry = 5001 ∧ tcp_target entry = Some ("10.0.0.9"%string, 80).
Proof.
  destruct start_run as [[[state|state]|e] w'] eqn:Hrun.
  2: { exfalso. assert (match start_run.1 with Ok (RunningNetlink _) => true | _ => false end = false) as Hf
         by (vm_compute; reflexivity). by rewrite Hrun in Hf. }
  2: { exfalso. assert (is_ok start_run.1 = true) as Hf by (vm_compute; reflexivity). by rewrite Hrun in Hf. }
  assert (proxy_app = state) as Hst by (unfold proxy_app; by rewrite Hrun).
  assert (option_map (λ p, (al_protocol p.1, al_port p.1, al_target p.1))
            (sv_store (as_service rebound_serving) !! "a"%string)
    = Some (Tcp, 5001, Some ("10.0.0.9"%string, 80))) as Hs by (vm_compute; reflexivity).
  destruct (sv_store (as_service rebound_serving) !! "a"%string) as [[a ob]|] eqn:Ha; [|done].
  injection Hs as Hp Hport Ht.
  pose proof rebound_reachable as Hreach. rewrite Hst in Hreach.
  destruct (http_targets_served ex_clock ex_id ex_to_bytes ex_serde Some ex_matchit id_a ex_id_inj id_a_rejects
    _ _ _ _ _ _ _ _ _ _ _ _ _ _ _ _ _ _ _ _
    start_tables_wf start_ids_fresh Hrun Hreach Ha) as [(e & entry & _ & He & Hpe & Hte) _]; [by rewrite Hp|].
  pose proof (Hte (not_elem_of_empty _)) as Hte'. exists a, e, entry.
  split; [reflexivity|]. split; [by rewrite Hport, Ht|]. split; [exact He|].
  split; [by rewrite Hpe|by rewrite Hte'].
Defined.

(** * Netlink mode *)
Abbreviation RoutingApp := (AppState (NetlinkRuntime ExBackend)).






