(* ===== verification/FineSystem.v ===== *)
(** The daemon over HTTP with the relays at the grain of single locks: a request's
    operations of the relays are steps between which the relays' tasks run, and what is
    stored is still what is forwarded.

    HttpSystem.v takes every operation of a relay as one step. Here the relays are those of
    RelaysInterrupted.v; a schedule says which events come before each of the coming steps,
    and any schedule may be set at any time. The events that happen are recorded. *)
From stdpp Require Import base gmap strings list fin_maps relations.
From Stdlib Require Import ZArith Lia.
From S2P Require Import Prelude RustStd Model Config Facade Sqlite SqliteOpen Store AllocationService ServiceInv Serving.
From S2P Require Import ServiceSpec SqliteSpec Netlink Metrics Prometheus ControlPlane ControlPlaneSpec ControlPlaneInv Tcp TcpSpec UdpModel Udp UdpSpec UdpSteps Real RealServing Views.
From S2P Require Import UdpFine Relays Interrupted Attended RelaysInterrupted Daemon System HttpSystem.
Open Scope Z_scope.

Abbreviation BusyTcp := (Busy TcpRuntime TcpEvent).
Abbreviation BusyUdp := (Busy UdpRuntime UdpEvent).
Abbreviation BusyRelays := (RealRuntime BusyTcp BusyUdp).

(** The operations of the relays step by step, with these events in between. *)
Definition step_by_step (ts : list (list TcpEvent)) (us : list (list UdpEvent))
    (runtime : RealRuntime TcpRuntime UdpRuntime) : BusyRelays :=
  {| rr_tcp := Build_Busy (rr_tcp runtime) ts []; rr_udp := Build_Busy (rr_udp runtime) us [];
     rr_protocols := rr_protocols runtime |}.

Definition reschedule (ts : list (list TcpEvent)) (us : list (list UdpEvent)) (runtime : BusyRelays) : BusyRelays :=
  rr_set_tcp (Build_Busy (by_relay (rr_tcp runtime)) ts (by_past (rr_tcp runtime)))
    (rr_set_udp (Build_Busy (by_relay (rr_udp runtime)) us (by_past (rr_udp runtime))) runtime).

(** The event [ev] has taken the relay to [x]. *)
Definition after_event {S E} (ev : E) (x : S) (b : Busy S E) : Busy S E :=
  Build_Busy x (by_schedule b) (ev :: by_past b).

Lemma reschedule_listeners ts us s : real_ok s → same_listeners s (reschedule ts us s).
Proof. intros Hok. by split_and!. Qed.

Lemma busy_tcp_listeners ev x (s : BusyRelays) :
  real_ok s → tcp_event ev (by_relay (rr_tcp s)) = Some x →
  same_listeners s (rr_set_tcp (after_event ev x (rr_tcp s)) s).
Proof.
  intros Hok Hev. destruct (proj1 Hok) as [Hr Ha]. destruct (tcp_event_listeners _ _ _ Hr Hev) as (Hx & Ht & Hv).
  apply tcp_side_listeners; [done| |done|done]. split; [exact Hx|].
  destruct (tcp_event_rows _ _ _ Hev) as [HE _]. intros id e. simpl. rewrite HE. intros He.
  eapply attended_event; [exact Hev|by eapply Ha].
Qed.

Lemma busy_udp_listeners ev x (s : BusyRelays) :
  real_ok s → udp_event ev (by_relay (rr_udp s)) = Some x →
  same_listeners s (rr_set_udp (after_event ev x (rr_udp s)) s).
Proof.
  intros Hok Hev. destruct (proj2 Hok) as [Hr Ha]. destruct (udp_event_listeners _ _ _ Hr Hev) as (Hx & Ht & Hv).
  apply udp_side_listeners; [done| |done|done]. split; [exact Hx|].
  unfold udp_event in Hev. apply fmap_Some in Hev as (s1 & Hs1 & ->).
  destruct (udp_fine_attended_event ev (by_past (rr_udp s)) _ s1 (UdpReturned (Ok tt)) [] Hs1) as [Ha' _]; [|exact Ha'].
  split_and!; [exact Ha|done|by intros; apply not_elem_of_nil].
Qed.

Lemma step_by_step_ok c m now tb ub ts us : real_ok (step_by_step ts us (RealRuntime_new c m now tb ub)).
Proof.
  destruct (RealRuntime_new_ok c m now tb ub) as [? ?].
  split; (split; [done|]); intros id e; simpl; by rewrite lookup_empty.
Qed.

Section daemon.
  Context (clock : nat → Z) (id_generator : nat → string).
  Context {Body : Type} (to_bytes : Body → Z → option string) (serde : Decoders).
  Context (header_to_str : string → option string).
  Context (matchit : list string → string → option nat).
  Context (path_param : string → result string Response).
  Context (Hinj : ∀ m n, id_generator m = id_generator n → m = n) (Hpath : path_rejects path_param).

Abbreviation BusyState := (AppState BusyRelays).
Abbreviation runtime_of s := (sv_runtime (as_service s)).
Abbreviation with_relays x s := (set_service (set_runtime x (as_service s)) s).

(** Requests, in which the scheduled events happen; events between requests; schedules. *)
Inductive fine_system_step : BusyState * gset string → BusyState * gset string → Prop :=
| fine_system_turn x y :
    http_turn clock id_generator to_bytes serde header_to_str matchit path_param x y → fine_system_step x y
| fine_system_tcp ev x s D :
    tcp_event ev (by_relay (rr_tcp (runtime_of s))) = Some x →
    fine_system_step (s, D)
      (with_relays (rr_set_tcp (after_event ev x (rr_tcp (runtime_of s))) (runtime_of s)) s, D)
| fine_system_udp ev x s D :
    udp_event ev (by_relay (rr_udp (runtime_of s))) = Some x →
    fine_system_step (s, D)
      (with_relays (rr_set_udp (after_event ev x (rr_udp (runtime_of s))) (runtime_of s)) s, D)
| fine_system_schedule ts us s D :
    fine_system_step (s, D) (with_relays (reschedule ts us (runtime_of s)) s, D).

Lemma fine_system_ready x y : ready id_generator x → fine_system_step x y → ready id_generator y.
Proof.
  intros Hx Hstep. destruct Hstep as [x y Hturn|ev r s D Hev|ev r s D Hev|ts us s D].
  - by eapply http_turn_turn.
  - destruct Hx as [Hx Hf]. split; [|exact Hf]. eapply same_listeners_inv, Hx. apply busy_tcp_listeners; [apply Hx|done].
  - destruct Hx as [Hx Hf]. split; [|exact Hf]. eapply same_listeners_inv, Hx. apply busy_udp_listeners; [apply Hx|done].
  - destruct Hx as [Hx Hf]. split; [|exact Hf]. eapply same_listeners_inv, Hx. apply reschedule_listeners, Hx.
Qed.

Lemma fine_system_reachable x y : ready id_generator x → rtc fine_system_step x y → ready id_generator y.
Proof. intros Hx Hr. induction Hr; eauto using fine_system_ready. Qed.

(** C1: what is stored is what is forwarded, seen from the network, with the relays at the
    grain of single locks. Started in proxy mode over any well-formed database, whatever
    the operating system answers, and after any sequence of HTTP requests (authorized or
    not, well-formed or not), faults of the engine and steps of the relays' tasks, before
    every step of a relay's operation too, in the restoration at the start as in the
    requests, each stored allocation has, for each of its protocols, a listener bound to
    its port, set to the stored target unless the last answer to a change of the allocation
    was 503. Unless its socket has failed to accept, or to receive, since (in the record of
    the events so far), the listener's tasks run: the TCP client accepted next gets a
    session to the stored target, and the UDP datagrams received next are prepared for it
    (without a target they are turned away). Excluded are deletions answered with 500. *)
Theorem targets_served_throughout {B} `{NftBackend B} ts us backend binds tcp_binds udp_binds now
    unix io_denied connect engine_files cli env linux w state w' s D id a ob
    (Hwf : tables_wf (migrated (db_tables (w_database w))))
    (Hfresh : ∀ n, t_allocations (migrated (db_tables (w_database w))) !! id_generator n = None)
    (Hrun : run (step_by_step ts us) (B := B) backend binds tcp_binds udp_binds now unix io_denied connect
              engine_files cli env linux w = (Ok (RunningProxy state), w'))
    (Hreach : rtc fine_system_step (state, ∅) (s, D))
    (Hstored : sv_store (as_service s) !! id = Some (a, ob)) :
  let tcp := rr_tcp (runtime_of s) in
  let udp := rr_udp (runtime_of s) in
  (al_protocol a ≠ Udp →
     ∃ e entry, tr_entries (by_relay tcp) !! id = Some e ∧ tr_heap (by_relay tcp) !! e = Some entry ∧
       te_port entry = al_port a ∧ (id ∉ D → tcp_target entry = al_target a) ∧
       (EvAcceptError e ∉ by_past tcp →
          te_shutdown entry = false ∧ is_Some (te_accept entry) ∧
          (id ∉ D → next_client e (by_relay tcp) = Some (al_target a)))) ∧
  (al_protocol a ≠ Tcp →
     ∃ e entry, ur_entries (by_relay udp) !! id = Some e ∧ ur_heap (by_relay udp) !! e = Some entry ∧
       ue_port entry = al_port a ∧ (id ∉ D → entry_target entry = al_target a) ∧
       (UEvReceiveError e ∉ by_past udp →
          ue_shutdown entry = false ∧ is_Some (ue_receive entry) ∧ ue_cleanup entry = true ∧
          (id ∉ D → ∀ batch, is_Some (udp_task_step (UEvReceived e batch) (by_relay udp)) →
             next_batch e batch (by_relay udp) = Some (al_target a)))).
Proof.
  assert (ready id_generator (state, ∅)) as Hstart.
  { eapply attached_starts, Hrun; [|done|done]. intros c. split; [apply step_by_step_ok|].
    intros i. exact (RealRuntime_new_tracks c Metrics_default now tcp_binds udp_binds i). }
  destruct (fine_system_reachable _ _ Hstart Hreach) as [[Hinv Hs] _].
  destruct (ti_ok _ _ Hinv) as [[_ Ht] [_ Hu]]. cbn [fst snd] in Ht, Hu.
  destruct (Hs id a ob Hstored) as [Hl Hv]. rewrite <- (store_id _ id a ob (ti_wf _ _ Hinv) Hstored) in *.
  cbv zeta. split; intros Hp.
  - destruct (tcp_view_listener (by_relay (rr_tcp (runtime_of s))) (al_id a) (al_port a) (al_target a) (al_id a ∉ D))
      as (e & entry & Hid & He & Hport & Htar); [by apply Hl|intros Hn; by apply Hv|].
    exists e, entry. split_and!; [done..|]. intros Hno.
    destruct (Ht _ _ Hid) as (entry' & He' & Hsh & _ & Hacc). assert (entry' = entry) as -> by congruence.
    destruct Hacc as [?|Hacc]; [done|]. split_and!; [done|done|]. intros Hn. rewrite <- (Htar Hn).
    by apply next_client_served.
  - destruct (udp_view_listener (by_relay (rr_udp (runtime_of s))) (al_id a) (al_port a) (al_target a) (al_id a ∉ D))
      as (e & entry & Hid & He & Hport & Htar); [by apply Hl|intros Hn; by apply Hv|].
    exists e, entry. split_and!; [done..|]. intros Hno.
    destruct (Hu _ _ Hid) as (entry' & He' & Hsh & _ & _ & Hcl & Hrx). assert (entry' = entry) as -> by congruence.
    destruct Hrx as [?|Hrx]; [done|]. split_and!; [done..|]. intros Hn batch [s1 Hs1]. rewrite <- (Htar Hn).
    by eapply next_batch_served.
Qed.
End daemon.
