(* ===== verification/FineSystemWitness.v ===== *)
(** The daemon of HttpSystemWitness.v with a client that comes in the middle of a request. *)
From stdpp Require Import base gmap strings list relations.
From Stdlib Require Import ZArith Lia.
From S2P Require Import Prelude RustStd Model Config Facade Sqlite SqliteOpen Store AllocationService.
From S2P Require Import ServiceSpec ServiceInv Serving ServiceWitness Metrics Prometheus ControlPlane ControlPlaneSpec.
From S2P Require Import ControlPlaneInv HttpWitness Tcp UdpModel Udp Real Views Relays Netlink NetlinkSpec NetlinkWitness.
From S2P Require Import RelaysWitness Interrupted Attended RelaysInterrupted Daemon DaemonWitness System SystemWitness.
From S2P Require Import HttpSystem HttpSystemWitness FineSystem.
Open Scope Z_scope.

(** The restoration has two steps; before the first step of the update a client is
    accepted, and before its third the client's target is read and its session made. *)
Definition late_client : list (list TcpEvent) := [[]; []; [EvAccept 0]; []; [EvReadState 0; EvInsert 0]].

Definition busy_run : result (Running (P := BusyRelays) (B := ExBackend)) StartError * World :=
  run (step_by_step late_client []) (Err (Apply "not built in")) (λ _, true) (λ _ _, true) (λ _ _, true) 0 true
    (λ _, false) (λ m, (true, m)) (λ m, m) start_cli ∅ true start_world.

Definition busy_started : Service BusyRelays :=
  Service_new {| repo_tables := {| t_allocations := ∅; t_bindings := ∅ |}; repo_faults := [] |}
    (step_by_step [] [] (relays true)) {| pr_start := 1; pr_end := 1 |} 0.

Definition busy_app : AppState BusyRelays :=
  match busy_run.1 with
  | Ok (RunningProxy state) => state
  | _ => AppState_new busy_started Metrics_default ""
  end.

Definition busy_rebound : AppState BusyRelays := (http_over _ rebind busy_app).2.

Lemma busy_rebind_answered : rp_status (http_over _ rebind busy_app).1 = OK.
Proof. vm_compute. reflexivity. Qed.

Lemma busy_reachable :
  rtc (fine_system_step ex_clock ex_id ex_to_bytes ex_serde Some ex_matchit id_a) (busy_app, ∅) (busy_rebound, ∅).
Proof.
  pose proof (http_request_books ex_clock ex_id ex_to_bytes ex_serde Some ex_matchit id_a rebind busy_app ∅ ∅
    (rebind_no_deletion _) (rebind_confirmed _ busy_rebind_answered)) as Hreq.
  exact (rtc_once _ _ (fine_system_turn _ _ _ _ _ _ _ _ _ Hreq)).
Qed.

(** The client's session, made for the new target, was told to stop by the update. *)
Example late_client_told :
  (λ task, (ss_host task, ss_signalled task)) <$> tr_tasks (by_relay (rr_tcp (sv_runtime (as_service busy_rebound)))) !! 1%nat
  = Some ("10.0.0.9"%string, true).
Proof. vm_compute. reflexivity. Qed.

(** What has happened, the last first. *)
Lemma busy_past :
  by_past (rr_tcp (sv_runtime (as_service busy_rebound))) = [EvInsert 0; EvReadState 0; EvAccept 0].
Proof. vm_compute. reflexivity. Qed.

Lemma targets_served_throughout_witness :
  ∃ a e entry, sv_store (as_service busy_rebound) !! "a"%string ≫= (λ p, Some p.1) = Some a ∧
    (al_port a, al_target a) = (5001, Some ("10.0.0.9"%string, 80)) ∧
    tr_heap (by_relay (rr_tcp (sv_runtime (as_service busy_rebound)))) !! e = Some entry ∧
    te_port entry = 5001 ∧ tcp_target entry = Some ("10.0.0.9"%string, 80) ∧ is_Some (te_accept entry) ∧
    next_client e (by_relay (rr_tcp (sv_runtime (as_service busy_rebound)))) = Some (Some ("10.0.0.9"%string, 80)).
Proof.
  destruct busy_run as [[[state|state]|e] w'] eqn:Hrun.
  2: { exfalso. assert (match busy_run.1 with Ok (RunningNetlink _) => true | _ => false end = false) as Hf
         by (vm_compute; reflexivity). by rewrite Hrun in Hf. }
  2: { exfalso. assert (is_ok busy_run.1 = true) as Hf by (vm_compute; reflexivity). by rewrite Hrun in Hf. }
  assert (busy_app = state) as Hst by (unfold busy_app; by rewrite Hrun).
  assert (option_map (λ p, (al_protocol p.1, al_port p.1, al_target p.1))
            (sv_store (as_service busy_rebound) !! "a"%string)
    = Some (Tcp, 5001, Some ("10.0.0.9"%string, 80))) as Hs by (vm_compute; reflexivity).
  destruct (sv_store (as_service busy_rebound) !! "a"%string) as [[a ob]|] eqn:Ha; [|done].
  injection Hs as Hp Hport Ht.
  pose proof busy_reachable as Hreach. rewrite Hst in Hreach.
  destruct (targets_served_throughout ex_clock ex_id ex_to_bytes ex_serde Some ex_matchit id_a ex_id_inj id_a_rejects
    _ _ _ _ _ _ _ _ _ _ _ _ _ _ _ _ _ _ _ _ _ _
    start_tables_wf start_ids_fresh Hrun Hreach Ha) as [(e & entry & _ & He & Hpe & Hte & Hserved) _]; [by rewrite Hp|].
  pose proof (Hte (not_elem_of_empty _)) as Hte'. exists a, e, entry.
  split; [reflexivity|]. split; [by rewrite Hport, Ht|]. split; [exact He|].
  split; [by rewrite Hpe|]. split; [by rewrite Hte'|]. rewrite busy_past in Hserved.
  destruct Hserved as (_ & Hacc & Hnext); [rewrite !elem_of_cons, elem_of_nil; intros [?|[?|[?|?]]]; congruence|].
  split; [exact Hacc|]. rewrite (Hnext (not_elem_of_empty _)). by rewrite Ht.
Defined.
